(* ===== verification/_CoqProject ===== *)
-Q . S2P
Prelude.v
Mem.v
Strings.v
Sleeplock.v
Ring.v
Spinlock.v
Bio.v
BioSpec.v
BioProps.v
Cache.v
DiskLog.v
Log.v
LogSpec.v
LogTx.v
LogCrash.v
BlockLayer.v
Kalloc.v
KallocZig.v
Vm.v
VmSpec.v
CopySpec.v
VmProps.v
Fs.v
FsSpec.v
FileSpec.v
Dinode.v
FileIO.v
FsProps.v
Mkfs.v
MkfsProps.v
MkfsZig.v
Pipe.v
Kernel.v
KernelSpec.v
File.v
Ringbuf.v
Proc.v
Args.v
Sysfile.v
ProcProps.v
FileProps.v
Exec.v
Keeps.v
ExecProps.v
RingbufProps.v
URingbuf.v
URingbufProps.v
Syscall.v
Trap.v
Asm.v
AsmProps.v
Boot.v
TrapProps.v
Queue.v
IQueue.v
Uart.v
Console.v
ConsoleProps.v
Virtio.v
VirtioProps.v
Grep.v
UPrintf.v
ULog.v
KLog.v
Umalloc.v
UmallocProps.v
UProg.v
GrepMain.v
Utils.v
Bench.v
Sh.v
ShProps.v
ShRun.v
