(* ===== verification/Prelude.v ===== *)
(** * Verification of the xv6 kernel of this repository

    The program is a Unix-like kernel for RISC-V in C, with parts in Zig, and
    its user programs and the tools that make its disk image.  This library translates its code into executable
    definitions and proves what makes the parts correct.  File names below
    are those of this directory; source files are under src/src/, those that
    start with build/ under src/.

    ** How the code is translated

    Stateful code is written in the outcome monad of this file: a function
    takes the state of its component and returns [Ok] with a result and a new
    state, [Panic] with the message, [Sleep] when the process gives up the
    CPU, or [Fuel].  Loops with a bound use [for_loop]; other loops take fuel,
    and each is given enough: the number of bytes, pages or entries a round
    consumes one of.  The theorems state that the code returns, so they
    include that the fuel suffices.  Integers are [Z] with the wrap-around of
    their C type written out ([u8] to [u64], [i16], [i32]).  Memory is a map
    from addresses to bytes (Mem).  Where a call sleeps and is resumed, the
    resumed part is a definition of its own ([sleep_resume], [wait_resume],
    the [_from] versions of pipe and console calls), so that the runs of
    several processes can follow each other in any order.  User programs are
    trees of system calls (UProg): the answers of the kernel are free, and a
    theorem speaks of every run, that is of every sequence of answers.
    Assembly is a list of instructions that a small machine executes (Asm).

    ** The parts, from the bottom up

    - Strings: kernel/string.c, the string functions of user/ulib/ulib.c, and
      [custom_memcpy] of kernel/vm.c, as three Modules.  [memmove] is the
      simultaneous copy for every overlap; [strncpy] and [strncmp] agree on
      names.
    - Sleeplock: kernel/sleeplock.c, and spinlocks as one CPU sees them.
    - Spinlock: kernel/spinlock.c with any number of CPUs, in steps that
      interleave: mutual exclusion by induction over the steps, when the
      functions panic, and the nesting of [push_off] and [pop_off].
    - Ring, Bio, BioSpec, BioProps, Cache: kernel/bio.c.  The invariant of the
      buffer cache (one buffer per block, the two linked lists, reference
      counts) is kept by every operation; [bread] gives the content of the
      block, [brelse] keeps the order of use.
    - Virtio, VirtioProps: kernel/virtio_disk.c.  The device is a step relation
      that fetches chains and serves them in any order.  Driver and device
      together refine a disk without rings on which each request is served
      once; no driver call panics and no descriptor is lost.  This is why Bio
      takes the transfer of a block as one step.
    - DiskLog, Log, LogSpec, LogTx, LogCrash: kernel/log.c.  A crash at any
      write of a commit, and in any number of recoveries, leaves all or
      nothing of the transaction.
    - BlockLayer: the interface the file system uses of the log and the cache,
      as a type class with its laws, and the instance that Log gives.
    - Kalloc, KallocZig: kernel/kalloc.c, and kernel/kalloc.zig, which the build
      links, shown to do the same; and the allocator interface of the latter.
    - Vm, VmSpec, CopySpec, VmProps: kernel/vm.c.  The tree of page-table pages,
      [mappages], and the copies between kernel and user memory against the
      address translation [utrans].
    - Fs, FsSpec, FileSpec, Dinode, FileIO, FsProps: kernel/fs.c over
      BlockLayer.  Files as byte sequences: [readi], [writei] and their round
      trip, the bitmap, inodes on disk and in memory, names.
    - Mkfs, MkfsProps, MkfsZig: build/mkfs.c and build/MakeFilesystemStep.zig.
      The image has the superblock, the root directory and the given files; no
      block has two uses, and the bitmap marks the blocks given out.  The
      kernel of Fs reads the files back from it, and both programs write the
      same image.
    - Pipe: kernel/pipe.c as a bounded first-in first-out channel under any
      interleaving of readers and writers.
    - Kernel, KernelSpec: the state shared by the rest (struct proc, struct
      file, the CPU), and [sleep], [wakeup], [sched], [yield] of kernel/proc.c.
    - File, FileProps: kernel/file.c and [pipealloc].
    - Ringbuf, RingbufProps: kernel/ringbuf.zig, the double mapping of a ring.
    - URingbuf, URingbufProps: user/ulib/uringbuf.zig.  Reader and writer in
      any interleaving of their steps see a bounded first-in first-out
      channel, and what is written through one mapping is read through the
      other.
    - Proc, ProcProps: kernel/proc.c: no lost wakeups, [exit], [wait], [kill],
      and that a runnable process runs in the next round of the scheduler.
    - Args, Sysfile, Syscall: kernel/syscall.c, kernel/sysfile.c,
      kernel/sysproc.c.
    - Exec, Keeps, ExecProps: kernel/exec.c and [sys_exec]; Keeps has the rules
      that carry a part of the state unchanged through a program.
    - Trap, TrapProps: kernel/trap.c, and the way from user code to the kernel
      and back through both the C and the assembly part.
    - Asm, AsmProps: kernel/swtch.S, kernel/trampoline.S, kernel/kernelvec.S and
      kernel/entry.S, instruction by instruction.  [swtch] resumes the saved
      context, [kernelvec] is transparent for the code it interrupts, and
      [timervec] asks for the next interrupt.
    - Boot: kernel/start.c, kernel/start.zig and kernel/plic.c over the control
      and device registers: the machine returns to [main] in supervisor mode,
      each timer interrupt after that is served and asks for the next one, and
      the interrupts of the devices reach the hart.
    - IQueue: kernel/queue.zig, a queue linked through its elements, which
      refines a list.
    - Queue, Uart, Console, ConsoleProps: kernel/uart.c and kernel/console.c.
      Queue has the ring buffers with free-running indices that these and the
      disk driver use; the console refines a line editor, and reads deliver
      its lines.
    - Grep, GrepMain: user/grep.c against the meaning of patterns and of lines,
      and the whole program over the system calls.
    - UPrintf, ULog: the two printf functions of user programs, of
      user/ulib/printf.c and user/ulib/ulog.zig.
    - KLog: kernel/klog.zig and common/color.zig, what the kernel prints and what
      [panic] does before it stops.
    - Umalloc, UmallocProps: user/ulib/umalloc.c.  After every sequence of calls
      the blocks in use are disjoint, [free] and [malloc] return, and what
      [malloc] returns is big enough and not in use.
    - UProg, Utils: the small user programs (cat, echo, init, kill, ln, ls,
      mkdir, rm, wc, zombie) over the system calls.
    - Bench: user/pb.c, user/forktest.c and user/stressfs.c.
    - Sh, ShProps, ShRun: user/sh.c.  The parser accepts the lines of a grammar
      and no others, and returns the command the grammar gives; the evaluator
      starts each program of a line with the descriptors its redirections and
      pipes ask for and no others.

    ** Interfaces

    [Wakeup] (Sleeplock) is what a component needs to wake sleepers; the block
    layer class is what the file system needs of the log; [KLock] (ProcProps)
    is a lock inside the kernel state; [RingDims] (Queue) the sizes of a ring;
    [Private] (Keeps) a part of the state that other components cannot touch.

    ** What the theorems leave out

    - Memory is sequentially consistent, and a CPU's interrupts happen only
      where the code of a component can be interrupted by the model's steps;
      only Spinlock, Virtio and Pipe have steps of several threads.
    - The theorems on user memory assume an address space without two
      addresses for the same byte, which a process with an open ring buffer
      does not have; RingbufProps treats that mapping itself.
    - [wait] and [exit] are stated up to what [freeproc] and the closing of
      files do.
    - Device registers answer arbitrarily (Uart) or as the virtio
      specification says (VirtioProps).

    ** Not modelled

    The outcome [Sleep] stands for a context switch in the C parts; [swtch]
    itself is in Asm.  main.zig calls the init functions one after the other,
    which are modelled with their components.  printf.c, ramdisk.c and
    uart.zig are not part of the build (nor are kalloc.c and start.c, with
    which their Zig versions are compared).  [procdump] only prints.  initcode.S
    is two system calls, exec and exit.  user.zig, user_high.zig, mixin.zig
    and the Zig files of common/ but ringbuf.zig and color.zig bind C
    functions and constants.  Of the user programs, the test programs
    usertests.c, grind.c, rbz_failtest.zig and the files rb_ of user/ are long
    lists of single cases, and rb.c, rbz.zig and pbz.zig time what URingbuf and
    Bench model.
    build.zig and the other steps of build/ run the compiler, generate the
    stubs of system calls and start the emulator. *)

(** ** This file

    Machine-width integers, the outcome monad, bounded loops, and the
    automation used by every component. *)

From stdpp Require Export base gmap list strings.
From Stdlib Require Export ZArith Lia.

#[global] Set Default Goal Selector "!".
#[global] Open Scope Z_scope.

(** ** Machine integers

    A C unsigned integer of [w] bits is a [Z] reduced modulo [2^w]; a signed
    one is the representative in [[-2^(w-1), 2^(w-1))]. *)

Definition wrap (w x : Z) : Z := x mod 2 ^ w.
Definition swrap (w x : Z) : Z := (x + 2 ^ (w - 1)) mod 2 ^ w - 2 ^ (w - 1).

Definition u8 (x : Z) : Z := wrap 8 x.
Definition u16 (x : Z) : Z := wrap 16 x.
Definition u32 (x : Z) : Z := wrap 32 x.
Definition u64 (x : Z) : Z := wrap 64 x.
Definition i16 (x : Z) : Z := swrap 16 x.
Definition i32 (x : Z) : Z := swrap 32 x.

Lemma wrap_range w x : 0 <= w -> 0 <= wrap w x < 2 ^ w.
Proof. intros. unfold wrap. apply Z.mod_pos_bound, Z.pow_pos_nonneg; lia. Qed.

Lemma wrap_small w x : 0 <= x < 2 ^ w -> wrap w x = x.
Proof. intros. unfold wrap. by apply Z.mod_small. Qed.

Lemma wrap_wrap w x : 0 <= w -> wrap w (wrap w x) = wrap w x.
Proof. intros. by apply wrap_small, wrap_range. Qed.

Lemma u8_range x : 0 <= u8 x < 256.
Proof. apply (wrap_range 8); lia. Qed.
Lemma u16_range x : 0 <= u16 x < 65536.
Proof. apply (wrap_range 16); lia. Qed.
Lemma u32_range x : 0 <= u32 x < 4294967296.
Proof. apply (wrap_range 32); lia. Qed.
Lemma u64_range x : 0 <= u64 x < 18446744073709551616.
Proof. apply (wrap_range 64); lia. Qed.

Lemma u8_small x : 0 <= x < 256 -> u8 x = x.
Proof. apply (wrap_small 8). Qed.
Lemma u16_small x : 0 <= x < 65536 -> u16 x = x.
Proof. apply (wrap_small 16). Qed.
Lemma u32_small x : 0 <= x < 4294967296 -> u32 x = x.
Proof. apply (wrap_small 32). Qed.
Lemma u64_small x : 0 <= x < 18446744073709551616 -> u64 x = x.
Proof. apply (wrap_small 64). Qed.

Lemma swrap_small w x : 0 < w -> - 2 ^ (w - 1) <= x < 2 ^ (w - 1) -> swrap w x = x.
Proof.
  intros Hw Hx. unfold swrap.
  assert (2 ^ w = 2 * 2 ^ (w - 1)) by (rewrite <- Z.pow_succ_r by lia; f_equal; lia).
  rewrite Z.mod_small; lia.
Qed.

Lemma i32_small x : - 2147483648 <= x < 2147483648 -> i32 x = x.
Proof. apply (swrap_small 32). lia. Qed.
Lemma i16_small x : - 32768 <= x < 32768 -> i16 x = x.
Proof. apply (swrap_small 16). lia. Qed.

(** Conversions between the signed and the unsigned reading of a word. *)
Lemma swrap_wrap w x : swrap w (wrap w x) = swrap w x.
Proof. unfold swrap, wrap. by rewrite Zplus_mod_idemp_l. Qed.

Lemma wrap_swrap w x : wrap w (swrap w x) = wrap w x.
Proof.
  unfold swrap, wrap. rewrite Zminus_mod_idemp_l. f_equal. lia.
Qed.

Lemma i32_u32 x : i32 (u32 x) = i32 x.
Proof. apply swrap_wrap. Qed.
Lemma u32_i32 x : u32 (i32 x) = u32 x.
Proof. apply wrap_swrap. Qed.

Lemma i32_range x : - 2147483648 <= i32 x < 2147483648.
Proof.
  unfold i32, swrap. change (2 ^ (32 - 1)) with 2147483648. change (2 ^ 32) with 4294967296.
  pose proof (Z.mod_pos_bound (x + 2147483648) 4294967296). lia.
Qed.

(** Testing one bit with a mask. *)
Lemma land_pow2_testbit x n : 0 <= n -> negb (Z.land x (2 ^ n) =? 0) = Z.testbit x n.
Proof.
  intros Hn. destruct (Z.testbit x n) eqn:E.
  - apply negb_true_iff, Z.eqb_neq. intros H0.
    assert (Z.testbit (Z.land x (2 ^ n)) n = true) as H by (rewrite Z.land_spec, E, Z.pow2_bits_true; done).
    rewrite H0 in H. by rewrite Z.bits_0 in H.
  - apply negb_false_iff, Z.eqb_eq. apply Z.bits_inj'. intros k Hk.
    rewrite Z.land_spec, Z.bits_0. destruct (Z.eq_dec k n) as [->|Hne]; [by rewrite E|].
    rewrite Z.pow2_bits_false by done. apply andb_false_r.
Qed.

Create HintDb ints.
#[export] Hint Resolve u8_range u16_range u32_range u64_range i32_range : ints.
Create Rewrite HintDb zints.
#[export] Hint Rewrite u8_small u16_small u32_small u64_small i32_small i16_small
  using lia : zints.

(** ** Wait channels

    [sleep] and [wakeup] name a wait channel by an address.  Only equality of
    channels matters, so a channel is the kernel object it is the address of. *)

Record chan := Chan { chan_obj : string; chan_idx : Z }.

#[export] Instance chan_eq_dec : EqDecision chan.
Proof. solve_decision. Defined.

(** ** Outcomes of kernel code

    A run of kernel code on one thread returns ([Ok]), stops the machine
    ([Panic], C's [panic(msg)]), or gives up the CPU in [sleep] with its
    spinlock released ([Sleep]): the thread continues only after a [wakeup]
    on that channel.  [Fuel] is the outcome of a loop whose iteration bound
    in the model was too small; theorems that claim a result exclude it. *)

Inductive outcome (S A : Type) : Type :=
  | Ok (a : A) (s : S)
  | Panic (msg : string)
  | Sleep (ch : chan) (s : S)
  | Fuel.
Arguments Ok {S A} a s.
Arguments Panic {S A} msg.
Arguments Sleep {S A} ch s.
Arguments Fuel {S A}.

Definition M (S A : Type) : Type := S -> outcome S A.

#[export] Instance M_ret S : MRet (M S) := fun A a s => Ok a s.
#[export] Instance M_bind S : MBind (M S) := fun A B f m s =>
  match m s with
  | Ok a s' => f a s'
  | Panic msg => Panic msg
  | Sleep ch s' => Sleep ch s'
  | Fuel => Fuel
  end.

Definition panic {S A} (msg : string) : M S A := fun _ => Panic msg.
Definition gets {S A} (f : S -> A) : M S A := fun s => Ok (f s) s.
Definition modify {S} (f : S -> S) : M S unit := fun s => Ok tt (f s).
Definition out_of_fuel {S A} : M S A := fun _ => Fuel.

(** Run [m] on the part of the state that [get] and [set] select. *)
Definition zoom {S T A} (get : S -> T) (set : T -> S -> S) (m : M T A) : M S A := fun s =>
  match m (get s) with
  | Ok a t => Ok a (set t s)
  | Panic msg => Panic msg
  | Sleep ch t => Sleep ch (set t s)
  | Fuel => Fuel
  end.

(** [when c m] is C's [if (c) m;]. *)
Definition when {S} (c : bool) (m : M S unit) : M S unit :=
  if c then m else mret tt.

Section monad_laws.
Context {S : Type}.

Lemma bind_ok {A B} (m : M S A) (k : A -> M S B) s a s' :
  m s = Ok a s' -> (m ≫= k) s = k a s'.
Proof. unfold mbind, M_bind. by intros ->. Qed.

Lemma bind_panic {A B} (m : M S A) (k : A -> M S B) s msg :
  m s = Panic msg -> (m ≫= k) s = Panic msg.
Proof. unfold mbind, M_bind. by intros ->. Qed.

Lemma bind_Ok_inv {A B} (m : M S A) (k : A -> M S B) s b s'' :
  (m ≫= k) s = Ok b s'' -> exists a s', m s = Ok a s' /\ k a s' = Ok b s''.
Proof. unfold mbind, M_bind. destruct (m s); naive_solver. Qed.

Lemma ret_ok {A} (a : A) (s : S) : mret (M := M S) a s = Ok a s.
Proof. done. Qed.

Lemma ret_bind {A B} (x : A) (k : A -> M S B) s : (mret x ≫= k) s = k x s.
Proof. done. Qed.

Lemma bind_bind {A B C} (m : M S A) (f : A -> M S B) (k : B -> M S C) s :
  ((m ≫= f) ≫= k) s = (m ≫= (fun a => f a ≫= k)) s.
Proof. unfold mbind, M_bind. by destruct (m s). Qed.

Lemma gets_bind {A B} (f : S -> A) (k : A -> M S B) s :
  (gets f ≫= k) s = k (f s) s.
Proof. done. Qed.

Lemma modify_bind {B} (f : S -> S) (k : unit -> M S B) s :
  (modify f ≫= k) s = k tt (f s).
Proof. done. Qed.
End monad_laws.

(** ** Counted loops

    [for_loop n i body] runs [body i], [body (i+1)], ... at most [n] times:
    C's [for(x = i; x < i + n; x++)].  [body] returns [Some r] when the loop
    is left early (a [break] or a [return]) and [None] to go on. *)

Fixpoint for_loop {S R} (n : nat) (i : Z) (body : Z -> M S (option R)) : M S (option R) :=
  match n with
  | O => mret None
  | Datatypes.S n' =>
      r ← body i;
      match r with
      | Some v => mret (Some v)
      | None => for_loop n' (i + 1) body
      end
  end.

(** The rule for a loop whose body never leaves early: an invariant indexed
    by the loop variable. *)
Lemma for_loop_inv {S R} (I : Z -> S -> Prop) (body : Z -> M S (option R)) n i s :
  I i s ->
  (forall j s, i <= j < i + Z.of_nat n -> I j s ->
     exists s', body j s = Ok None s' /\ I (j + 1) s') ->
  exists s', for_loop n i body s = Ok None s' /\ I (i + Z.of_nat n) s'.
Proof.
  revert i s. induction n as [|n IH]; intros i s HI Hbody; cbn [for_loop].
  - exists s. split; [done|]. by rewrite Z.add_0_r.
  - destruct (Hbody i s) as (s1 & H1 & HI1); [lia|done|].
    rewrite (bind_ok _ _ _ _ _ H1). simpl.
    destruct (IH (i + 1) s1 HI1) as (s2 & H2 & HI2).
    { intros j s' Hj. apply Hbody. lia. }
    exists s2. split; [done|].
    by replace (i + Z.of_nat (Datatypes.S n)) with (i + 1 + Z.of_nat n) by lia.
Qed.

(** Running the first [m] rounds. *)
Lemma for_loop_prefix {S R} (I : Z -> S -> Prop) (body : Z -> M S (option R)) n m i s :
  (m <= n)%nat -> I i s ->
  (forall j s, i <= j < i + Z.of_nat m -> I j s ->
     exists s', body j s = Ok None s' /\ I (j + 1) s') ->
  exists s', for_loop n i body s = for_loop (n - m) (i + Z.of_nat m) body s' /\ I (i + Z.of_nat m) s'.
Proof.
  revert n i s. induction m as [|m IH]; intros n i s Hm HI Hbody.
  - exists s. by rewrite Nat.sub_0_r, Z.add_0_r.
  - destruct n as [|n]; [lia|]. destruct (Hbody i s) as (s1 & H1 & HI1); [lia|done|].
    destruct (IH n (i + 1) s1) as (s2 & H2 & HI2); [lia|done|intros; apply Hbody; [lia|done]|].
    exists s2. cbn [for_loop]. rewrite (bind_ok _ _ _ _ _ H1), H2.
    replace (i + Z.of_nat (Datatypes.S m)) with (i + 1 + Z.of_nat m) by lia. done.
Qed.

(** The rule for a search: the body goes on while [P] fails and leaves the
    loop at the first index where it holds. *)
Lemma for_loop_find {S R} (P : Z -> bool) (I : S -> Prop) (body : Z -> M S (option R)) n i s :
  I s ->
  (forall j s, i <= j < i + Z.of_nat n -> I s -> P j = false -> exists s', body j s = Ok None s' /\ I s') ->
  (exists s', for_loop n i body s = Ok None s' /\ I s' /\
     forall j, i <= j < i + Z.of_nat n -> P j = false) \/
  (exists j s1, i <= j < i + Z.of_nat n /\ I s1 /\ P j = true /\ (forall k, i <= k < j -> P k = false) /\
     forall r s2, body j s1 = Ok (Some r) s2 -> for_loop n i body s = Ok (Some r) s2).
Proof.
  revert i s. induction n as [|n IH]; intros i s HI Hbody; cbn [for_loop].
  { left. exists s. split; [done|]. split; [done|]. lia. }
  destruct (P i) eqn:EP.
  - right. exists i, s. split; [lia|]. split; [done|]. split; [done|]. split; [lia|].
    intros r s2 Hr. by rewrite (bind_ok _ _ _ _ _ Hr).
  - destruct (Hbody i s) as (s1 & H1 & HI1); [lia|done|done|].
    rewrite (bind_ok _ _ _ _ _ H1). simpl.
    destruct (IH (i + 1) s1 HI1) as [(s' & Hs' & HI' & Hall)|(j & s2 & Hj & HI2 & HPj & Hall & Hr)].
    + intros j s' Hj. apply Hbody. lia.
    + left. exists s'. split; [done|]. split; [done|]. intros j Hj.
      destruct (Z.eq_dec j i) as [->|]; [done|]. apply Hall. lia.
    + right. exists j, s2. split; [lia|]. split; [done|]. split; [done|]. split; [|done].
      intros k Hk. destruct (Z.eq_dec k i) as [->|]; [done|]. apply Hall. lia.
Qed.

(** ** Automation *)

(** Apply the invariant rule to the [for_loop] the goal runs next. *)
Tactic Notation "loop_inv" constr(I) "as" ident(s') ident(Hrun) ident(Hinv) :=
  match goal with
  | |- context [@mbind _ _ _ _ _ (for_loop ?n ?i ?b) ?s] =>
      destruct (for_loop_inv I b n i s) as (s' & Hrun & Hinv)
  end.

(** Case analysis on the integer comparisons of the goal. *)
Ltac zcase1 :=
  match goal with
  | |- context [ (?a <? ?b)%Z ] => destruct (Z.ltb_spec a b)
  | |- context [ (?a <=? ?b)%Z ] => destruct (Z.leb_spec a b)
  | |- context [ (?a =? ?b)%Z ] => destruct (Z.eqb_spec a b)
  | |- context [ (?a >? ?b)%Z ] => rewrite (Z.gtb_ltb a b)
  | |- context [ (?a >=? ?b)%Z ] => rewrite (Z.geb_leb a b)
  end.
Ltac zcases := repeat (zcase1; simpl; try lia).

(** Turn boolean comparisons in the context into propositions. *)
Ltac zprop :=
  repeat match goal with
  | H : (_ && _)%bool = true |- _ => apply andb_true_iff in H; destruct H
  | H : (_ || _)%bool = false |- _ => apply orb_false_iff in H; destruct H
  | H : negb _ = true |- _ => apply negb_true_iff in H
  | H : negb _ = false |- _ => apply negb_false_iff in H
  | H : (_ <? _)%Z = true |- _ => apply Z.ltb_lt in H
  | H : (_ <? _)%Z = false |- _ => apply Z.ltb_ge in H
  | H : (_ <=? _)%Z = true |- _ => apply Z.leb_le in H
  | H : (_ <=? _)%Z = false |- _ => apply Z.leb_gt in H
  | H : (_ =? _)%Z = true |- _ => apply Z.eqb_eq in H
  | H : (_ =? _)%Z = false |- _ => apply Z.eqb_neq in H
  end.

(** Run one monadic step whose outcome is the hypothesis [H]. *)
Ltac mstep H := rewrite (bind_ok _ _ _ _ _ H); cbv beta iota.
