(* ===== verification/Mem.v ===== *)
(** Byte-addressed memory.

    One representation serves physical memory, a disk block and the contents
    of a C object: a finite map from addresses to bytes in which an absent
    byte reads as zero.  Multi-byte objects are little-endian (RISC-V). *)

From S2P Require Import Prelude.

Abbreviation mem := (gmap Z Z).

(** [rd m a] is [*(uchar* )a], [wr m a v] is [*(uchar* )a = v]. *)
Definition rd (m : mem) (a : Z) : Z := u8 (default 0 (m !! a)).
Definition wr (m : mem) (a v : Z) : mem := <[a := u8 v]> m.

(** Little-endian load and store of [n] bytes. *)
Fixpoint ldn (n : nat) (m : mem) (a : Z) : Z :=
  match n with
  | O => 0
  | S n' => rd m a + 256 * ldn n' m (a + 1)
  end.

Fixpoint stn (n : nat) (m : mem) (a v : Z) : mem :=
  match n with
  | O => m
  | S n' => stn n' (wr m a v) (a + 1) (v / 256)
  end.

Definition ld16 := ldn 2.
Definition ld32 := ldn 4.
Definition ld64 := ldn 8.
Definition st16 := stn 2.
Definition st32 := stn 4.
Definition st64 := stn 8.

(** Copy [n] bytes of [ms] from [src] on into [md] from [dst] on, between two
    distinct objects; and fill [n] bytes with [c]. *)
Fixpoint mcopy (n : nat) (md : mem) (dst : Z) (ms : mem) (src : Z) : mem :=
  match n with
  | O => md
  | S n' => mcopy n' (wr md dst (rd ms src)) (dst + 1) ms (src + 1)
  end.

Fixpoint mfill (n : nat) (m : mem) (dst c : Z) : mem :=
  match n with
  | O => m
  | S n' => mfill n' (wr m dst c) (dst + 1) c
  end.

(** [inr a lo n]: address [a] lies in the [n] bytes that start at [lo]. *)
Definition inr (a lo n : Z) : bool := (lo <=? a) && (a <? lo + n).

Lemma inr_spec a lo n : reflect (lo <= a < lo + n) (inr a lo n).
Proof. apply iff_reflect. unfold inr. lia. Qed.

Lemma inr_true a lo n : lo <= a < lo + n -> inr a lo n = true.
Proof. by destruct (inr_spec a lo n). Qed.

Lemma inr_false a lo n : a < lo \/ lo + n <= a -> inr a lo n = false.
Proof. destruct (inr_spec a lo n); [lia|done]. Qed.

Ltac inr_cases :=
  repeat match goal with |- context [ inr ?a ?lo ?n ] => destruct (inr_spec a lo n) end.

(** ** Reading back *)

Lemma rd_range m a : 0 <= rd m a < 256.
Proof. apply u8_range. Qed.

Lemma rd_empty a : rd ∅ a = 0.
Proof. done. Qed.

Lemma u8_u8 x : u8 (u8 x) = u8 x.
Proof. by apply (wrap_wrap 8). Qed.

Lemma u8_rd m a : u8 (rd m a) = rd m a.
Proof. apply u8_u8. Qed.

Lemma rd_wr m a v b : rd (wr m a v) b = if a =? b then u8 v else rd m b.
Proof.
  unfold rd, wr. destruct (Z.eqb_spec a b) as [->|].
  - rewrite lookup_insert_eq. simpl. apply u8_u8.
  - by rewrite lookup_insert_ne.
Qed.

Lemma rd_wr_eq m a v : rd (wr m a v) a = u8 v.
Proof. rewrite rd_wr. by rewrite Z.eqb_refl. Qed.

Lemma rd_wr_ne m a v b : a <> b -> rd (wr m a v) b = rd m b.
Proof. intros. rewrite rd_wr. by destruct (Z.eqb_spec a b). Qed.

Lemma rd_mcopy n md dst ms src a :
  rd (mcopy n md dst ms src) a =
    if inr a dst (Z.of_nat n) then rd ms (src + (a - dst)) else rd md a.
Proof.
  revert md dst src. induction n as [|n IH]; intros; cbn [mcopy].
  - rewrite inr_false by lia. done.
  - rewrite IH, rd_wr, u8_rd.
    inr_cases; zcases; try (f_equal; lia); done.
Qed.

Lemma rd_mfill n m dst c a :
  rd (mfill n m dst c) a = if inr a dst (Z.of_nat n) then u8 c else rd m a.
Proof.
  revert m dst. induction n as [|n IH]; intros; cbn [mfill].
  - rewrite inr_false by lia. done.
  - rewrite IH, rd_wr. inr_cases; zcases; done || lia.
Qed.

Lemma ldn_range n m a : 0 <= ldn n m a < 256 ^ Z.of_nat n.
Proof.
  revert a. induction n as [|n IH]; intros; cbn [ldn]; [simpl; lia|].
  rewrite Nat2Z.inj_succ, Z.pow_succ_r by lia.
  pose proof (rd_range m a). pose proof (IH (a + 1)). lia.
Qed.

Lemma ldn_ext n m m' a b :
  (forall i, 0 <= i < Z.of_nat n -> rd m (a + i) = rd m' (b + i)) ->
  ldn n m a = ldn n m' b.
Proof.
  revert a b. induction n as [|n IH]; intros a b H; cbn [ldn]; [done|].
  rewrite <- (Z.add_0_r a) at 1. rewrite <- (Z.add_0_r b) at 1.
  rewrite H by lia. f_equal. f_equal. apply IH. intros i Hi.
  replace (a + 1 + i) with (a + (i + 1)) by lia.
  replace (b + 1 + i) with (b + (i + 1)) by lia. apply H. lia.
Qed.

Lemma rd_stn_other n m a v b :
  b < a \/ a + Z.of_nat n <= b -> rd (stn n m a v) b = rd m b.
Proof.
  revert m a v. induction n as [|n IH]; intros m a v H; cbn [stn]; [done|].
  rewrite IH by lia. apply rd_wr_ne. lia.
Qed.

Lemma ldn_stn n m a v : ldn n (stn n m a v) a = v mod 256 ^ Z.of_nat n.
Proof.
  revert m a v. induction n as [|n IH]; intros; cbn [ldn stn].
  - by rewrite Z.mod_1_r.
  - rewrite IH, rd_stn_other, rd_wr_eq by lia.
    rewrite Nat2Z.inj_succ, Z.pow_succ_r by lia.
    rewrite Z.rem_mul_r by (try apply Z.pow_nonzero; lia). done.
Qed.

Lemma ldn_stn_other n k m a v b :
  b + Z.of_nat n <= a \/ a + Z.of_nat k <= b ->
  ldn n (stn k m a v) b = ldn n m b.
Proof. intros. apply ldn_ext. intros. apply rd_stn_other. lia. Qed.

Lemma ldn_empty n a : ldn n ∅ a = 0.
Proof. revert a. induction n as [|n IH]; intros; cbn [ldn]; [done|]. by rewrite IH. Qed.

Lemma ldn_zero n m a :
  (forall i, a <= i < a + Z.of_nat n -> rd m i = 0) -> ldn n m a = 0.
Proof.
  intros H. rewrite <- (ldn_empty n a). apply ldn_ext.
  intros. rewrite rd_empty. apply H. lia.
Qed.

Lemma ld64_st64 m a v : ld64 (st64 m a v) a = u64 v.
Proof. unfold ld64, st64. by rewrite ldn_stn. Qed.
Lemma ld32_st32 m a v : ld32 (st32 m a v) a = u32 v.
Proof. unfold ld32, st32. by rewrite ldn_stn. Qed.
Lemma ld16_st16 m a v : ld16 (st16 m a v) a = u16 v.
Proof. unfold ld16, st16. by rewrite ldn_stn. Qed.

Lemma ld64_range m a : 0 <= ld64 m a < 18446744073709551616.
Proof. apply (ldn_range 8). Qed.
Lemma ld32_range m a : 0 <= ld32 m a < 4294967296.
Proof. apply (ldn_range 4). Qed.
Lemma ld16_range m a : 0 <= ld16 m a < 65536.
Proof. apply (ldn_range 2). Qed.

Lemma ld64_st64_other m a v b :
  b + 8 <= a \/ a + 8 <= b -> ld64 (st64 m a v) b = ld64 m b.
Proof. intros. apply ldn_stn_other. lia. Qed.

#[export] Hint Resolve rd_range ld64_range ld32_range ld16_range : ints.

(** ** Extensional equality of memories

    Two memories with the same bytes are interchangeable although the maps
    may differ (a byte written with zero is present, an untouched one is
    absent). *)

Definition mem_equiv (m m' : mem) : Prop := forall a, rd m a = rd m' a.
Infix "≈m" := mem_equiv (at level 70).

#[export] Instance mem_equiv_equivalence : Equivalence mem_equiv.
Proof. split; red; unfold mem_equiv; [done|done|]. intros x y z H1 H2 a. by rewrite H1. Qed.

#[export] Instance rd_proper : Proper (mem_equiv ==> eq ==> eq) rd.
Proof. intros m m' Hm a ? <-. apply Hm. Qed.

#[export] Instance wr_proper : Proper (mem_equiv ==> eq ==> eq ==> mem_equiv) wr.
Proof. intros m m' Hm a ? <- v ? <- b. rewrite !rd_wr. by rewrite (Hm b). Qed.

#[export] Instance ldn_proper n : Proper (mem_equiv ==> eq ==> eq) (ldn n).
Proof. intros m m' Hm a ? <-. apply ldn_ext. intros. apply Hm. Qed.

#[export] Instance mcopy_proper n :
  Proper (mem_equiv ==> eq ==> mem_equiv ==> eq ==> mem_equiv) (mcopy n).
Proof.
  intros m m' Hm d ? <- ms ms' Hms s ? <- a. rewrite !rd_mcopy.
  by rewrite (Hm a), (Hms (s + (a - d))).
Qed.
