(* ===== verification/Strings.v ===== *)
(** Byte and string routines: src/src/kernel/string.c (module [KString]), the
    user library src/src/user/ulib/ulib.c (module [ULib]) and the page-copy
    routine [custom_memcpy] of src/src/kernel/vm.c.

    A pointer is an address into a [mem].  [memmove], [custom_memcpy] and
    [memset] work inside one memory, because overlap matters there; the string
    routines take source and destination objects separately.  The routines
    that return their first argument return only the memory here.  Loops that
    run until a NUL take an iteration bound and return [None] when it is
    exceeded.  Plain [char] is unsigned on RISC-V. *)

From S2P Require Import Prelude Mem.

(** ** Forward and backward copies

    [copied m m' d s k]: [m'] is [m] with the [k] bytes at [s] copied to [d]. *)
Definition copied (m m' : mem) (d s k : Z) : Prop :=
  forall a, rd m' a = if inr a d k then rd m (s + (a - d)) else rd m a.

(** A forward copy is safe when the destination starts at or below the source
    or the ranges are disjoint. *)
Definition fwd_safe (d s k : Z) : Prop := d <= s \/ s + k <= d.

(** [strn m p n]: the bytes of the string at [p], up to a NUL or [n] bytes. *)
Fixpoint strn (n : nat) (m : mem) (p : Z) : list Z :=
  match n with
  | O => []
  | S n' => if rd m p =? 0 then [] else rd m p :: strn n' m (p + 1)
  end.

(** [cstring m p k]: a NUL-terminated string of length [k] starts at [p]. *)
Definition cstring (m : mem) (p k : Z) : Prop :=
  0 <= k /\ rd m (p + k) = 0 /\ forall i, 0 <= i < k -> rd m (p + i) <> 0.

Module KString.

Fixpoint memset_loop (n : nat) (m : mem) (cdst i c : Z) : mem :=
  match n with
  | O => m
  | S n' => memset_loop n' (wr m (cdst + i) c) cdst (i + 1) c
  end.

Definition memset (m : mem) (dst c n : Z) : mem :=
  memset_loop (Z.to_nat n) m dst 0 c.

Fixpoint memcmp_loop (n : nat) (m1 : mem) (s1 : Z) (m2 : mem) (s2 : Z) : Z :=
  match n with
  | O => 0
  | S n' =>
      if negb (rd m1 s1 =? rd m2 s2) then rd m1 s1 - rd m2 s2
      else memcmp_loop n' m1 (s1 + 1) m2 (s2 + 1)
  end.

Definition memcmp (m1 : mem) (v1 : Z) (m2 : mem) (v2 : Z) (n : Z) : Z :=
  memcmp_loop (Z.to_nat n) m1 v1 m2 v2.

(** [while(n-- > 0) *d++ = *s++;] *)
Fixpoint copy_fwd (n : nat) (m : mem) (d s : Z) : mem :=
  match n with
  | O => m
  | S n' => copy_fwd n' (wr m d (rd m s)) (d + 1) (s + 1)
  end.

(** [while(n-- > 0) *--d = *--s;] *)
Fixpoint copy_bwd (n : nat) (m : mem) (d s : Z) : mem :=
  match n with
  | O => m
  | S n' => let d := d - 1 in let s := s - 1 in
            copy_bwd n' (wr m d (rd m s)) d s
  end.

Definition memmove (m : mem) (dst src n : Z) : mem :=
  if n =? 0 then m
  else if (src <? dst) && (src + n >? dst)
       then copy_bwd (Z.to_nat n) m (dst + n) (src + n)
       else copy_fwd (Z.to_nat n) m dst src.

Definition memcpy (m : mem) (dst src n : Z) : mem := memmove m dst src n.

Fixpoint strncmp_loop (n : nat) (mp : mem) (p : Z) (mq : mem) (q : Z) : Z :=
  match n with
  | O => 0
  | S n' =>
      if negb (rd mp p =? 0) && (rd mp p =? rd mq q)
      then strncmp_loop n' mp (p + 1) mq (q + 1)
      else rd mp p - rd mq q
  end.

Definition strncmp (mp : mem) (p : Z) (mq : mem) (q n : Z) : Z :=
  strncmp_loop (Z.to_nat n) mp p mq q.

(** [while(n-- > 0) *s++ = 0;] *)
Fixpoint zero_loop (n : nat) (m : mem) (s : Z) : mem :=
  match n with
  | O => m
  | S n' => zero_loop n' (wr m s 0) (s + 1)
  end.

Fixpoint strncpy_loop (n : nat) (m : mem) (s : Z) (mt : mem) (t : Z) : mem :=
  match n with
  | O => m
  | S n' =>
      let c := rd mt t in
      let m := wr m s c in
      if c =? 0 then zero_loop n' m (s + 1)
      else strncpy_loop n' m (s + 1) mt (t + 1)
  end.

Definition strncpy (m : mem) (s : Z) (mt : mem) (t n : Z) : mem :=
  strncpy_loop (Z.to_nat n) m s mt t.

Fixpoint safestrcpy_loop (n : nat) (m : mem) (s : Z) (mt : mem) (t : Z) : mem :=
  match n with
  | O => wr m s 0
  | S n' =>
      let c := rd mt t in
      let m := wr m s c in
      if c =? 0 then wr m (s + 1) 0
      else safestrcpy_loop n' m (s + 1) mt (t + 1)
  end.

Definition safestrcpy (m : mem) (s : Z) (mt : mem) (t n : Z) : mem :=
  if n <=? 0 then m else safestrcpy_loop (Z.to_nat (n - 1)) m s mt t.

Fixpoint strlen_loop (fuel : nat) (m : mem) (s n : Z) : option Z :=
  match fuel with
  | O => None
  | S f => if rd m (s + n) =? 0 then Some n else strlen_loop f m s (n + 1)
  end.

Definition strlen (fuel : nat) (m : mem) (s : Z) : option Z := strlen_loop fuel m s 0.

End KString.

Module ULib.

(** Copy up to and including the NUL. *)
Fixpoint strcpy (fuel : nat) (m : mem) (s : Z) (mt : mem) (t : Z) : option mem :=
  match fuel with
  | O => None
  | S f =>
      let c := rd mt t in
      let m := wr m s c in
      if c =? 0 then Some m else strcpy f m (s + 1) mt (t + 1)
  end.

Fixpoint strcmp (fuel : nat) (mp : mem) (p : Z) (mq : mem) (q : Z) : option Z :=
  match fuel with
  | O => None
  | S f =>
      if negb (rd mp p =? 0) && (rd mp p =? rd mq q)
      then strcmp f mp (p + 1) mq (q + 1)
      else Some (rd mp p - rd mq q)
  end.

Fixpoint strlen_loop (fuel : nat) (m : mem) (s n : Z) : option Z :=
  match fuel with
  | O => None
  | S f => if rd m (s + n) =? 0 then Some n else strlen_loop f m s (n + 1)
  end.

(** The counter is an [int] and the result a [uint]. *)
Definition strlen (fuel : nat) (m : mem) (s : Z) : option Z :=
  n ← strlen_loop fuel m s 0; Some (u32 n).

Fixpoint memset_loop (n : nat) (m : mem) (cdst i c : Z) : mem :=
  match n with
  | O => m
  | S n' => memset_loop n' (wr m (cdst + i) c) cdst (i + 1) c
  end.

Definition memset (m : mem) (dst c n : Z) : mem :=
  memset_loop (Z.to_nat n) m dst 0 c.

(** The address of the first [c] in the string, or [0] for none. *)
Fixpoint strchr (fuel : nat) (m : mem) (s c : Z) : option Z :=
  match fuel with
  | O => None
  | S f =>
      if rd m s =? 0 then Some 0
      else if rd m s =? c then Some s
      else strchr f m (s + 1) c
  end.

(** [n = n*10 + *s++ - '0'] on 32-bit [int]s. *)
Fixpoint atoi_loop (fuel : nat) (m : mem) (s n : Z) : option Z :=
  match fuel with
  | O => None
  | S f =>
      if (48 <=? rd m s) && (rd m s <=? 57)
      then atoi_loop f m (s + 1) (i32 (n * 10 + rd m s - 48))
      else Some n
  end.

Definition atoi (fuel : nat) (m : mem) (s : Z) : option Z := atoi_loop fuel m s 0.

Definition memmove (m : mem) (vdst vsrc n : Z) : mem :=
  if vsrc >? vdst then KString.copy_fwd (Z.to_nat n) m vdst vsrc
  else KString.copy_bwd (Z.to_nat n) m (vdst + n) (vsrc + n).

Fixpoint memcmp_loop (n : nat) (m1 : mem) (p1 : Z) (m2 : mem) (p2 : Z) : Z :=
  match n with
  | O => 0
  | S n' =>
      if negb (rd m1 p1 =? rd m2 p2) then rd m1 p1 - rd m2 p2
      else memcmp_loop n' m1 (p1 + 1) m2 (p2 + 1)
  end.

Definition memcmp (m1 : mem) (s1 : Z) (m2 : mem) (s2 : Z) (n : Z) : Z :=
  memcmp_loop (Z.to_nat n) m1 s1 m2 s2.

Definition memcpy (m : mem) (dst src n : Z) : mem := memmove m dst src n.

End ULib.

(** ** [custom_memcpy] (vm.c): bytes up to alignment, then 64-bit words, then
    the remaining bytes. *)
Module PageCopy.

Fixpoint align_loop (n : nat) (m : mem) (d s : Z) : mem * Z * Z * nat :=
  match n with
  | O => (m, d, s, O)
  | S n' =>
      if negb (d mod 8 =? 0) && negb (s mod 8 =? 0)
      then align_loop n' (wr m d (rd m s)) (d + 1) (s + 1)
      else (m, d, s, n)
  end.

Fixpoint word_loop (n : nat) (m : mem) (d s : Z) : mem * Z * Z * nat :=
  match n with
  | S (S (S (S (S (S (S (S n'))))))) =>
      word_loop n' (st64 m d (ld64 m s)) (d + 8) (s + 8)
  | _ => (m, d, s, n)
  end.

Definition custom_memcpy (m : mem) (dst src n : Z) : mem :=
  let '(m, d, s, k) := align_loop (Z.to_nat n) m dst src in
  let '(m, d, s, k) := word_loop k m d s in
  KString.copy_fwd k m d s.

End PageCopy.

(** ** Copying *)

Lemma copied_refl m d s : copied m m d s 0.
Proof. intros a. by rewrite inr_false by lia. Qed.

Lemma copied_trans m m1 m2 d s k1 k2 :
  0 <= k1 -> 0 <= k2 -> fwd_safe d s (k1 + k2) ->
  copied m m1 d s k1 -> copied m1 m2 (d + k1) (s + k1) k2 ->
  copied m m2 d s (k1 + k2).
Proof.
  intros ? ? Hs H1 H2 a. rewrite H2, !H1. unfold fwd_safe in Hs.
  inr_cases; try lia; f_equal; lia.
Qed.

(** Backward: the last [k1] bytes first, when the destination is above. *)
Lemma copied_trans_bwd m m1 m2 d s k1 k2 :
  0 <= k1 -> 0 <= k2 -> s <= d ->
  copied m m1 (d + k2) (s + k2) k1 -> copied m1 m2 d s k2 ->
  copied m m2 d s (k1 + k2).
Proof.
  intros ? ? Hs H1 H2 a. rewrite H2, !H1.
  inr_cases; try lia; f_equal; lia.
Qed.

Lemma copied_byte m d s : copied m (wr m d (rd m s)) d s 1.
Proof.
  intros a. rewrite rd_wr, u8_rd. inr_cases; zcases; try done. f_equal; lia.
Qed.

Lemma rd_st64 m d v a :
  inr a d 8 = true -> forall m' s, v = ld64 m' s ->
  rd (st64 m d v) a = rd m' (s + (a - d)).
Proof.
  intros Ha m' s ->. unfold st64, ld64.
  assert (forall n m d s, (Z.of_nat n <= 8) -> inr a d (Z.of_nat n) = true ->
    rd (stn n m d (ldn n m' s)) a = rd m' (s + (a - d))) as H.
  { clear Ha. induction n as [|n IH]; intros m0 d0 s0 Hn Ha; cbn [stn ldn].
    - by rewrite inr_false in Ha by lia.
    - assert ((rd m' s0 + 256 * ldn n m' (s0 + 1)) / 256 = ldn n m' (s0 + 1)) as ->.
      { pose proof (rd_range m' s0). rewrite (Z.mul_comm 256), Z.div_add by lia.
        rewrite Z.div_small; lia. }
      destruct (Z.eq_dec a d0) as [->|Hne].
      + rewrite rd_stn_other, rd_wr_eq by lia. unfold u8, wrap.
        rewrite (Z.mul_comm 256), Z.mod_add by lia.
        rewrite Z.mod_small by apply rd_range. f_equal. lia.
      + rewrite IH; [f_equal; lia|lia|].
        destruct (inr_spec a d0 (Z.of_nat (S n))); [|done]. apply inr_true. lia. }
  by apply (H 8%nat).
Qed.

Lemma copied_word m d s : copied m (st64 m d (ld64 m s)) d s 8.
Proof.
  intros a. destruct (inr a d 8) eqn:E.
  - by apply rd_st64.
  - apply rd_stn_other. destruct (inr_spec a d 8); [done|lia].
Qed.

Lemma copy_fwd_copied n m d s :
  fwd_safe d s (Z.of_nat n) -> copied m (KString.copy_fwd n m d s) d s (Z.of_nat n).
Proof.
  revert m d s. induction n as [|n IH]; intros m d s Hs; cbn [KString.copy_fwd].
  - apply copied_refl.
  - replace (Z.of_nat (S n)) with (1 + Z.of_nat n) in * by lia.
    eapply copied_trans; [lia|lia|done|apply copied_byte|].
    apply IH. unfold fwd_safe in *. lia.
Qed.

Lemma copy_bwd_copied n m d s :
  s <= d ->
  copied m (KString.copy_bwd n m (d + Z.of_nat n) (s + Z.of_nat n)) d s (Z.of_nat n).
Proof.
  revert m. induction n as [|n IH]; intros m Hs; cbn [KString.copy_bwd].
  - apply copied_refl.
  - replace (Z.of_nat (S n)) with (1 + Z.of_nat n) by lia.
    replace (d + (1 + Z.of_nat n) - 1) with (d + Z.of_nat n) by lia.
    replace (s + (1 + Z.of_nat n) - 1) with (s + Z.of_nat n) by lia.
    eapply copied_trans_bwd; [lia|lia|done|apply copied_byte|]. by apply IH.
Qed.

Lemma memmove_copied m d s n : 0 <= n -> copied m (KString.memmove m d s n) d s n.
Proof.
  intros Hn. unfold KString.memmove.
  destruct (Z.eqb_spec n 0) as [->|]; [apply copied_refl|].
  rewrite Z.gtb_ltb. destruct ((s <? d) && (d <? s + n)) eqn:E.
  - zprop. rewrite <- (Z2Nat.id n) at 2 3 4 by done. apply copy_bwd_copied. lia.
  - rewrite <- (Z2Nat.id n) at 2 by done. apply copy_fwd_copied.
    rewrite Z2Nat.id by done. unfold fwd_safe. lia.
Qed.

Lemma ulib_memmove_copied m d s n : 0 <= n -> copied m (ULib.memmove m d s n) d s n.
Proof.
  intros Hn. unfold ULib.memmove. rewrite Z.gtb_ltb. destruct (Z.ltb_spec d s).
  - rewrite <- (Z2Nat.id n) at 2 by done. apply copy_fwd_copied. unfold fwd_safe. lia.
  - rewrite <- (Z2Nat.id n) at 2 3 4 by done. by apply copy_bwd_copied.
Qed.

Lemma align_loop_copied n m d s m' d' s' n' :
  fwd_safe d s (Z.of_nat n) ->
  PageCopy.align_loop n m d s = (m', d', s', n') ->
  (n' <= n)%nat /\ d' = d + Z.of_nat (n - n') /\ s' = s + Z.of_nat (n - n') /\
  copied m m' d s (Z.of_nat (n - n')).
Proof.
  revert m d s. induction n as [|n IH]; intros m d s Hs; cbn [PageCopy.align_loop].
  - intros [= <- <- <- <-]. split_and!; [lia|lia|lia|]. apply copied_refl.
  - destruct (_ && _).
    + intros H. apply IH in H; [|unfold fwd_safe in *; lia].
      destruct H as (Hn & -> & -> & Hc). split_and!; try lia.
      replace (Z.of_nat (S n - n')) with (1 + Z.of_nat (n - n')) by lia.
      eapply copied_trans; [lia|lia| |apply copied_byte|done].
      unfold fwd_safe in *; lia.
    + intros [= <- <- <- <-]. rewrite Nat.sub_diag.
      split_and!; [lia|simpl; lia|simpl; lia|apply copied_refl].
Qed.

Lemma word_loop_copied n m d s m' d' s' n' :
  fwd_safe d s (Z.of_nat n) ->
  PageCopy.word_loop n m d s = (m', d', s', n') ->
  (n' <= n)%nat /\ d' = d + Z.of_nat (n - n') /\ s' = s + Z.of_nat (n - n') /\
  copied m m' d s (Z.of_nat (n - n')).
Proof.
  revert m d s. induction n as [n IH] using lt_wf_ind; intros m d s Hs.
  do 8 (destruct n as [|n];
    [cbn [PageCopy.word_loop]; intros [= <- <- <- <-]; rewrite Nat.sub_diag;
     split_and!; [lia|simpl; lia|simpl; lia|apply copied_refl]|]).
  cbn [PageCopy.word_loop]. intros H. apply IH in H; [|lia|unfold fwd_safe in *; lia].
  destruct H as (Hn & -> & -> & Hc). split_and!; try lia.
  replace (Z.of_nat _) with (8 + Z.of_nat (n - n')) by lia.
  eapply copied_trans; [lia|lia| |apply copied_word|done]. unfold fwd_safe in *; lia.
Qed.

Lemma custom_memcpy_copied m d s n :
  0 <= n -> fwd_safe d s n -> copied m (PageCopy.custom_memcpy m d s n) d s n.
Proof.
  intros Hn Hs. unfold PageCopy.custom_memcpy.
  destruct (PageCopy.align_loop _ _ _ _) as [[[m1 d1] s1] n1] eqn:E1.
  apply align_loop_copied in E1; [|by rewrite Z2Nat.id].
  destruct E1 as (Hn1 & -> & -> & Hc1). set (j := Z.of_nat (Z.to_nat n - n1)) in *.
  destruct (PageCopy.word_loop _ _ _ _) as [[[m2 d2] s2] n2] eqn:E2.
  apply word_loop_copied in E2; [|unfold fwd_safe in *; lia].
  destruct E2 as (Hn2 & -> & -> & Hc2).
  replace n with (j + (Z.of_nat (n1 - n2) + Z.of_nat n2)) by lia.
  eapply copied_trans; [lia|lia|unfold fwd_safe in *; lia|exact Hc1|].
  eapply copied_trans; [lia|lia|unfold fwd_safe in *; lia|exact Hc2|].
  apply copy_fwd_copied. unfold fwd_safe in *; lia.
Qed.

(** ** Filling and comparing *)

Lemma rd_memset m dst c n a :
  0 <= n -> rd (KString.memset m dst c n) a = if inr a dst n then u8 c else rd m a.
Proof.
  intros Hn. unfold KString.memset.
  assert (forall k m i, rd (KString.memset_loop k m dst i c) a =
    if inr a (dst + i) (Z.of_nat k) then u8 c else rd m a) as H.
  { induction k as [|k IH]; intros m0 i; cbn [KString.memset_loop].
    - by rewrite inr_false by lia.
    - rewrite IH, rd_wr. inr_cases; zcases; done || lia. }
  rewrite H, Z2Nat.id, Z.add_0_r by done. done.
Qed.

Lemma strn_length n m p : (length (strn n m p) <= n)%nat.
Proof. revert p. induction n; intros; cbn [strn]; [done|]. case_match; simpl; [lia|]. specialize (IHn (p+1)). lia. Qed.

Lemma strncmp_loop_eq0 n mp p mq q :
  KString.strncmp_loop n mp p mq q = 0 <-> strn n mp p = strn n mq q.
Proof.
  revert p q. induction n as [|n IH]; intros p q; cbn [KString.strncmp_loop strn]; [done|].
  destruct (Z.eqb_spec (rd mp p) 0) as [Hp|Hp], (Z.eqb_spec (rd mq q) 0) as [Hq|Hq]; simpl.
  - split; [done|lia].
  - split; [lia|done].
  - destruct (Z.eqb_spec (rd mp p) (rd mq q)); [lia|]. split; [lia|done].
  - destruct (Z.eqb_spec (rd mp p) (rd mq q)) as [E|E].
    + rewrite IH, E. split; [by intros ->|by intros [= ->]].
    + split; [lia|]. by intros [= ?].
Qed.

Lemma strn_ext n m m' p p' :
  (forall i, 0 <= i < Z.of_nat n -> rd m (p + i) = rd m' (p' + i)) ->
  strn n m p = strn n m' p'.
Proof.
  revert p p'. induction n as [|n IH]; intros p p' H; cbn [strn]; [done|].
  assert (rd m p = rd m' p') as ->.
  { rewrite <- (Z.add_0_r p), <- (Z.add_0_r p'). apply H. lia. }
  case_match; [done|]. f_equal. apply IH. intros i Hi.
  rewrite <- !Z.add_assoc. apply H. lia.
Qed.

Lemma rd_zero_loop n m s a :
  rd (KString.zero_loop n m s) a = if inr a s (Z.of_nat n) then 0 else rd m a.
Proof.
  revert m s. induction n as [|n IH]; intros m s; cbn [KString.zero_loop].
  - by rewrite inr_false by lia.
  - rewrite IH, rd_wr. inr_cases; zcases; done || lia.
Qed.

(** What [strncpy] leaves in the destination: the string, then zeros. *)
Lemma rd_strncpy_loop n m s mt t a :
  rd (KString.strncpy_loop n m s mt t) a =
    if inr a s (Z.of_nat n)
    then default 0 (strn n mt t !! Z.to_nat (a - s)) else rd m a.
Proof.
  revert m s t. induction n as [|n IH]; intros m s t; cbn [KString.strncpy_loop strn].
  - by rewrite inr_false by lia.
  - destruct (Z.eqb_spec (rd mt t) 0) as [E|E].
    + rewrite rd_zero_loop, rd_wr, E. inr_cases; zcases; done || lia.
    + rewrite IH, rd_wr, u8_rd. inr_cases; try lia; zcases; try done.
      * replace (Z.to_nat (a - s)) with (S (Z.to_nat (a - (s + 1)))) by lia. done.
      * subst a. by rewrite Z.sub_diag.
Qed.

Lemma strn_default n m s l :
  (length l <= n)%nat -> Forall (fun c => 0 < c < 256) l ->
  (forall i, 0 <= i < Z.of_nat n -> rd m (s + i) = default 0 (l !! Z.to_nat i)) ->
  strn n m s = l.
Proof.
  revert s l. induction n as [|n IH]; intros s l Hl Hf H; cbn [strn].
  - by destruct l; [|simpl in Hl; lia].
  - assert (rd m s = default 0 (l !! 0%nat)) as E.
    { rewrite <- (Z.add_0_r s). apply (H 0). lia. }
    destruct l as [|c l]; simpl in E; rewrite E.
    + by rewrite Z.eqb_refl.
    + apply Forall_cons in Hf as [Hc Hf]. zcases. f_equal.
      apply IH; [simpl in Hl; lia|done|]. intros i Hi.
      rewrite <- Z.add_assoc, H by lia.
      by replace (Z.to_nat (1 + i)) with (S (Z.to_nat i)) by lia.
Qed.

Lemma strn_bytes n m p : Forall (fun c => 0 < c < 256) (strn n m p).
Proof.
  revert p. induction n as [|n IH]; intros p; cbn [strn]; [done|].
  pose proof (rd_range m p). case_match; [done|]. zprop. constructor; [lia|done].
Qed.

Lemma strn_strncpy n m s mt t :
  strn n (KString.strncpy_loop n m s mt t) s = strn n mt t.
Proof.
  apply strn_default; [apply strn_length|apply strn_bytes|].
  intros i Hi. rewrite rd_strncpy_loop, inr_true by lia.
  by replace (s + i - s) with i by lia.
Qed.

(** A string followed by zeros fits: what [safestrcpy] leaves. *)
Lemma rd_safestrcpy_loop n m s mt t a :
  ~ (s <= a <= s + Z.of_nat n) -> rd (KString.safestrcpy_loop n m s mt t) a = rd m a.
Proof.
  revert m s t. induction n as [|n IH]; intros m s t H; cbn [KString.safestrcpy_loop].
  - rewrite rd_wr_ne; [done|lia].
  - case_match; [|rewrite IH by lia]; rewrite !rd_wr_ne; done || lia.
Qed.

Lemma strn_safestrcpy n m s mt t :
  strn (S n) (KString.safestrcpy_loop n m s mt t) s = strn n mt t.
Proof.
  revert m s t. induction n as [|n IH]; intros m s t; cbn [KString.safestrcpy_loop].
  - cbn [strn]. by rewrite rd_wr_eq.
  - destruct (Z.eqb_spec (rd mt t) 0) as [E|E].
    + cbn [strn]. rewrite rd_wr_ne, rd_wr_eq, u8_rd, E by lia. done.
    + set (m' := KString.safestrcpy_loop n (wr m s (rd mt t)) (s + 1) mt (t + 1)).
      change (strn (S (S n)) m' s) with (if rd m' s =? 0 then [] else rd m' s :: strn (S n) m' (s + 1)).
      assert (rd m' s = rd mt t) as ->.
      { unfold m'. rewrite rd_safestrcpy_loop, rd_wr_eq, u8_rd by lia. done. }
      unfold m' at 1. rewrite IH. cbn [strn]. destruct (Z.eqb_spec (rd mt t) 0); done.
Qed.

Lemma strlen_loop_cstring fuel m s n k :
  (forall i, n <= i < k -> rd m (s + i) <> 0) -> rd m (s + k) = 0 ->
  0 <= n <= k -> k - n < Z.of_nat fuel -> KString.strlen_loop fuel m s n = Some k.
Proof.
  revert n. induction fuel as [|f IH]; intros n Hnz Hz Hn Hf; cbn [KString.strlen_loop]; [lia|].
  destruct (Z.eqb_spec (rd m (s + n)) 0) as [E|E].
  - destruct (Z.eq_dec n k) as [->|]; [done|]. exfalso. apply (Hnz n); [lia|done].
  - destruct (Z.eq_dec n k) as [->|]; [done|]. apply IH; [|done|lia|lia].
    intros. apply Hnz. lia.
Qed.

Lemma strlen_cstring fuel m s k :
  cstring m s k -> k < Z.of_nat fuel -> KString.strlen fuel m s = Some k.
Proof. intros (Hk & Hz & Hnz) Hf. apply strlen_loop_cstring; [|done|lia|lia]. intros. apply Hnz. lia. Qed.

(** ** Properties *)

(** C36: the kernel's and the user library's [memmove] are the simultaneous copy
    of [n] bytes for every overlap of source and destination, and the page
    copy [custom_memcpy], word accesses included, is the same copy whenever
    the destination starts below the source or does not overlap it. *)
Theorem memmove_correct m d s n :
  0 <= n ->
  copied m (KString.memmove m d s n) d s n /\ copied m (ULib.memmove m d s n) d s n /\
  (fwd_safe d s n -> copied m (PageCopy.custom_memcpy m d s n) d s n).
Proof.
  intros Hn. split; [by apply memmove_copied|]. split; [by apply ulib_memmove_copied|].
  by apply custom_memcpy_copied.
Qed.

Lemma memmove_correct_witness :
  copied (wr (wr ∅ 10 7) 11 8) (KString.memmove (wr (wr ∅ 10 7) 11 8) 11 10 2) 11 10 2.
Proof. exact (proj1 (memmove_correct (wr (wr ∅ 10 7) 11 8) 11 10 2 (Z.le_0_2))). Defined.

(** a name stored with [strncpy] is found by [strncmp] exactly under the
    names that agree with it up to [n] bytes or a NUL: this is how directory
    entries are written and looked up, with [n = DIRSIZ].  No byte outside the
    field is written. *)
Theorem strncpy_strncmp_roundtrip m s mt t n mq q :
  0 <= n ->
  let m' := KString.strncpy m s mt t n in
  (KString.strncmp mq q m' s n = 0 <-> strn (Z.to_nat n) mq q = strn (Z.to_nat n) mt t) /\
  (forall a, ~ (s <= a < s + n) -> rd m' a = rd m a).
Proof.
  intros Hn m'. split.
  - unfold KString.strncmp, m', KString.strncpy. by rewrite strncmp_loop_eq0, strn_strncpy.
  - intros a Ha. unfold m', KString.strncpy. rewrite rd_strncpy_loop, Z2Nat.id by done.
    by rewrite inr_false by lia.
Qed.

Lemma strncpy_strncmp_roundtrip_witness :
  KString.strncmp (wr ∅ 0 97) 0 (KString.strncpy ∅ 100 (wr ∅ 50 97) 50 14) 100 14 = 0.
Proof.
  refine (proj2 (proj1 (strncpy_strncmp_roundtrip ∅ 100 (wr ∅ 50 97) 50 14 (wr ∅ 0 97) 0 _)) _); [lia|].
  vm_compute. done.
Defined.
