(* ===== verification/Sleeplock.v ===== *)
(** Locks as one thread sees them.

    [acquire] and [release] act on the [locked] flag of a spinlock: a thread
    that finds a spinlock it holds itself panics, as spinlock.c does, and a
    spinlock held by another CPU is waited for by spinning, which ends with
    the flag clear.  Spinlock.v models spinlock.c itself, with its per-CPU
    state.

    The rest of the file is src/src/kernel/sleeplock.c: a lock that gives up
    the CPU while it waits. *)

From S2P Require Import Prelude.

Definition acquire {S} (locked : S -> bool) (set : bool -> S -> S) : M S unit :=
  fun s => if locked s then Panic "acquire" else Ok tt (set true s).

Definition release {S} (locked : S -> bool) (set : bool -> S -> S) : M S unit :=
  fun s => if locked s then Ok tt (set false s) else Panic "release".

(** [sleep(chan, lk)]: release [lk] and give up the CPU until [chan] is woken. *)
Definition sleep {S A} (ch : chan) (locked : S -> bool) (set : bool -> S -> S) : M S A :=
  fun s => if locked s then Sleep ch (set false s) else Panic "release".

(** What a component needs of the scheduler: [wakeup(chan)] makes every process
    that sleeps on [chan] runnable.  A component's instance records the call. *)
Class Wakeup (S : Type) := wakeup : chan -> M S unit.

(** [struct sleeplock]: [sl_lk] is the flag of the inner spinlock. *)
Record sleeplock := Sleeplock { sl_locked : bool; sl_lk : bool; sl_pid : Z }.

#[export] Instance sleeplock_inhabited : Inhabited sleeplock :=
  populate (Sleeplock false false 0).

Definition set_sl_lk (v : bool) (l : sleeplock) : sleeplock := Sleeplock (sl_locked l) v (sl_pid l).
Definition set_sl_held (v : bool) (pid : Z) (l : sleeplock) : sleeplock := Sleeplock v (sl_lk l) pid.

Definition initsleeplock : M sleeplock unit := fun _ => Ok tt (Sleeplock false false 0).

(** [pid] is [myproc()->pid] and [ch] the address of the lock. *)
Definition acquiresleep (pid : Z) (ch : chan) : M sleeplock unit :=
  acquire sl_lk set_sl_lk;;
  locked ← gets sl_locked;
  if (locked : bool) then sleep ch sl_lk set_sl_lk
  else
    modify (set_sl_held true pid);;
    release sl_lk set_sl_lk.

(** The lock is the part of the state that [get] and [set] select; the waiters
    are woken before the inner spinlock is released. *)
Definition releasesleep {S} `{Wakeup S} (get : S -> sleeplock) (set : sleeplock -> S -> S)
    (ch : chan) : M S unit :=
  zoom get set (acquire sl_lk set_sl_lk);;
  zoom get set (modify (set_sl_held false 0));;
  wakeup ch;;
  zoom get set (release sl_lk set_sl_lk).

Definition holdingsleep (pid : Z) : M sleeplock bool :=
  acquire sl_lk set_sl_lk;;
  r ← gets (fun l => sl_locked l && (sl_pid l =? pid));
  release sl_lk set_sl_lk;;
  mret r.

(** A sleep lock whose inner spinlock is free. *)
Definition sl_idle (l : sleeplock) : Prop := sl_lk l = false.
Definition sl_free : sleeplock := Sleeplock false false 0.
Definition sl_held_by (pid : Z) : sleeplock := Sleeplock true false pid.

Lemma acquiresleep_free pid ch l :
  sl_idle l -> sl_locked l = false -> acquiresleep pid ch l = Ok tt (sl_held_by pid).
Proof. destruct l; unfold sl_idle; simpl. by intros -> ->. Qed.

Lemma acquiresleep_held pid ch l :
  sl_idle l -> sl_locked l = true -> acquiresleep pid ch l = Sleep ch l.
Proof. destruct l; unfold sl_idle; simpl. by intros -> ->. Qed.


Lemma holdingsleep_ok pid l :
  sl_idle l -> holdingsleep pid l = Ok (sl_locked l && (sl_pid l =? pid)) l.
Proof. destruct l; unfold sl_idle; simpl. by intros ->. Qed.
