(* ===== verification/Ring.v ===== *)
(** Circular linked lists through a sentinel, as the buffer cache keeps them.

    [chain f h l y]: following the link function [f] from [h] visits the
    elements of [l] in order and ends at [y].  A doubly linked ring is a chain
    of [next] along [l] and a chain of [prev] along the reverse of [l]. *)

From S2P Require Import Prelude.

Fixpoint chain (f : nat -> nat) (h : nat) (l : list nat) (y : nat) : Prop :=
  match l with
  | [] => f h = y
  | a :: t => f h = a /\ chain f a t y
  end.

Definition fupd {A} (f : nat -> A) (x : nat) (v : A) : nat -> A :=
  fun z => if decide (z = x) then v else f z.

Lemma fupd_eq {A} (f : nat -> A) x v : fupd f x v x = v.
Proof. unfold fupd. by rewrite decide_True. Qed.
Lemma fupd_ne {A} (f : nat -> A) x v z : z <> x -> fupd f x v z = f z.
Proof. intros. unfold fupd. by rewrite decide_False. Qed.

Lemma chain_ext f g h l y :
  (forall x, x ∈ h :: l -> f x = g x) -> chain f h l y -> chain g h l y.
Proof.
  revert h. induction l as [|a t IH]; intros h Hfg; simpl.
  - intros <-. symmetry. apply Hfg. set_solver.
  - intros [<- Hc]. split; [symmetry; apply Hfg; set_solver|].
    apply IH; [|done]. intros x Hx. apply Hfg. set_solver.
Qed.

Lemma chain_fupd f h l y x v : x ∉ h :: l -> chain f h l y -> chain (fupd f x v) h l y.
Proof. intros Hx. apply chain_ext. intros z Hz. rewrite fupd_ne; set_solver. Qed.

Lemma chain_app f h l1 b l2 y :
  chain f h (l1 ++ b :: l2) y <-> chain f h l1 b /\ chain f b l2 y.
Proof.
  revert h. induction l1 as [|a t IH]; intros h; simpl; [done|].
  rewrite IH. tauto.
Qed.

Lemma chain_first f h l y : chain f h l y -> f h = hd y l.
Proof. destruct l; simpl; tauto. Qed.

Lemma last_cons_ne {A} (h a : A) t : List.last (a :: t) h = List.last t a.
Proof. revert h a. induction t as [|b t IH]; intros h a; [done|].
  change (List.last (b :: t) h = List.last (b :: t) a). by rewrite !IH. Qed.

Lemma last_elem {A} (h : A) l : List.last l h ∈ h :: l.
Proof.
  revert h. induction l as [|a t IH]; intros h; [set_solver|].
  rewrite last_cons_ne. specialize (IH a). set_solver.
Qed.

Lemma hd_rev_last {A} (h : A) l : hd h (rev l) = List.last l h.
Proof.
  induction l as [|x l IH] using rev_ind; [done|].
  by rewrite rev_app_distr, List.last_last.
Qed.

Lemma last_rev_hd {A} (h : A) l : List.last (rev l) h = hd h l.
Proof. by rewrite <- hd_rev_last, rev_involutive. Qed.

(** Unlinking [b]: its predecessor takes over its link. *)
Lemma chain_unlink f h l1 b l2 y :
  NoDup (h :: l1) -> (forall x, x ∈ h :: l1 -> x ∉ l2) ->
  chain f h l1 b -> chain f b l2 y ->
  chain (fupd f (List.last l1 h) (f b)) h (l1 ++ l2) y.
Proof.
  revert h. induction l1 as [|a t IH]; intros h Hnd Hdis H1 H2.
  - simpl in *. destruct l2 as [|a t]; simpl in *; rewrite fupd_eq; [done|].
    destruct H2 as [-> H2]. split; [done|]. apply chain_fupd; [|done].
    apply Hdis. set_solver.
  - rewrite last_cons_ne. destruct H1 as [Hfh H1].
    apply NoDup_cons in Hnd as [Hh Hnd]. simpl. split.
    + rewrite fupd_ne; [done|]. intros ->. apply Hh, last_elem.
    + apply IH; [done| |done|done]. intros x Hx. apply Hdis. set_solver.
Qed.

(** Appending [b] behind the last element. *)
Lemma chain_append f h l b y :
  NoDup (h :: l) -> b ∉ h :: l -> chain f h l y ->
  chain (fupd (fupd f b y) (List.last l h) b) h (l ++ [b]) y.
Proof.
  revert h. induction l as [|a t IH]; intros h Hnd Hb Hc; simpl in Hc.
  - simpl. rewrite fupd_eq. split; [done|]. rewrite fupd_ne; [by rewrite fupd_eq|set_solver].
  - rewrite last_cons_ne. apply NoDup_cons in Hnd as [Hh Hnd]. destruct Hc as [Hfh Hc].
    simpl. split.
    + rewrite !fupd_ne; [done|set_solver|]. intros ->. apply Hh, last_elem.
    + apply IH; set_solver.
Qed.

(** Putting [b] right behind [h]. *)
Lemma chain_prepend f h l b y :
  NoDup (h :: l) -> b ∉ h :: l -> chain f h l y ->
  chain (fupd (fupd f b (f h)) h b) h (b :: l) y.
Proof.
  intros Hnd Hb Hc. simpl. rewrite fupd_eq. split; [done|].
  apply NoDup_cons in Hnd as [Hh Hnd].
  destruct l as [|a t]; simpl in *.
  - rewrite fupd_ne, fupd_eq by set_solver. done.
  - destruct Hc as [Hfh Hc]. rewrite fupd_ne, fupd_eq by set_solver. split; [done|].
    apply chain_fupd; [set_solver|]. apply chain_fupd; [set_solver|done].
Qed.

(** A doubly linked ring with sentinel [h]. *)
Definition ring (nx pv : nat -> nat) (h : nat) (l : list nat) : Prop :=
  NoDup (h :: l) /\ chain nx h l h /\ chain pv h (rev l) h.

Lemma ring_nodup nx pv h l : ring nx pv h l -> NoDup l /\ h ∉ l.
Proof. intros [Hnd _]. apply NoDup_cons in Hnd. tauto. Qed.

Lemma ring_ext nx pv nx' pv' h l :
  (forall x, nx x = nx' x) -> (forall x, pv x = pv' x) ->
  ring nx pv h l -> ring nx' pv' h l.
Proof.
  intros H1 H2 (Hnd & Hn & Hp). split; [done|].
  split; (eapply chain_ext; [|done]); auto.
Qed.

(** The two writes of unlinking. *)
Lemma ring_unlink nx pv h l1 b l2 :
  ring nx pv h (l1 ++ b :: l2) ->
  ring (fupd nx (pv b) (nx b)) (fupd pv (nx b) (pv b)) h (l1 ++ l2).
Proof.
  intros (Hnd & Hn & Hp).
  rewrite rev_app_distr in Hp. simpl in Hp. rewrite <- app_assoc in Hp. simpl in Hp.
  apply chain_app in Hn as [Hn1 Hn2]. apply chain_app in Hp as [Hp2 Hp1].
  pose proof (chain_first _ _ _ _ Hn2) as Hnb. pose proof (chain_first _ _ _ _ Hp1) as Hpb.
  rewrite hd_rev_last in Hpb.
  apply NoDup_cons in Hnd as [Hh Hnd]. apply NoDup_app in Hnd as (Hnd1 & Hdis & Hnd2).
  apply NoDup_cons in Hnd2 as [Hb Hnd2].
  split; [|split].
  - apply NoDup_cons. split; [set_solver|]. apply NoDup_app. set_solver.
  - rewrite Hpb. apply chain_unlink; [|set_solver|done|done].
    apply NoDup_cons. set_solver.
  - rewrite rev_app_distr. rewrite Hnb, <- (last_rev_hd h l2).
    assert (forall x, x ∈ rev l2 <-> x ∈ l2) as Hr2
      by (intros x; rewrite !list_elem_of_In; symmetry; apply in_rev).
    assert (forall x, x ∈ rev l1 <-> x ∈ l1) as Hr1
      by (intros x; rewrite !list_elem_of_In; symmetry; apply in_rev).
    apply chain_unlink; [| |done|done].
    + apply NoDup_cons. split; [rewrite Hr2; set_solver|]. by apply NoDup_ListNoDup, NoDup_rev, NoDup_ListNoDup.
    + intros x Hx. rewrite Hr1. apply elem_of_cons in Hx as [->|Hx]; [set_solver|].
      apply Hr2 in Hx. set_solver.
Qed.

(** The four writes of pushing [b] to the front. *)
Lemma ring_push nx pv h l b :
  ring nx pv h l -> b ∉ h :: l ->
  ring (fupd (fupd nx b (nx h)) h b) (fupd (fupd pv b h) (nx h) b) h (b :: l).
Proof.
  intros (Hnd & Hn & Hp) Hb.
  split; [|split].
  - apply NoDup_cons in Hnd as [Hh Hnd]. apply NoDup_cons. split; [set_solver|].
    apply NoDup_cons. set_solver.
  - by apply chain_prepend.
  - rewrite (chain_first _ _ _ _ Hn), <- last_rev_hd. simpl.
    assert (forall x, x ∈ rev l <-> x ∈ l) as Hr
      by (intros x; rewrite !list_elem_of_In; symmetry; apply in_rev).
    apply NoDup_cons in Hnd as [Hh Hnd].
    apply chain_append; [| |done].
    + apply NoDup_cons. split; [by rewrite Hr|]. by apply NoDup_ListNoDup, NoDup_rev, NoDup_ListNoDup.
    + intros H. apply elem_of_cons in H as [->|H]; [set_solver|]. apply Hr in H. set_solver.
Qed.
