(* ===== verification/Spinlock.v ===== *)
(** Spin locks on several CPUs: src/src/kernel/spinlock.c and the interrupt
    switch of src/src/kernel/riscv.h.

    The first part is the code, one definition per function.  The second part
    is what several CPUs do with it: a step of the machine is one access of
    one CPU to a lock, so that the steps of different CPUs interleave in
    every possible order.  Signed overflow of [noff] is undefined in C and
    not modelled. *)

From S2P Require Import Prelude Ring.

Definition SSTATUS_SIE : Z := Z.shiftl 1 1.

(** [struct cpu] without the scheduler's fields, and the CPU's [sstatus]
    register. *)
Record cpu := Cpu { c_noff : Z; c_intena : bool; c_sstatus : Z }.

(** [lk_cpu] is the index into [cpus], or none for the null pointer. *)
Record spinlock := Lk { lk_locked : bool; lk_cpu : option nat }.

Record machine := Machine { m_cpu : nat -> cpu; m_lk : Z -> spinlock }.

Section code.
(** The CPU that runs the code: [mycpu()]. *)
Context (c : nat).

Definition updc (f : cpu -> cpu) : M machine unit :=
  modify (fun m => Machine (fupd (m_cpu m) c (f (m_cpu m c))) (m_lk m)).
Definition updl (lk : Z) (f : spinlock -> spinlock) : M machine unit :=
  modify (fun m => Machine (m_cpu m) (fun x => if decide (x = lk) then f (m_lk m x) else m_lk m x)).

Definition intr_on : M machine unit :=
  updc (fun x => Cpu (c_noff x) (c_intena x) (Z.lor (c_sstatus x) SSTATUS_SIE)).
Definition intr_off : M machine unit :=
  updc (fun x => Cpu (c_noff x) (c_intena x) (Z.land (c_sstatus x) (Z.lnot SSTATUS_SIE))).
Definition intr_get : M machine bool :=
  gets (fun m => negb (Z.land (c_sstatus (m_cpu m c)) SSTATUS_SIE =? 0)).

Definition push_off : M machine unit :=
  old ← intr_get;
  intr_off;;
  x ← gets (fun m => m_cpu m c);
  when (c_noff x =? 0) (updc (fun x => Cpu (c_noff x) old (c_sstatus x)));;
  updc (fun x => Cpu (c_noff x + 1) (c_intena x) (c_sstatus x)).

Definition pop_off : M machine unit :=
  i ← intr_get;
  if (i : bool) then panic "pop_off - interruptible"
  else
    x ← gets (fun m => m_cpu m c);
    if c_noff x <? 1 then panic "pop_off"
    else
      updc (fun x => Cpu (c_noff x - 1) (c_intena x) (c_sstatus x));;
      x ← gets (fun m => m_cpu m c);
      when ((c_noff x =? 0) && c_intena x) intr_on.

Definition initlock (lk : Z) : M machine unit := updl lk (fun _ => Lk false None).

Definition holding (lk : Z) : M machine bool :=
  gets (fun m => lk_locked (m_lk m lk) && bool_decide (lk_cpu (m_lk m lk) = Some c)).

(** [acquire] up to the loop. *)
Definition acquire_enter (lk : Z) : M machine unit :=
  push_off;;
  h ← holding lk;
  if (h : bool) then panic "acquire" else mret tt.

(** [__sync_lock_test_and_set(&lk->locked, 1)]. *)
Definition test_and_set (lk : Z) : M machine bool :=
  old ← gets (fun m => lk_locked (m_lk m lk));
  updl lk (fun l => Lk true (lk_cpu l));;
  mret old.

Definition acquire_mark (lk : Z) : M machine unit := updl lk (fun l => Lk (lk_locked l) (Some c)).

(** Nobody else runs while this definition does: the loop ends at once or
    never. *)
Fixpoint acquire_spin (fuel : nat) (lk : Z) : M machine unit :=
  match fuel with
  | O => out_of_fuel
  | S f => old ← test_and_set lk; if (old : bool) then acquire_spin f lk else mret tt
  end.

Definition acquire (fuel : nat) (lk : Z) : M machine unit :=
  acquire_enter lk;;
  acquire_spin fuel lk;;
  acquire_mark lk.

(** [release] up to the fence, and [__sync_lock_release]. *)
Definition release_clear (lk : Z) : M machine unit :=
  h ← holding lk;
  if negb h then panic "release" else updl lk (fun l => Lk (lk_locked l) None).

Definition release_unlock (lk : Z) : M machine unit := updl lk (fun l => Lk false (lk_cpu l)).

Definition release (lk : Z) : M machine unit :=
  release_clear lk;;
  release_unlock lk;;
  pop_off.
End code.

(** ** CPUs in parallel *)

(** Where a CPU is: outside these functions, in the loop of [acquire], before
    its last statement, between the two stores of [release], before the
    [pop_off] of [release]. *)
Inductive pc := Run | Spin (lk : Z) | Got (lk : Z) | Rel (lk : Z) | Pop.

(** What a CPU is doing: the locks it has, the number of other [push_off]
    calls it has open, and its position. *)
Record act := Act { a_held : list Z; a_off : nat; a_pc : pc }.

Definition conf : Type := machine * (nat -> act).

Inductive step : conf -> conf -> Prop :=
| st_enter c lk held n m m' a :
    a c = Act held n Run -> acquire_enter c lk m = Ok tt m' ->
    step (m, a) (m', fupd a c (Act held n (Spin lk)))
| st_try c lk held n m m' a old :
    a c = Act held n (Spin lk) -> test_and_set lk m = Ok old m' ->
    step (m, a) (m', fupd a c (Act held n (if (old : bool) then Spin lk else Got lk)))
| st_mark c lk held n m m' a :
    a c = Act held n (Got lk) -> acquire_mark c lk m = Ok tt m' ->
    step (m, a) (m', fupd a c (Act (lk :: held) n Run))
| st_clear c lk held n m m' a :
    a c = Act held n Run -> release_clear c lk m = Ok tt m' ->
    step (m, a) (m', fupd a c (Act (remove Z.eq_dec lk held) n (Rel lk)))
| st_unlock c lk held n m m' a :
    a c = Act held n (Rel lk) -> release_unlock lk m = Ok tt m' ->
    step (m, a) (m', fupd a c (Act held n Pop))
| st_pop c held n m m' a :
    a c = Act held n Pop -> pop_off c m = Ok tt m' ->
    step (m, a) (m', fupd a c (Act held n Run))
| st_push_off c held n m m' a :
    a c = Act held n Run -> push_off c m = Ok tt m' ->
    step (m, a) (m', fupd a c (Act held (S n) Run))
| st_pop_off c held n m m' a :
    a c = Act held (S n) Run -> pop_off c m = Ok tt m' ->
    step (m, a) (m', fupd a c (Act held n Run))
| st_intr c (on : bool) m m' a :
    a c = Act [] 0 Run -> (if on then intr_on c else intr_off c) m = Ok tt m' ->
    step (m, a) (m', a).

(** Every lock free, no CPU inside. *)
Definition initial (x : conf) : Prop :=
  (forall lk, m_lk x.1 lk = Lk false None) /\
  forall c, c_noff (m_cpu x.1 c) = 0 /\ x.2 c = Act [] 0 Run.

(** The locks a CPU owns: from the atomic swap that took them to the store
    that gives them back. *)
Definition owned (x : act) : list Z :=
  a_held x ++ match a_pc x with Got lk | Rel lk => [lk] | _ => [] end.

(** The number of [push_off] calls a CPU has open. *)
Definition depth (x : act) : Z :=
  Z.of_nat (length (a_held x) + a_off x + match a_pc x with Run => 0 | _ => 1 end).

Definition intr (m : machine) (c : nat) : bool := negb (Z.land (c_sstatus (m_cpu m c)) SSTATUS_SIE =? 0).

Record lock_inv (x : conf) : Prop := {
  li_nodup : forall c, NoDup (owned (x.2 c));
  li_excl : forall c c' lk, lk ∈ owned (x.2 c) -> lk ∈ owned (x.2 c') -> c = c';
  li_locked : forall lk, lk_locked (m_lk x.1 lk) = true <-> exists c, lk ∈ owned (x.2 c);
  li_cpu : forall lk c, lk_cpu (m_lk x.1 lk) = Some c <-> lk ∈ a_held (x.2 c);
  li_noff : forall c, c_noff (m_cpu x.1 c) = depth (x.2 c);
  li_intr : forall c, depth (x.2 c) <> 0 -> intr x.1 c = false;
  li_spin : forall c lk, a_pc (x.2 c) = Spin lk -> lk ∉ a_held (x.2 c) }.

(** ** The invariant holds in every reachable state *)

Lemma intr_testbit m c : intr m c = Z.testbit (c_sstatus (m_cpu m c)) 1.
Proof. apply (land_pow2_testbit _ 1). lia. Qed.

(** [m'] is [m] but for CPU [c]. *)
Definition only_cpu (c : nat) (m m' : machine) : Prop :=
  (forall lk, m_lk m' lk = m_lk m lk) /\ forall c', c' <> c -> m_cpu m' c' = m_cpu m c'.

Ltac mproj := cbn [m_cpu m_lk c_noff c_intena c_sstatus fst snd when].

Lemma push_off_spec c m :
  exists m', push_off c m = Ok tt m' /\ only_cpu c m m' /\
    c_noff (m_cpu m' c) = c_noff (m_cpu m c) + 1 /\ intr m' c = false /\
    c_intena (m_cpu m' c) = (if c_noff (m_cpu m c) =? 0 then intr m c else c_intena (m_cpu m c)).
Proof.
  unfold push_off, intr_get. rewrite gets_bind. fold (intr m c). unfold intr_off, updc. rewrite modify_bind, gets_bind.
  mproj. rewrite fupd_eq. mproj.
  assert (forall x, Z.testbit (Z.land x (Z.lnot SSTATUS_SIE)) 1 = false) as Hoff
    by (intros x; rewrite Z.land_spec; apply andb_false_r).
  destruct (c_noff (m_cpu m c) =? 0); eexists; (split; [reflexivity|]); unfold only_cpu; rewrite !intr_testbit; mproj;
    rewrite !fupd_eq; mproj; rewrite Hoff; (split; [|done]); split; try done; intros c' Hc; by rewrite !fupd_ne.
Qed.

Lemma push_only c m m' : push_off c m = Ok tt m' -> only_cpu c m m'.
Proof. intros H. destruct (push_off_spec c m) as (m1 & H1 & Ho & _). rewrite H1 in H. by injection H as <-. Qed.

Lemma pop_off_spec c m :
  intr m c = false -> 1 <= c_noff (m_cpu m c) ->
  exists m', pop_off c m = Ok tt m' /\ only_cpu c m m' /\
    c_noff (m_cpu m' c) = c_noff (m_cpu m c) - 1 /\ c_intena (m_cpu m' c) = c_intena (m_cpu m c) /\
    intr m' c = ((c_noff (m_cpu m c) =? 1) && c_intena (m_cpu m c)).
Proof.
  intros Hi Hn. unfold pop_off, intr_get. rewrite gets_bind. fold (intr m c). rewrite Hi, gets_bind.
  rewrite (proj2 (Z.ltb_ge _ _) Hn). unfold intr_on, updc. rewrite modify_bind, gets_bind. mproj. rewrite fupd_eq. mproj.
  replace (c_noff (m_cpu m c) - 1 =? 0) with (c_noff (m_cpu m c) =? 1) by (apply eq_true_iff_eq; rewrite !Z.eqb_eq; lia).
  rewrite intr_testbit in Hi.
  destruct ((c_noff (m_cpu m c) =? 1) && c_intena (m_cpu m c)); eexists; (split; [reflexivity|]); unfold only_cpu;
    rewrite !intr_testbit; mproj; rewrite !fupd_eq; mproj; (split; [split; [done|intros c' Hc; by rewrite !fupd_ne]|]);
    (split; [done|]); (split; [done|]); [|done].
  rewrite Z.lor_spec. apply orb_true_r.
Qed.

Lemma holding_run c lk m :
  holding c lk m = Ok (lk_locked (m_lk m lk) && bool_decide (lk_cpu (m_lk m lk) = Some c)) m.
Proof. done. Qed.

(** In a state of the invariant [holding] answers whether the CPU has the
    lock. *)
Lemma holding_inv c lk m a :
  lock_inv (m, a) -> lk_locked (m_lk m lk) && bool_decide (lk_cpu (m_lk m lk) = Some c) = bool_decide (lk ∈ a_held (a c)).
Proof.
  intros H. apply eq_true_iff_eq. rewrite andb_true_iff, !bool_decide_eq_true, (li_cpu _ H). simpl.
  split; [by intros [_ ?]|]. intros Hh. split; [|done]. apply (li_locked _ H). exists c. simpl. unfold owned. set_solver.
Qed.

(** What must be shown after a step of CPU [c] that ends in [x]. *)
Lemma inv_update m a m' c x :
  lock_inv (m, a) -> NoDup (owned x) ->
  (forall c' lk, c' <> c -> lk ∈ owned x -> lk ∉ owned (a c')) ->
  (forall lk, lk_locked (m_lk m' lk) = true <-> lk ∈ owned x \/ exists c', c' <> c /\ lk ∈ owned (a c')) ->
  (forall lk c', lk_cpu (m_lk m' lk) = Some c' <-> lk ∈ a_held (fupd a c x c')) ->
  (forall c', c' <> c -> m_cpu m' c' = m_cpu m c') -> c_noff (m_cpu m' c) = depth x ->
  (depth x <> 0 -> intr m' c = false) -> (forall lk, a_pc x = Spin lk -> lk ∉ a_held x) -> lock_inv (m', fupd a c x).
Proof.
  intros H Hnd Hex Hlk Hcpu Ho Hn Hi Hsp. split; simpl.
  - intros c'. destruct (decide (c' = c)) as [->|]; [by rewrite fupd_eq|]. rewrite fupd_ne by done. apply (li_nodup _ H).
  - intros c1 c2 lk. destruct (decide (c1 = c)) as [->|], (decide (c2 = c)) as [->|];
      rewrite ?fupd_eq, ?fupd_ne by done; try done.
    + intros H1 H2. by destruct (Hex c2 lk).
    + intros H1 H2. by destruct (Hex c1 lk).
    + apply (li_excl _ H).
  - intros lk. rewrite Hlk. split.
    + intros [Hx|(c' & Hc & Hx)]; [exists c; by rewrite fupd_eq|exists c'; by rewrite fupd_ne].
    + intros (c' & Hx). destruct (decide (c' = c)) as [->|]; [rewrite fupd_eq in Hx; by left|].
      rewrite fupd_ne in Hx by done. right. by exists c'.
  - done.
  - intros c'. destruct (decide (c' = c)) as [->|]; [by rewrite fupd_eq|]. rewrite fupd_ne, Ho by done. apply (li_noff _ H).
  - intros c'. destruct (decide (c' = c)) as [->|]; [by rewrite fupd_eq|]. rewrite fupd_ne by done.
    intros Hd. pose proof (li_intr _ H c' Hd) as Hf. unfold intr in *. by rewrite Ho.
  - intros c' lk. destruct (decide (c' = c)) as [->|]; [rewrite fupd_eq; apply Hsp|]. rewrite fupd_ne by done. apply (li_spin _ H).
Qed.

(** The lock table and the locks of the CPU stay. *)
Lemma inv_cpu m a m' c x :
  lock_inv (m, a) -> only_cpu c m m' -> owned x = owned (a c) -> a_held x = a_held (a c) ->
  c_noff (m_cpu m' c) = depth x -> (depth x <> 0 -> intr m' c = false) ->
  (forall lk, a_pc x = Spin lk -> lk ∉ a_held x) -> lock_inv (m', fupd a c x).
Proof.
  intros H [El Ho] Eo Eh Hn Hi Hsp. apply (inv_update m a); try done.
  - rewrite Eo. apply (li_nodup _ H).
  - rewrite Eo. intros c' lk Hc Hx Hx'. apply Hc. by apply (li_excl _ H c' c lk).
  - intros lk. rewrite El, (li_locked _ H). rewrite Eo. split.
    + intros (c' & Hx). destruct (decide (c' = c)) as [->|]; [by left|right; by exists c'].
    + intros [Hx|(c' & _ & Hx)]; [by exists c|by exists c'].
  - intros lk c'. rewrite El, (li_cpu _ H). simpl. destruct (decide (c' = c)) as [->|]; [by rewrite fupd_eq, Eh|by rewrite fupd_ne].
Qed.

Lemma depth_pos x : 0 <= depth x.
Proof. unfold depth. lia. Qed.

Lemma owned_excl m a c c' lk : lock_inv (m, a) -> lk ∈ owned (a c) -> c' <> c -> lk ∉ owned (a c').
Proof. intros H H1 Hc H2. apply Hc. by apply (li_excl _ H c' c lk). Qed.

(** A change of lock [lk] alone, by CPU [c], which keeps its other locks. *)
Lemma inv_lock m a m' c x lk l :
  lock_inv (m, a) -> m_cpu m' = m_cpu m ->
  (forall y, m_lk m' y = if decide (y = lk) then l else m_lk m y) ->
  NoDup (owned x) -> (forall y, y <> lk -> y ∈ owned x <-> y ∈ owned (a c)) ->
  (forall c', c' <> c -> lk ∉ owned (a c')) ->
  lk_locked l = bool_decide (lk ∈ owned x) ->
  lk_cpu l = (if bool_decide (lk ∈ a_held x) then Some c else None) ->
  (forall y, y <> lk -> y ∈ a_held x <-> y ∈ a_held (a c)) ->
  depth x = depth (a c) -> (forall lk, a_pc x <> Spin lk) -> lock_inv (m', fupd a c x).
Proof.
  intros H Ec El Hnd Ho Hfree Hlo Hcp Hh Hd Hsp. apply (inv_update m a); try done.
  - intros c' y Hc Hy. destruct (decide (y = lk)) as [->|]; [by apply Hfree|].
    apply (owned_excl m a c); [done|by apply Ho|done].
  - intros y. rewrite El. destruct (decide (y = lk)) as [->|Hne].
    + rewrite Hlo, bool_decide_eq_true. split; [by left|]. intros [|(c' & Hc & Hy)]; [done|]. by destruct (Hfree c').
    + rewrite (li_locked _ H), Ho by done. simpl. split.
      * intros (c' & Hx). destruct (decide (c' = c)) as [->|]; [by left|right; by exists c'].
      * intros [Hx|(c' & _ & Hx)]; [by exists c|by exists c'].
  - intros y c'. rewrite El. destruct (decide (y = lk)) as [->|Hne].
    + rewrite Hcp. case_bool_decide as Hb; destruct (decide (c' = c)) as [->|Hc]; rewrite ?fupd_eq, ?fupd_ne by done;
        split; intros Hx; simplify_eq; try done.
      * exfalso. apply (Hfree c' Hc). unfold owned. set_solver.
      * exfalso. apply (Hfree c' Hc). unfold owned. set_solver.
    + rewrite (li_cpu _ H). simpl. destruct (decide (c' = c)) as [->|]; [rewrite fupd_eq; symmetry; by apply Hh|by rewrite fupd_ne].
  - intros c' _. by rewrite Ec.
  - rewrite Ec, Hd. apply (li_noff _ H).
  - intros Hx. rewrite Hd in Hx. pose proof (li_intr _ H c Hx) as Hf. unfold intr in *. by rewrite Ec.
  - intros y Hy. by destruct (Hsp y).
Qed.

Lemma elem_of_remove (x y : Z) l : x ∈ remove Z.eq_dec y l <-> x ∈ l /\ x <> y.
Proof.
  rewrite !list_elem_of_In. split; [apply in_remove|]. intros [H1 H2]. by apply in_in_remove.
Qed.

Lemma NoDup_remove_Z (y : Z) l : NoDup l -> NoDup (remove Z.eq_dec y l).
Proof.
  intros Hn. induction Hn as [|z l Hz Hn IH]; simpl; [constructor|]. destruct (Z.eq_dec y z); [done|].
  constructor; [|done]. rewrite elem_of_remove. tauto.
Qed.

Lemma length_remove_Z (y : Z) l : NoDup l -> y ∈ l -> S (length (remove Z.eq_dec y l)) = length l.
Proof.
  intros Hn. induction Hn as [|z l Hz Hn IH]; [by inversion 1|]. simpl. destruct (Z.eq_dec y z) as [->|Hne].
  - intros _. f_equal. rewrite notin_remove; [done|]. by rewrite <- list_elem_of_In.
  - intros [?|Hy]%elem_of_cons; [done|]. simpl. f_equal. by apply IH.
Qed.

Ltac open_act Ha := unfold owned, depth in *; rewrite ?Ha in *; simpl in *.

(** Each kind of step keeps the invariant. *)
Lemma pop_inv c held n k m m' a :
  lock_inv (m, a) -> depth (a c) = depth (Act held n Run) + 1 -> owned (a c) = held -> a_held (a c) = held ->
  k = Act held n Run -> pop_off c m = Ok tt m' -> lock_inv (m', fupd a c k).
Proof.
  intros H Hd Ho Hh -> Hr. pose proof (li_noff _ H c) as Hno. pose proof (depth_pos (Act held n Run)). simpl in Hno.
  destruct (pop_off_spec c m) as (m1 & H1 & Honly & Hn1 & _ & Hi1); [apply (li_intr _ H c); simpl; lia|lia|].
  rewrite H1 in Hr. injection Hr as <-. apply (inv_cpu m a); try done.
  - rewrite Ho. unfold owned. simpl. apply app_nil_r.
  - lia.
  - intros Hx. rewrite Hi1, Hno. by rewrite (proj2 (Z.eqb_neq _ _)) by lia.
Qed.

Lemma push_inv c m m' a k :
  lock_inv (m, a) -> push_off c m = Ok tt m' -> depth k = depth (a c) + 1 -> owned k = owned (a c) ->
  a_held k = a_held (a c) -> (forall lk, a_pc k = Spin lk -> lk ∉ a_held k) -> lock_inv (m', fupd a c k).
Proof.
  intros H Hr Hd Ho Hh Hsp. destruct (push_off_spec c m) as (m1 & H1 & Honly & Hn1 & Hi1 & _). rewrite H1 in Hr. injection Hr as <-.
  apply (inv_cpu m a); try done. rewrite Hn1, Hd. f_equal. apply (li_noff _ H c).
Qed.

Lemma take_inv c lk held n m m' a old :
  lock_inv (m, a) -> a c = Act held n (Spin lk) -> test_and_set lk m = Ok old m' ->
  lock_inv (m', fupd a c (Act held n (if (old : bool) then Spin lk else Got lk))).
Proof.
  intros H Ha Hr. injection Hr as <- <-. pose proof (li_nodup _ H c) as Hnd. simpl in Hnd. rewrite Ha in Hnd. unfold owned in Hnd.
  simpl in Hnd. rewrite app_nil_r in Hnd. destruct (lk_locked (m_lk m lk)) eqn:El.
  - apply (inv_cpu m a); rewrite ?Ha; try done.
    + split; [|done]. intros y. simpl. destruct (decide (y = lk)) as [->|]; [|done]. destruct (m_lk m lk). simpl in *. by subst.
    + etrans; [exact (li_noff _ H c)|]. simpl. by rewrite Ha.
    + intros Hx. apply (li_intr _ H c). simpl. by rewrite Ha.
    + intros y [= <-]. pose proof (li_spin _ H c lk) as Hs. simpl in Hs. rewrite Ha in Hs. by apply Hs.
  - assert (forall c', lk ∉ owned (a c')) as Hf.
    { intros c' Hx. assert (lk_locked (m_lk m lk) = true) by (apply (li_locked _ H); by exists c'). congruence. }
    assert (lk ∉ held) as Hnh by (intros Hx; apply (Hf c); rewrite Ha; unfold owned; set_solver).
    apply (inv_lock m a _ c _ lk (Lk true (lk_cpu (m_lk m lk)))); try done; rewrite ?Ha.
    + intros y. simpl. by destruct (decide (y = lk)) as [->|].
    + unfold owned. simpl. apply NoDup_app. split; [done|]. split; [set_solver|apply NoDup_singleton].
    + intros y Hy. unfold owned. simpl. set_solver.
    + simpl. rewrite bool_decide_true; [done|]. unfold owned. simpl. set_solver.
    + simpl. rewrite bool_decide_false by done. destruct (lk_cpu (m_lk m lk)) as [c'|] eqn:E; [|done].
      apply (li_cpu _ H) in E. destruct (Hf c'). unfold owned. set_solver.
    + done.
    + done.
Qed.

Lemma mark_inv c lk held n m m' a :
  lock_inv (m, a) -> a c = Act held n (Got lk) -> acquire_mark c lk m = Ok tt m' ->
  lock_inv (m', fupd a c (Act (lk :: held) n Run)).
Proof.
  intros H Ha Hr. injection Hr as <-. pose proof (li_nodup _ H c) as Hnd. simpl in Hnd. rewrite Ha in Hnd. unfold owned in Hnd.
  simpl in Hnd. assert (lk ∈ owned (a c)) as Hown by (rewrite Ha; unfold owned; set_solver).
  apply (inv_lock m a _ c _ lk (Lk true (Some c))); try done; rewrite ?Ha.
  - intros y. simpl. destruct (decide (y = lk)) as [->|]; [|done]. f_equal. apply (li_locked _ H). by exists c.
  - unfold owned. simpl. rewrite app_nil_r. apply NoDup_cons. apply NoDup_app in Hnd as (H1 & H2 & _). split; [|done].
    intros Hx. apply (H2 lk Hx). set_solver.
  - intros y Hy. unfold owned. simpl. set_solver.
  - intros c' Hc. by apply (owned_excl m a c).
  - simpl. rewrite bool_decide_true; [done|]. unfold owned. set_solver.
  - simpl. rewrite bool_decide_true; [done|]. set_solver.
  - intros y Hy. simpl. set_solver.
  - unfold depth. simpl. lia.
Qed.

Lemma clear_inv c lk held n m m' a :
  lock_inv (m, a) -> a c = Act held n Run -> release_clear c lk m = Ok tt m' ->
  lk ∈ held /\ lock_inv (m', fupd a c (Act (remove Z.eq_dec lk held) n (Rel lk))).
Proof.
  intros H Ha Hr. pose proof (li_nodup _ H c) as Hnd. simpl in Hnd. rewrite Ha in Hnd. unfold owned in Hnd.
  simpl in Hnd. rewrite app_nil_r in Hnd. unfold release_clear in Hr. rewrite (bind_ok _ _ _ _ _ (holding_run c lk m)) in Hr.
  rewrite (holding_inv c lk m a H), Ha in Hr. simpl in Hr. case_bool_decide as Hh; [|done]. injection Hr as <-. split; [done|].
  assert (lk ∈ owned (a c)) as Hown by (rewrite Ha; unfold owned; set_solver).
  apply (inv_lock m a _ c _ lk (Lk true None)); try done; rewrite ?Ha.
  - intros y. simpl. destruct (decide (y = lk)) as [->|]; [|done]. f_equal. apply (li_locked _ H). by exists c.
  - unfold owned. simpl. apply NoDup_app. split; [by apply NoDup_remove_Z|]. split; [|apply NoDup_singleton].
    intros y Hy. apply elem_of_remove in Hy. set_solver.
  - intros y Hy. unfold owned. simpl. rewrite !elem_of_app, elem_of_remove. set_solver.
  - intros c' Hc. by apply (owned_excl m a c).
  - simpl. rewrite bool_decide_true; [done|]. unfold owned. set_solver.
  - simpl. rewrite bool_decide_false; [done|]. rewrite elem_of_remove. tauto.
  - intros y Hy. simpl. rewrite elem_of_remove. tauto.
  - unfold depth. simpl. pose proof (length_remove_Z lk held Hnd Hh). lia.
Qed.

Lemma unlock_inv c lk held n m m' a :
  lock_inv (m, a) -> a c = Act held n (Rel lk) -> release_unlock lk m = Ok tt m' ->
  lock_inv (m', fupd a c (Act held n Pop)).
Proof.
  intros H Ha Hr. injection Hr as <-. pose proof (li_nodup _ H c) as Hnd. simpl in Hnd. rewrite Ha in Hnd. unfold owned in Hnd.
  simpl in Hnd. apply NoDup_app in Hnd as (Hn1 & Hn2 & _).
  assert (lk ∉ held) as Hnh by (intros Hx; apply (Hn2 lk Hx); set_solver).
  assert (lk ∈ owned (a c)) as Hown by (rewrite Ha; unfold owned; set_solver).
  apply (inv_lock m a _ c _ lk (Lk false None)); try done; rewrite ?Ha.
  - intros y. simpl. destruct (decide (y = lk)) as [->|]; [|done]. f_equal.
    destruct (lk_cpu (m_lk m lk)) as [c'|] eqn:E; [|done]. apply (li_cpu _ H) in E. simpl in E.
    assert (c' = c) as -> by (apply (li_excl _ H c' c lk); [unfold owned; set_solver|done]). by rewrite Ha in E.
  - unfold owned. simpl. by rewrite app_nil_r.
  - intros y Hy. unfold owned. simpl. set_solver.
  - intros c' Hc. by apply (owned_excl m a c).
  - simpl. rewrite bool_decide_false; [done|]. unfold owned. simpl. by rewrite app_nil_r.
  - simpl. by rewrite bool_decide_false.
  - done.
  - done.
Qed.

Lemma intr_inv c (on : bool) m m' a :
  lock_inv (m, a) -> a c = Act [] 0 Run -> (if on then intr_on c else intr_off c) m = Ok tt m' -> lock_inv (m', a).
Proof.
  intros H Ha Hr. assert (exists v, m' = Machine (fupd (m_cpu m) c (Cpu (c_noff (m_cpu m c)) (c_intena (m_cpu m c)) v)) (m_lk m)) as [v ->].
  { destruct on; injection Hr as <-; by eexists. }
  destruct H as [H1 H2 H3 H4 H5 H6 H7]. split; try done; simpl.
  - intros c'. destruct (decide (c' = c)) as [->|]; [rewrite fupd_eq; apply H5|rewrite fupd_ne by done; apply H5].
  - intros c' Hd. destruct (decide (c' = c)) as [->|]; [by rewrite Ha in Hd|].
    pose proof (H6 c' Hd) as Hf. unfold intr in *. simpl in *. by rewrite fupd_ne.
Qed.

Lemma step_inv x y : lock_inv x -> step x y -> lock_inv y.
Proof.
  intros H Hs. destruct Hs as [c lk held n m m' a Ha Hr|c lk held n m m' a old Ha Hr|c lk held n m m' a Ha Hr
    |c lk held n m m' a Ha Hr|c lk held n m m' a Ha Hr|c held n m m' a Ha Hr|c held n m m' a Ha Hr|c held n m m' a Ha Hr
    |c on m m' a Ha Hr].
  - unfold acquire_enter in Hr. destruct (push_off_spec c m) as (m1 & H1 & _).
    rewrite (bind_ok _ _ _ _ _ H1), (bind_ok _ _ _ _ _ (holding_run c lk m1)) in Hr. rewrite (proj1 (push_only c m m1 H1)) in Hr.
    rewrite (holding_inv c lk m a H), Ha in Hr. simpl in Hr. case_bool_decide; [done|].
    injection Hr as <-. apply (push_inv c m); try done; rewrite ?Ha; try done; [unfold depth; simpl; lia|].
    by intros y [= <-].
  - by apply (take_inv c lk held n m).
  - by apply (mark_inv c lk held n m).
  - by apply (clear_inv c lk held n m).
  - by apply (unlock_inv c lk held n m).
  - apply (pop_inv c held n _ m m' a); rewrite ?Ha; try done; [unfold depth; simpl; lia|apply app_nil_r].
  - apply (push_inv c m); try done; rewrite ?Ha; try done. unfold depth. simpl. lia.
  - apply (pop_inv c held n _ m m' a); rewrite ?Ha; try done; [unfold depth; simpl; lia|apply app_nil_r].
  - by apply (intr_inv c on m).
Qed.

Lemma initial_inv x : initial x -> lock_inv x.
Proof.
  intros [Hl Hc]. assert (forall c, x.2 c = Act [] 0 Run) as Ha by (intros c; apply Hc). split; setoid_rewrite Ha.
  - intros _. constructor.
  - intros c c' lk Hx. by apply not_elem_of_nil in Hx.
  - intros lk. rewrite Hl. simpl. split; [done|]. intros [c Hx]. by apply not_elem_of_nil in Hx.
  - intros lk c. rewrite Hl. simpl. split; [done|]. intros Hx. by apply not_elem_of_nil in Hx.
  - intros c. apply Hc.
  - intros c. done.
  - intros c lk. done.
Qed.

Lemma reachable_inv x y : initial x -> rtc step x y -> lock_inv y.
Proof. intros Hi Hr. apply initial_inv in Hi. induction Hr; [done|]. eauto using step_inv. Qed.

(** ** Properties *)

(** C15: mutual exclusion.  In every state that any interleaving of any number
    of CPUs reaches, a lock is owned by at most one CPU, and a CPU that owns a
    lock has its interrupts off. *)
Theorem spinlock_mutex x m a :
  initial x -> rtc step x (m, a) ->
  (forall c c' lk, lk ∈ owned (a c) -> lk ∈ owned (a c') -> c = c') /\
  (forall c lk, lk ∈ owned (a c) -> intr m c = false).
Proof.
  intros Hi Hr. pose proof (reachable_inv _ _ Hi Hr) as H. split; [apply (li_excl _ H)|].
  intros c lk Hl. apply (li_intr _ H c). unfold owned, depth in *. simpl.
  destruct (a_held (a c)) as [|y l]; simpl; [|lia]. destruct (a_pc (a c)); simpl in *; try lia. by apply not_elem_of_nil in Hl.
Qed.

(** When the functions panic.  In every reachable state [acquire] panics
    exactly on a lock the CPU has already and [release] exactly on one it does
    not have, and the [pop_off] that matches an open [push_off] never does. *)
Theorem spinlock_panics x m a c held n :
  initial x -> rtc step x (m, a) ->
  (a c = Act held n Run -> forall lk,
     (acquire_enter c lk m = Panic "acquire" <-> lk ∈ held) /\
     (release_clear c lk m = Panic "release" <-> lk ∉ held)) /\
  (a c = Act held n Pop \/ a c = Act held (S n) Run -> exists m', pop_off c m = Ok tt m').
Proof.
  intros Hi Hr. pose proof (reachable_inv _ _ Hi Hr) as H. split.
  - intros Ha lk. unfold acquire_enter, release_clear. destruct (push_off_spec c m) as (m1 & H1 & [El _] & _).
    rewrite (bind_ok _ _ _ _ _ H1), (bind_ok _ _ _ _ _ (holding_run c lk m1)), (bind_ok _ _ _ _ _ (holding_run c lk m)), El.
    rewrite (holding_inv c lk m a H), Ha. simpl. case_bool_decide; done.
  - intros Ha. assert (0 < depth (a c)) by (destruct Ha as [-> | ->]; unfold depth; simpl; lia).
    destruct (pop_off_spec c m) as (m' & H1 & _); [|pose proof (li_noff _ H c) as Hn; simpl in Hn; lia|by exists m'].
    apply (li_intr _ H c). simpl. lia.
Qed.

(** Waiting makes sense.  A CPU in the loop of [acquire] either gets the
    lock with its next access, or another CPU owns it; it never waits for
    itself. *)
Theorem spinlock_progress x m a c held n lk :
  initial x -> rtc step x (m, a) -> a c = Act held n (Spin lk) ->
  (exists m', test_and_set lk m = Ok false m' /\ step (m, a) (m', fupd a c (Act held n (Got lk)))) \/
  (exists c', c' <> c /\ lk ∈ owned (a c')).
Proof.
  intros Hi Hr Ha. pose proof (reachable_inv _ _ Hi Hr) as H. destruct (lk_locked (m_lk m lk)) eqn:El.
  - right. apply (li_locked _ H) in El as [c' Hc]. exists c'. split; [|done]. intros ->. simpl in Hc. rewrite Ha in Hc.
    pose proof (li_spin _ H c lk) as Hs. simpl in Hs. rewrite Ha in Hs. apply (Hs eq_refl). unfold owned in Hc. simpl in *.
    by rewrite app_nil_r in Hc.
  - left. assert (exists m', test_and_set lk m = Ok false m') as [m' H1].
    { unfold test_and_set. rewrite gets_bind, El. by eexists. }
    exists m'. split; [done|]. by apply (st_try c lk held n m m' a false).
Qed.

Fixpoint times (n : nat) (f : M machine unit) : M machine unit :=
  match n with O => mret tt | S n' => f;; times n' f end.

Lemma push_times c n : forall m, 0 <= c_noff (m_cpu m c) ->
  exists m', times n (push_off c) m = Ok tt m' /\ c_noff (m_cpu m' c) = c_noff (m_cpu m c) + Z.of_nat n /\
    (n <> 0%nat -> intr m' c = false) /\
    (n <> 0%nat -> c_intena (m_cpu m' c) = if c_noff (m_cpu m c) =? 0 then intr m c else c_intena (m_cpu m c)).
Proof.
  induction n as [|n IH]; intros m H0; cbn [times]; [exists m; split; [done|]; split; [lia|done]|].
  destruct (push_off_spec c m) as (m1 & H1 & _ & Hn & Hi & He). rewrite (bind_ok _ _ _ _ _ H1).
  destruct (IH m1) as (m' & H2 & Hn2 & Hi2 & He2); [lia|]. exists m'. split; [done|]. split; [lia|].
  destruct n as [|n]; [injection H2 as <-; by split|]. split; [by auto|]. intros _. rewrite He2 by done.
  rewrite (proj2 (Z.eqb_neq _ _)) by lia. exact He.
Qed.

Lemma pop_times c n : forall m, Z.of_nat n <= c_noff (m_cpu m c) -> (n <> 0%nat -> intr m c = false) ->
  exists m', times n (pop_off c) m = Ok tt m' /\ c_noff (m_cpu m' c) = c_noff (m_cpu m c) - Z.of_nat n /\
    intr m' c = if (c_noff (m_cpu m c) =? Z.of_nat n) && negb (Nat.eqb n 0) then c_intena (m_cpu m c) else intr m c.
Proof.
  induction n as [|n IH]; intros m Hle Hi; cbn [times].
  { exists m. split; [done|]. split; [lia|]. by rewrite andb_false_r. }
  destruct (pop_off_spec c m) as (m1 & H1 & _ & Hn & He & Hi1); [by apply Hi|lia|]. rewrite (bind_ok _ _ _ _ _ H1).
  destruct (IH m1) as (m' & H2 & Hn2 & Hi2); [lia| |].
  { intros Hne. rewrite Hi1, (proj2 (Z.eqb_neq _ _)) by lia. done. }
  exists m'. split; [done|]. split; [lia|]. rewrite Hi2, Hi1, Hn, He, andb_true_r. rewrite (Hi ltac:(done)).
  destruct n as [|n]; simpl Nat.eqb; cbn [negb].
  - rewrite andb_false_r. change (Z.of_nat 1) with 1. by destruct (c_noff (m_cpu m c) =? 1).
  - rewrite andb_true_r. replace (c_noff (m_cpu m c) - 1 =? Z.of_nat (S n)) with (c_noff (m_cpu m c) =? Z.of_nat (S (S n)))
      by (apply eq_true_iff_eq; rewrite !Z.eqb_eq; lia).
    destruct (c_noff (m_cpu m c) =? Z.of_nat (S (S n))); [done|]. by rewrite (proj2 (Z.eqb_neq _ _)) by lia.
Qed.

(** [push_off] and [pop_off] nest.  After [n] of one and [n] of the other
    the nesting depth is what it was, and so is the interrupt flag: on again
    if it was on outside, off if it was off. *)
Theorem push_pop_restores c n m :
  0 <= c_noff (m_cpu m c) -> (c_noff (m_cpu m c) <> 0 -> intr m c = false) ->
  exists m', (times n (push_off c);; times n (pop_off c)) m = Ok tt m' /\
    c_noff (m_cpu m' c) = c_noff (m_cpu m c) /\ intr m' c = intr m c.
Proof.
  intros H0 Hoff. destruct (push_times c n m H0) as (m1 & H1 & Hn1 & Hi1 & He1).
  destruct (pop_times c n m1) as (m2 & H2 & Hn2 & Hi2); [lia|done|].
  exists m2. rewrite (bind_ok _ _ _ _ _ H1). split; [done|]. split; [lia|]. rewrite Hi2, Hn1.
  destruct n as [|n]; [injection H1 as <-; by rewrite andb_false_r|]. rewrite andb_true_r, He1, Hi1 by done.
  destruct (Z.eqb_spec (c_noff (m_cpu m c)) 0) as [E|E].
  - by rewrite (proj2 (Z.eqb_eq _ _)) by lia.
  - rewrite (proj2 (Z.eqb_neq _ _)) by lia. by rewrite Hoff.
Qed.

(** CPU 0 has lock 5, CPU 1 waits for it. *)
Definition ex_init : conf :=
  (Machine (fun _ => Cpu 0 false SSTATUS_SIE) (fun _ => Lk false None), fun _ => Act [] 0 Run).

Lemma ex_initial : initial ex_init.
Proof. done. Qed.

Lemma ex_contended :
  exists m a, rtc step ex_init (m, a) /\ a 0%nat = Act [5] 0 Run /\ a 1%nat = Act [] 0 (Spin 5).
Proof.
  eexists _, _. split.
  - eapply rtc_l; [eapply (st_enter 0 5); reflexivity|].
    eapply rtc_l; [eapply (st_try 0 5); reflexivity|].
    eapply rtc_l; [eapply (st_mark 0 5); reflexivity|].
    eapply rtc_l; [eapply (st_enter 1 5); reflexivity|]. apply rtc_refl.
  - split; reflexivity.
Qed.

Lemma spinlock_mutex_witness : exists m a, rtc step ex_init (m, a) /\ 5 ∈ owned (a 0%nat) /\ intr m 0 = false.
Proof.
  destruct ex_contended as (m & a & Hr & H0 & H1). exists m, a. split; [exact Hr|].
  assert (5 ∈ owned (a 0%nat)) as Ho by (rewrite H0; unfold owned; set_solver). split; [exact Ho|].
  exact (proj2 (spinlock_mutex _ _ _ ex_initial Hr) 0%nat 5 Ho).
Defined.

Lemma spinlock_panics_witness : exists m a, rtc step ex_init (m, a) /\ acquire_enter 0 5 m = Panic "acquire".
Proof.
  destruct ex_contended as (m & a & Hr & H0 & H1). exists m, a. split; [exact Hr|].
  apply (proj1 (spinlock_panics _ _ _ 0 [5] 0 ex_initial Hr) H0 5). set_solver.
Defined.

Lemma spinlock_progress_witness : exists m a c, rtc step ex_init (m, a) /\ c <> 1%nat /\ 5 ∈ owned (a c).
Proof.
  destruct ex_contended as (m & a & Hr & H0 & H1). exists m, a.
  destruct (spinlock_progress _ _ _ 1 [] 0 5 ex_initial Hr H1) as [(m' & Ht & _)|(c & Hc & Ho)].
  - exists 0%nat. split; [exact Hr|]. split; [done|]. rewrite H0. unfold owned. set_solver.
  - exists c. split; [exact Hr|]. by split.
Defined.

Lemma push_pop_restores_witness : exists m', (times 2 (push_off 0);; times 2 (pop_off 0)) ex_init.1 = Ok tt m' /\ intr m' 0 = true.
Proof.
  destruct (push_pop_restores 0 2 ex_init.1) as (m' & H & _ & Hi); [done|done|].
  exists m'. split; [exact H|]. rewrite Hi. reflexivity.
Defined.
