(* ===== verification/Bio.v ===== *)
(** The buffer cache: src/src/kernel/bio.c and buf.h.

    A [struct buf *] is an index: [0 .. NBUF-1] are the elements of
    [bcache.buf] and [NBUF] is [bcache.head], so [prev] and [next] form the
    same circular list as in C.  The static cache is zero-initialised, hence
    the default buffer of the total lookup [!!!].

    The disk is a map from block numbers to contents and [bc_writes] records
    the order in which blocks reach it, so that a crash is a prefix of it.
    [virtio_disk_rw] is the synchronous effect of the disk driver (Virtio.v
    has the driver itself); the [disk] field of [struct buf] belongs to it. *)

From S2P Require Import Prelude Mem Sleeplock.

Definition NBUF : nat := 30.
Definition BSIZE : Z := 1024.
Definition ROOTDEV : Z := 1.

(** The content of [uchar data[BSIZE]]. *)
Abbreviation block := mem.

Record buf := Buf {
  b_valid : bool;
  b_dev : Z;
  b_blockno : Z;
  b_lock : sleeplock;
  b_refcnt : Z;
  b_prev : nat;
  b_next : nat;
  b_data : block }.

#[export] Instance buf_inhabited : Inhabited buf :=
  populate (Buf false 0 0 (Sleeplock false false 0) 0 0 0 ∅).

Definition set_valid v b := Buf v (b_dev b) (b_blockno b) (b_lock b) (b_refcnt b) (b_prev b) (b_next b) (b_data b).
Definition set_key dev no b := Buf (b_valid b) dev no (b_lock b) (b_refcnt b) (b_prev b) (b_next b) (b_data b).
Definition set_block_lock l b := Buf (b_valid b) (b_dev b) (b_blockno b) l (b_refcnt b) (b_prev b) (b_next b) (b_data b).
Definition set_refcnt r b := Buf (b_valid b) (b_dev b) (b_blockno b) (b_lock b) (u32 r) (b_prev b) (b_next b) (b_data b).
Definition set_prev p b := Buf (b_valid b) (b_dev b) (b_blockno b) (b_lock b) (b_refcnt b) p (b_next b) (b_data b).
Definition set_next n b := Buf (b_valid b) (b_dev b) (b_blockno b) (b_lock b) (b_refcnt b) (b_prev b) n (b_data b).
Definition set_data d b := Buf (b_valid b) (b_dev b) (b_blockno b) (b_lock b) (b_refcnt b) (b_prev b) (b_next b) d.

(** The cache, the disk behind it, the current process and the wakeups issued. *)
Record bio := Bio {
  bc_lock : bool;
  bc_buf : gmap nat buf;
  bc_disk : gmap Z block;
  bc_writes : list (Z * block);
  bc_pid : Z;
  bc_woken : list chan }.

Definition set_bc_lock v s := Bio v (bc_buf s) (bc_disk s) (bc_writes s) (bc_pid s) (bc_woken s).
Definition set_bc_buf v s := Bio (bc_lock s) v (bc_disk s) (bc_writes s) (bc_pid s) (bc_woken s).
Definition set_bc_disk v w s := Bio (bc_lock s) (bc_buf s) v w (bc_pid s) (bc_woken s).
Definition set_bc_woken v s := Bio (bc_lock s) (bc_buf s) (bc_disk s) (bc_writes s) (bc_pid s) v.

Definition getb (i : nat) (s : bio) : buf := bc_buf s !!! i.
Definition putb (i : nat) (b : buf) (s : bio) : bio := set_bc_buf (<[i := b]> (bc_buf s)) s.
Definition updb (i : nat) (f : buf -> buf) (s : bio) : bio := putb i (f (getb i s)) s.

#[export] Instance bio_wakeup : Wakeup bio := fun ch =>
  modify (fun s => set_bc_woken (ch :: bc_woken s) s).

(** The sleep lock of buffer [i]. *)
Definition buf_lock (i : nat) (s : bio) : sleeplock := b_lock (getb i s).
Definition set_buf_lock (i : nat) (l : sleeplock) (s : bio) : bio := updb i (set_block_lock l) s.
Definition buf_chan (i : nat) : chan := Chan "buf.lock" (Z.of_nat i).

Definition bc_acquire : M bio unit := acquire bc_lock set_bc_lock.
Definition bc_release : M bio unit := release bc_lock set_bc_lock.

(** The effect of the driver on [b->data] and the disk. *)
Definition virtio_disk_rw (i : nat) (write : bool) : M bio unit :=
  b ← gets (getb i);
  if write then
    modify (fun s => set_bc_disk (<[b_blockno b := b_data b]> (bc_disk s))
                                 (bc_writes s ++ [(b_blockno b, b_data b)]) s)
  else
    modify (fun s => updb i (set_data (bc_disk s !!! b_blockno b)) s).

(** ** bio.c *)

(** [b->next->prev = b->prev; b->prev->next = b->next;] *)
Definition list_unlink (i : nat) : M bio unit :=
  bb ← gets (getb i);
  modify (updb (b_next bb) (set_prev (b_prev bb)));;
  bb ← gets (getb i);
  modify (updb (b_prev bb) (set_next (b_next bb))).

(** Insert [b] right behind the head of the list. *)
Definition list_push_front (i : nat) : M bio unit :=
  h ← gets (getb NBUF);
  modify (updb i (set_next (b_next h)));;
  modify (updb i (set_prev NBUF));;
  h ← gets (getb NBUF);
  modify (updb (b_next h) (set_prev i));;
  modify (updb NBUF (set_next i)).

Definition binit : M bio unit :=
  modify (set_bc_lock false);;
  modify (updb NBUF (set_prev NBUF));;
  modify (updb NBUF (set_next NBUF));;
  for_loop NBUF 0 (fun i =>
    let b := Z.to_nat i in
    h ← gets (getb NBUF);
    modify (updb b (set_next (b_next h)));;
    modify (updb b (set_prev NBUF));;
    zoom (buf_lock b) (set_buf_lock b) initsleeplock;;
    h ← gets (getb NBUF);
    modify (updb (b_next h) (set_prev b));;
    modify (updb NBUF (set_next b));;
    mret (None (A := unit)));;
  mret tt.

(** [for(b = head.next; b != &head; b = b->next)]: the block is cached? *)
Fixpoint bget_cached (fuel b : nat) (dev blockno : Z) : M bio (option nat) :=
  match fuel with
  | O => out_of_fuel
  | S f =>
      if decide (b = NBUF) then mret None
      else
        bb ← gets (getb b);
        if (b_dev bb =? dev) && (b_blockno bb =? blockno) then mret (Some b)
        else bget_cached f (b_next bb) dev blockno
  end.

(** [for(b = head.prev; b != &head; b = b->prev)]: the least recently used
    buffer with no reference. *)
Fixpoint bget_unused (fuel b : nat) : M bio (option nat) :=
  match fuel with
  | O => out_of_fuel
  | S f =>
      if decide (b = NBUF) then mret None
      else
        bb ← gets (getb b);
        if b_refcnt bb =? 0 then mret (Some b) else bget_unused f (b_prev bb)
  end.

Definition buf_acquiresleep (b : nat) : M bio unit :=
  pid ← gets bc_pid;
  zoom (buf_lock b) (set_buf_lock b) (acquiresleep pid (buf_chan b)).

Definition buf_holdingsleep (b : nat) : M bio bool :=
  pid ← gets bc_pid;
  zoom (buf_lock b) (set_buf_lock b) (holdingsleep pid).

Definition bget (dev blockno : Z) : M bio nat :=
  bc_acquire;;
  h ← gets (getb NBUF);
  r ← bget_cached (S NBUF) (b_next h) dev blockno;
  match r with
  | Some b =>
      modify (updb b (fun bb => set_refcnt (b_refcnt bb + 1) bb));;
      bc_release;;
      buf_acquiresleep b;;
      mret b
  | None =>
      h ← gets (getb NBUF);
      r ← bget_unused (S NBUF) (b_prev h);
      match r with
      | Some b =>
          modify (updb b (set_key dev blockno));;
          modify (updb b (set_valid false));;
          modify (updb b (set_refcnt 1));;
          bc_release;;
          buf_acquiresleep b;;
          mret b
      | None => panic "bget: no buffers"
      end
  end.

Definition bread (dev blockno : Z) : M bio nat :=
  b ← bget dev blockno;
  bb ← gets (getb b);
  when (negb (b_valid bb))
    (virtio_disk_rw b false;; modify (updb b (set_valid true)));;
  mret b.

Definition bwrite (b : nat) : M bio unit :=
  h ← buf_holdingsleep b;
  if negb h then panic "bwrite" else virtio_disk_rw b true.

Definition brelse (b : nat) : M bio unit :=
  h ← buf_holdingsleep b;
  if negb h then panic "brelse"
  else
    releasesleep (buf_lock b) (set_buf_lock b) (buf_chan b);;
    bc_acquire;;
    modify (updb b (fun bb => set_refcnt (b_refcnt bb - 1) bb));;
    bb ← gets (getb b);
    when (b_refcnt bb =? 0) (list_unlink b;; list_push_front b);;
    bc_release.

Definition bpin (b : nat) : M bio unit :=
  bc_acquire;;
  modify (updb b (fun bb => set_refcnt (b_refcnt bb + 1) bb));;
  bc_release.

Definition bunpin (b : nat) : M bio unit :=
  bc_acquire;;
  modify (updb b (fun bb => set_refcnt (b_refcnt bb - 1) bb));;
  bc_release.

(** The cache and disk at boot. *)
Definition boot (d : gmap Z block) (pid : Z) : bio := Bio false ∅ d [] pid [].
