(* ===== verification/BioSpec.v ===== *)
(** The buffer cache keeps its invariant and shows each disk block's logical
    content: the cached copy if there is one, the disk otherwise. *)

From S2P Require Import Prelude Mem Sleeplock Ring Bio.

Definition nx (s : bio) (i : nat) : nat := b_next (getb i s).
Definition pv (s : bio) (i : nat) : nat := b_prev (getb i s).
Definition locked (s : bio) (i : nat) : bool := sl_locked (b_lock (getb i s)).

Lemma getb_updb i f s j :
  getb j (updb i f s) = if decide (i = j) then f (getb i s) else getb j s.
Proof.
  unfold getb, updb, putb. simpl. destruct (decide (i = j)) as [->|].
  - by rewrite lookup_total_insert_eq.
  - by rewrite lookup_total_insert_ne.
Qed.

Lemma getb_updb_eq i f s : getb i (updb i f s) = f (getb i s).
Proof. rewrite getb_updb. by rewrite decide_True. Qed.
Lemma getb_updb_ne i f s j : i <> j -> getb j (updb i f s) = getb j s.
Proof. intros. rewrite getb_updb. by rewrite decide_False. Qed.

Lemma updb_updb i f g s : updb i f (updb i g s) = updb i (fun b => f (g b)) s.
Proof.
  unfold updb at 1. rewrite getb_updb_eq. unfold updb, putb, set_bc_buf. simpl.
  by rewrite insert_insert_eq.
Qed.

Lemma updb_ext i f g s : f (getb i s) = g (getb i s) -> updb i f s = updb i g s.
Proof. unfold updb. by intros ->. Qed.

Lemma updb_lock i f s v : updb i f (set_bc_lock v s) = set_bc_lock v (updb i f s).
Proof. done. Qed.

(** Cached block [bn] sits in buffer [i]. *)
Definition is_cached (s : bio) (bn : Z) (i : nat) : Prop :=
  (i < NBUF)%nat /\ b_dev (getb i s) = ROOTDEV /\ b_blockno (getb i s) = bn.

Definition key_match (s : bio) (dev bn : Z) (i : nat) : bool :=
  (b_dev (getb i s) =? dev) && (b_blockno (getb i s) =? bn).

Definition cached (s : bio) (bn : Z) : option nat :=
  List.find (key_match s ROOTDEV bn) (seq 0 NBUF).

(** The logical content of block [bn]. *)
Definition view (s : bio) (bn : Z) : block :=
  match cached s bn with
  | Some i => b_data (getb i s)
  | None => bc_disk s !!! bn
  end.

(** The invariant between calls of one thread: [l] is the ring in order of
    use, [P] the pinned buffers. *)
Record binv (s : bio) (l : list nat) (P : gset nat) : Prop := {
  bi_lock : bc_lock s = false;
  bi_ring : ring (nx s) (pv s) NBUF l;
  bi_perm : l ≡ₚ seq 0 NBUF;
  bi_idle : forall i, (i < NBUF)%nat -> sl_lk (b_lock (getb i s)) = false;
  bi_ref : forall i, (i < NBUF)%nat ->
    b_refcnt (getb i s) = Z.b2z (locked s i) + (if decide (i ∈ P) then 1 else 0);
  bi_pid : forall i, (i < NBUF)%nat -> locked s i = true -> sl_pid (b_lock (getb i s)) = bc_pid s;
  bi_key : forall i j bn, is_cached s bn i -> is_cached s bn j -> i = j;
  bi_dev : forall i, (i < NBUF)%nat ->
    b_dev (getb i s) = 0 \/ (b_dev (getb i s) = ROOTDEV /\ b_valid (getb i s) = true);
  bi_used : forall i, (i < NBUF)%nat -> b_refcnt (getb i s) <> 0 -> b_dev (getb i s) = ROOTDEV;
  bi_clean : forall i bn, is_cached s bn i -> b_refcnt (getb i s) = 0 ->
    b_data (getb i s) = bc_disk s !!! bn }.

(** Buffer [i] is locked by the current thread and holds block [bn]. *)
Definition holds (s : bio) (i : nat) (bn : Z) : Prop :=
  is_cached s bn i /\ locked s i = true.

Lemma find_Some_iff {A} (f : A -> bool) l x :
  (forall y z, y ∈ l -> z ∈ l -> f y = true -> f z = true -> y = z) ->
  List.find f l = Some x <-> x ∈ l /\ f x = true.
Proof.
  intros Huniq. split.
  - intros H. apply List.find_some in H. by rewrite list_elem_of_In.
  - intros [Hx Hf]. destruct (List.find f l) as [y|] eqn:E.
    + apply List.find_some in E as [Hy Hfy]. f_equal. apply Huniq; [by rewrite list_elem_of_In|done..].
    + rewrite list_elem_of_In in Hx. apply (List.find_none f l E) in Hx. congruence.
Qed.

Section inv.
Context (s : bio) (l : list nat) (P : gset nat) (Hinv : binv s l P).

Lemma binv_elem i : i ∈ l <-> (i < NBUF)%nat.
Proof. rewrite (bi_perm _ _ _ Hinv). rewrite elem_of_seq. lia. Qed.

Lemma key_match_cached bn i :
  key_match s ROOTDEV bn i = true /\ (i < NBUF)%nat <-> is_cached s bn i.
Proof. unfold key_match, is_cached. rewrite andb_true_iff, !Z.eqb_eq. tauto. Qed.

Lemma find_key_Some bn i l' :
  (forall j, j ∈ l' <-> (j < NBUF)%nat) ->
  List.find (key_match s ROOTDEV bn) l' = Some i <-> is_cached s bn i.
Proof.
  intros Hl'. rewrite find_Some_iff.
  - rewrite Hl', <- key_match_cached. tauto.
  - intros y z Hy Hz Hfy Hfz. rewrite Hl' in Hy, Hz.
    apply (bi_key _ _ _ Hinv _ _ bn); by apply key_match_cached.
Qed.

Lemma cached_Some bn i : cached s bn = Some i <-> is_cached s bn i.
Proof. apply find_key_Some. intros j. rewrite elem_of_seq. lia. Qed.

Lemma find_key_l bn : List.find (key_match s ROOTDEV bn) l = cached s bn.
Proof.
  destruct (cached s bn) as [i|] eqn:E.
  - apply cached_Some in E. apply find_key_Some; [apply binv_elem|done].
  - destruct (List.find _ l) as [i|] eqn:E'; [|done].
    apply (find_key_Some bn i l binv_elem) in E'. apply cached_Some in E'. congruence.
Qed.

Lemma cached_None bn : cached s bn = None <-> forall i, ~ is_cached s bn i.
Proof.
  split.
  - intros E i Hi. apply cached_Some in Hi. congruence.
  - intros H. destruct (cached s bn) as [i|] eqn:E; [|done].
    apply cached_Some in E. by apply H in E.
Qed.

Lemma view_cached bn i : is_cached s bn i -> view s bn = b_data (getb i s).
Proof. intros H. unfold view. apply cached_Some in H. by rewrite H. Qed.

Lemma view_uncached bn : (forall i, ~ is_cached s bn i) -> view s bn = bc_disk s !!! bn.
Proof. intros H. unfold view. apply cached_None in H. by rewrite H. Qed.
End inv.

(** ** The two scans of [bget] *)

Lemma bget_cached_scan fuel s x l dev bn :
  chain (nx s) x l NBUF -> NBUF ∉ l -> (length l < fuel)%nat ->
  bget_cached fuel (nx s x) dev bn s = Ok (List.find (key_match s dev bn) l) s.
Proof.
  revert fuel x. induction l as [|a t IH]; intros fuel x Hc Hn Hf;
    (destruct fuel as [|f]; [simpl in Hf; lia|]); cbn [bget_cached]; simpl in Hc.
  - rewrite Hc. by rewrite decide_True.
  - destruct Hc as [Hx Hc]. rewrite Hx. rewrite decide_False by set_solver.
    rewrite gets_bind. cbn [List.find].
    change ((b_dev (getb a s) =? dev) && (b_blockno (getb a s) =? bn)) with (key_match s dev bn a).
    destruct (key_match s dev bn a); [done|].
    apply IH; [done|set_solver|simpl in Hf; lia].
Qed.

Lemma bget_unused_scan fuel s x l :
  chain (pv s) x l NBUF -> NBUF ∉ l -> (length l < fuel)%nat ->
  bget_unused fuel (pv s x) s = Ok (List.find (fun i => b_refcnt (getb i s) =? 0) l) s.
Proof.
  revert fuel x. induction l as [|a t IH]; intros fuel x Hc Hn Hf;
    (destruct fuel as [|f]; [simpl in Hf; lia|]); cbn [bget_unused]; simpl in Hc.
  - rewrite Hc. by rewrite decide_True.
  - destruct Hc as [Hx Hc]. rewrite Hx. rewrite decide_False by set_solver.
    rewrite gets_bind. cbn [List.find].
    destruct (b_refcnt (getb a s) =? 0); [done|].
    apply IH; [done|set_solver|simpl in Hf; lia].
Qed.

(** ** Exact outcomes of the operations *)

Lemma bc_relock (s : bio) f i :
  bc_lock s = false -> set_bc_lock false (updb i f (set_bc_lock true s)) = updb i f s.
Proof. destruct s. simpl. by intros ->. Qed.

Lemma buf_acquiresleep_free i s :
  sl_lk (b_lock (getb i s)) = false -> locked s i = false ->
  buf_acquiresleep i s = Ok tt (updb i (set_block_lock (sl_held_by (bc_pid s))) s).
Proof.
  intros Hlk Hl. unfold buf_acquiresleep. rewrite gets_bind. unfold zoom.
  unfold buf_lock at 1. by rewrite acquiresleep_free.
Qed.

Lemma buf_acquiresleep_busy i s :
  sl_lk (b_lock (getb i s)) = false -> locked s i = true ->
  exists s', buf_acquiresleep i s = Sleep (buf_chan i) s'.
Proof.
  intros Hlk Hl. unfold buf_acquiresleep. rewrite gets_bind. unfold zoom.
  unfold buf_lock at 1. rewrite acquiresleep_held; [eauto|done|done].
Qed.

(** The part of [bget] before the sleep lock is taken. *)
Definition hit_buf (bb : buf) : buf := set_refcnt (b_refcnt bb + 1) bb.
Definition miss_buf (dev bn : Z) (bb : buf) : buf :=
  set_refcnt 1 (set_valid false (set_key dev bn bb)).

Section bget.
Context (s : bio) (l : list nat) (P : gset nat) (Hinv : binv s l P).

Lemma perm_length : length l = NBUF.
Proof. rewrite (bi_perm _ _ _ Hinv). apply length_seq. Qed.

Lemma bget_found bn i :
  is_cached s bn i ->
  bget ROOTDEV bn s = (buf_acquiresleep i;; mret i) (updb i hit_buf s).
Proof.
  intros Hc. unfold bget, bc_acquire, acquire.
  destruct (ring_nodup _ _ _ _ (bi_ring _ _ _ Hinv)) as [_ Hn].
  destruct (bi_ring _ _ _ Hinv) as (_ & Hch & _).
  unfold mbind at 1, M_bind at 1. rewrite (bi_lock _ _ _ Hinv). rewrite gets_bind.
  assert (Hscan := bget_cached_scan (S NBUF) (set_bc_lock true s) NBUF l ROOTDEV bn Hch Hn).
  rewrite perm_length in Hscan. specialize (Hscan (Nat.lt_succ_diag_r _)).
  change (List.find (key_match (set_bc_lock true s) ROOTDEV bn) l)
    with (List.find (key_match s ROOTDEV bn) l) in Hscan.
  rewrite (find_key_l _ _ _ Hinv), (proj2 (cached_Some _ _ _ Hinv _ _) Hc) in Hscan.
  mstep Hscan. rewrite modify_bind.
  unfold bc_release, release, mbind at 1, M_bind at 1. simpl (bc_lock _).
  rewrite bc_relock by apply Hinv. done.
Qed.

Lemma bget_scan_unused bn :
  cached s bn = None ->
  bget ROOTDEV bn s =
    match List.find (fun i => b_refcnt (getb i s) =? 0) (rev l) with
    | Some i => (buf_acquiresleep i;; mret i) (updb i (miss_buf ROOTDEV bn) s)
    | None => Panic "bget: no buffers"
    end.
Proof.
  intros Hc. unfold bget, bc_acquire, acquire.
  destruct (ring_nodup _ _ _ _ (bi_ring _ _ _ Hinv)) as [_ Hn].
  destruct (bi_ring _ _ _ Hinv) as (_ & Hch & Hcp).
  unfold mbind at 1, M_bind at 1. rewrite (bi_lock _ _ _ Hinv). rewrite gets_bind.
  assert (Hscan := bget_cached_scan (S NBUF) (set_bc_lock true s) NBUF l ROOTDEV bn Hch Hn).
  rewrite perm_length in Hscan. specialize (Hscan (Nat.lt_succ_diag_r _)).
  change (List.find (key_match (set_bc_lock true s) ROOTDEV bn) l)
    with (List.find (key_match s ROOTDEV bn) l) in Hscan.
  rewrite (find_key_l _ _ _ Hinv), Hc in Hscan.
  mstep Hscan. rewrite gets_bind.
  assert (NBUF ∉ rev l) as Hn' by (rewrite list_elem_of_In, <- in_rev, <- list_elem_of_In; done).
  assert (Hun := bget_unused_scan (S NBUF) (set_bc_lock true s) NBUF (rev l) Hcp Hn').
  rewrite length_rev, perm_length in Hun. specialize (Hun (Nat.lt_succ_diag_r _)).
  change (List.find (fun i => b_refcnt (getb i (set_bc_lock true s)) =? 0) (rev l))
    with (List.find (fun i => b_refcnt (getb i s) =? 0) (rev l)) in Hun.
  mstep Hun. destruct (List.find _ (rev l)) as [i|]; [|done].
  rewrite !modify_bind, !updb_updb.
  unfold bc_release, release, mbind at 1, M_bind at 1. simpl (bc_lock _).
  rewrite bc_relock by apply Hinv. done.
Qed.
End bget.

(** ** Preservation: changing one buffer, links aside *)

(** What the invariant asks of a single buffer. *)
Definition buf_ok (pid : Z) (pinned : bool) (b : buf) : Prop :=
  sl_lk (b_lock b) = false /\
  b_refcnt b = Z.b2z (sl_locked (b_lock b)) + (if pinned then 1 else 0) /\
  (sl_locked (b_lock b) = true -> sl_pid (b_lock b) = pid) /\
  (b_dev b = 0 \/ (b_dev b = ROOTDEV /\ b_valid b = true)) /\
  (b_refcnt b <> 0 -> b_dev b = ROOTDEV).

Lemma binv_buf_ok s l P i :
  binv s l P -> (i < NBUF)%nat -> buf_ok (bc_pid s) (bool_decide (i ∈ P)) (getb i s).
Proof.
  intros H Hi. split_and!.
  - by apply H.
  - rewrite (bi_ref _ _ _ H i Hi). unfold locked.
    rewrite bool_decide_decide. by destruct (decide (i ∈ P)).
  - by apply (bi_pid _ _ _ H).
  - by apply (bi_dev _ _ _ H).
  - by apply (bi_used _ _ _ H).
Qed.

Lemma binv_change s s' l P P' i :
  binv s l P -> (i < NBUF)%nat ->
  bc_lock s' = false -> bc_pid s' = bc_pid s ->
  (forall j, j <> i -> getb j s' = getb j s) ->
  nx s' i = nx s i -> pv s' i = pv s i ->
  (forall j, j <> i -> j ∈ P' <-> j ∈ P) ->
  buf_ok (bc_pid s) (bool_decide (i ∈ P')) (getb i s') ->
  (forall j bn, j <> i -> is_cached s' bn i -> ~ is_cached s bn j) ->
  (forall j bn, is_cached s' bn j -> b_refcnt (getb j s') = 0 ->
     b_data (getb j s') = bc_disk s' !!! bn) ->
  binv s' l P'.
Proof.
  intros H Hi Hlock Hpid Hother Hnx Hpv HP Hok Hkey Hclean.
  assert (forall j, buf_ok (bc_pid s') (bool_decide (j ∈ P')) (getb j s') \/ (NBUF <= j)%nat) as Hall.
  { intros j. rewrite Hpid. destruct (decide (j = i)) as [->|Hj]; [by left|].
    destruct (decide (j < NBUF)%nat); [left|right; lia].
    rewrite Hother by done. rewrite (bool_decide_ext _ (j ∈ P)) by by apply HP.
    by eapply binv_buf_ok. }
  split; try done.
  - apply (ring_ext (nx s) (pv s)); [| |apply H].
    + intros j. destruct (decide (j = i)) as [->|Hj]; [done|]. unfold nx. by rewrite Hother.
    + intros j. destruct (decide (j = i)) as [->|Hj]; [done|]. unfold pv. by rewrite Hother.
  - apply H.
  - intros j Hj. destruct (Hall j) as [(?&_)|]; [done|lia].
  - intros j Hj. destruct (Hall j) as [(_&Hr&_)|]; [|lia]. rewrite Hr. unfold locked.
    rewrite bool_decide_decide. by destruct (decide (j ∈ P')).
  - intros j Hj Hl. destruct (Hall j) as [(_&_&Hp&_)|]; [by apply Hp|lia].
  - intros j k bn Hcj Hck.
    assert (forall x, x <> i -> is_cached s' bn x -> is_cached s bn x) as Hsame.
    { intros x Hx. unfold is_cached. by rewrite Hother. }
    destruct (decide (j = i)) as [->|Hj], (decide (k = i)) as [->|Hk]; [done| | |].
    + exfalso. eapply (Hkey k bn); eauto.
    + exfalso. eapply (Hkey j bn); eauto.
    + eapply (bi_key _ _ _ H); eauto.
  - intros j Hj. destruct (Hall j) as [(_&_&_&Hd&_)|]; [by apply Hd|lia].
  - intros j Hj Hr. destruct (Hall j) as [(_&_&_&_&Hu)|]; [by apply Hu|lia].
Qed.

(** The view of a state that differs from [s] in buffer [i]. *)
Lemma view_change s s' l l' P P' i bn :
  binv s l P -> binv s' l' P' ->
  bc_disk s' !!! bn = bc_disk s !!! bn ->
  (forall j, j <> i -> getb j s' = getb j s) ->
  ~ is_cached s bn i -> ~ is_cached s' bn i -> view s' bn = view s bn.
Proof.
  intros H H' Hd Hother Hi Hi'.
  assert (forall j, is_cached s' bn j <-> is_cached s bn j) as Hiff.
  { intros j. destruct (decide (j = i)) as [->|Hj]; [tauto|].
    unfold is_cached. by rewrite Hother. }
  destruct (cached s bn) as [j|] eqn:E.
  - apply (cached_Some _ _ _ H) in E.
    rewrite (view_cached _ _ _ H _ _ E).
    rewrite (view_cached _ _ _ H' _ _ (proj2 (Hiff j) E)).
    rewrite Hother; [done|]. intros ->. done.
  - assert (forall j, ~ is_cached s bn j) as Hn by by apply (cached_None _ _ _ H).
    rewrite (view_uncached _ _ _ H _ Hn).
    rewrite (view_uncached _ _ _ H'); [done|]. intros j. rewrite Hiff. apply Hn.
Qed.

(** ** Specifications of the operations *)

Definition disk_same (s s' : bio) : Prop :=
  bc_disk s' = bc_disk s /\ bc_writes s' = bc_writes s /\ bc_pid s' = bc_pid s.

(** A buffer can be had for block [bn]. *)
Definition available (s : bio) (bn : Z) : Prop :=
  is_Some (cached s bn) \/ exists i, (i < NBUF)%nat /\ b_refcnt (getb i s) = 0.

(** What [bread] promises: the buffer of block [bn], locked, with the block's
    logical content; nothing else visible has changed. *)
Definition bread_post (s : bio) (l : list nat) (P : gset nat) (bn : Z) (i : nat) (s' : bio) : Prop :=
  binv s' l P /\ holds s' i bn /\ b_data (getb i s') = view s bn /\
  (forall x, view s' x = view s x) /\ disk_same s s' /\
  (forall j, j <> i -> getb j s' = getb j s) /\ locked s i = false /\
  ((forall j, ~ is_cached s bn j) -> b_refcnt (getb i s) = 0).

Lemma b2z_bounds b : 0 <= Z.b2z b <= 1.
Proof. by destruct b. Qed.

Lemma refcnt_zero s l P i :
  binv s l P -> (i < NBUF)%nat -> b_refcnt (getb i s) = 0 <-> locked s i = false /\ i ∉ P.
Proof.
  intros H Hi. rewrite (bi_ref _ _ _ H i Hi).
  destruct (locked s i), (decide (i ∈ P)); simpl; split; intros; try lia; naive_solver.
Qed.

Lemma fill_buf i s :
  (virtio_disk_rw i false;; modify (updb i (set_valid true))) s =
  Ok tt (updb i (fun bb => set_valid true (set_data (bc_disk s !!! b_blockno bb) bb)) s).
Proof.
  unfold virtio_disk_rw, mbind, M_bind, gets, modify. cbv beta iota. by rewrite updb_updb.
Qed.

Lemma bread_hit s l P bn i :
  binv s l P -> is_cached s bn i -> locked s i = false ->
  exists s', bread ROOTDEV bn s = Ok i s' /\ bread_post s l P bn i s'.
Proof.
  intros H Hc Hl. pose proof Hc as (Hi & Hdev & Hbn).
  set (f bb := set_block_lock (sl_held_by (bc_pid s)) (hit_buf bb)).
  exists (updb i f s).
  assert (bread ROOTDEV bn s = Ok i (updb i f s)) as Hrun.
  { unfold bread. unfold mbind at 1, M_bind at 1. rewrite (bget_found _ _ _ H _ _ Hc).
    rewrite (bind_ok _ _ _ _ _ (buf_acquiresleep_free i (updb i hit_buf s)
      ltac:(rewrite getb_updb_eq; by apply H) ltac:(unfold locked; by rewrite getb_updb_eq))).
    rewrite ret_ok, updb_updb. cbv beta iota. rewrite gets_bind, getb_updb_eq.
    destruct (bi_dev _ _ _ H i Hi) as [Hd|[_ Hv]]; [rewrite Hdev in Hd; done|].
    unfold when. simpl b_valid. rewrite Hv. done. }
  pose proof (binv_buf_ok _ _ _ _ H Hi) as (Hk1 & Hk2 & Hk3 & Hk4 & Hk5).
  assert (Href : u32 (b_refcnt (getb i s) + 1) = 1 + (if bool_decide (i ∈ P) then 1 else 0)).
  { rewrite Hk2. unfold locked in Hl. rewrite Hl. simpl. case_bool_decide; apply u32_small; lia. }
  assert (Hoth : forall j, j <> i -> getb j (updb i f s) = getb j s).
  { intros. by apply getb_updb_ne. }
  assert (Hkey : forall x j, is_cached (updb i f s) x j <-> is_cached s x j).
  { intros x j. unfold is_cached. rewrite getb_updb. destruct (decide (i = j)) as [<-|]; reflexivity. }
  assert (binv (updb i f s) l P) as H'.
  { apply (binv_change s _ l P P i); try done.
    - apply H.
    - unfold nx. by rewrite getb_updb_eq.
    - unfold pv. by rewrite getb_updb_eq.
    - rewrite getb_updb_eq. split_and!; simpl; try done. all: by intros _.
    - intros j x Hj Hci Hcj. apply Hkey in Hci. apply Hj. by eapply (bi_key _ _ _ H).
    - intros j x Hcj Hr. apply Hkey in Hcj. destruct (decide (j = i)) as [->|Hj].
      + exfalso. rewrite getb_updb_eq in Hr. simpl in Hr. rewrite Href in Hr.
        by case_bool_decide.
      + rewrite Hoth in * by done. by apply (bi_clean _ _ _ H). }
  split; [done|]. split; [done|]. split.
  { split; [by apply Hkey|]. unfold locked. by rewrite getb_updb_eq. }
  split. { rewrite getb_updb_eq. by rewrite (view_cached _ _ _ H _ _ Hc). }
  split.
  { intros x. destruct (decide (x = bn)) as [->|Hx].
    - rewrite (view_cached _ _ _ H' bn i) by by apply Hkey.
      rewrite getb_updb_eq. by rewrite (view_cached _ _ _ H _ _ Hc).
    - eapply view_change; try done; [|rewrite Hkey]; unfold is_cached; naive_solver. }
  split; [done|]. split; [done|]. split; [done|].
  intros Hn. by destruct (Hn i).
Qed.

Lemma bread_miss s l P bn :
  binv s l P -> (forall i, ~ is_cached s bn i) ->
  (exists i, (i < NBUF)%nat /\ b_refcnt (getb i s) = 0) ->
  exists i s', bread ROOTDEV bn s = Ok i s' /\ bread_post s l P bn i s' /\
    List.find (fun i => b_refcnt (getb i s) =? 0) (rev l) = Some i.
Proof.
  intros H Hn (k & Hk & Hkr).
  pose proof (proj2 (cached_None _ _ _ H bn) Hn) as Hc.
  destruct (List.find (fun i => b_refcnt (getb i s) =? 0) (rev l)) as [i|] eqn:Ef.
  2:{ exfalso. rewrite <- (binv_elem _ _ _ H), list_elem_of_In, in_rev in Hk.
      apply (List.find_none _ _ Ef k) in Hk. zprop. done. }
  pose proof (List.find_some _ _ Ef) as [Hi Hir]. zprop.
  rewrite <- in_rev, <- list_elem_of_In, (binv_elem _ _ _ H) in Hi.
  destruct (proj1 (refcnt_zero _ _ _ _ H Hi) Hir) as [Hl HiP].
  set (f bb := Buf true ROOTDEV bn (sl_held_by (bc_pid s)) 1 (b_prev bb) (b_next bb) (bc_disk s !!! bn)).
  exists i, (updb i f s).
  assert (bread ROOTDEV bn s = Ok i (updb i f s)) as Hrun.
  { unfold bread. unfold mbind at 1, M_bind at 1. rewrite (bget_scan_unused _ _ _ H _ Hc), Ef.
    rewrite (bind_ok _ _ _ _ _ (buf_acquiresleep_free i (updb i (miss_buf ROOTDEV bn) s)
      ltac:(rewrite getb_updb_eq; by apply H) ltac:(unfold locked; by rewrite getb_updb_eq))).
    rewrite ret_ok, updb_updb. cbv beta iota. rewrite gets_bind, getb_updb_eq.
    unfold when. simpl negb. cbv iota. mstep (fill_buf i (updb i
      (fun b => set_block_lock (sl_held_by (bc_pid (updb i (miss_buf ROOTDEV bn) s)))
                  (miss_buf ROOTDEV bn b)) s)).
    rewrite ret_ok, updb_updb. done. }
  assert (Hoth : forall j, j <> i -> getb j (updb i f s) = getb j s).
  { intros. by apply getb_updb_ne. }
  assert (Hkey : forall x j, j <> i -> is_cached (updb i f s) x j <-> is_cached s x j).
  { intros x j Hj. unfold is_cached. by rewrite Hoth. }
  assert (Hci : is_cached (updb i f s) bn i).
  { unfold is_cached. by rewrite getb_updb_eq. }
  assert (binv (updb i f s) l P) as H'.
  { apply (binv_change s _ l P P i); try done.
    - apply H.
    - unfold nx. by rewrite getb_updb_eq.
    - unfold pv. by rewrite getb_updb_eq.
    - rewrite getb_updb_eq. rewrite bool_decide_false by done. split_and!; simpl; try done. by right.
    - intros j x Hj (_ & _ & Hx). rewrite getb_updb_eq in Hx. simpl in Hx. subst x. apply Hn.
    - intros j x Hcj Hr. destruct (decide (j = i)) as [->|Hj].
      + by rewrite getb_updb_eq in Hr.
      + rewrite Hoth in * by done. apply Hkey in Hcj; [|done]. by apply (bi_clean _ _ _ H). }
  split; [done|]. split; [|done]. split; [done|]. split.
  { split; [done|]. unfold locked. by rewrite getb_updb_eq. }
  split. { rewrite getb_updb_eq. by rewrite (view_uncached _ _ _ H). }
  split.
  { intros x. destruct (decide (x = bn)) as [->|Hx].
    - rewrite (view_cached _ _ _ H' bn i) by done.
      rewrite getb_updb_eq. by rewrite (view_uncached _ _ _ H).
    - destruct (decide (is_cached s x i)) as [Hxi|Hxi].
      + rewrite (view_cached _ _ _ H _ _ Hxi), (bi_clean _ _ _ H _ _ Hxi Hir).
        rewrite (view_uncached _ _ _ H'); [done|]. intros j Hj.
        destruct (decide (j = i)) as [->|Hji].
        * destruct Hj as (_ & _ & Hj). rewrite getb_updb_eq in Hj. simpl in Hj. congruence.
        * apply Hkey in Hj; [|done]. apply Hji. by eapply (bi_key _ _ _ H).
      + eapply view_change; try done. intros (_ & _ & Hj). rewrite getb_updb_eq in Hj.
        simpl in Hj. congruence. }
  split; [done|]. split; [done|]. split; [done|]. by intros _.
Qed.

Lemma bread_spec s l P bn :
  binv s l P -> (forall i, ~ holds s i bn) -> available s bn ->
  exists i s', bread ROOTDEV bn s = Ok i s' /\ bread_post s l P bn i s'.
Proof.
  intros H Hh Hav. destruct (cached s bn) as [i|] eqn:E.
  - apply (cached_Some _ _ _ H) in E. exists i.
    apply (bread_hit s l P bn i H E). destruct (locked s i) eqn:El; [|done].
    by destruct (Hh i).
  - destruct Hav as [[? ?]|Hav]; [congruence|].
    destruct (bread_miss s l P bn H) as (i & s' & ? & ? & _);
      [by apply (cached_None _ _ _ H)|done|]. eauto.
Qed.

Lemma buf_holdingsleep_true i s l P bn :
  binv s l P -> holds s i bn ->
  buf_holdingsleep i s = Ok true (updb i (fun b => b) s).
Proof.
  intros H [(Hi & _) Hl]. unfold buf_holdingsleep. rewrite gets_bind. unfold zoom, buf_lock at 1.
  rewrite holdingsleep_ok by by apply H. unfold locked in Hl. rewrite Hl.
  rewrite (bi_pid _ _ _ H i Hi Hl), Z.eqb_refl. simpl. f_equal. unfold set_buf_lock, buf_lock.
  apply updb_ext. by destruct (getb i s).
Qed.

Lemma updb_id_getb i s j : getb j (updb i (fun b => b) s) = getb j s.
Proof. rewrite getb_updb. by destruct (decide (i = j)) as [<-|]. Qed.

Definition write_buf (i : nat) (s : bio) : bio :=
  let b := getb i s in
  set_bc_disk (<[b_blockno b := b_data b]> (bc_disk s)) (bc_writes s ++ [(b_blockno b, b_data b)]) s.

(** Same contents of the buffers, links aside. *)
Definition core (b : buf) : buf := set_prev 0 (set_next 0 b).

Lemma bwrite_spec s l P i bn :
  binv s l P -> holds s i bn ->
  exists s', bwrite i s = Ok tt s' /\ binv s' l P /\ (forall j, getb j s' = getb j s) /\
    (forall x, view s' x = view s x) /\
    bc_disk s' = <[bn := b_data (getb i s)]> (bc_disk s) /\
    bc_writes s' = bc_writes s ++ [(bn, b_data (getb i s))] /\ bc_pid s' = bc_pid s.
Proof.
  intros H Hh. pose proof Hh as [Hc Hl]. pose proof Hc as (Hi & Hdev & Hbn).
  exists (write_buf i (updb i (fun b => b) s)).
  assert (Hg : forall j, getb j (write_buf i (updb i (fun b => b) s)) = getb j s)
    by (intros; apply updb_id_getb).
  assert (Hcc : forall x j, is_cached (write_buf i (updb i (fun b => b) s)) x j <-> is_cached s x j).
  { intros. unfold is_cached. by rewrite Hg. }
  assert (Hd : bc_disk (write_buf i (updb i (fun b => b) s)) = <[bn := b_data (getb i s)]> (bc_disk s)).
  { unfold write_buf. simpl. rewrite updb_id_getb. by rewrite Hbn. }
  assert (binv (write_buf i (updb i (fun b => b) s)) l P) as H'.
  { apply (binv_change s _ l P P i); try done.
    - apply H.
    - unfold nx. by rewrite Hg.
    - unfold pv. by rewrite Hg.
    - rewrite Hg. by eapply binv_buf_ok.
    - intros j x Hj Hci Hcj. apply Hcc in Hci. apply Hj. by eapply (bi_key _ _ _ H).
    - intros j x Hcj Hr. rewrite Hg in *. apply Hcc in Hcj. rewrite Hd.
      destruct (decide (x = bn)) as [->|Hx].
      + rewrite lookup_total_insert_eq. by rewrite (bi_key _ _ _ H j i bn).
      + rewrite lookup_total_insert_ne by done. by apply (bi_clean _ _ _ H). }
  split. { unfold bwrite. mstep (buf_holdingsleep_true _ _ _ _ _ H Hh). done. }
  split; [done|]. split; [done|]. split.
  { intros x. destruct (decide (x = bn)) as [->|Hx].
    - rewrite (view_cached _ _ _ H _ _ Hc), (view_cached _ _ _ H' bn i), Hg; [done|by apply Hcc].
    - eapply view_change; try done.
      + rewrite Hd. by rewrite lookup_total_insert_ne.
      + unfold is_cached. naive_solver.
      + rewrite Hcc. unfold is_cached. naive_solver. }
  split; [done|]. split; [|done].
  unfold write_buf. simpl. rewrite updb_id_getb. by rewrite Hbn.
Qed.

Lemma core_updb i f s j :
  (forall b, core (f b) = core b) -> core (getb j (updb i f s)) = core (getb j s).
Proof. intros Hf. rewrite getb_updb. by destruct (decide (i = j)) as [<-|]. Qed.

(** The pointer surgery of [brelse] moves the buffer to the front of the ring. *)
Lemma relink_spec s l1 i l2 :
  ring (nx s) (pv s) NBUF (l1 ++ i :: l2) ->
  exists s', (list_unlink i;; list_push_front i) s = Ok tt s' /\
    ring (nx s') (pv s') NBUF (i :: l1 ++ l2) /\
    (forall j, core (getb j s') = core (getb j s)) /\
    bc_lock s' = bc_lock s /\ bc_woken s' = bc_woken s /\ disk_same s s'.
Proof.
  intros H.
  pose proof (ring_unlink _ _ _ _ _ _ H) as H1.
  destruct (ring_nodup _ _ _ _ H) as [Hnd Hh].
  apply NoDup_app in Hnd as (_ & Hdis & Hnd2). apply NoDup_cons in Hnd2 as [Hi2 _].
  set (s1 := updb (nx s i) (set_prev (pv s i)) s).
  assert (nx s i <> i /\ pv s i <> i) as [Hni Hpi].
  { destruct H as (_ & Hn & Hp). rewrite rev_app_distr in Hp. simpl in Hp.
    rewrite <- app_assoc in Hp. apply chain_app in Hn as [_ Hn]. apply chain_app in Hp as [_ Hp].
    apply chain_first in Hn. apply chain_first in Hp. rewrite Hn, Hp, hd_rev_last. split.
    - destruct l2; simpl; set_solver.
    - pose proof (last_elem NBUF l1). set_solver. }
  assert (getb i s1 = getb i s) as Hg1 by by apply getb_updb_ne.
  set (s2 := updb (pv s i) (set_next (nx s i)) s1).
  assert (list_unlink i s = Ok tt s2) as Hrun1.
  { unfold list_unlink. rewrite gets_bind, modify_bind, gets_bind. fold (nx s i) (pv s i). fold s1.
    rewrite Hg1. done. }
  assert (ring (nx s2) (pv s2) NBUF (l1 ++ l2)) as H2.
  { eapply ring_ext; [| |exact H1]; intros x; unfold s2, s1, fupd, nx, pv; rewrite !getb_updb;
      repeat case_decide; simpl; congruence. }
  assert (i ∉ NBUF :: l1 ++ l2) as Hin by set_solver.
  assert (i <> NBUF) as HiN by set_solver.
  pose proof (ring_push _ _ _ _ _ H2 Hin) as H3.
  set (s3 := updb i (fun b => set_prev NBUF (set_next (nx s2 NBUF) b)) s2).
  assert (getb NBUF s3 = getb NBUF s2) as Hg3 by (apply getb_updb_ne; set_solver).
  set (s4 := updb (nx s2 NBUF) (set_prev i) s3).
  exists (updb NBUF (set_next i) s4).
  split.
  { mstep Hrun1. unfold list_push_front. rewrite gets_bind, !modify_bind, gets_bind.
    rewrite updb_updb. fold (nx s2 NBUF). fold s3. rewrite Hg3. done. }
  split.
  { eapply ring_ext; [| |exact H3]; intros x; unfold s4, s3, fupd, nx, pv; rewrite !getb_updb;
      repeat case_decide; simpl; congruence. }
  split; [|done].
  intros j. unfold s4, s3, s2, s1. by rewrite !core_updb.
Qed.

Lemma buf_releasesleep i s :
  sl_lk (b_lock (getb i s)) = false ->
  releasesleep (buf_lock i) (set_buf_lock i) (buf_chan i) s =
    Ok tt (set_bc_woken (buf_chan i :: bc_woken s) (updb i (set_block_lock sl_free) s)).
Proof.
  intros Hlk. unfold releasesleep.
  assert (zoom (buf_lock i) (set_buf_lock i) (acquire sl_lk set_sl_lk) s =
    Ok tt (updb i (fun b => set_block_lock (set_sl_lk true (b_lock (getb i s))) b) s)) as H1.
  { unfold zoom, acquire, buf_lock. by rewrite Hlk. }
  mstep H1. clear H1. set (s1 := updb i _ s).
  assert (zoom (buf_lock i) (set_buf_lock i) (modify (set_sl_held false 0)) s1 =
    Ok tt (updb i (set_block_lock (Sleeplock false true 0)) s)) as H1.
  { unfold zoom, modify, buf_lock, set_buf_lock, s1. rewrite getb_updb_eq, updb_updb. done. }
  mstep H1. clear H1. unfold wakeup, bio_wakeup. rewrite modify_bind.
  unfold zoom, release, buf_lock, set_buf_lock. change (getb i (set_bc_woken ?w ?x)) with (getb i x).
  rewrite getb_updb_eq. simpl. f_equal.
  change (updb i ?f (set_bc_woken ?w ?x)) with (set_bc_woken w (updb i f x)).
  by rewrite updb_updb.
Qed.

Lemma core_proj a b :
  core a = core b ->
  b_valid a = b_valid b /\ b_dev a = b_dev b /\ b_blockno a = b_blockno b /\
  b_lock a = b_lock b /\ b_refcnt a = b_refcnt b /\ b_data a = b_data b.
Proof. unfold core. destruct a, b; simpl. naive_solver. Qed.

Section same_core.
Context (s s' : bio) (l l' : list nat) (P : gset nat).
Hypothesis Hinv : binv s l P.
Hypothesis Hcore : forall j, core (getb j s') = core (getb j s).

Lemma core_is_cached bn j : is_cached s' bn j <-> is_cached s bn j.
Proof.
  unfold is_cached. destruct (core_proj _ _ (Hcore j)) as (_ & -> & -> & _). done.
Qed.

Lemma core_locked j : locked s' j = locked s j.
Proof. unfold locked. by destruct (core_proj _ _ (Hcore j)) as (_ & _ & _ & -> & _). Qed.

Lemma core_data j : b_data (getb j s') = b_data (getb j s).
Proof. by destruct (core_proj _ _ (Hcore j)) as (_ & _ & _ & _ & _ & ->). Qed.

Lemma binv_core :
  ring (nx s') (pv s') NBUF l' -> l' ≡ₚ l ->
  bc_lock s' = false -> disk_same s s' -> binv s' l' P.
Proof.
  intros Hring Hperm Hlock (Hd & Hw & Hp). split; [done|done| | | | | | | |].
  - by rewrite Hperm, (bi_perm _ _ _ Hinv).
  - intros i Hi. destruct (core_proj _ _ (Hcore i)) as (_ & _ & _ & -> & _). by apply Hinv.
  - intros i Hi. rewrite core_locked. destruct (core_proj _ _ (Hcore i)) as (_ & _ & _ & _ & -> & _).
    by apply Hinv.
  - intros i Hi. rewrite core_locked, Hp. destruct (core_proj _ _ (Hcore i)) as (_ & _ & _ & -> & _).
    by apply Hinv.
  - intros i j bn. rewrite !core_is_cached. apply Hinv.
  - intros i Hi. destruct (core_proj _ _ (Hcore i)) as (-> & -> & _). by apply Hinv.
  - intros i Hi. destruct (core_proj _ _ (Hcore i)) as (_ & -> & _ & _ & -> & _). by apply Hinv.
  - intros i bn. rewrite core_is_cached, core_data, Hd.
    destruct (core_proj _ _ (Hcore i)) as (_ & _ & _ & _ & -> & _). apply Hinv.
Qed.

Lemma view_core l2 P2 bn :
  binv s' l2 P2 -> bc_disk s' !!! bn = bc_disk s !!! bn -> view s' bn = view s bn.
Proof.
  intros H2 Hd. destruct (cached s bn) as [i|] eqn:E.
  - apply (cached_Some _ _ _ Hinv) in E. rewrite (view_cached _ _ _ Hinv _ _ E).
    rewrite (view_cached _ _ _ H2 bn i) by by apply core_is_cached. apply core_data.
  - assert (forall j, ~ is_cached s bn j) as Hn by by apply (cached_None _ _ _ Hinv).
    rewrite (view_uncached _ _ _ Hinv _ Hn), (view_uncached _ _ _ H2); [done|].
    intros j. rewrite core_is_cached. apply Hn.
Qed.
End same_core.

Definition rel_buf (bb : buf) : buf := set_refcnt (b_refcnt bb - 1) (set_block_lock sl_free bb).

(** What [brelse] promises. *)
Definition brelse_post (s : bio) (P : gset nat) (i : nat) (s' : bio) (l' : list nat) : Prop :=
  binv s' l' P /\ locked s' i = false /\ (forall x, view s' x = view s x) /\ disk_same s s' /\
  core (getb i s') = core (rel_buf (getb i s)) /\
  (forall j, j <> i -> core (getb j s') = core (getb j s)).

(** The released buffer in place, before it moves in the ring. *)
Lemma brelse_buffer s l P i bn w :
  binv s l P -> holds s i bn -> i ∈ P \/ b_data (getb i s) = bc_disk s !!! bn ->
  brelse_post s P i (set_bc_woken w (updb i rel_buf s)) l.
Proof.
  intros H [Hc Hl] Hcl. pose proof Hc as (Hi & Hdev & Hbn).
  set (s' := set_bc_woken w (updb i rel_buf s)).
  assert (Hgi : getb i s' = rel_buf (getb i s)) by (unfold s'; apply getb_updb_eq).
  assert (Hoth : forall j, j <> i -> getb j s' = getb j s) by (intros; by apply getb_updb_ne).
  assert (Hcc : forall x j, is_cached s' x j <-> is_cached s x j).
  { intros x j. unfold is_cached. destruct (decide (j = i)) as [->|Hj]; [by rewrite Hgi|by rewrite Hoth]. }
  pose proof (binv_buf_ok _ _ _ _ H Hi) as (Hk1 & Hk2 & Hk3 & Hk4 & Hk5).
  unfold locked in Hl. rewrite Hl in Hk2. simpl in Hk2.
  assert (Href : u32 (b_refcnt (getb i s) - 1) = if bool_decide (i ∈ P) then 1 else 0).
  { rewrite Hk2. case_bool_decide; apply u32_small; lia. }
  assert (binv s' l P) as H'.
  { apply (binv_change s _ l P P i); try done.
    - apply H.
    - unfold nx. by rewrite Hgi.
    - unfold pv. by rewrite Hgi.
    - rewrite Hgi. split_and!; simpl; done.
    - intros j x Hj Hci Hcj. apply Hcc in Hci. apply Hj. by eapply (bi_key _ _ _ H).
    - intros j x Hcj Hr. apply Hcc in Hcj. destruct (decide (j = i)) as [->|Hj].
      + rewrite Hgi in *. simpl in Hr |- *. destruct Hcj as (_ & _ & <-).
        rewrite Href in Hr. rewrite Hbn. destruct Hcl as [HP|]; [|done].
        by rewrite bool_decide_true in Hr.
      + rewrite Hoth in * by done. by apply (bi_clean _ _ _ H). }
  split; [done|]. split. { unfold locked. by rewrite Hgi. }
  split.
  { intros x. destruct (decide (x = bn)) as [->|Hx].
    - rewrite (view_cached _ _ _ H' bn i) by by apply Hcc.
      rewrite Hgi, (view_cached _ _ _ H _ _ Hc). done.
    - eapply view_change; try done; [|rewrite Hcc]; unfold is_cached; naive_solver. }
  split; [done|]. split; [by rewrite Hgi|]. intros j Hj. by rewrite Hoth.
Qed.

Lemma brelse_spec s l P i bn :
  binv s l P -> holds s i bn -> i ∈ P \/ b_data (getb i s) = bc_disk s !!! bn ->
  exists s' l', brelse i s = Ok tt s' /\ brelse_post s P i s' l' /\
    l' = if decide (i ∈ P) then l else i :: remove Nat.eq_dec i l.
Proof.
  intros H Hh Hcl. pose proof Hh as [(Hi & _) Hl].
  set (w := buf_chan i :: bc_woken s).
  set (sB := set_bc_woken w (updb i rel_buf s)).
  assert (HB : brelse_post s P i sB l) by by eapply brelse_buffer.
  destruct HB as (HBi & HBl & HBv & HBd & HBc & HBo).
  pose proof (binv_buf_ok _ _ _ _ H Hi) as (Hk1 & Hk2 & _).
  unfold locked in Hl. rewrite Hl in Hk2. simpl in Hk2.
  assert (Href : b_refcnt (getb i sB) = if decide (i ∈ P) then 1 else 0).
  { unfold sB. change (getb i (set_bc_woken ?w ?x)) with (getb i x). rewrite getb_updb_eq. simpl.
    rewrite Hk2, bool_decide_decide. destruct (decide (i ∈ P)); apply u32_small; lia. }
  assert (Hrun : forall k : unit -> M bio unit,
    (releasesleep (buf_lock i) (set_buf_lock i) (buf_chan i);; bc_acquire;;
     modify (updb i (fun bb => set_refcnt (b_refcnt bb - 1) bb)) ≫= k) (updb i (fun b => b) s) =
    k tt (set_bc_lock true sB)).
  { intros k. mstep (buf_releasesleep i (updb i (fun b => b) s)
      ltac:(rewrite updb_id_getb; by apply H)).
    unfold bc_acquire, acquire. unfold mbind at 1, M_bind at 1. simpl (bc_lock _).
    rewrite (bi_lock _ _ _ H). rewrite modify_bind. f_equal.
    unfold sB. rewrite !updb_updb.
    change (updb i ?f (set_bc_lock true (set_bc_woken ?w ?x))) with (set_bc_lock true (set_bc_woken w (updb i f x))).
    by rewrite !updb_updb. }
  unfold brelse. mstep (buf_holdingsleep_true _ _ _ _ _ H Hh). cbn [negb].
  rewrite Hrun. rewrite gets_bind. change (getb i (set_bc_lock true sB)) with (getb i sB).
  rewrite Href. destruct (decide (i ∈ P)) as [HP|HP].
  - exists sB, l. split; [|by split].
    unfold when, bc_release, release, mbind, M_bind. simpl. f_equal.
    unfold sB. pose proof (bi_lock _ _ _ H). destruct s; simpl in *; by subst.
  - assert (i ∈ l) as Hil by by apply (binv_elem _ _ _ H).
    apply list_elem_of_split in Hil as (l1 & l2 & ->).
    destruct (relink_spec (set_bc_lock true sB) l1 i l2) as (s3 & Hs3 & Hr3 & Hc3 & Hl3 & Hw3 & Hd3).
    { apply HBi. }
    exists (set_bc_lock false s3), (i :: l1 ++ l2).
    simpl Z.eqb. unfold when. cbv iota. mstep Hs3.
    unfold bc_release, release. rewrite Hl3. simpl (bc_lock _). cbv iota.
    split; [done|].
    assert (Hcore : forall j, core (getb j (set_bc_lock false s3)) = core (getb j sB)) by apply Hc3.
    destruct Hd3 as (Hd3 & Hw3' & Hp3). destruct HBd as (HBd & HBw & HBp).
    assert (binv (set_bc_lock false s3) (i :: l1 ++ l2) P) as H3.
    { eapply (binv_core sB); [exact HBi|exact Hcore|exact Hr3|apply Permutation_middle|done|].
      split_and!; [apply Hd3|apply Hw3'|apply Hp3]. }
    split.
    + split; [done|]. split; [by rewrite (core_locked _ _ Hcore)|]. split.
      { intros x. rewrite <- HBv. eapply (view_core sB); [exact HBi|exact Hcore|exact H3|].
        simpl. by rewrite Hd3. }
      split. { split_and!; simpl; [by rewrite Hd3|by rewrite Hw3'|by rewrite Hp3]. }
      split; [by rewrite Hcore|]. intros j Hj. rewrite Hcore. by apply HBo.
    + destruct (ring_nodup _ _ _ _ (bi_ring _ _ _ H)) as [Hnd _].
      apply NoDup_app in Hnd as (_ & Hd1 & Hnd2). apply NoDup_cons in Hnd2 as [Hi2 _].
      rewrite remove_app. simpl. destruct (Nat.eq_dec i i); [|done].
      rewrite !notin_remove; [done| |]; rewrite <- list_elem_of_In; set_solver.
Qed.

(** ** Pinning, and writing through a held buffer *)

Section held_change.
Context (s s' : bio) (l : list nat) (P P' : gset nat) (i : nat) (bn : Z).
Hypothesis Hinv : binv s l P.
Hypothesis Hheld : holds s i bn.
Hypothesis Hlock : bc_lock s' = false.
Hypothesis Hsame : disk_same s s'.
Hypothesis Hoth : forall j, j <> i -> getb j s' = getb j s.
Hypothesis HP : forall j, j <> i -> j ∈ P' <-> j ∈ P.
Hypothesis Hnx : nx s' i = nx s i.
Hypothesis Hpv : pv s' i = pv s i.
Hypothesis Hkey : is_cached s' bn i.
Hypothesis Hval : b_valid (getb i s') = b_valid (getb i s).
Hypothesis Hslock : b_lock (getb i s') = b_lock (getb i s).
Hypothesis Href : b_refcnt (getb i s') = 1 + (if bool_decide (i ∈ P') then 1 else 0).

Lemma held_cached x j : is_cached s' x j <-> is_cached s x j.
Proof.
  destruct (decide (j = i)) as [->|Hj]; [|unfold is_cached; by rewrite Hoth].
  destruct Hkey as (? & ? & ?), Hheld as [(? & ? & ?) _].
  unfold is_cached. naive_solver congruence.
Qed.

Lemma held_binv : binv s' l P'.
Proof.
  destruct Hheld as [Hc Hl], Hsame as (Hd & Hw & Hpid). pose proof Hc as (Hi & Hdev & Hbn).
  pose proof (binv_buf_ok _ _ _ _ Hinv Hi) as (Hk1 & Hk2 & Hk3 & Hk4 & Hk5).
  unfold locked in Hl. destruct Hkey as (_ & Hdev' & Hbn').
  apply (binv_change s _ l P P' i); try done.
  - split_and!; rewrite ?Hslock; try done.
    + rewrite Hl. simpl. apply Href.
    + right. split; [done|]. rewrite Hval. destruct Hk4 as [Hk4|[_ ?]]; [|done].
      by rewrite Hdev in Hk4.
  - intros j x Hj Hci Hcj. apply held_cached in Hci. apply Hj. by eapply (bi_key _ _ _ Hinv).
  - intros j x Hcj Hr. apply held_cached in Hcj. destruct (decide (j = i)) as [->|Hj].
    + rewrite Href in Hr. by case_bool_decide.
    + rewrite Hoth in * by done. rewrite Hd. by apply (bi_clean _ _ _ Hinv).
Qed.

Lemma held_view x : view s' x = if decide (x = bn) then b_data (getb i s') else view s x.
Proof.
  destruct Hheld as [Hc Hl], Hsame as (Hd & _).
  destruct (decide (x = bn)) as [->|Hx].
  - by rewrite (view_cached _ _ _ held_binv _ _ Hkey).
  - apply (view_change _ _ _ _ _ _ i x Hinv held_binv); try done.
    + by rewrite Hd.
    + destruct Hc as (_ & _ & Hb). unfold is_cached. naive_solver.
    + destruct Hkey as (_ & _ & Hb). unfold is_cached. naive_solver.
Qed.

Lemma held_holds : holds s' i bn.
Proof. split; [done|]. unfold locked. rewrite Hslock. by destruct Hheld. Qed.
End held_change.

Definition pin_buf (bb : buf) : buf := set_refcnt (b_refcnt bb + 1) bb.
Definition unpin_buf (bb : buf) : buf := set_refcnt (b_refcnt bb - 1) bb.

Lemma bc_critical (s : bio) i f :
  bc_lock s = false ->
  (bc_acquire;; modify (updb i f);; bc_release) s = Ok tt (updb i f s).
Proof.
  intros H. unfold bc_acquire, bc_release, acquire, release, modify, mbind, M_bind.
  rewrite H. simpl. by rewrite bc_relock.
Qed.

Lemma held_refcnt s l P i bn :
  binv s l P -> holds s i bn ->
  b_refcnt (getb i s) = 1 + (if bool_decide (i ∈ P) then 1 else 0).
Proof.
  intros H [(Hi & _) Hl]. pose proof (binv_buf_ok _ _ _ _ H Hi) as (_ & -> & _).
  unfold locked in Hl. by rewrite Hl.
Qed.

(** What the operations on a held buffer keep. *)
Definition held_post (s : bio) (l : list nat) (P' : gset nat) (i : nat) (bn : Z) (d : block) (s' : bio) : Prop :=
  binv s' l P' /\ holds s' i bn /\ b_data (getb i s') = d /\
  (forall x, view s' x = if decide (x = bn) then d else view s x) /\
  disk_same s s' /\ (forall j, j <> i -> getb j s' = getb j s).

Lemma updb_held s l P P' i bn f :
  binv s l P -> holds s i bn ->
  (forall j, j <> i -> j ∈ P' <-> j ∈ P) ->
  (forall b, b_next (f b) = b_next b /\ b_prev (f b) = b_prev b /\ b_dev (f b) = b_dev b /\
     b_blockno (f b) = b_blockno b /\ b_valid (f b) = b_valid b /\ b_lock (f b) = b_lock b) ->
  b_refcnt (f (getb i s)) = 1 + (if bool_decide (i ∈ P') then 1 else 0) ->
  held_post s l P' i bn (b_data (f (getb i s))) (updb i f s).
Proof.
  intros H Hh HP Hf Hr. destruct (Hf (getb i s)) as (Hf1 & Hf2 & Hf3 & Hf4 & Hf5 & Hf6).
  pose proof Hh as [(Hi & Hdev & Hbn) Hl].
  assert (is_cached (updb i f s) bn i) as Hc.
  { unfold is_cached. rewrite getb_updb_eq. by rewrite Hf3, Hf4. }
  assert (forall j, j <> i -> getb j (updb i f s) = getb j s) as Hoth
    by (intros; by apply getb_updb_ne).
  assert (nx (updb i f s) i = nx s i) as Hnx by (unfold nx; by rewrite getb_updb_eq).
  assert (pv (updb i f s) i = pv s i) as Hpv by (unfold pv; by rewrite getb_updb_eq).
  assert (bc_lock (updb i f s) = false) as Hlk by apply H.
  split; [|split; [|split; [|split]]].
  - eapply (held_binv s); eauto; try by rewrite getb_updb_eq. done.
  - eapply (held_holds s); eauto. by rewrite getb_updb_eq.
  - by rewrite getb_updb_eq.
  - intros x. rewrite <- (getb_updb_eq i f s).
    eapply (held_view s); eauto; try by rewrite getb_updb_eq. done.
  - done.
Qed.

Lemma bpin_spec s l P i bn :
  binv s l P -> holds s i bn -> i ∉ P ->
  exists s', bpin i s = Ok tt s' /\ held_post s l ({[i]} ∪ P) i bn (b_data (getb i s)) s'.
Proof.
  intros H Hh Hi. exists (updb i pin_buf s). split; [by apply bc_critical, H|].
  eapply (updb_held s l P _ i bn pin_buf); [done|done|set_solver|done|].
  unfold pin_buf. simpl. rewrite (held_refcnt _ _ _ _ _ H Hh).
  rewrite bool_decide_false by done. rewrite bool_decide_true by set_solver. by apply u32_small.
Qed.

Lemma bunpin_spec s l P i bn :
  binv s l P -> holds s i bn -> i ∈ P ->
  exists s', bunpin i s = Ok tt s' /\ held_post s l (P ∖ {[i]}) i bn (b_data (getb i s)) s'.
Proof.
  intros H Hh Hi. exists (updb i unpin_buf s). split; [by apply bc_critical, H|].
  eapply (updb_held s l P _ i bn unpin_buf); [done|done|set_solver|done|].
  unfold unpin_buf. simpl. rewrite (held_refcnt _ _ _ _ _ H Hh).
  rewrite bool_decide_true by done. rewrite bool_decide_false by set_solver. by apply u32_small.
Qed.

(** Assignments to [b->data] of a held buffer. *)
Definition buf_write (i : nat) (d : block) : M bio unit := modify (updb i (set_data d)).

Lemma buf_write_spec s l P i bn d :
  binv s l P -> holds s i bn ->
  exists s', buf_write i d s = Ok tt s' /\ held_post s l P i bn d s'.
Proof.
  intros H Hh. exists (updb i (set_data d) s). split; [done|].
  eapply (updb_held s l P P i bn (set_data d)); [done|done|done|done|].
  simpl. by apply (held_refcnt _ _ _ _ _ H Hh).
Qed.

(** ** Counting buffers *)

Lemma free_buffer_exists s (X : gset nat) :
  (forall i, (i < NBUF)%nat -> b_refcnt (getb i s) <> 0 -> i ∈ X) -> (size X < NBUF)%nat ->
  exists i, (i < NBUF)%nat /\ b_refcnt (getb i s) = 0.
Proof.
  intros HX Hsz.
  destruct (decide (Exists (fun i => b_refcnt (getb i s) = 0) (seq 0 NBUF))) as [Hex|Hno].
  - apply Exists_exists in Hex as (i & Hi & Hr). exists i. apply elem_of_seq in Hi. split; [lia|done].
  - exfalso. assert (list_to_set (seq 0 NBUF) ⊆ X) as Hsub.
    { intros i Hi. apply elem_of_list_to_set in Hi. apply HX.
      - apply elem_of_seq in Hi. lia.
      - intros Hr. apply Hno. rewrite Exists_exists. eauto. }
    apply subseteq_size in Hsub. rewrite size_list_to_set, length_seq in Hsub by apply NoDup_seq.
    lia.
Qed.

(** ** Boot *)

Definition no_locks (s : bio) : Prop := forall i, (i < NBUF)%nat -> locked s i = false.

Definition booted (d : gmap Z block) (pid : Z) (k : Z) (s : bio) : Prop :=
  bc_lock s = false /\ disk_same (boot d pid) s /\
  ring (nx s) (pv s) NBUF (rev (seq 0 (Z.to_nat k))) /\
  forall j, core (getb j s) = core inhabitant.

Lemma binit_step d pid k s :
  0 <= k < Z.of_nat NBUF -> booted d pid k s ->
  exists s', (h ← gets (getb NBUF);
     modify (updb (Z.to_nat k) (set_next (b_next h)));;
     modify (updb (Z.to_nat k) (set_prev NBUF));;
     zoom (buf_lock (Z.to_nat k)) (set_buf_lock (Z.to_nat k)) initsleeplock;;
     h ← gets (getb NBUF);
     modify (updb (b_next h) (set_prev (Z.to_nat k)));;
     modify (updb NBUF (set_next (Z.to_nat k)));;
     mret (None (A := unit))) s = Ok None s' /\ booted d pid (k + 1) s'.
Proof.
  intros Hk (Hl & Hd & Hr & Hc). set (b := Z.to_nat k). fold b in Hr.
  assert (b <> NBUF) as HbN by (unfold b; lia).
  assert (b ∉ NBUF :: rev (seq 0 b)) as Hb.
  { rewrite not_elem_of_cons, list_elem_of_In, <- in_rev, <- list_elem_of_In, elem_of_seq. lia. }
  pose proof (ring_push _ _ _ _ _ Hr Hb) as Hr'.
  set (s1 := updb b (fun x => set_block_lock (Sleeplock false false 0) (set_prev NBUF (set_next (nx s NBUF) x))) s).
  assert (getb NBUF s1 = getb NBUF s) as Hg by by apply getb_updb_ne.
  exists (updb NBUF (set_next b) (updb (nx s NBUF) (set_prev b) s1)). split.
  - rewrite gets_bind, !modify_bind, updb_updb. unfold zoom, initsleeplock, modify at 1.
    rewrite (bind_ok _ _ _ tt s1); [|unfold s1, set_buf_lock; by rewrite updb_updb].
    rewrite gets_bind, Hg. by rewrite !modify_bind.
  - split; [done|]. split; [done|]. split.
    + unfold b. rewrite Z2Nat.inj_add, Nat.add_1_r, seq_S, rev_app_distr by lia. fold b. simpl.
      eapply ring_ext; [| |exact Hr']; intros x; unfold s1, fupd, nx, pv;
        rewrite !getb_updb; repeat case_decide; simpl; congruence.
    + assert (forall j, core (getb j s1) = core inhabitant) as H1.
      { intros j. unfold s1. rewrite getb_updb. case_decide; [|apply Hc]. rewrite <- (Hc j).
        subst j. specialize (Hc b). unfold core in *. destruct (getb b s); simpl in *. by simplify_eq. }
      assert (forall i f s j, (forall x, core (f x) = core x) ->
        core (getb j (updb i f s)) = core (getb j s)) as Hf.
      { intros i f s' j Hf. rewrite getb_updb. case_decide as E; [by rewrite <- E|done]. }
      intros j. by rewrite !Hf.
Qed.

Lemma binit_ring d pid : exists s', binit (boot d pid) = Ok tt s' /\ booted d pid (Z.of_nat NBUF) s'.
Proof.
  unfold binit. rewrite !modify_bind.
  loop_inv (booted d pid) as s' Hrun Hb.
  - split; [done|]. split; [done|]. split; [split; [apply NoDup_singleton|done]|].
    intros j. rewrite getb_updb. case_decide as E; [subst|]; rewrite getb_updb; by case_decide.
  - intros j s1 Hj Hs. apply binit_step; [lia|done].
  - exists s'. split; [|exact Hb]. mstep Hrun. done.
Qed.

Lemma binit_spec d pid :
  exists s', binit (boot d pid) = Ok tt s' /\ binv s' (rev (seq 0 NBUF)) ∅ /\ no_locks s' /\
    disk_same (boot d pid) s' /\ forall x, view s' x = d !!! x.
Proof.
  destruct (binit_ring d pid) as (s' & Hrun & Hlk & Hd & Hring & Hcore).
  exists s'. split; [exact Hrun|]. clear Hrun. rewrite Nat2Z.id in Hring.
  assert (Hperm : rev (seq 0 NBUF) ≡ₚ seq 0 NBUF) by (symmetry; apply Permutation_rev).
  set (l0 := rev (seq 0 NBUF)) in *. clearbody l0.
  assert (forall i, (i < NBUF)%nat -> b_valid (getb i s') = false /\ b_dev (getb i s') = 0 /\
    b_blockno (getb i s') = 0 /\ b_lock (getb i s') = Sleeplock false false 0 /\
    b_refcnt (getb i s') = 0) as Hb.
  { intros i Hi. specialize (Hcore i). clear -Hcore. unfold core in Hcore.
    destruct (getb i s'); simpl in *. by simplify_eq. }
  assert (forall bn i, ~ is_cached s' bn i) as Hnc.
  { intros bn i (Hi & Hdev & _). destruct (Hb i Hi) as (_ & Hz & _). by rewrite Hz in Hdev. }
  assert (binv s' l0 ∅) as H.
  { split.
    - exact Hlk.
    - exact Hring.
    - exact Hperm.
    - intros i Hi. by destruct (Hb i Hi) as (_ & _ & _ & -> & _).
    - intros i Hi. unfold locked. by destruct (Hb i Hi) as (_ & _ & _ & -> & ->).
    - intros i Hi. unfold locked. by destruct (Hb i Hi) as (_ & _ & _ & -> & _).
    - intros i j bn Hi. by apply Hnc in Hi.
    - intros i Hi. left. by destruct (Hb i Hi) as (_ & -> & _).
    - intros i Hi. by destruct (Hb i Hi) as (_ & _ & _ & _ & ->).
    - intros i bn Hi. by apply Hnc in Hi. }
  split; [done|]. split.
  { intros i Hi. unfold locked. by destruct (Hb i Hi) as (_ & _ & _ & -> & _). }
  split; [done|]. intros x. rewrite (view_uncached _ _ _ H) by apply Hnc.
  by destruct Hd as (-> & _).
Qed.
