(* ===== verification/BioProps.v ===== *)
(** The contract of the buffer cache: one buffer per block, its content the
    block's, and the replacement of the least recently used buffer. *)

From S2P Require Import Prelude Mem Sleeplock Ring Bio BioSpec.

(** The buffer [bget] recycles: the first unreferenced one from the old end of
    the list. *)
Definition victim (s : bio) (l : list nat) : option nat :=
  List.find (fun i => b_refcnt (getb i s) =? 0) (rev l).

(** C30: [bread] of a block that this thread does not hold already.  A cached
    block is found in its buffer; otherwise the least recently used
    unreferenced buffer is recycled, and if there is none the kernel panics.
    In the first two cases the buffer comes back locked, it holds the block's
    current content, and no block's content has changed. *)
Theorem bread_correct s l P bn :
  binv s l P -> (forall i, ~ holds s i bn) ->
  match cached s bn, victim s l with
  | Some i, _ | None, Some i => exists s', bread ROOTDEV bn s = Ok i s' /\ bread_post s l P bn i s'
  | None, None => bread ROOTDEV bn s = Panic "bget: no buffers"
  end.
Proof.
  intros H Hh. destruct (cached s bn) as [i|] eqn:Ec.
  - apply (cached_Some _ _ _ H) in Ec. apply bread_hit; [done|done|].
    destruct (locked s i) eqn:El; [|done]. by destruct (Hh i).
  - unfold victim. destruct (List.find _ (rev l)) as [i|] eqn:Ef.
    + pose proof (List.find_some _ _ Ef) as [Hi Hr]. zprop.
      rewrite <- in_rev, <- list_elem_of_In, (binv_elem _ _ _ H) in Hi.
      destruct (bread_miss s l P bn H) as (j & s' & Hrun & Hpost & Hj);
        [by apply (cached_None _ _ _ H)|by exists i|]. rewrite Ef in Hj. injection Hj as <-. by exists s'.
    + unfold bread. unfold mbind, M_bind. rewrite (bget_scan_unused _ _ _ H _ Ec), Ef. done.
Qed.

(** [brelse] of a buffer that is pinned or whose content is on disk.  The
    invariant holds again, no block's content changes, and an unpinned buffer
    becomes the most recently used one. *)
Theorem brelse_correct s l P i bn :
  binv s l P -> holds s i bn -> i ∈ P \/ b_data (getb i s) = bc_disk s !!! bn ->
  exists s' l', brelse i s = Ok tt s' /\ brelse_post s P i s' l' /\
    l' = if decide (i ∈ P) then l else i :: remove Nat.eq_dec i l.
Proof. intros H Hh Hc. by eapply brelse_spec. Qed.

Definition ex_blocks : gmap Z block := {[ 7 := wr ∅ 0 42 ]}.

Lemma victim_None s l P : binv s l P -> no_locks s -> P = ∅ -> victim s l <> None.
Proof.
  intros H Hno -> Hv. assert (0 < NBUF)%nat as H0 by (unfold NBUF; lia).
  assert (0%nat ∈ l) as Hin by (rewrite (binv_elem _ _ _ H); done).
  rewrite list_elem_of_In, in_rev in Hin. apply (List.find_none _ _ Hv) in Hin. zprop.
  apply Hin, (refcnt_zero _ _ _ _ H H0). split; [by apply Hno|set_solver].
Qed.

Lemma bread_correct_witness : exists s i s', bread ROOTDEV 7 s = Ok i s' /\ b_data (getb i s') = ex_blocks !!! 7.
Proof.
  destruct (binit_spec ex_blocks 1) as (s & _ & Hinv & Hno & _ & Hv).
  assert (forall i, ~ holds s i 7) as Hh.
  { intros i [(Hi & _) Hl]. pose proof (Hno i Hi). congruence. }
  pose proof (bread_correct s _ _ 7 Hinv Hh) as H. rewrite <- Hv.
  pose proof (victim_None _ _ _ Hinv Hno eq_refl) as Hvic. clear Hv.
  destruct (cached s 7) as [i|], (victim s _) as [j|]; try done;
    destruct H as (s' & Hrun & Hpost); eexists s, _, s'; (split; [exact Hrun|apply Hpost]).
Defined.

Lemma brelse_correct_witness : exists s i s', brelse i s = Ok tt s' /\ locked s i = true /\ locked s' i = false.
Proof.
  destruct (binit_spec ex_blocks 1) as (s & _ & Hinv & Hno & Hd & Hv).
  destruct (bread_spec s _ _ 7 Hinv) as (i & s1 & _ & Hinv1 & Hh1 & Hdata & _ & Hd1 & _).
  { intros i [(Hi & _) Hl]. pose proof (Hno i Hi). congruence. }
  { right. exists 0%nat. assert (0 < NBUF)%nat as H0 by (unfold NBUF; lia). split; [done|].
    apply (refcnt_zero _ _ _ _ Hinv H0). split; [by apply Hno|set_solver]. }
  destruct (brelse_correct s1 _ _ i 7 Hinv1 Hh1) as (s' & l' & Hrun & Hpost & _).
  { right. rewrite Hdata, Hv. f_equal. destruct Hd as (Hd & _), Hd1 as (Hd1 & _). rewrite Hd1, Hd. done. }
  exists s1, i, s'. split; [exact Hrun|]. split; [apply Hh1|apply Hpost].
Defined.
