(* ===== verification/Cache.v ===== *)
(** What the buffer cache promises to its clients, free of buffers, lists and
    reference counts.

    The abstract state has the logical content of each block, the disk, the
    trace of disk writes, the held buffers and the pinned blocks.  [babs]
    relates it to the state of bio.c; each operation of bio.c refines its
    abstract counterpart. *)

From S2P Require Import Prelude Mem Sleeplock Ring Bio BioSpec.

Record cache := Cache {
  ca_view : Z -> block;
  ca_disk : gmap Z block;
  ca_writes : list (Z * block);
  ca_held : gmap nat Z;
  ca_pins : gset Z }.

Definition ca_hold i bn a := Cache (ca_view a) (ca_disk a) (ca_writes a) (<[i := bn]> (ca_held a)) (ca_pins a).
Definition ca_free i a := Cache (ca_view a) (ca_disk a) (ca_writes a) (delete i (ca_held a)) (ca_pins a).
Definition ca_set bn d a := Cache (fun x => if decide (x = bn) then d else ca_view a x) (ca_disk a) (ca_writes a) (ca_held a) (ca_pins a).
Definition ca_flush bn a := Cache (ca_view a) (<[bn := ca_view a bn]> (ca_disk a)) (ca_writes a ++ [(bn, ca_view a bn)]) (ca_held a) (ca_pins a).
Definition ca_pin bn a := Cache (ca_view a) (ca_disk a) (ca_writes a) (ca_held a) ({[bn]} ∪ ca_pins a).
Definition ca_unpin bn a := Cache (ca_view a) (ca_disk a) (ca_writes a) (ca_held a) (ca_pins a ∖ {[bn]}).

Definition unheld (a : cache) (bn : Z) : Prop := forall i, ca_held a !! i <> Some bn.

(** A buffer can be had for [bn]: it is pinned, or some buffer is free. *)
Definition roomy (a : cache) (bn : Z) : Prop :=
  bn ∈ ca_pins a \/ (size (ca_held a) + size (ca_pins a) < NBUF)%nat.

Definition pin_rel (s : bio) (Pb : gset nat) (P : gset Z) : Prop :=
  (forall bn, bn ∈ P <-> exists i, i ∈ Pb /\ is_cached s bn i) /\ (size Pb <= size P)%nat /\
  forall i, i ∈ Pb -> (i < NBUF)%nat.

Record babs (s : bio) (a : cache) (l : list nat) (Pb : gset nat) : Prop := {
  ba_inv : binv s l Pb;
  ba_view : forall x, view s x = ca_view a x;
  ba_disk : bc_disk s = ca_disk a;
  ba_writes : bc_writes s = ca_writes a;
  ba_held : forall i bn, ca_held a !! i = Some bn <-> holds s i bn;
  ba_pins : pin_rel s Pb (ca_pins a) }.

Definition abs (s : bio) (a : cache) : Prop := exists l Pb, babs s a l Pb.

Lemma abs_clean s a bn :
  abs s a -> unheld a bn -> bn ∉ ca_pins a -> ca_view a bn = ca_disk a !!! bn.
Proof.
  intros (l & Pb & H) Hu Hp. rewrite <- (ba_view _ _ _ _ H), <- (ba_disk _ _ _ _ H).
  pose proof (ba_inv _ _ _ _ H) as Hi.
  destruct (cached s bn) as [i|] eqn:E.
  - pose proof E as Hc. apply (cached_Some _ _ _ Hi) in Hc. rewrite (view_cached _ _ _ Hi _ _ Hc).
    apply (bi_clean _ _ _ Hi); [done|]. pose proof Hc as (Hlt & _).
    apply (refcnt_zero _ _ _ _ Hi Hlt). split.
    + apply not_true_iff_false. intros Hl. apply (Hu i). by apply (ba_held _ _ _ _ H).
    + intros HiP. apply Hp, (ba_pins _ _ _ _ H). eauto.
  - apply (view_uncached _ _ _ Hi). by apply (cached_None _ _ _ Hi).
Qed.

Lemma abs_data s a i bn :
  abs s a -> ca_held a !! i = Some bn -> b_data (getb i s) = ca_view a bn.
Proof.
  intros (l & Pb & H) Hh. apply (ba_held _ _ _ _ H) in Hh as [Hc _].
  rewrite <- (ba_view _ _ _ _ H). symmetry. apply (view_cached _ _ _ (ba_inv _ _ _ _ H) _ _ Hc).
Qed.

Lemma abs_blockno s a i bn :
  abs s a -> ca_held a !! i = Some bn -> b_blockno (getb i s) = bn.
Proof. intros (l & Pb & H) Hh. by apply (ba_held _ _ _ _ H) in Hh as [(_ & _ & ?) _]. Qed.

Lemma abs_inj s a i j bn :
  abs s a -> ca_held a !! i = Some bn -> ca_held a !! j = Some bn -> i = j.
Proof.
  intros (l & Pb & H) Hi Hj. apply (ba_held _ _ _ _ H) in Hi as [Hi _], Hj as [Hj _].
  by apply (bi_key _ _ _ (ba_inv _ _ _ _ H) _ _ bn).
Qed.

Lemma is_cached_core s s' x j :
  core (getb j s') = core (getb j s) -> is_cached s' x j <-> is_cached s x j.
Proof.
  intros E. unfold is_cached. unfold core in E. destruct (getb j s), (getb j s'); simpl in *.
  by simplify_eq.
Qed.

Lemma holds_core s s' x j :
  core (getb j s') = core (getb j s) -> holds s' j x <-> holds s j x.
Proof.
  intros E. unfold holds, locked. rewrite (is_cached_core _ _ _ _ E).
  unfold core in E. destruct (getb j s), (getb j s'); simpl in *. by simplify_eq.
Qed.

(** Two buffers differ in what they hold: the others keep theirs. *)
Lemma holds_key s i x y : holds s i x -> is_cached s y i -> x = y.
Proof. intros [(_ & _ & Hx) _] (_ & _ & Hy). congruence. Qed.

Lemma pin_rel_ext s s' Pb P :
  (forall bn i, i ∈ Pb -> is_cached s' bn i <-> is_cached s bn i) ->
  pin_rel s Pb P -> pin_rel s' Pb P.
Proof.
  intros Hc (Hp & Hs & Hb). split; [|done]. intros bn. rewrite Hp.
  split; intros (i & Hi & Hx); exists i; (split; [done|]); by apply (Hc bn i Hi).
Qed.

(** ** The operations of bio.c refine the abstract ones *)

Lemma abs_available s a l Pb bn : babs s a l Pb -> roomy a bn -> available s bn.
Proof.
  intros H [Hp|Hs].
  - left. apply (ba_pins _ _ _ _ H) in Hp as (i & _ & Hc). exists i.
    by apply (cached_Some _ _ _ (ba_inv _ _ _ _ H)).
  - right. apply (free_buffer_exists _ (dom (ca_held a) ∪ Pb)).
    + intros i Hi Hr. apply elem_of_union.
      destruct (locked s i) eqn:El.
      * left. pose proof (bi_used _ _ _ (ba_inv _ _ _ _ H) i Hi Hr) as Hd.
        apply elem_of_dom. exists (b_blockno (getb i s)). by apply (ba_held _ _ _ _ H).
      * right. destruct (decide (i ∈ Pb)); [done|]. destruct Hr.
        by apply (refcnt_zero _ _ _ _ (ba_inv _ _ _ _ H) Hi).
    + destruct (ba_pins _ _ _ _ H) as (_ & Hsz & _).
      pose proof (size_union_alt (dom (ca_held a)) Pb) as Hu.
      assert (size (Pb ∖ dom (ca_held a)) <= size Pb)%nat by (apply subseteq_size; set_solver).
      rewrite size_dom in Hu. lia.
Qed.

Lemma abs_bread s a bn :
  abs s a -> unheld a bn -> roomy a bn ->
  exists i s', bread ROOTDEV bn s = Ok i s' /\ ca_held a !! i = None /\ abs s' (ca_hold i bn a).
Proof.
  intros (l & Pb & H) Hu Hr. pose proof (ba_inv _ _ _ _ H) as Hinv.
  destruct (bread_spec s l Pb bn Hinv) as (i & s' & Hrun & Hi' & Hh & Hd & Hv & Hds & Hoth & Hli & Hmiss).
  { intros i Hi. apply (Hu i). by apply (ba_held _ _ _ _ H). }
  { by eapply abs_available. }
  exists i, s'. split; [done|].
  assert (ca_held a !! i = None) as HiN.
  { apply eq_None_not_Some. intros [x Hx]. apply (ba_held _ _ _ _ H) in Hx as [_ Hx]. congruence. }
  split; [done|]. exists l, Pb. split.
  - done.
  - intros x. rewrite Hv. apply (ba_view _ _ _ _ H).
  - destruct Hds as (-> & _). apply (ba_disk _ _ _ _ H).
  - destruct Hds as (_ & -> & _). apply (ba_writes _ _ _ _ H).
  - intros j x. simpl. destruct (decide (j = i)) as [->|Hj].
    + rewrite lookup_insert_eq. split; [intros [= <-]; exact Hh|].
      intros Hx. f_equal. by apply (holds_key s' i); [|apply Hx].
    + rewrite lookup_insert_ne by done. rewrite (ba_held _ _ _ _ H).
      unfold holds, is_cached, locked. by rewrite Hoth.
  - eapply pin_rel_ext; [|apply (ba_pins _ _ _ _ H)]. intros x j Hj.
    destruct (decide (j = i)) as [->|Hn]; [|unfold is_cached; by rewrite Hoth].
    assert (is_cached s bn i) as Hc.
    { destruct (cached s bn) as [k|] eqn:E.
      - apply (cached_Some _ _ _ Hinv) in E. destruct (decide (k = i)) as [->|Hk]; [done|].
        exfalso. apply Hk, (bi_key _ _ _ Hi' _ _ bn); [|apply Hh].
        unfold is_cached. by rewrite Hoth.
      - rewrite (cached_None _ _ _ Hinv) in E. destruct Hh as [(Hlt & _) _].
        apply (refcnt_zero _ _ _ _ Hinv Hlt) in Hmiss as [_ Hm]; done. }
    destruct Hh as [Hc' _]. unfold is_cached in *. naive_solver congruence.
Qed.

Lemma abs_held_post s a l Pb Pb' P' i bn d s' :
  babs s a l Pb -> ca_held a !! i = Some bn -> held_post s l Pb' i bn d s' ->
  pin_rel s Pb' P' ->
  babs s' (Cache (fun x => if decide (x = bn) then d else ca_view a x)
                 (ca_disk a) (ca_writes a) (ca_held a) P') l Pb'.
Proof.
  intros H Hh (Hi' & Hh' & Hd & Hv & (Hdd & Hww & _) & Hoth) HP.
  apply (ba_held _ _ _ _ H) in Hh.
  assert (forall x j, is_cached s' x j <-> is_cached s x j) as Hc.
  { intros x j. destruct (decide (j = i)) as [->|]; [|unfold is_cached; by rewrite Hoth].
    destruct Hh as [Hc _], Hh' as [Hc' _]. unfold is_cached in *. naive_solver congruence. }
  split; simpl.
  - done.
  - intros x. rewrite Hv. by rewrite (ba_view _ _ _ _ H).
  - rewrite Hdd. apply (ba_disk _ _ _ _ H).
  - rewrite Hww. apply (ba_writes _ _ _ _ H).
  - intros j x. rewrite (ba_held _ _ _ _ H). unfold holds. rewrite Hc.
    destruct (decide (j = i)) as [->|]; [|unfold locked; by rewrite Hoth].
    destruct Hh as [_ ->], Hh' as [_ ->]. done.
  - eapply pin_rel_ext; [|exact HP]. auto.
Qed.

Lemma abs_buf_write s a i bn d :
  abs s a -> ca_held a !! i = Some bn ->
  exists s', buf_write i d s = Ok tt s' /\ abs s' (ca_set bn d a).
Proof.
  intros (l & Pb & H) Hh. pose proof Hh as Hh'. apply (ba_held _ _ _ _ H) in Hh'.
  destruct (buf_write_spec s l Pb i bn d (ba_inv _ _ _ _ H) Hh') as (s' & Hrun & Hpost).
  exists s'. split; [done|]. exists l, Pb.
  apply (abs_held_post _ _ _ _ _ _ _ _ _ _ H Hh Hpost), (ba_pins _ _ _ _ H).
Qed.

(** The operations that leave the content alone restate it. *)
Lemma babs_view_ext s v v' d w h p l Pb :
  (forall x, v x = v' x) -> babs s (Cache v d w h p) l Pb -> babs s (Cache v' d w h p) l Pb.
Proof.
  intros Hv H. destruct H. split; simpl in *; try done. intros x. by rewrite <- Hv.
Qed.

Lemma abs_bpin s a i bn :
  abs s a -> ca_held a !! i = Some bn -> bn ∉ ca_pins a ->
  exists s', bpin i s = Ok tt s' /\ abs s' (ca_pin bn a).
Proof.
  intros (l & Pb & H) Hh Hn. pose proof Hh as Hh'. apply (ba_held _ _ _ _ H) in Hh'.
  destruct (ba_pins _ _ _ _ H) as (Hp & Hsz & Hlt). pose proof Hh' as [Hc _].
  assert (i ∉ Pb) as HiP by (intros Hi; apply Hn, Hp; eauto).
  destruct (bpin_spec s l Pb i bn (ba_inv _ _ _ _ H) Hh' HiP) as (s' & Hrun & Hpost).
  exists s'. split; [done|]. exists l, ({[i]} ∪ Pb).
  eapply babs_view_ext; [|eapply (abs_held_post _ _ _ _ _ _ _ _ _ _ H Hh Hpost)].
  - intros x. simpl. case_decide; [|done]. subst x.
    apply (abs_data s a); [by exists l, Pb|done].
  - split; [|split].
    + intros x. rewrite elem_of_union, elem_of_singleton, Hp. split.
      * intros [->|(j & Hj & Hx)]; [exists i|exists j]; set_solver.
      * intros (j & [Hj|Hj]%elem_of_union & Hx); [|eauto].
        apply elem_of_singleton in Hj as ->. left. symmetry. by apply (holds_key s i).
    + rewrite !size_union, !size_singleton by set_solver. lia.
    + intros j [Hj|Hj]%elem_of_union; [|auto]. apply elem_of_singleton in Hj as ->. apply Hc.
Qed.

Lemma abs_bunpin s a i bn :
  abs s a -> ca_held a !! i = Some bn -> bn ∈ ca_pins a ->
  exists s', bunpin i s = Ok tt s' /\ abs s' (ca_unpin bn a).
Proof.
  intros (l & Pb & H) Hh Hn. pose proof Hh as Hh'. apply (ba_held _ _ _ _ H) in Hh'.
  destruct (ba_pins _ _ _ _ H) as (Hp & Hsz & Hlt). pose proof Hh' as [Hc _].
  pose proof (ba_inv _ _ _ _ H) as Hinv.
  assert (i ∈ Pb) as HiP.
  { apply Hp in Hn as (j & Hj & Hcj). by rewrite (bi_key _ _ _ Hinv _ _ _ Hc Hcj). }
  destruct (bunpin_spec s l Pb i bn Hinv Hh' HiP) as (s' & Hrun & Hpost).
  exists s'. split; [done|]. exists l, (Pb ∖ {[i]}).
  eapply babs_view_ext; [|eapply (abs_held_post _ _ _ _ _ _ _ _ _ _ H Hh Hpost)].
  - intros x. simpl. case_decide; [|done]. subst x.
    apply (abs_data s a); [by exists l, Pb|done].
  - split; [|split].
    + intros x. rewrite elem_of_difference, not_elem_of_singleton, Hp. split.
      * intros [(j & Hj & Hx) Hne]. exists j. split; [|done].
        apply elem_of_difference. split; [done|]. intros ->%elem_of_singleton.
        apply Hne. symmetry. by apply (holds_key s i).
      * intros (j & [Hj Hji]%elem_of_difference & Hx). split; [eauto|]. intros ->.
        apply Hji, elem_of_singleton. by apply (bi_key _ _ _ Hinv _ _ bn).
    + rewrite !size_difference, !size_singleton by set_solver. lia.
    + intros j [Hj _]%elem_of_difference. auto.
Qed.

Lemma abs_bwrite s a i bn :
  abs s a -> ca_held a !! i = Some bn ->
  exists s', bwrite i s = Ok tt s' /\ abs s' (ca_flush bn a).
Proof.
  intros Ha Hh. pose proof (abs_data _ _ _ _ Ha Hh) as Hdata.
  destruct Ha as (l & Pb & H). pose proof Hh as Hh'. apply (ba_held _ _ _ _ H) in Hh'.
  destruct (bwrite_spec s l Pb i bn (ba_inv _ _ _ _ H) Hh') as (s' & Hrun & Hi & Hg & Hv & Hd & Hw & _).
  exists s'. split; [done|]. exists l, Pb. rewrite Hdata in Hd, Hw. split; simpl.
  - done.
  - intros x. rewrite Hv. apply (ba_view _ _ _ _ H).
  - rewrite Hd. by rewrite (ba_disk _ _ _ _ H).
  - rewrite Hw. by rewrite (ba_writes _ _ _ _ H).
  - intros j x. rewrite (ba_held _ _ _ _ H). unfold holds, is_cached, locked. by rewrite Hg.
  - eapply pin_rel_ext; [|apply (ba_pins _ _ _ _ H)]. intros x j _. unfold is_cached. by rewrite Hg.
Qed.

Lemma abs_brelse s a i bn :
  abs s a -> ca_held a !! i = Some bn -> bn ∈ ca_pins a \/ ca_view a bn = ca_disk a !!! bn ->
  exists s', brelse i s = Ok tt s' /\ abs s' (ca_free i a).
Proof.
  intros Ha Hh Hcl. pose proof (abs_data _ _ _ _ Ha Hh) as Hdata.
  destruct Ha as (l & Pb & H). pose proof Hh as Hh'. apply (ba_held _ _ _ _ H) in Hh'.
  pose proof (ba_inv _ _ _ _ H) as Hinv. pose proof Hh' as [Hc _].
  destruct (brelse_spec s l Pb i bn Hinv Hh') as (s' & l' & Hrun & Hpost & _).
  { destruct Hcl as [Hp|Hcl]; [left|right].
    - apply (ba_pins _ _ _ _ H) in Hp as (j & Hj & Hcj). by rewrite (bi_key _ _ _ Hinv _ _ _ Hc Hcj).
    - by rewrite Hdata, (ba_disk _ _ _ _ H). }
  destruct Hpost as (Hi & Hli & Hv & (Hd & Hw & _) & Hci & Hoth).
  exists s'. split; [done|]. exists l', Pb. split; simpl.
  - done.
  - intros x. rewrite Hv. apply (ba_view _ _ _ _ H).
  - rewrite Hd. apply (ba_disk _ _ _ _ H).
  - rewrite Hw. apply (ba_writes _ _ _ _ H).
  - intros j x. destruct (decide (j = i)) as [->|Hj].
    + rewrite lookup_delete_eq. split; [done|]. intros [_ Hl]. congruence.
    + rewrite lookup_delete_ne by done. rewrite (ba_held _ _ _ _ H).
      symmetry. by apply holds_core, Hoth.
  - eapply pin_rel_ext; [|apply (ba_pins _ _ _ _ H)]. intros x j _.
    destruct (decide (j = i)) as [->|Hj]; [|by apply is_cached_core, Hoth].
    unfold is_cached. unfold core, rel_buf in Hci. destruct (getb i s), (getb i s'); simpl in *.
    by simplify_eq.
Qed.

(** The cache after [binit]: nothing cached, held or pinned. *)
Definition cache_boot (d : gmap Z block) : cache := Cache (fun x => d !!! x) d [] ∅ ∅.

Lemma abs_binit d pid : exists s, binit (boot d pid) = Ok tt s /\ abs s (cache_boot d).
Proof.
  destruct (binit_spec d pid) as (s & Hrun & Hi & Hnl & (Hd & Hw & _) & Hv).
  set (l0 := rev (seq 0 NBUF)) in *. clearbody l0.
  exists s. split; [exact Hrun|]. clear Hrun. exists l0, ∅. split.
  - exact Hi.
  - exact Hv.
  - exact Hd.
  - exact Hw.
  - intros i bn. simpl; rewrite lookup_empty. split; [by intros [=]|].
    intros [(Hlt & _) Hl]. by rewrite Hnl in Hl.
  - split; [|split].
    + intros bn. split; [by intros ?%not_elem_of_empty|]. by intros (i & Hi' & _).
    + done.
    + by intros i ?%not_elem_of_empty.
Qed.

(** Abstract states are compared up to the extension of their content. *)
Definition cache_eq (a b : cache) : Prop :=
  (forall x, ca_view a x = ca_view b x) /\ ca_disk a = ca_disk b /\ ca_writes a = ca_writes b /\
  ca_held a = ca_held b /\ ca_pins a = ca_pins b.

Infix "≡c" := cache_eq (at level 70).

#[export] Instance cache_eq_equiv : Equivalence cache_eq.
Proof.
  split; unfold cache_eq.
  - done.
  - intros a b. naive_solver.
  - intros a b c (H & -> & -> & -> & ->) (H' & -> & -> & -> & ->). split; [|done].
    intros x. by rewrite H.
Qed.

#[export] Instance abs_proper : Proper (eq ==> cache_eq ==> iff) abs.
Proof.
  intros s ? <- a b. revert a b.
  assert (forall a b, a ≡c b -> abs s a -> abs s b) as Hw.
  { intros [v d w h p] [v' d' w' h' p'] (Hv & Hd & Hw & Hh & Hp) (l & Pb & H).
    simpl in *. subst. exists l, Pb. by eapply babs_view_ext. }
  intros a b E. split; apply Hw; [done|by symmetry].
Qed.

(** The list of wakeups is no part of the cache. *)
Lemma abs_woken b a w : abs b a -> abs (set_bc_woken w b) a.
Proof.
  intros (l & Pb & H). exists l, Pb. destruct H as [[] ? ? ? ? ?]. split; [|done..]. by split.
Qed.
