(* ===== verification/DiskLog.v ===== *)
(** The theory of the on-disk redo log, independent of the code that writes
    it: traces of disk writes, the header format, what recovery makes of a
    disk, and why every prefix of a commit's writes recovers to all or
    nothing of the transaction. *)

From S2P Require Import Prelude Mem Bio.

(** ** Traces of block writes *)

Abbreviation trace := (list (Z * block)).

Definition dapply (d : gmap Z block) (ws : trace) : gmap Z block :=
  foldl (fun d w => <[w.1 := w.2]> d) d ws.

Definition wapply (f : Z -> block) (ws : trace) : Z -> block :=
  foldl (fun f w x => if decide (x = w.1) then w.2 else f x) f ws.

Lemma dapply_app d ws vs : dapply d (ws ++ vs) = dapply (dapply d ws) vs.
Proof. apply foldl_app. Qed.

Lemma wapply_app f ws vs : wapply f (ws ++ vs) = wapply (wapply f ws) vs.
Proof. apply foldl_app. Qed.

Lemma wapply_nil f : wapply f [] = f.
Proof. done. Qed.

Lemma wapply_snoc f ws w x :
  wapply f (ws ++ [w]) x = if decide (x = w.1) then w.2 else wapply f ws x.
Proof. by rewrite wapply_app. Qed.

Lemma wapply_ext f g ws : (forall x, f x = g x) -> forall x, wapply f ws x = wapply g ws x.
Proof.
  revert f g. induction ws as [|w ws IH]; intros f g Hfg x; simpl; [done|].
  apply IH. intros y. by rewrite Hfg.
Qed.

Lemma dapply_wapply d ws x : dapply d ws !!! x = wapply (fun y => d !!! y) ws x.
Proof.
  revert d. induction ws as [|w ws IH]; intros d; simpl; [done|].
  fold (dapply (<[w.1 := w.2]> d) ws). rewrite IH. apply wapply_ext. intros y.
  case_decide as E; [subst; apply lookup_total_insert_eq|by apply lookup_total_insert_ne].
Qed.

Lemma wapply_notin f ws x : x ∉ ws.*1 -> wapply f ws x = f x.
Proof.
  revert f. induction ws as [|w ws IH]; intros f Hx; simpl; [done|].
  fold (wapply (fun y => if decide (y = w.1) then w.2 else f y) ws).
  csimpl in Hx. rewrite IH by set_solver. rewrite decide_False; set_solver.
Qed.

Lemma wapply_in f ws x d : NoDup ws.*1 -> (x, d) ∈ ws -> wapply f ws x = d.
Proof.
  revert f. induction ws as [|w ws IH]; intros f Hnd Hx; [by apply not_elem_of_nil in Hx|].
  simpl. fold (wapply (fun y => if decide (y = w.1) then w.2 else f y) ws).
  csimpl in Hnd. apply NoDup_cons in Hnd as [Hw Hnd].
  apply elem_of_cons in Hx as [<-|Hx].
  - rewrite wapply_notin by done. by rewrite decide_True.
  - by apply IH.
Qed.

(** Writing again what is already written changes nothing. *)
Lemma wapply_id f ws : (forall x d, (x, d) ∈ ws -> f x = d) -> forall x, wapply f ws x = f x.
Proof.
  revert f. induction ws as [|w ws IH]; intros f H x; simpl; [done|].
  fold (wapply (fun y => if decide (y = w.1) then w.2 else f y) ws).
  assert (forall y, (if decide (y = w.1) then w.2 else f y) = f y) as E.
  { intros y. case_decide; [|done]. subst. symmetry. apply H, elem_of_cons. left. by destruct w. }
  rewrite (wapply_ext _ f) by apply E. apply IH. intros y d Hy. apply H. by right.
Qed.

(** ** The log header block *)

Definition hdr_n (h : block) : Z := i32 (ld32 h 0).
Definition hdr_block (h : block) (i : Z) : Z := i32 (ld32 h (4 + 4 * i)).

(** Header [h] lists the blocks [bs]. *)
Definition hdr_is (h : block) (bs : list Z) : Prop :=
  hdr_n h = Z.of_nat (length bs) /\
  forall k b, bs !! k = Some b -> hdr_block h (Z.of_nat k) = b.

Definition hdr_fill (h : block) (n : Z) (blk : Z -> Z) : block :=
  foldl (fun h k => st32 h (4 + 4 * Z.of_nat k) (blk (Z.of_nat k))) (st32 h 0 n) (seq 0 (Z.to_nat n)).

Lemma ld32_st32_other h a b v : b + 4 <= a \/ a + 4 <= b -> ld32 (st32 h a v) b = ld32 h b.
Proof. intros. apply ldn_stn_other. lia. Qed.

(** Where a transaction's blocks and its log can be. *)
Definition in_log (start size x : Z) : Prop := start <= x < start + size.

Record area_ok (start size : Z) (bs : list Z) : Prop := {
  ao_start : 0 <= start;
  ao_end : start + size < 2147483648;
  ao_size : Z.of_nat (length bs) < size;
  ao_fits : (length bs < 30)%nat;
  ao_nodup : NoDup bs;
  ao_home : forall b, b ∈ bs -> 0 <= b < 2147483648 /\ ~ in_log start size b }.

Definition seqn (h : block) (n : nat) (blk : Z -> Z) : block :=
  foldl (fun h k => st32 h (4 + 4 * Z.of_nat k) (blk (Z.of_nat k))) h (seq 0 n).

Lemma seqn_S h n blk : seqn h (S n) blk = st32 (seqn h n blk) (4 + 4 * Z.of_nat n) (blk (Z.of_nat n)).
Proof. unfold seqn. rewrite seq_S, foldl_app. done. Qed.

Lemma seqn_head h n blk : ld32 (seqn h n blk) 0 = ld32 h 0.
Proof.
  induction n as [|n IH]; [done|]. rewrite seqn_S, ld32_st32_other by lia. done.
Qed.

Lemma seqn_block h n blk k :
  (k < n)%nat -> ld32 (seqn h n blk) (4 + 4 * Z.of_nat k) = u32 (blk (Z.of_nat k)).
Proof.
  induction n as [|n IH]; intros Hk; [lia|]. rewrite seqn_S.
  destruct (decide (k = n)) as [->|].
  - by rewrite ld32_st32.
  - rewrite ld32_st32_other by lia. apply IH. lia.
Qed.

Lemma hdr_fill_is h bs blk :
  (length bs <= 30)%nat -> (forall b, b ∈ bs -> 0 <= b < 2147483648) ->
  (forall k b, bs !! k = Some b -> blk (Z.of_nat k) = b) ->
  hdr_is (hdr_fill h (Z.of_nat (length bs)) blk) bs.
Proof.
  intros Hl Hb Hblk. unfold hdr_fill. rewrite Nat2Z.id.
  fold (seqn (st32 h 0 (Z.of_nat (length bs))) (length bs) blk). split.
  - unfold hdr_n. rewrite seqn_head, ld32_st32, i32_u32. apply i32_small. lia.
  - intros k b Hk. unfold hdr_block. pose proof (lookup_lt_Some _ _ _ Hk).
    rewrite seqn_block by done. rewrite (Hblk _ _ Hk), i32_u32.
    apply i32_small. apply list_elem_of_lookup_2 in Hk. apply Hb in Hk. lia.
Qed.

Lemma hdr_fill_nil h blk : hdr_n (hdr_fill h 0 blk) = 0.
Proof. unfold hdr_fill, hdr_n. simpl. by rewrite ld32_st32. Qed.

(** ** Recovery *)

(** The blocks a header lists, as block numbers. *)
Definition hdr_list (h : block) : list Z :=
  (fun k => hdr_block h (Z.of_nat k)) <$> seq 0 (Z.to_nat (hdr_n h)).

Lemma hdr_is_list h bs : hdr_is h bs -> hdr_list h = bs.
Proof.
  intros [Hn Hb]. unfold hdr_list. rewrite Hn, Nat2Z.id. apply list_eq. intros k.
  rewrite list_lookup_fmap.
  destruct (bs !! k) as [b|] eqn:E.
  - pose proof (lookup_lt_Some _ _ _ E). rewrite lookup_seq_lt by done. simpl. f_equal. by apply Hb.
  - apply lookup_ge_None in E. by rewrite lookup_seq_ge.
Qed.

(** Entry [k] of the log goes from block [start + 1 + k] to its home. *)
Definition logged (start : Z) (bs : list Z) (f : Z -> block) : trace :=
  imap (fun k b => (start + 1 + Z.of_nat k, f b)) bs.
Definition install (start : Z) (bs : list Z) (f : Z -> block) : trace :=
  imap (fun k b => (b, f (start + 1 + Z.of_nat k))) bs.

(** What recovery does to the home blocks of a disk. *)
Definition recover (start : Z) (f : Z -> block) : Z -> block :=
  wapply f (install start (hdr_list (f start)) f).

Definition recovery_trace (start : Z) (f : Z -> block) (h0 : block) : trace :=
  install start (hdr_list (f start)) f ++ [(start, h0)].

(** The writes of a commit of blocks [bs] with content [f]: the log blocks,
    the header that makes them count, the home blocks, the cleared header. *)
Definition commit_trace (start : Z) (bs : list Z) (f : Z -> block) (h1 h0 : block) : trace :=
  logged start bs f ++ [(start, h1)] ++ ((fun b => (b, f b)) <$> bs) ++ [(start, h0)].

Lemma install_fst start bs f : (install start bs f).*1 = bs.
Proof.
  unfold install. rewrite fmap_imap.
  apply list_eq. intros k. rewrite list_lookup_imap. by destruct (bs !! k).
Qed.

Lemma logged_fst start bs f x :
  x ∈ (logged start bs f).*1 -> exists k, (k < length bs)%nat /\ x = start + 1 + Z.of_nat k.
Proof.
  unfold logged. rewrite fmap_imap. intros Hx. apply elem_of_lookup_imap in Hx as (k & b & -> & Hk).
  exists k. split; [by eapply lookup_lt_Some|done].
Qed.

Lemma logged_NoDup start bs f : NoDup (logged start bs f).*1.
Proof.
  unfold logged. rewrite fmap_imap. apply NoDup_alt. intros i j x Hi Hj.
  rewrite list_lookup_imap in Hi, Hj. destruct (bs !! i), (bs !! j); simplify_eq/=. lia.
Qed.

Lemma logged_elem start bs f k b :
  bs !! k = Some b -> (start + 1 + Z.of_nat k, f b) ∈ logged start bs f.
Proof.
  intros Hk. apply list_elem_of_lookup. exists k. unfold logged. by rewrite list_lookup_imap, Hk.
Qed.

Section area.
Context (start size : Z) (bs : list Z).
Hypothesis Hok : area_ok start size bs.

(** Writes to the log area do not show at home. *)
Lemma logged_home f g x ws :
  ws ⊆ logged start bs f -> ~ in_log start size x -> wapply g ws x = g x.
Proof.
  intros Hws Hx. apply wapply_notin. intros Hin.
  apply list_elem_of_fmap in Hin as (w & -> & Hw).
  apply Hx. destruct (logged_fst start bs f w.1) as (k & Hk & E).
  { apply list_elem_of_fmap. exists w. split; [done|]. by apply Hws. }
  pose proof (ao_size _ _ _ Hok). unfold in_log. lia.
Qed.

Lemma home_not_log b : b ∈ bs -> forall k, (k < length bs)%nat -> b <> start + 1 + Z.of_nat k.
Proof.
  intros Hb k Hk ->. apply (ao_home _ _ _ Hok) in Hb as [_ Hb]. apply Hb.
  pose proof (ao_size _ _ _ Hok). unfold in_log. lia.
Qed.

Lemma home_not_start b : b ∈ bs -> b <> start.
Proof.
  intros Hb ->. apply (ao_home _ _ _ Hok) in Hb as [_ Hb]. apply Hb.
  pose proof (ao_size _ _ _ Hok). unfold in_log. lia.
Qed.

(** A disk without a committed transaction recovers to itself. *)
Lemma recover_empty f : hdr_n (f start) = 0 -> forall x, recover start f x = f x.
Proof. intros H x. unfold recover, hdr_list. by rewrite H. Qed.

(** A disk whose header lists [bs] and whose log blocks hold [v] recovers to
    the transaction. *)
Lemma recover_committed f v :
  hdr_is (f start) bs ->
  (forall k b, bs !! k = Some b -> f (start + 1 + Z.of_nat k) = v b) ->
  forall x, recover start f x = if decide (x ∈ bs) then v x else f x.
Proof.
  intros Hh Hlog x. unfold recover. rewrite (hdr_is_list _ _ Hh).
  destruct (decide (x ∈ bs)) as [Hx|Hx].
  - apply wapply_in; [rewrite install_fst; apply Hok|].
    apply list_elem_of_lookup in Hx as [k Hk]. apply list_elem_of_lookup. exists k.
    unfold install. rewrite list_lookup_imap, Hk. simpl. by rewrite (Hlog k x Hk).
  - apply wapply_notin. by rewrite install_fst.
Qed.

Lemma take_logged_other f g k x :
  ~ (exists j, (j < length bs)%nat /\ x = start + 1 + Z.of_nat j) ->
  wapply g (take k (logged start bs f)) x = g x.
Proof.
  intros Hx. apply wapply_notin. intros Hin. apply Hx, (logged_fst start bs f x).
  revert Hin. rewrite fmap_take. apply subseteq_take.
Qed.

Lemma homes_notin (f : Z -> block) k x : x ∉ bs -> x ∉ (take k ((fun b => (b, f b)) <$> bs)).*1.
Proof.
  intros Hx Hin. apply Hx. rewrite fmap_take in Hin. apply subseteq_take in Hin.
  rewrite <- list_fmap_compose in Hin. by rewrite list_fmap_id in Hin.
Qed.

Lemma start_not_entry : ~ (exists j, (j < length bs)%nat /\ start = start + 1 + Z.of_nat j).
Proof. intros (j & _ & ?). lia. Qed.

Lemma home_not_entry x :
  ~ in_log start size x -> ~ (exists j, (j < length bs)%nat /\ x = start + 1 + Z.of_nat j).
Proof.
  intros Hx (j & Hj & ->). apply Hx. pose proof (ao_size _ _ _ Hok). unfold in_log. lia.
Qed.

Lemma not_start x : ~ in_log start size x -> x <> start.
Proof. intros Hx ->. apply Hx. pose proof (ao_size _ _ _ Hok). unfold in_log. lia. Qed.

(** After the header and some of the home blocks. *)
Lemma committed_prefix g v h1 k f :
  hdr_is h1 bs ->
  f = wapply (wapply (wapply g (logged start bs v)) [(start, h1)])
             (take k ((fun b => (b, v b)) <$> bs)) ->
  f start = h1 /\ (forall j b, bs !! j = Some b -> f (start + 1 + Z.of_nat j) = v b) /\
  forall x, ~ in_log start size x -> x ∉ bs -> f x = g x.
Proof.
  intros Hh ->. assert (start ∉ bs) as Hs by (intros H; by apply home_not_start in H).
  split_and!.
  - rewrite wapply_notin by by apply homes_notin. simpl. by rewrite decide_True.
  - intros j b Hj. pose proof (lookup_lt_Some _ _ _ Hj) as Hlt.
    rewrite wapply_notin.
    + simpl. rewrite decide_False by lia. apply wapply_in; [apply logged_NoDup|].
      by apply logged_elem.
    + apply homes_notin. intros Hin. by apply (home_not_log _ Hin j Hlt).
  - intros x Hx Hb. rewrite wapply_notin by by apply homes_notin. simpl.
    rewrite decide_False by by apply not_start.
    rewrite <- (take_ge (logged start bs v) (length (logged start bs v))) by lia.
    apply take_logged_other. by apply home_not_entry.
Qed.

(** Every prefix of a commit's writes recovers to the state before the
    transaction or to the state after it, by whether the header was
    written. *)
Lemma commit_crash g v h1 h0 k :
  hdr_n (g start) = 0 -> hdr_is h1 bs -> hdr_n h0 = 0 ->
  forall x, ~ in_log start size x ->
  recover start (wapply g (take k (commit_trace start bs v h1 h0))) x =
    if (length bs <? k)%nat then (if decide (x ∈ bs) then v x else g x) else g x.
Proof.
  intros Hg Hh1 Hh0 x Hx. unfold commit_trace.
  assert (length (logged start bs v) = length bs) as HL by apply length_imap.
  rewrite take_app, HL, wapply_app. destruct (Nat.ltb_spec (length bs) k) as [Hk|Hk].
  - rewrite (take_ge (logged _ _ _)) by lia.
    destruct (k - length bs)%nat as [|k'] eqn:Ek; [lia|].
    cbn [app take].
    change ((start, h1) :: take k' (((fun b => (b, v b)) <$> bs) ++ [(start, h0)]))
      with ([(start, h1)] ++ take k' (((fun b => (b, v b)) <$> bs) ++ [(start, h0)])).
    rewrite wapply_app, take_app, wapply_app. rewrite length_fmap.
    destruct (committed_prefix g v h1 k' _ Hh1 eq_refl) as (H1 & H2 & H3).
    destruct (k' - length bs)%nat as [|k''] eqn:Ek'.
    + rewrite take_0, wapply_nil. rewrite (recover_committed _ v); [|by rewrite H1|done].
      destruct (decide (x ∈ bs)); [done|]. by apply H3.
    + rewrite (take_ge ((fun b => (b, v b)) <$> bs)) in * by (rewrite length_fmap; lia).
      cbn [app take]. rewrite take_nil.
      rewrite recover_empty by (simpl; by rewrite decide_True).
      simpl. rewrite decide_False by by apply not_start.
      destruct (decide (x ∈ bs)) as [Hb|Hb]; [|by apply H3].
      apply wapply_in.
      * rewrite <- list_fmap_compose. rewrite list_fmap_id. apply Hok.
      * apply list_elem_of_fmap. by exists x.
  - replace (k - length bs)%nat with 0%nat by lia. rewrite take_0, wapply_nil.
    rewrite recover_empty; [apply take_logged_other; by apply home_not_entry|].
    rewrite take_logged_other; [done|apply start_not_entry].
Qed.
End area.

(** Recovery that is cut short and run again ends where the first run would
    have. *)
Lemma recovery_crash start size f h0 k :
  area_ok start size (hdr_list (f start)) -> hdr_n h0 = 0 ->
  forall x, ~ in_log start size x ->
  recover start (wapply f (take k (recovery_trace start f h0))) x = recover start f x.
Proof.
  intros Hok Hh0 x Hx. set (bs := hdr_list (f start)) in *.
  unfold recovery_trace. fold bs. rewrite take_app.
  set (I := install start bs f). set (f' := wapply f (take k I)).
  assert (forall y, y ∉ bs -> f' y = f y) as Hf'.
  { intros y Hy. apply wapply_notin. rewrite fmap_take. intros Hin%subseteq_take.
    unfold I in Hin. by rewrite install_fst in Hin. }
  destruct (k - length I)%nat as [|k'] eqn:Ek.
  - simpl. rewrite app_nil_r. fold f'. unfold recover at 1.
    assert (f' start = f start) as -> by (apply Hf'; intros H; by apply (home_not_start _ _ _ Hok) in H).
    fold bs. assert (install start bs f' = I) as ->.
    { unfold install, I. apply imap_ext. intros j b Hj. f_equal. apply Hf'.
      intros Hin. apply (home_not_log _ _ _ Hok _ Hin j); [|done]. by eapply lookup_lt_Some. }
    unfold recover. fold bs. fold I.
    destruct (decide (x ∈ bs)) as [Hb|Hb].
    + assert (x ∈ I.*1) as Hin by (unfold I; by rewrite install_fst).
      apply list_elem_of_fmap in Hin as ([y d] & -> & Hy).
      assert (NoDup I.*1) by (unfold I; rewrite install_fst; apply Hok).
      rewrite (wapply_in _ _ _ d) by done. by rewrite (wapply_in _ _ _ d) by done.
    + rewrite !wapply_notin by (unfold I; by rewrite install_fst). by apply Hf'.
  - rewrite take_ge by lia. cbn [take]. rewrite take_nil, wapply_app.
    rewrite recover_empty by (simpl; by rewrite decide_True).
    simpl. rewrite decide_False; [done|]. by apply (not_start _ _ _ Hok).
Qed.

(** Recovery, block by block. *)
Lemma recover_find start f x :
  NoDup (hdr_list (f start)) ->
  recover start f x =
    match list_find (fun b => b = x) (hdr_list (f start)) with
    | Some (k, _) => f (start + 1 + Z.of_nat k)
    | None => f x
    end.
Proof.
  intros Hnd. unfold recover. set (bs := hdr_list (f start)) in *.
  destruct (list_find _ bs) as [[k b]|] eqn:E.
  - apply list_find_Some in E as (Hk & -> & _). apply wapply_in; [by rewrite install_fst|].
    apply list_elem_of_lookup. exists k. unfold install. by rewrite list_lookup_imap, Hk.
  - apply list_find_None in E. apply wapply_notin. rewrite install_fst. intros Hin.
    rewrite Forall_forall in E. by apply (E x Hin).
Qed.
