(* ===== verification/Log.v ===== *)
(** The write-ahead log: src/src/kernel/log.c.

    [log.lh.block] is an array of [int]s indexed from zero.  The on-disk
    header is the block [log.start]: [n] as an [int] at offset 0, block
    numbers at offsets 4, 8, ...  The log block of entry [i] is block
    [log.start + 1 + i]. *)

From S2P Require Import Prelude Mem Sleeplock Bio.

Definition MAXOPBLOCKS : Z := 10.
Definition LOGSIZE : Z := MAXOPBLOCKS * 3.

(** [struct log], with [struct logheader lh] as [lh_n] and [lh_block]. *)
Record logst := Logst {
  l_lock : bool;
  l_start : Z;
  l_size : Z;
  l_outstanding : Z;
  l_committing : bool;
  l_dev : Z;
  lh_n : Z;
  lh_block : gmap Z Z }.

Definition set_l_lock v g := Logst v (l_start g) (l_size g) (l_outstanding g) (l_committing g) (l_dev g) (lh_n g) (lh_block g).
Definition set_l_area start size dev g := Logst (l_lock g) start size (l_outstanding g) (l_committing g) dev (lh_n g) (lh_block g).
Definition set_l_outstanding v g := Logst (l_lock g) (l_start g) (l_size g) v (l_committing g) (l_dev g) (lh_n g) (lh_block g).
Definition set_l_committing v g := Logst (l_lock g) (l_start g) (l_size g) (l_outstanding g) v (l_dev g) (lh_n g) (lh_block g).
Definition set_lh_n v g := Logst (l_lock g) (l_start g) (l_size g) (l_outstanding g) (l_committing g) (l_dev g) v (lh_block g).
Definition set_lh_block i v g := Logst (l_lock g) (l_start g) (l_size g) (l_outstanding g) (l_committing g) (l_dev g) (lh_n g) (<[i := v]> (lh_block g)).

(** The log on top of the buffer cache. *)
Record lst := Lst { st_bio : bio; st_log : logst }.

Definition set_bio b s := Lst b (st_log s).
Definition set_log g s := Lst (st_bio s) g.

Definition bop {A} (m : M bio A) : M lst A := zoom st_bio set_bio m.
Definition lmod (f : logst -> logst) : M lst unit := modify (fun s => set_log (f (st_log s)) s).

#[export] Instance lst_wakeup : Wakeup lst := fun ch => bop (wakeup ch).

Definition log_chan : chan := Chan "log" 0.
Definition log_acquire : M lst unit := zoom st_log set_log (acquire l_lock set_l_lock).
Definition log_release : M lst unit := zoom st_log set_log (release l_lock set_l_lock).
Definition log_sleep {A} : M lst A := zoom st_log set_log (sleep log_chan l_lock set_l_lock).

(** [b->data] of buffer [b], and its assignment. *)
Definition bdata (b : nat) : M lst block := gets (fun s => b_data (getb b (st_bio s))).
Definition bdata_set (b : nat) (d : block) : M lst unit := bop (modify (updb b (set_data d))).

Definition log_block (i : Z) : M lst Z := gets (fun s => lh_block (st_log s) !!! i).

(** ** log.c *)

Definition install_trans (recovering : bool) : M lst unit :=
  g ← gets st_log;
  for_loop (Z.to_nat (lh_n g)) 0 (fun tail =>
    g ← gets st_log;
    lbuf ← bop (bread (l_dev g) (u32 (l_start g + tail + 1)));
    g ← gets st_log;
    dbuf ← bop (bread (l_dev g) (u32 (lh_block g !!! tail)));
    d ← bdata lbuf;
    bdata_set dbuf d;;
    bop (bwrite dbuf);;
    when (negb recovering) (bop (bunpin dbuf));;
    bop (brelse lbuf);;
    bop (brelse dbuf);;
    mret (None (A := unit)));;
  mret tt.

Definition read_head : M lst unit :=
  g ← gets st_log;
  b ← bop (bread (l_dev g) (u32 (l_start g)));
  d ← bdata b;
  lmod (set_lh_n (i32 (ld32 d 0)));;
  g ← gets st_log;
  for_loop (Z.to_nat (lh_n g)) 0 (fun i =>
    lmod (set_lh_block i (i32 (ld32 d (4 + 4 * i))));;
    mret (None (A := unit)));;
  bop (brelse b).

Definition write_head : M lst unit :=
  g ← gets st_log;
  b ← bop (bread (l_dev g) (u32 (l_start g)));
  d ← bdata b;
  bdata_set b (st32 d 0 (lh_n g));;
  for_loop (Z.to_nat (lh_n g)) 0 (fun i =>
    v ← log_block i;
    d ← bdata b;
    bdata_set b (st32 d (4 + 4 * i) v);;
    mret (None (A := unit)));;
  bop (bwrite b);;
  bop (brelse b).

Definition recover_from_log : M lst unit :=
  read_head;;
  install_trans true;;
  lmod (set_lh_n 0);;
  write_head.

(** [logstart] and [nlog] are those fields of the super block. *)
Definition initlog (dev logstart nlog : Z) : M lst unit :=
  if 4 + 4 * LOGSIZE >=? BSIZE then panic "initlog: too big logheader"
  else
    lmod (set_l_lock false);;
    lmod (set_l_area (i32 logstart) (i32 nlog) dev);;
    recover_from_log.

(** One pass of the [while(1)] loop of [begin_op]: a thread that sleeps runs it
    again when it is woken. *)
Definition begin_op : M lst unit :=
  log_acquire;;
  g ← gets st_log;
  if l_committing g then log_sleep
  else if lh_n g + (l_outstanding g + 1) * MAXOPBLOCKS >? LOGSIZE then log_sleep
  else
    lmod (set_l_outstanding (l_outstanding g + 1));;
    log_release.

Definition write_log : M lst unit :=
  g ← gets st_log;
  for_loop (Z.to_nat (lh_n g)) 0 (fun tail =>
    g ← gets st_log;
    to ← bop (bread (l_dev g) (u32 (l_start g + tail + 1)));
    g ← gets st_log;
    from ← bop (bread (l_dev g) (u32 (lh_block g !!! tail)));
    d ← bdata from;
    bdata_set to d;;
    bop (bwrite to);;
    bop (brelse from);;
    bop (brelse to);;
    mret (None (A := unit)));;
  mret tt.

Definition commit : M lst unit :=
  g ← gets st_log;
  when (0 <? lh_n g)
    (write_log;;
     write_head;;
     install_trans false;;
     lmod (set_lh_n 0);;
     write_head).

Definition end_op : M lst unit :=
  log_acquire;;
  g ← gets st_log;
  lmod (set_l_outstanding (l_outstanding g - 1));;
  g ← gets st_log;
  if l_committing g then panic "log.committing"
  else
    do_commit ←
      (if l_outstanding g =? 0
       then lmod (set_l_committing true);; mret true
       else wakeup log_chan;; mret false);
    log_release;;
    when do_commit
      (commit;;
       log_acquire;;
       lmod (set_l_committing false);;
       wakeup log_chan;;
       log_release).

(** [for(i = 0; i < log.lh.n; i++) if(log.lh.block[i] == b->blockno) break;] *)
Fixpoint absorb (n : nat) (i : Z) (blk : gmap Z Z) (blockno : Z) : Z :=
  match n with
  | O => i
  | S n' => if u32 (blk !!! i) =? blockno then i else absorb n' (i + 1) blk blockno
  end.

Definition log_write (b : nat) : M lst unit :=
  log_acquire;;
  g ← gets st_log;
  if (lh_n g >=? LOGSIZE) || (lh_n g >=? l_size g - 1) then panic "too big a transaction"
  else if l_outstanding g <? 1 then panic "log_write outside of trans"
  else
    bb ← bop (gets (getb b));
    let i := absorb (Z.to_nat (lh_n g)) 0 (lh_block g) (b_blockno bb) in
    lmod (set_lh_block i (i32 (b_blockno bb)));;
    when (i =? lh_n g)
      (bop (bpin b);; lmod (set_lh_n (lh_n g + 1)));;
    log_release.

Definition log_boot : logst := Logst false 0 0 0 false 0 0 ∅.
