(* ===== verification/LogSpec.v ===== *)
(** log.c commits atomically.

    Everything here is about the code of Log.v running on the code of Bio.v;
    the cache enters only through the promises of Cache.v. *)

From S2P Require Import Prelude Mem Sleeplock Bio BioSpec Cache DiskLog Log.

Lemma bop_ok {A} (m : M bio A) b g r b' :
  m b = Ok r b' -> bop m (Lst b g) = Ok r (Lst b' g).
Proof. unfold bop, zoom. simpl. by intros ->. Qed.

Lemma lmod_bind {A} f b g (k : unit -> M lst A) : (lmod f ≫= k) (Lst b g) = k tt (Lst b (f g)).
Proof. done. Qed.

Lemma bdata_bind {A} b a g i bn (k : block -> M lst A) :
  abs b a -> ca_held a !! i = Some bn -> (bdata i ≫= k) (Lst b g) = k (ca_view a bn) (Lst b g).
Proof.
  intros Ha Hh. unfold bdata. rewrite gets_bind. simpl. by rewrite (abs_data _ _ _ _ Ha Hh).
Qed.

(** Block [dst] gets content [d], in the cache and on the disk. *)
Definition ca_put (dst : Z) (d : block) (a : cache) : cache := ca_flush dst (ca_set dst d a).

Section copy.
Context (b : bio) (a : cache) (g : logst) (si di : nat) (src dst : Z).
Hypothesis Ha : abs b a.
Hypothesis Hsi : ca_held a !! si = Some src.
Hypothesis Hdi : ca_held a !! di = Some dst.
Hypothesis Hne : src <> dst.

Lemma copy_write {A} (k : unit -> M lst A) :
  exists b', abs b' (ca_put dst (ca_view a src) a) /\
    (d ← bdata si; bdata_set di d;; bop (bwrite di) ≫= k) (Lst b g) = k tt (Lst b' g).
Proof.
  destruct (abs_buf_write b a di dst (ca_view a src) Ha Hdi) as (b1 & H1 & Ha1).
  destruct (abs_bwrite b1 _ di dst Ha1) as (b2 & H2 & Ha2); [done|].
  exists b2. split; [done|].
  rewrite (bdata_bind _ _ _ _ _ _ Ha Hsi). unfold bdata_set. fold (buf_write di (ca_view a src)).
  mstep (bop_ok _ _ g _ _ H1). by mstep (bop_ok _ _ g _ _ H2).
Qed.

(** [brelse(src); brelse(dst)] when both may be given back. *)
Lemma release_two {A} (k : unit -> M lst A) :
  src ∈ ca_pins a \/ ca_view a src = ca_disk a !!! src ->
  dst ∈ ca_pins a \/ ca_view a dst = ca_disk a !!! dst ->
  exists b', abs b' (ca_free di (ca_free si a)) /\
    (bop (brelse si);; bop (brelse di) ≫= k) (Lst b g) = k tt (Lst b' g).
Proof.
  intros Hs Hd.
  destruct (abs_brelse b a si src Ha Hsi Hs) as (b1 & H1 & Ha1).
  destruct (abs_brelse b1 _ di dst Ha1) as (b2 & H2 & Ha2); [|done|].
  { simpl. rewrite lookup_delete_ne; [done|]. intros ->. congruence. }
  exists b2. split; [done|]. mstep (bop_ok _ _ g _ _ H1). by mstep (bop_ok _ _ g _ _ H2).
Qed.
End copy.

(** ** Sequences of writes through the cache *)

Definition ca_puts (ws : trace) (a : cache) : cache := foldl (fun a w => ca_put w.1 w.2 a) a ws.
Definition ca_setpins (P : gset Z) (a : cache) : cache :=
  Cache (ca_view a) (ca_disk a) (ca_writes a) (ca_held a) P.

Lemma ca_puts_snoc ws w a : ca_puts (ws ++ [w]) a = ca_put w.1 w.2 (ca_puts ws a).
Proof. unfold ca_puts. by rewrite foldl_app. Qed.

Lemma ca_puts_proj ws a :
  ca_puts ws a ≡c Cache (wapply (ca_view a) ws) (dapply (ca_disk a) ws) (ca_writes a ++ ws)
                        (ca_held a) (ca_pins a).
Proof.
  induction ws as [|[x d] ws IH] using rev_ind.
  - split; [done|]. split; [done|]. split; [|done]. simpl. by rewrite app_nil_r.
  - rewrite ca_puts_snoc. destruct IH as (Hv & Hd & Hw & Hh & Hp). simpl in *.
    split_and!; simpl.
    + intros y. rewrite wapply_snoc. simpl. by rewrite Hv.
    + rewrite decide_True by done. rewrite Hd, dapply_app. done.
    + rewrite decide_True by done. by rewrite Hw, app_assoc.
    + done.
    + done.
Qed.

Lemma ca_puts_view ws a x : ca_view (ca_puts ws a) x = wapply (ca_view a) ws x.
Proof. apply ca_puts_proj. Qed.
Lemma ca_puts_held ws a : ca_held (ca_puts ws a) = ca_held a.
Proof. apply ca_puts_proj. Qed.
Lemma ca_puts_pins ws a : ca_pins (ca_puts ws a) = ca_pins a.
Proof. apply ca_puts_proj. Qed.

(** ** Two blocks held at once: log block [tail] and its home *)

Lemma bread_pair {A} b a g tail x y (k : nat -> nat -> M lst A) :
  abs b a -> ca_held a = ∅ -> l_dev g = ROOTDEV ->
  u32 (l_start g + tail + 1) = x -> u32 (lh_block g !!! tail) = y -> x <> y ->
  (size (ca_pins a) < NBUF)%nat ->
  y ∈ ca_pins a \/ (S (size (ca_pins a)) < NBUF)%nat ->
  exists i j b', i <> j /\ abs b' (ca_hold j y (ca_hold i x a)) /\
    (g ← gets st_log;
     i ← bop (bread (l_dev g) (u32 (l_start g + tail + 1)));
     g ← gets st_log;
     j ← bop (bread (l_dev g) (u32 (lh_block g !!! tail)));
     k i j) (Lst b g) = k i j (Lst b' g).
Proof.
  intros Ha Hh Hdev Hx Hy Hxy Hrx Hry.
  destruct (abs_bread b a x Ha) as (i & b1 & H1 & Hi & Ha1).
  { intros i. rewrite Hh. by rewrite lookup_empty. }
  { right. rewrite Hh, map_size_empty. lia. }
  destruct (abs_bread b1 _ y Ha1) as (j & b2 & H2 & Hj & Ha2).
  { intros j. simpl. rewrite Hh. destruct (decide (j = i)) as [->|].
    - rewrite lookup_insert_eq. congruence.
    - by rewrite lookup_insert_ne. }
  { destruct Hry as [Hry|Hry]; [by left|right]. simpl. rewrite Hh, insert_empty, map_size_singleton.
    lia. }
  exists i, j, b2. split; [|split; [done|]].
  - intros ->. simpl in Hj. by rewrite lookup_insert_eq in Hj.
  - rewrite gets_bind. simpl st_log. rewrite Hdev, Hx. mstep (bop_ok _ _ g _ _ H1).
    rewrite gets_bind. simpl st_log. rewrite Hdev, Hy. by mstep (bop_ok _ _ g _ _ H2).
Qed.

(** Holding and giving back two buffers leaves the held set as it was. *)
Lemma hold_free_two (i j : nat) (x y : Z) :
  i <> j -> delete i (delete j (<[j := y]> (<[i := x]> (∅ : gmap nat Z)))) = ∅ /\
            delete j (delete i (<[j := y]> (<[i := x]> (∅ : gmap nat Z)))) = ∅.
Proof.
  intros Hij. split; apply map_eq; intros k; rewrite lookup_empty;
    destruct (decide (k = i)), (decide (k = j)); by simplify_map_eq.
Qed.

(** The in-memory header lists [bs], in a log at [start]. *)
Record lh_is (g : logst) (start size : Z) (bs : list Z) : Prop := {
  li_dev : l_dev g = ROOTDEV;
  li_start : l_start g = start;
  li_n : lh_n g = Z.of_nat (length bs);
  li_block : forall k b, bs !! k = Some b -> lh_block g !!! Z.of_nat k = b;
  li_ok : area_ok start size bs }.

Section transaction.
Context (g : logst) (start sz : Z) (bs : list Z).
Hypothesis Hg : lh_is g start sz bs.

Lemma entry_block k : (k < length bs)%nat ->
  u32 (l_start g + Z.of_nat k + 1) = start + 1 + Z.of_nat k.
Proof.
  intros Hk. rewrite (li_start _ _ _ _ Hg). pose proof (li_ok _ _ _ _ Hg) as [H1 H2 H3 _ _ _].
  rewrite u32_small; lia.
Qed.

Lemma home_block k h : bs !! k = Some h -> u32 (lh_block g !!! Z.of_nat k) = h.
Proof.
  intros Hk. rewrite (li_block _ _ _ _ Hg _ _ Hk). apply u32_small.
  apply list_elem_of_lookup_2, (ao_home _ _ _ (li_ok _ _ _ _ Hg)) in Hk. lia.
Qed.

Lemma entry_ne_home k h : bs !! k = Some h -> start + 1 + Z.of_nat k <> h.
Proof.
  intros Hk E. pose proof (list_elem_of_lookup_2 _ _ _ Hk) as Hb.
  apply (home_not_log _ _ _ (li_ok _ _ _ _ Hg) _ Hb k); [by eapply lookup_lt_Some|done].
Qed.

Lemma pins_size : (size (list_to_set bs : gset Z) < NBUF)%nat.
Proof.
  rewrite size_list_to_set by apply (li_ok _ _ _ _ Hg).
  apply (ao_fits _ _ _ (li_ok _ _ _ _ Hg)).
Qed.

(** One round of [write_log]. *)
Lemma write_log_step b a k h :
  abs b a -> ca_held a = ∅ -> ca_pins a = list_to_set bs -> bs !! k = Some h ->
  exists b', abs b' (ca_put (start + 1 + Z.of_nat k) (ca_view a h) a) /\
    (g ← gets st_log;
     to ← bop (bread (l_dev g) (u32 (l_start g + Z.of_nat k + 1)));
     g ← gets st_log;
     from ← bop (bread (l_dev g) (u32 (lh_block g !!! Z.of_nat k)));
     d ← bdata from;
     bdata_set to d;;
     bop (bwrite to);;
     bop (brelse from);;
     bop (brelse to);;
     mret (None (A := unit))) (Lst b g) = Ok None (Lst b' g).
Proof.
  intros Ha Hh HP Hk. pose proof (lookup_lt_Some _ _ _ Hk) as Hlt.
  pose proof (entry_ne_home _ _ Hk) as Hne. set (x := start + 1 + Z.of_nat k) in *.
  assert (h ∈ ca_pins a) as HhP.
  { rewrite HP. apply elem_of_list_to_set. by eapply list_elem_of_lookup_2. }
  destruct (bread_pair b a g (Z.of_nat k) x h
    (fun to from => d ← bdata from; bdata_set to d;; bop (bwrite to);; bop (brelse from);;
       bop (brelse to);; mret (None (A := unit)))) as (i & j & b1 & Hij & Ha1 & ->);
    [done|done|apply Hg|by apply entry_block|by apply home_block|done|rewrite HP; apply pins_size|by left|].
  assert (ca_held (ca_hold j h (ca_hold i x a)) !! j = Some h) as Hj by apply lookup_insert_eq.
  assert (ca_held (ca_hold j h (ca_hold i x a)) !! i = Some x) as Hi.
  { simpl. rewrite lookup_insert_ne by done. apply lookup_insert_eq. }
  destruct (copy_write b1 _ g j i h x Ha1 Hj Hi (fun _ => bop (brelse j);; bop (brelse i);; mret (None (A := unit))))
    as (b2 & Ha2 & ->).
  destruct (release_two b2 _ g j i h x Ha2 Hj Hi (fun Heq => Hne (eq_sym Heq)) (fun _ => mret (None (A := unit))))
    as (b3 & Ha3 & ->); [by left| |].
  { right. simpl. rewrite decide_True by done. by rewrite lookup_total_insert_eq. }
  exists b3. split; [|done]. revert Ha3. apply abs_proper; [done|].
  split_and!; simpl; try done. rewrite Hh. symmetry. by apply hold_free_two.
Qed.

Lemma for_loop_trace (body : Z -> M lst (option unit)) (I : nat -> cache -> cache) b a :
  abs b (I 0%nat a) ->
  (forall k b, (k < length bs)%nat -> abs b (I k a) ->
     exists b', body (Z.of_nat k) (Lst b g) = Ok None (Lst b' g) /\ abs b' (I (S k) a)) ->
  exists b', for_loop (length bs) 0 body (Lst b g) = Ok None (Lst b' g) /\ abs b' (I (length bs) a).
Proof.
  intros Ha Hstep.
  destruct (for_loop_inv (fun t s => exists b, s = Lst b g /\ abs b (I (Z.to_nat t) a)) body (length bs) 0 (Lst b g))
    as (s' & Hrun & b' & -> & Hb').
  - by exists b.
  - intros t s1 Ht (b1 & -> & Hb1). destruct (Hstep (Z.to_nat t) b1) as (b2 & H2 & Hb2); [lia|done|].
    rewrite Z2Nat.id in H2 by lia. exists (Lst b2 g). split; [done|]. exists b2. split; [done|].
    by replace (Z.to_nat (t + 1)) with (S (Z.to_nat t)) by lia.
  - exists b'. split; [done|]. by rewrite Z.add_0_l, Nat2Z.id in Hb'.
Qed.

Ltac loop_trace I b a b' Hrun Hb' :=
  match goal with
  | |- context [for_loop _ _ ?body] => destruct (for_loop_trace body I b a) as (b' & Hrun & Hb')
  end.

Lemma write_log_spec b a :
  abs b a -> ca_held a = ∅ -> ca_pins a = list_to_set bs ->
  exists b', write_log (Lst b g) = Ok tt (Lst b' g) /\ abs b' (ca_puts (logged start bs (ca_view a)) a).
Proof.
  intros Ha Hh HP. unfold write_log. rewrite gets_bind. simpl st_log.
  rewrite (li_n _ _ _ _ Hg), Nat2Z.id. set (ws := logged start bs (ca_view a)).
  assert (length ws = length bs) as Hlen by apply length_imap.
  loop_trace (fun k a => ca_puts (take k ws) a) b a b' Hrun Hb'.
  - done.
  - intros k b1 Hk Hb1. destruct (lookup_lt_is_Some_2 bs k Hk) as [h Hh'].
    edestruct (write_log_step b1 _ k h Hb1) as (b2 & Hb2 & Hrun2).
    + by rewrite ca_puts_held.
    + by rewrite ca_puts_pins.
    + done.
    + exists b2. split; [exact Hrun2|].
      assert (ws !! k = Some (start + 1 + Z.of_nat k, ca_view a h)) as Hw
        by (unfold ws, logged; by rewrite list_lookup_imap, Hh').
      rewrite (take_S_r _ _ _ Hw), ca_puts_snoc. simpl. rewrite ca_puts_view in Hb2.
      unfold ws in Hb2 at 1. rewrite (take_logged_other start bs) in Hb2; [done|].
      intros (j & Hj & E). eapply (home_not_log _ _ _ (li_ok _ _ _ _ Hg)); [|exact Hj|exact E].
      by eapply list_elem_of_lookup_2.
  - exists b'. mstep Hrun. split; [done|]. revert Hb'. rewrite take_ge by lia. done.
Qed.

(** One round of [install_trans]. *)
Lemma install_step (recovering : bool) b a k h :
  abs b a -> ca_held a = ∅ -> bs !! k = Some h ->
  (start + 1 + Z.of_nat k) ∉ ca_pins a ->
  (if recovering then ca_pins a = ∅ else h ∈ ca_pins a /\ (size (ca_pins a) < NBUF)%nat) ->
  exists b', abs b' (ca_setpins (ca_pins a ∖ {[h]}) (ca_put h (ca_view a (start + 1 + Z.of_nat k)) a)) /\
    (g ← gets st_log;
     lbuf ← bop (bread (l_dev g) (u32 (l_start g + Z.of_nat k + 1)));
     g ← gets st_log;
     dbuf ← bop (bread (l_dev g) (u32 (lh_block g !!! Z.of_nat k)));
     d ← bdata lbuf;
     bdata_set dbuf d;;
     bop (bwrite dbuf);;
     when (negb recovering) (bop (bunpin dbuf));;
     bop (brelse lbuf);;
     bop (brelse dbuf);;
     mret (None (A := unit))) (Lst b g) = Ok None (Lst b' g).
Proof.
  intros Ha Hh Hk Hx HP. pose proof (lookup_lt_Some _ _ _ Hk) as Hlt.
  pose proof (entry_ne_home _ _ Hk) as Hne. set (x := start + 1 + Z.of_nat k) in *.
  assert (unheld a x) as Hu by (intros i; rewrite Hh; by rewrite lookup_empty).
  pose proof (abs_clean b a x Ha Hu Hx) as Hclean.
  destruct (bread_pair b a g (Z.of_nat k) x h
    (fun lbuf dbuf => d ← bdata lbuf; bdata_set dbuf d;; bop (bwrite dbuf);;
       when (negb recovering) (bop (bunpin dbuf));; bop (brelse lbuf);;
       bop (brelse dbuf);; mret (None (A := unit)))) as (i & j & b1 & Hij & Ha1 & ->);
    [done|done|apply Hg|by apply entry_block|by apply home_block|done| | |].
  { destruct recovering; [rewrite HP, size_empty; unfold NBUF; lia|apply HP]. }
  { destruct recovering; [right; rewrite HP, size_empty; unfold NBUF; lia|left; apply HP]. }
  set (a1 := ca_hold j h (ca_hold i x a)) in *.
  assert (ca_held a1 !! j = Some h) as Hj by apply lookup_insert_eq.
  assert (ca_held a1 !! i = Some x) as Hi.
  { simpl. rewrite lookup_insert_ne by done. apply lookup_insert_eq. }
  destruct (copy_write b1 _ g i j x h Ha1 Hi Hj (fun _ => when (negb recovering) (bop (bunpin j));;
    bop (brelse i);; bop (brelse j);; mret (None (A := unit)))) as (b2 & Ha2 & ->).
  set (a2 := ca_put h (ca_view a1 x) a1) in *.
  assert (exists b3, abs b3 (ca_setpins (ca_pins a ∖ {[h]}) a2) /\
    when (negb recovering) (bop (bunpin j)) (Lst b2 g) = Ok tt (Lst b3 g)) as (b3 & Ha3 & Hr3).
  { destruct recovering; cbn [negb when].
    - exists b2. split; [|done]. revert Ha2. apply abs_proper; [done|].
      split_and!; simpl; try done. rewrite HP. set_solver.
    - destruct (abs_bunpin b2 a2 j h Ha2) as (b3 & Hr & Ha3); [done|apply HP|].
      exists b3. split; [exact Ha3|]. by apply bop_ok. }
  mstep Hr3.
  destruct (release_two b3 _ g i j x h Ha3 Hi Hj Hne (fun _ => mret (None (A := unit))))
    as (b4 & Ha4 & ->).
  { right. simpl. rewrite decide_False by done. by rewrite lookup_total_insert_ne. }
  { right. simpl. rewrite decide_True by done. by rewrite lookup_total_insert_eq. }
  exists b4. split; [|done]. revert Ha4. apply abs_proper; [done|].
  split_and!; simpl; try done. rewrite Hh. symmetry. by apply hold_free_two.
Qed.

Lemma install_keys f k : (take k (install start bs f)).*1 = take k bs.
Proof. by rewrite fmap_take, install_fst. Qed.

Lemma install_trans_spec (recovering : bool) b a :
  abs b a -> ca_held a = ∅ -> ca_pins a = (if recovering then ∅ else list_to_set bs) ->
  exists b', install_trans recovering (Lst b g) = Ok tt (Lst b' g) /\
    abs b' (ca_setpins ∅ (ca_puts (install start bs (ca_view a)) a)).
Proof.
  intros Ha Hh HP. unfold install_trans. rewrite gets_bind. simpl st_log.
  rewrite (li_n _ _ _ _ Hg), Nat2Z.id. set (ws := install start bs (ca_view a)).
  assert (length ws = length bs) as Hlen by apply length_imap.
  set (I := fun k a => ca_setpins (ca_pins a ∖ list_to_set (take k bs)) (ca_puts (take k ws) a)).
  loop_trace I b a b' Hrun Hb'.
  - revert Ha. apply abs_proper; [done|]. split_and!; simpl; try done. set_solver.
  - intros k b1 Hk Hb1. destruct (lookup_lt_is_Some_2 bs k Hk) as [h Hh'].
    pose proof (list_elem_of_lookup_2 _ _ _ Hh') as Hhb.
    assert (h ∉ take k bs) as Htk.
    { intros (j & Hj & Hjk)%elem_of_take. pose proof (ao_nodup _ _ _ (li_ok _ _ _ _ Hg)) as Hnd.
      rewrite NoDup_alt in Hnd. specialize (Hnd _ _ _ Hj Hh'). lia. }
    assert ((start + 1 + Z.of_nat k) ∉ bs) as Hx.
    { intros Hin. by apply (home_not_log _ _ _ (li_ok _ _ _ _ Hg) _ Hin k Hk). }
    destruct (install_step recovering b1 (I k a) k h Hb1) as (b2 & Hb2 & Hrun2).
    + simpl. by rewrite ca_puts_held.
    + done.
    + simpl. rewrite HP. destruct recovering; set_solver.
    + simpl. rewrite HP. destruct recovering; [set_solver|]. split; [set_solver|].
      eapply Nat.le_lt_trans; [|apply pins_size]. apply subseteq_size. set_solver.
    + exists b2. split; [exact Hrun2|].
      assert (ws !! k = Some (h, ca_view a (start + 1 + Z.of_nat k))) as Hw
        by (unfold ws, install; by rewrite list_lookup_imap, Hh').
      revert Hb2. apply abs_proper; [done|]. unfold I.
      rewrite (take_S_r _ _ _ Hw), ca_puts_snoc, (take_S_r _ _ _ Hh'), list_to_set_app_L. simpl.
      rewrite ca_puts_view, wapply_notin; [|unfold ws; rewrite install_keys; intros H; by apply subseteq_take in H].
      split_and!; simpl; try done. set_solver.
  - exists b'. mstep Hrun. split; [done|]. revert Hb'. apply abs_proper; [done|]. unfold I.
    rewrite !take_ge by lia. split_and!; simpl; try done. rewrite HP. destruct recovering; set_solver.
Qed.
End transaction.

(** [write_head] writes the in-memory header over the header block. *)
Section head.
Context (g : logst) (start : Z) (n : nat).
Hypothesis Hdev : l_dev g = ROOTDEV.
Hypothesis Hstart : u32 (l_start g) = start.
Hypothesis Hn : lh_n g = Z.of_nat n.

Definition new_head (h : block) : block := hdr_fill h (lh_n g) (fun i => lh_block g !!! i).

Lemma write_head_loop b a i :
  abs b a -> ca_held a !! i = Some start ->
  exists b', abs b' (ca_set start (new_head (ca_view a start)) a) /\
    (bdata_set i (st32 (ca_view a start) 0 (lh_n g));;
     for_loop n 0 (fun k => v ← log_block k; d ← bdata i;
       bdata_set i (st32 d (4 + 4 * k) v);; mret (None (A := unit)))) (Lst b g) = Ok None (Lst b' g).
Proof.
  intros Ha Hi. set (d0 := st32 (ca_view a start) 0 (lh_n g)).
  destruct (abs_buf_write b a i start d0 Ha Hi) as (b1 & H1 & Ha1).
  unfold bdata_set at 1. fold (buf_write i d0). mstep (bop_ok _ _ g _ _ H1).
  set (blk := fun i => lh_block g !!! i).
  destruct (for_loop_inv (fun t s => exists b, s = Lst b g /\ abs b (ca_set start (seqn d0 (Z.to_nat t) blk) a))
    (fun k => v ← log_block k; d ← bdata i; bdata_set i (st32 d (4 + 4 * k) v);; mret (None (A := unit)))
    n 0 (Lst b1 g)) as (s' & Hrun & b' & -> & Hb').
  - by exists b1.
  - intros t s1 Ht (b2 & -> & Hb2). unfold log_block. rewrite gets_bind.
    rewrite (bdata_bind _ _ _ i start _ Hb2) by done. simpl ca_view. rewrite decide_True by done.
    destruct (abs_buf_write b2 _ i start (st32 (seqn d0 (Z.to_nat t) blk) (4 + 4 * t) (blk t)) Hb2 Hi)
      as (b3 & H3 & Hb3).
    exists (Lst b3 g). split.
    + unfold bdata_set. fold (buf_write i (st32 (seqn d0 (Z.to_nat t) blk) (4 + 4 * t) (blk t))).
      by mstep (bop_ok _ _ g _ _ H3).
    + exists b3. split; [done|]. replace (Z.to_nat (t + 1)) with (S (Z.to_nat t)) by lia.
      rewrite seqn_S, Z2Nat.id by lia. revert Hb3. apply abs_proper; [done|].
      split_and!; simpl; try done. intros y. by case_decide.
  - exists b'. split; [|done]. unfold new_head, hdr_fill. rewrite Hn, Nat2Z.id.
    rewrite Z.add_0_l, Nat2Z.id in Hb'. unfold d0 in Hb'. rewrite Hn in Hb'. exact Hb'.
Qed.

Lemma write_head_spec b a :
  abs b a -> ca_held a = ∅ -> (size (ca_pins a) < NBUF)%nat ->
  exists b', write_head (Lst b g) = Ok tt (Lst b' g) /\
    abs b' (ca_put start (new_head (ca_view a start)) a).
Proof.
  intros Ha Hh Hsz.
  destruct (abs_bread b a start Ha) as (i & b1 & H1 & Hi & Ha1).
  { intros i. rewrite Hh. by rewrite lookup_empty. }
  { right. rewrite Hh, map_size_empty. lia. }
  assert (ca_held (ca_hold i start a) !! i = Some start) as Hi1 by apply lookup_insert_eq.
  destruct (write_head_loop b1 _ i Ha1 Hi1) as (b2 & Ha2 & H2).
  destruct (abs_bwrite b2 _ i start Ha2 Hi1) as (b3 & H3 & Ha3).
  destruct (abs_brelse b3 _ i start Ha3 Hi1) as (b4 & H4 & Ha4).
  { right. simpl. by rewrite lookup_total_insert_eq. }
  exists b4. split.
  - unfold write_head. rewrite gets_bind. simpl st_log. rewrite Hdev, Hstart.
    mstep (bop_ok _ _ g _ _ H1). rewrite (bdata_bind _ _ _ _ _ _ Ha1 Hi1).
    assert (Z.to_nat (lh_n g) = n) as -> by lia. revert H2. unfold mbind at 1, M_bind at 1.
    destruct (bdata_set i _ (Lst b1 g)) as [[] s2| | |] eqn:E; try discriminate. intros H2.
    mstep E. mstep H2. mstep (bop_ok _ _ g _ _ H3). by apply bop_ok.
  - revert Ha4. apply abs_proper; [done|]. split_and!; simpl; try done.
    rewrite Hh, insert_empty. symmetry. apply map_eq. intros k. rewrite lookup_empty.
    destruct (decide (k = i)) as [->|]; by simplify_map_eq.
Qed.
End head.

(** ** Commit *)

Lemma ca_puts_app ws vs a : ca_puts (ws ++ vs) a = ca_puts vs (ca_puts ws a).
Proof. apply foldl_app. Qed.

Lemma ca_puts_setpins ws P a : ca_puts ws (ca_setpins P a) = ca_setpins P (ca_puts ws a).
Proof. revert a. induction ws as [|w ws IH]; intros a; [done|]. apply (IH (ca_put w.1 w.2 a)). Qed.

Lemma install_logged start bs f v :
  (forall k b, bs !! k = Some b -> f (start + 1 + Z.of_nat k) = v b) ->
  install start bs f = (fun b => (b, v b)) <$> bs.
Proof.
  intros H. apply list_eq. intros k. unfold install. rewrite list_lookup_imap, list_lookup_fmap.
  destruct (bs !! k) as [b|] eqn:E; [|done]. simpl. by rewrite (H k b E).
Qed.

Lemma lh_is_set0 g start sz bs : lh_is g start sz bs -> l_dev (set_lh_n 0 g) = ROOTDEV /\
  u32 (l_start (set_lh_n 0 g)) = start /\ lh_n (set_lh_n 0 g) = Z.of_nat 0.
Proof.
  intros Hg. split_and!; [apply Hg| |done]. simpl. rewrite (li_start _ _ _ _ Hg).
  pose proof (li_ok _ _ _ _ Hg) as [? ? ? _ _ _]. apply u32_small. lia.
Qed.

(** The commit of the blocks [bs]: its writes, in order, and the cache after
    it.  [h1] and [h0] are the two headers it writes. *)
Lemma commit_spec g start sz bs b a :
  lh_is g start sz bs -> bs <> [] -> abs b a -> ca_held a = ∅ -> ca_pins a = list_to_set bs ->
  exists b' h1 h0, commit (Lst b g) = Ok tt (Lst b' (set_lh_n 0 g)) /\
    hdr_is h1 bs /\ hdr_n h0 = 0 /\
    abs b' (ca_setpins ∅ (ca_puts (commit_trace start bs (ca_view a) h1 h0) a)).
Proof.
  intros Hg Hne Ha Hh HP. pose proof (li_ok _ _ _ _ Hg) as Hok.
  destruct (lh_is_set0 _ _ _ _ Hg) as (Hd0 & Hs0 & Hn0).
  pose proof (pins_size _ _ _ _ Hg) as Hsz.
  destruct (write_log_spec g start sz bs Hg b a Ha Hh HP) as (b1 & H1 & Ha1).
  set (a1 := ca_puts (logged start bs (ca_view a)) a) in *.
  assert (ca_held a1 = ∅) as Hh1 by (unfold a1; by rewrite ca_puts_held).
  assert (ca_pins a1 = list_to_set bs) as HP1 by (unfold a1; by rewrite ca_puts_pins).
  destruct (write_head_spec g start (length bs) (li_dev _ _ _ _ Hg) Hs0 (li_n _ _ _ _ Hg) b1 a1)
    as (b2 & H2 & Ha2); [done|done|by rewrite HP1|].
  set (h1 := new_head g (ca_view a1 start)) in *.
  destruct (install_trans_spec g start sz bs Hg false b2 _ Ha2) as (b3 & H3 & Ha3); [done|done|].
  set (a2 := ca_put start h1 a1) in *.
  assert (install start bs (ca_view a2) = (fun x => (x, ca_view a x)) <$> bs) as HI.
  { apply install_logged. intros k x Hk. simpl. rewrite decide_False by lia.
    unfold a1. rewrite ca_puts_view. apply wapply_in; [apply logged_NoDup|by apply logged_elem]. }
  rewrite HI in Ha3. set (a3 := ca_setpins ∅ (ca_puts ((fun x => (x, ca_view a x)) <$> bs) a2)) in *.
  destruct (write_head_spec (set_lh_n 0 g) start 0 Hd0 Hs0 Hn0 b3 a3) as (b4 & H4 & Ha4).
  { done. } { simpl. by rewrite ca_puts_held. } { change (ca_pins a3) with (∅ : gset Z). rewrite size_empty. unfold NBUF. lia. }
  exists b4, h1, (new_head (set_lh_n 0 g) (ca_view a3 start)). split_and!.
  - unfold commit. rewrite gets_bind. simpl st_log. rewrite (li_n _ _ _ _ Hg).
    destruct bs as [|x bs']; [done|]. rewrite (proj2 (Z.ltb_lt 0 _)) by (simpl; lia). cbn [when].
    mstep H1. mstep H2. mstep H3. rewrite lmod_bind. exact H4.
  - unfold h1, new_head. rewrite (li_n _ _ _ _ Hg). apply hdr_fill_is.
    + pose proof (ao_fits _ _ _ Hok). lia.
    + intros x Hx. by apply (ao_home _ _ _ Hok).
    + apply Hg.
  - unfold new_head. simpl lh_n. apply hdr_fill_nil.
  - revert Ha4. apply abs_proper; [done|]. unfold commit_trace.
    rewrite !ca_puts_app. simpl (ca_puts [_] _). fold a1 a2. unfold a3 at 1.
    done.
Qed.

(** ** Recovery *)

(** The in-memory header after [n] rounds of [read_head]'s loop. *)
Definition read_blocks (h : block) (n : nat) (g : logst) : logst :=
  foldl (fun g k => set_lh_block (Z.of_nat k) (hdr_block h (Z.of_nat k)) g) g (seq 0 n).

Lemma read_blocks_S h n g :
  read_blocks h (S n) g = set_lh_block (Z.of_nat n) (hdr_block h (Z.of_nat n)) (read_blocks h n g).
Proof. unfold read_blocks. by rewrite seq_S, foldl_app. Qed.

Lemma read_blocks_fields h n g :
  l_dev (read_blocks h n g) = l_dev g /\ l_start (read_blocks h n g) = l_start g /\
  l_size (read_blocks h n g) = l_size g /\
  lh_n (read_blocks h n g) = lh_n g /\
  forall k, (k < n)%nat -> lh_block (read_blocks h n g) !!! Z.of_nat k = hdr_block h (Z.of_nat k).
Proof.
  induction n as [|n (H1 & H2 & H3 & H4 & H5)]; [split_and!; try done; lia|].
  rewrite read_blocks_S. simpl. split_and!; try done. intros k Hk.
  destruct (decide (k = n)) as [->|]; [by rewrite lookup_total_insert_eq|].
  rewrite lookup_total_insert_ne by lia. apply H5. lia.
Qed.

Definition read_log (h : block) (g : logst) : logst :=
  read_blocks h (Z.to_nat (hdr_n h)) (set_lh_n (hdr_n h) g).

Lemma read_head_spec b a g start :
  abs b a -> ca_held a = ∅ -> ca_pins a = ∅ -> l_dev g = ROOTDEV -> u32 (l_start g) = start ->
  exists b', read_head (Lst b g) = Ok tt (Lst b' (read_log (ca_view a start) g)) /\ abs b' a.
Proof.
  intros Ha Hh HP Hdev Hstart.
  assert (unheld a start) as Hu by (intros i; rewrite Hh; by rewrite lookup_empty).
  pose proof (abs_clean b a start Ha Hu) as Hclean. rewrite HP in Hclean.
  destruct (abs_bread b a start Ha Hu) as (i & b1 & H1 & Hi & Ha1).
  { right. rewrite Hh, HP, map_size_empty, size_empty. unfold NBUF. lia. }
  assert (ca_held (ca_hold i start a) !! i = Some start) as Hi1 by apply lookup_insert_eq.
  destruct (abs_brelse b1 _ i start Ha1 Hi1) as (b2 & H2 & Ha2); [right; apply Hclean; set_solver|].
  exists b2. split.
  - unfold read_head. rewrite gets_bind. simpl st_log. rewrite Hdev, Hstart.
    mstep (bop_ok _ _ g _ _ H1). rewrite (bdata_bind _ _ _ _ _ _ Ha1 Hi1), lmod_bind, gets_bind.
    simpl st_log. simpl lh_n. simpl ca_view. set (h := ca_view a start). fold (hdr_n h).
    loop_inv (fun t s => s = Lst b1 (read_blocks h (Z.to_nat t) (set_lh_n (hdr_n h) g))) as s' Hrun E.
    + done.
    + intros t s1 Ht ->. rewrite lmod_bind. eexists. split; [done|].
      replace (Z.to_nat (t + 1)) with (S (Z.to_nat t)) by lia.
      by rewrite read_blocks_S, Z2Nat.id by lia.
    + mstep Hrun. rewrite E, Z.add_0_l, Nat2Z.id. apply bop_ok, H2.
  - revert Ha2. apply abs_proper; [done|]. split_and!; simpl; try done.
    rewrite Hh, insert_empty. symmetry. apply map_eq. intros k. rewrite lookup_empty.
    destruct (decide (k = i)) as [->|]; by simplify_map_eq.
Qed.

Lemma read_log_is h g start sz :
  l_dev g = ROOTDEV -> l_start g = start -> 0 <= hdr_n h -> area_ok start sz (hdr_list h) ->
  lh_is (read_log h g) start sz (hdr_list h).
Proof.
  intros Hd Hs Hn Hok. unfold read_log.
  destruct (read_blocks_fields h (Z.to_nat (hdr_n h)) (set_lh_n (hdr_n h) g)) as (H1 & H2 & _ & H4 & H5).
  split; [by rewrite H1|by rewrite H2| | |done].
  - rewrite H4. unfold hdr_list. rewrite length_fmap, length_seq. simpl. lia.
  - intros k x Hk. unfold hdr_list in Hk. rewrite list_lookup_fmap in Hk.
    destruct (decide (k < Z.to_nat (hdr_n h))%nat) as [Hlt|].
    + rewrite lookup_seq_lt in Hk by done. simplify_eq/=. by apply H5.
    + by rewrite lookup_seq_ge in Hk by lia.
Qed.

(** A disk with a sound log at [start]: recovery installs what its header
    lists and clears the header. *)
Lemma recover_spec b a g start sz :
  let h := ca_view a start in
  abs b a -> ca_held a = ∅ -> ca_pins a = ∅ -> l_dev g = ROOTDEV -> l_start g = start ->
  0 <= hdr_n h -> area_ok start sz (hdr_list h) ->
  exists b' h0, recover_from_log (Lst b g) = Ok tt (Lst b' (set_lh_n 0 (read_log h g))) /\
    hdr_n h0 = 0 /\ abs b' (ca_puts (recovery_trace start (ca_view a) h0) a).
Proof.
  intros h Ha Hh HP Hdev Hstart Hn Hok.
  assert (u32 (l_start g) = start) as Hu.
  { rewrite Hstart. destruct Hok as [? ? ? _ _ _]. apply u32_small. lia. }
  destruct (read_head_spec b a g start Ha Hh HP Hdev Hu) as (b1 & H1 & Ha1). fold h in H1.
  pose proof (read_log_is h g start sz Hdev Hstart Hn Hok) as Hg.
  destruct (lh_is_set0 _ _ _ _ Hg) as (Hd0 & Hs0 & Hn0).
  destruct (install_trans_spec _ start sz _ Hg true b1 a Ha1 Hh HP) as (b2 & H2 & Ha2).
  set (a2 := ca_setpins ∅ (ca_puts (install start (hdr_list h) (ca_view a)) a)) in *.
  destruct (write_head_spec _ start 0 Hd0 Hs0 Hn0 b2 a2 Ha2) as (b3 & H3 & Ha3).
  { simpl. by rewrite ca_puts_held. }
  { change (ca_pins a2) with (∅ : gset Z). rewrite size_empty. unfold NBUF. lia. }
  exists b3, (new_head (set_lh_n 0 (read_log h g)) (ca_view a2 start)).
  split; [|split; [apply hdr_fill_nil|]].
  - unfold recover_from_log. mstep H1. mstep H2. rewrite lmod_bind. exact H3.
  - revert Ha3. apply abs_proper; [done|]. unfold recovery_trace. rewrite ca_puts_app.
    split_and!; simpl; try done. rewrite ca_puts_pins, HP. done.
Qed.

(** [initlog] after [binit] on disk [d]. *)
Lemma initlog_spec d b g start sz :
  abs b (cache_boot d) -> 0 <= hdr_n (d !!! start) -> area_ok start sz (hdr_list (d !!! start)) ->
  exists b' g' h0, initlog ROOTDEV start sz (Lst b g) = Ok tt (Lst b' g') /\
    lh_is g' start sz [] /\ l_size g' = sz /\ l_lock g' = false /\
    l_outstanding g' = l_outstanding g /\ l_committing g' = l_committing g /\ hdr_n h0 = 0 /\
    abs b' (ca_puts (recovery_trace start (fun x => d !!! x) h0) (cache_boot d)).
Proof.
  intros Hb Hn Hok. pose proof Hok as [Ho1 Ho2 Ho3 _ _ _].
  unfold initlog. change (4 + 4 * LOGSIZE >=? BSIZE) with false. cbv iota.
  rewrite !lmod_bind. rewrite !i32_small by lia.
  set (g1 := set_l_area start sz ROOTDEV (set_l_lock false g)).
  destruct (recover_spec b _ g1 start sz Hb) as (b' & h0 & Hrun & Hh0 & Hb'); [done..|].
  exists b', (set_lh_n 0 (read_log (d !!! start) g1)), h0.
  destruct (read_log_is (d !!! start) g1 start sz) as [R1 R2 R3 R4 R5]; [done..|].
  split; [done|]. split.
  { split; [done|done|done|done|]. destruct R5. split; try done; simpl; try lia.
    - apply NoDup_nil_2.
    - intros x Hx. by apply not_elem_of_nil in Hx. }
  simpl. unfold read_log.
  assert (forall n g, l_size (read_blocks (d !!! start) n g) = l_size g /\
    l_lock (read_blocks (d !!! start) n g) = l_lock g /\
    l_outstanding (read_blocks (d !!! start) n g) = l_outstanding g /\
    l_committing (read_blocks (d !!! start) n g) = l_committing g) as Hf.
  { induction n as [|n IH]; intros g'; [done|]. rewrite read_blocks_S. apply IH. }
  destruct (Hf (Z.to_nat (hdr_n (d !!! start))) (set_lh_n (hdr_n (d !!! start)) g1)) as (-> & -> & -> & ->).
  done.
Qed.
