(* ===== verification/LogTx.v ===== *)
(** Transactions: begin_op, log_write and end_op keep the log's invariant,
    and a machine that stops anywhere in a commit comes back with all of the
    transaction or none of it. *)

From S2P Require Import Prelude Mem Sleeplock Bio BioSpec Cache DiskLog Log LogSpec.

(** The log between two steps of its users: [bs] are the blocks of the open
    transaction, [out] the system calls in it. *)
Record log_inv (s : lst) (a : cache) (start sz : Z) (bs : list Z) (out : Z) : Prop := {
  lv_abs : abs (st_bio s) a;
  lv_lh : lh_is (st_log s) start sz bs;
  lv_size : l_size (st_log s) = sz;
  lv_lock : l_lock (st_log s) = false;
  lv_committing : l_committing (st_log s) = false;
  lv_out : l_outstanding (st_log s) = out;
  lv_pins : ca_pins a = list_to_set bs;
  lv_hdr : hdr_n (ca_disk a !!! start) = 0 }.

Lemma log_acquire_bind {A} b g (k : unit -> M lst A) :
  l_lock g = false -> (log_acquire ≫= k) (Lst b g) = k tt (Lst b (set_l_lock true g)).
Proof. intros H. unfold log_acquire, zoom, acquire, mbind, M_bind. simpl. by rewrite H. Qed.

Lemma log_release_ok b g : l_lock g = true -> log_release (Lst b g) = Ok tt (Lst b (set_l_lock false g)).
Proof. intros H. unfold log_release, zoom, release. simpl. by rewrite H. Qed.

Lemma relock g : l_lock g = false -> set_l_lock false (set_l_lock true g) = g.
Proof. destruct g. simpl. by intros ->. Qed.

(** ** begin_op *)

Lemma begin_op_admits s a start sz bs out :
  log_inv s a start sz bs out -> Z.of_nat (length bs) + (out + 1) * MAXOPBLOCKS <= LOGSIZE ->
  exists s', begin_op s = Ok tt s' /\ log_inv s' a start sz bs (out + 1).
Proof.
  intros [H1 H2 H3 H4 H5 H6 H7 H8] Hle. destruct s as [b g]. simpl in *.
  exists (Lst b (set_l_outstanding (out + 1) g)). split.
  - unfold begin_op. rewrite log_acquire_bind by done. rewrite gets_bind. simpl.
    rewrite H5, H6, (li_n _ _ _ _ H2).
    destruct (Z.gtb_spec (Z.of_nat (length bs) + (out + 1) * MAXOPBLOCKS) LOGSIZE); [lia|].
    rewrite lmod_bind, log_release_ok by done. simpl. f_equal. f_equal.
    destruct g; simpl in *. by rewrite H4.
  - split; try done. destruct H2. by split.
Qed.

Lemma begin_op_sleeps s a start sz bs out :
  log_inv s a start sz bs out -> LOGSIZE < Z.of_nat (length bs) + (out + 1) * MAXOPBLOCKS ->
  begin_op s = Sleep log_chan s.
Proof.
  intros [H1 H2 H3 H4 H5 H6 H7 H8] Hle. destruct s as [b g]. simpl in *.
  unfold begin_op. rewrite log_acquire_bind by done. rewrite gets_bind. simpl.
  rewrite H5, H6, (li_n _ _ _ _ H2).
  destruct (Z.gtb_spec (Z.of_nat (length bs) + (out + 1) * MAXOPBLOCKS) LOGSIZE); [|lia].
  unfold log_sleep, zoom, sleep. simpl. by rewrite relock.
Qed.

(** ** log_write *)

Definition log_add (bn : Z) (bs : list Z) : list Z := if decide (bn ∈ bs) then bs else bs ++ [bn].

Lemma absorb_spec (g : logst) bs bn n k :
  (forall j b, bs !! j = Some b -> lh_block g !!! Z.of_nat j = b) ->
  (forall b, b ∈ bs -> 0 <= b < 2147483648) ->
  (n + k = length bs)%nat -> (forall j, (j < k)%nat -> bs !! j <> Some bn) ->
  exists j, absorb n (Z.of_nat k) (lh_block g) bn = Z.of_nat j /\
    (bs !! j = Some bn \/ (j = length bs /\ bn ∉ bs)).
Proof.
  intros Hb Hr. revert k. induction n as [|n IH]; intros k Hlen Hnot; cbn [absorb].
  - exists k. split; [done|]. right. split; [lia|]. intros [j Hj]%list_elem_of_lookup.
    pose proof (lookup_lt_Some _ _ _ Hj). apply (Hnot j); [lia|done].
  - destruct (lookup_lt_is_Some_2 bs k) as [x Hx]; [lia|].
    rewrite (Hb _ _ Hx). pose proof (Hr x (list_elem_of_lookup_2 _ _ _ Hx)).
    rewrite u32_small by lia. destruct (Z.eqb_spec x bn) as [->|Hne].
    + exists k. by split; [|left].
    + replace (Z.of_nat k + 1) with (Z.of_nat (S k)) by lia. apply IH; [lia|].
      intros j Hj. destruct (decide (j = k)) as [->|]; [congruence|]. apply Hnot. lia.
Qed.

Lemma area_ok_add start sz bs bn :
  area_ok start sz bs -> Z.of_nat (length bs) < sz - 1 -> Z.of_nat (length bs) < 29 ->
  0 <= bn < 2147483648 -> ~ in_log start sz bn -> area_ok start sz (log_add bn bs).
Proof.
  intros Hok Hsz H29 Hbn Hhome. unfold log_add. case_decide as Hin; [done|].
  destruct Hok. split; rewrite ?length_app; simpl; try lia.
  - apply NoDup_app. split; [done|]. split; [set_solver|apply NoDup_singleton].
  - intros x [Hx|Hx%list_elem_of_singleton]%elem_of_app; [auto|]. by subst.
Qed.

Lemma log_add_pins bn bs : (list_to_set (log_add bn bs) : gset Z) = {[bn]} ∪ list_to_set bs.
Proof. unfold log_add. case_decide; set_solver. Qed.

Lemma log_write_spec s a start sz bs out i bn :
  log_inv s a start sz bs out -> 0 < out -> ca_held a !! i = Some bn ->
  0 <= bn < 2147483648 -> ~ in_log start sz bn ->
  Z.of_nat (length bs) < sz - 1 -> Z.of_nat (length bs) < 29 ->
  exists s', log_write i s = Ok tt s' /\ log_inv s' (ca_pin bn a) start sz (log_add bn bs) out.
Proof.
  intros [H1 H2 H3 H4 H5 H6 H7 H8] Hout Hi Hbn Hhome Hsz H29.
  destruct s as [b g]. simpl in *. pose proof H2 as [L1 L2 L3 L4 L5].
  pose proof (area_ok_add _ _ _ _ L5 Hsz H29 Hbn Hhome) as Hok'.
  destruct (absorb_spec g bs bn (length bs) 0 L4) as (j & Hj & Hcase);
    [intros x Hx; by apply (ao_home _ _ _ L5)|lia|lia|].
  pose proof (abs_blockno _ _ _ _ H1 Hi) as Hno.
  unfold log_write. rewrite log_acquire_bind by done. rewrite gets_bind.
  cbn [st_log set_l_lock lh_n l_size l_outstanding lh_block]. rewrite L3, H3, H6, Nat2Z.id.
  destruct (Z.geb_spec (Z.of_nat (length bs)) LOGSIZE) as [E|E]; [unfold LOGSIZE, MAXOPBLOCKS in E; lia|].
  destruct (Z.geb_spec (Z.of_nat (length bs)) (sz - 1)) as [E'|E']; [lia|]. cbn [orb].
  destruct (Z.ltb_spec out 1) as [E''|E'']; [lia|].
  rewrite (bind_ok _ _ _ (getb i b) (Lst b (set_l_lock true g))) by done. cbv beta zeta.
  rewrite Hno, lmod_bind. rewrite i32_small by lia.
  change (Z.of_nat 0) with 0 in Hj. rewrite Hj.
  destruct (Z.eqb_spec (Z.of_nat j) (Z.of_nat (length bs))) as [Ej|Ej]; cbn [when].
  - (* a new block *)
    apply Nat2Z.inj in Ej as ->. destruct Hcase as [Hc|[_ Hnin]].
    { apply lookup_lt_Some in Hc. lia. }
    destruct (abs_bpin b a i bn H1 Hi) as (b' & Hpin & Hab); [rewrite H7; set_solver|].
    eexists. split.
    + rewrite (bind_ok _ _ _ tt (Lst b' (set_lh_n (Z.of_nat (length bs) + 1)
        (set_lh_block (Z.of_nat (length bs)) bn (set_l_lock true g))))).
      * apply log_release_ok. done.
      * mstep (bop_ok _ _ (set_lh_block (Z.of_nat (length bs)) bn (set_l_lock true g)) _ _ Hpin). done.
    + split; simpl; try done; [|by rewrite log_add_pins, H7].
      split; simpl; try done; unfold log_add; rewrite decide_False by done.
      * rewrite length_app. simpl. lia.
      * intros k x Hk. destruct (decide (k = length bs)) as [->|Hne].
        -- rewrite lookup_app_r in Hk by lia. rewrite Nat.sub_diag in Hk. simplify_eq/=.
           by rewrite lookup_total_insert_eq.
        -- rewrite lookup_total_insert_ne by lia. apply L4.
           rewrite lookup_app_l in Hk; [done|]. apply lookup_lt_Some in Hk.
           rewrite length_app in Hk. simpl in Hk. lia.
  - (* absorbed *)
    destruct Hcase as [Hc|[-> _]]; [|done]. pose proof (list_elem_of_lookup_2 _ _ _ Hc) as Hin.
    eexists. split.
    + rewrite ret_bind. apply log_release_ok. done.
    + unfold log_add. rewrite decide_True by done.
      split; simpl; try done.
      * revert H1. apply abs_proper; [done|]. split_and!; simpl; try done.
        assert (bn ∈ ca_pins a) by (rewrite H7; by apply elem_of_list_to_set). set_solver.
      * split; simpl; try done. intros k x Hk. destruct (decide (k = j)) as [->|].
        -- rewrite lookup_total_insert_eq. congruence.
        -- rewrite lookup_total_insert_ne by lia. by apply L4.
      * rewrite H7. set_solver.
Qed.

(** ** end_op *)

Section commit_effect.
Context (start sz : Z) (bs : list Z) (Hok : area_ok start sz bs) (v g : Z -> block) (h1 h0 : block).

(** A commit writes what its blocks hold. *)
Lemma commit_trace_home x :
  ~ in_log start sz x ->
  wapply g (commit_trace start bs v h1 h0) x = if decide (x ∈ bs) then v x else g x.
Proof.
  intros Hx. pose proof (not_start _ _ _ Hok _ Hx) as Hs.
  unfold commit_trace. rewrite !wapply_app. simpl. rewrite decide_False by done.
  case_decide as Hin.
  - apply wapply_in; [rewrite <- list_fmap_compose, list_fmap_id; apply Hok|].
    apply list_elem_of_fmap. by exists x.
  - rewrite <- (firstn_all ((fun b => (b, v b)) <$> bs)), wapply_notin by by apply homes_notin.
    simpl. rewrite decide_False by done.
    by apply (logged_home start sz bs Hok v).
Qed.

Lemma commit_trace_start : wapply g (commit_trace start bs v h1 h0) start = h0.
Proof. unfold commit_trace. rewrite !wapply_app. simpl. by rewrite decide_True. Qed.
End commit_effect.

(** The writes of [commit]. *)
Definition commit_writes (v : Z -> block) (start : Z) (bs : list Z) (ws : trace) : Prop :=
  (bs = [] /\ ws = []) \/
  exists h1 h0, hdr_is h1 bs /\ hdr_n h0 = 0 /\ ws = commit_trace start bs v h1 h0.

(** What [commit] leaves behind. *)
Record committed (a a' : cache) (start sz : Z) (bs : list Z) : Prop := {
  cm_writes : exists ws, ca_writes a' = ca_writes a ++ ws /\ commit_writes (ca_view a) start bs ws;
  cm_pins : ca_pins a' = ∅;
  cm_held : ca_held a' = ∅;
  cm_view : forall x, ~ in_log start sz x -> ca_view a' x = ca_view a x;
  cm_disk : forall x, ~ in_log start sz x -> ca_disk a' !!! x = ca_view a x;
  cm_hdr : hdr_n (ca_disk a' !!! start) = 0 }.

Lemma commit_any b a g start sz bs :
  abs b a -> lh_is g start sz bs -> ca_held a = ∅ -> ca_pins a = list_to_set bs ->
  hdr_n (ca_disk a !!! start) = 0 ->
  exists b' a', commit (Lst b g) = Ok tt (Lst b' (set_lh_n 0 g)) /\ abs b' a' /\ committed a a' start sz bs.
Proof.
  intros Ha Hg Hh HP Hhdr. pose proof (li_ok _ _ _ _ Hg) as Hok.
  assert (forall x, x ∉ bs -> ca_disk a !!! x = ca_view a x) as Hcl.
  { intros x Hx. symmetry. apply (abs_clean b); [done| |rewrite HP; set_solver].
    intros i. rewrite Hh. by rewrite lookup_empty. }
  destruct (decide (bs = [])) as [->|Hne].
  - exists b, a. split; [|split; [done|]].
    + unfold commit. rewrite gets_bind. simpl st_log. pose proof (li_n _ _ _ _ Hg) as Hn. simpl in Hn.
      rewrite Hn. cbn [when Z.ltb Z.compare]. f_equal. f_equal. destruct g; simpl in *. by subst.
    + split; [exists []; split; [by rewrite app_nil_r|by left]|done|done|done| |done]. intros x _. apply Hcl. set_solver.
  - destruct (commit_spec g start sz bs b a Hg Hne Ha Hh HP) as (b' & h1 & h0 & Hrun & Hh1 & Hh0 & Hb').
    exists b', (ca_setpins ∅ (ca_puts (commit_trace start bs (ca_view a) h1 h0) a)).
    destruct (ca_puts_proj (commit_trace start bs (ca_view a) h1 h0) a) as (Hv & Hd & Hw & Hhe & _).
    split; [done|]. split; [done|]. split; simpl.
    + eexists. split; [exact Hw|]. right. by exists h1, h0.
    + done.
    + by rewrite Hhe.
    + intros x Hx. rewrite Hv. simpl. rewrite (commit_trace_home _ sz _ Hok) by done. by case_decide.
    + intros x Hx. rewrite Hd. simpl. rewrite dapply_wapply, (commit_trace_home _ sz _ Hok) by done.
      case_decide; [done|]. by apply Hcl.
    + rewrite Hd. simpl. rewrite dapply_wapply, commit_trace_start. done.
Qed.

Lemma lh_is_fields g g' start sz bs :
  l_dev g' = l_dev g -> l_start g' = l_start g -> lh_n g' = lh_n g -> lh_block g' = lh_block g ->
  lh_is g start sz bs -> lh_is g' start sz bs.
Proof. intros E1 E2 E3 E4 []. split; rewrite ?E1, ?E2, ?E3, ?E4; done. Qed.

Lemma lh_is_nil g start sz bs : lh_is g start sz bs -> lh_is (set_lh_n 0 g) start sz [].
Proof.
  intros [H1 H2 _ _ []]. split; try done. split; simpl; try done; try lia.
  - apply NoDup_nil_2.
  - intros x Hx. by apply not_elem_of_nil in Hx.
Qed.

(** The last system call of a transaction commits it. *)
Lemma end_op_last s a start sz bs :
  log_inv s a start sz bs 1 -> ca_held a = ∅ ->
  exists s' a', end_op s = Ok tt s' /\ log_inv s' a' start sz [] 0 /\ committed a a' start sz bs.
Proof.
  intros [H1 H2 H3 H4 H5 H6 H7 H8] Hh. destruct s as [b g]. simpl in *.
  set (g1 := set_l_lock false (set_l_committing true (set_l_outstanding 0 (set_l_lock true g)))).
  destruct (commit_any b a g1 start sz bs H1) as (b' & a' & Hrun & Hb' & Hc); try done.
  { by apply (lh_is_fields g). }
  set (b2 := set_bc_woken (log_chan :: bc_woken b') b').
  set (g2 := set_l_lock false (set_l_committing false (set_l_lock true (set_lh_n 0 g1)))).
  exists (Lst b2 g2), a'. split; [|split; [|done]].
  - unfold end_op. rewrite log_acquire_bind by done. rewrite gets_bind. cbn [st_log].
    change (l_outstanding (set_l_lock true g)) with (l_outstanding g). rewrite H6, lmod_bind, gets_bind.
    cbn [st_log set_l_outstanding set_l_lock l_committing l_outstanding]. rewrite H5. cbn [Z.sub Z.add Z.opp Z.pos_sub Z.eqb].
    rewrite (bind_ok _ _ _ true (Lst b (set_l_committing true (set_l_outstanding 0 (set_l_lock true g))))) by done.
    cbv beta. rewrite (bind_ok _ _ _ tt (Lst b g1)) by (by apply log_release_ok).
    cbn [when]. mstep Hrun. rewrite log_acquire_bind by done. rewrite lmod_bind.
    rewrite (bind_ok _ _ _ tt (Lst b2 (set_l_committing false (set_l_lock true (set_lh_n 0 g1))))) by done.
    by apply log_release_ok.
  - destruct Hc. split; simpl; try done; [by apply abs_woken|].
    apply (lh_is_fields (set_lh_n 0 g)); try done. by eapply lh_is_nil.
Qed.

(** Any other leaves it open. *)
Lemma end_op_inner s a start sz bs out :
  log_inv s a start sz bs out -> 1 < out ->
  exists s', end_op s = Ok tt s' /\ log_inv s' a start sz bs (out - 1) /\
    bc_woken (st_bio s') = log_chan :: bc_woken (st_bio s).
Proof.
  intros [H1 H2 H3 H4 H5 H6 H7 H8] Hout. destruct s as [b g]. simpl in *.
  set (g1 := set_l_lock false (set_l_outstanding (out - 1) (set_l_lock true g))).
  exists (Lst (set_bc_woken (log_chan :: bc_woken b) b) g1). split; [|split; [|done]].
  - unfold end_op. rewrite log_acquire_bind by done. rewrite gets_bind. cbn [st_log].
    change (l_outstanding (set_l_lock true g)) with (l_outstanding g). rewrite H6, lmod_bind, gets_bind.
    cbn [st_log set_l_outstanding set_l_lock l_committing l_outstanding]. rewrite H5.
    destruct (Z.eqb_spec (out - 1) 0); [lia|].
    rewrite (bind_ok _ _ _ false (Lst (set_bc_woken (log_chan :: bc_woken b) b)
      (set_l_outstanding (out - 1) (set_l_lock true g)))) by done.
    cbv beta. rewrite (bind_ok _ _ _ tt (Lst (set_bc_woken (log_chan :: bc_woken b) b) g1))
      by (by apply log_release_ok). done.
  - split; simpl; try done; [by apply abs_woken|]. by apply (lh_is_fields g).
Qed.

(** ** The typical use of [log_write]

    [bp = bread(...); modify bp->data[]; log_write(bp); brelse(bp)]. *)

Definition log_put (bn : Z) (d : block) : M lst unit :=
  bp ← bop (bread ROOTDEV bn);
  bdata_set bp d;;
  log_write bp;;
  bop (brelse bp).

Lemma log_inv_bio s a start sz bs out b' a' :
  log_inv s a start sz bs out -> abs b' a' -> ca_pins a' = ca_pins a -> ca_disk a' = ca_disk a ->
  log_inv (set_bio b' s) a' start sz bs out.
Proof. intros [] Hb HP HD. split; simpl; try done; [by rewrite HP|by rewrite HD]. Qed.

Lemma log_put_spec s a start sz bs out bn d :
  log_inv s a start sz bs out -> 0 < out -> ca_held a = ∅ ->
  0 <= bn < 2147483648 -> ~ in_log start sz bn ->
  Z.of_nat (length bs) < sz - 1 -> Z.of_nat (length bs) < 29 ->
  exists s' a', log_put bn d s = Ok tt s' /\ log_inv s' a' start sz (log_add bn bs) out /\
    ca_held a' = ∅ /\ ca_disk a' = ca_disk a /\
    forall x, ca_view a' x = if decide (x = bn) then d else ca_view a x.
Proof.
  intros Hinv Hout Hh Hbn Hhome Hsz H29.
  destruct (abs_bread (st_bio s) a bn (lv_abs _ _ _ _ _ _ Hinv)) as (i & b1 & H1 & Hi & Ha1).
  { intros i. rewrite Hh. by rewrite lookup_empty. }
  { right. rewrite Hh, map_size_empty, (lv_pins _ _ _ _ _ _ Hinv).
    apply (pins_size _ _ _ _ (lv_lh _ _ _ _ _ _ Hinv)). }
  destruct (abs_buf_write b1 _ i bn d Ha1) as (b2 & H2 & Ha2); [apply lookup_insert_eq|].
  set (a2 := ca_set bn d (ca_hold i bn a)) in *.
  assert (log_inv (set_bio b2 s) a2 start sz bs out) as Hinv2 by by apply (log_inv_bio _ a).
  destruct (log_write_spec _ _ _ _ _ _ i bn Hinv2) as (s3 & H3 & Hinv3); try done.
  { apply lookup_insert_eq. }
  destruct (abs_brelse (st_bio s3) _ i bn (lv_abs _ _ _ _ _ _ Hinv3)) as (b4 & H4 & Ha4).
  { apply lookup_insert_eq. } { left. simpl. set_solver. }
  exists (set_bio b4 s3), (ca_free i (ca_pin bn a2)). split_and!; try done.
  - destruct s as [b g], s3 as [b3 g3]. unfold log_put. mstep (bop_ok _ _ g _ _ H1).
    unfold bdata_set. fold (buf_write i d). mstep (bop_ok _ _ g _ _ H2). mstep H3.
    apply bop_ok, H4.
  - by apply (log_inv_bio _ (ca_pin bn a2)).
  - simpl. rewrite Hh, insert_empty. apply map_eq. intros k. rewrite lookup_empty.
    destruct (decide (k = i)) as [->|]; by simplify_map_eq.
Qed.

(** ** The space that [begin_op] reserves

    mkfs.c makes a log of [LOGSIZE] blocks; one of them is the header, so
    that 29 blocks can be logged.  [begin_op] reserves against [LOGSIZE]. *)

Fixpoint log_puts (l : list (Z * block)) : M lst unit :=
  match l with
  | [] => mret tt
  | (bn, d) :: l' => log_put bn d;; log_puts l'
  end.

Lemma log_write_full s a start sz bs out i :
  log_inv s a start sz bs out -> Z.of_nat (length bs) = sz - 1 ->
  log_write i s = Panic "too big a transaction".
Proof.
  intros [H1 H2 H3 H4 H5 H6 H7 H8] Hlen. destruct s as [b g]. simpl in *.
  unfold log_write. rewrite log_acquire_bind by done. rewrite gets_bind.
  cbn [st_log set_l_lock lh_n l_size]. rewrite (li_n _ _ _ _ H2), H3.
  destruct (Z.geb_spec (Z.of_nat (length bs)) (sz - 1)); [|lia]. by rewrite orb_true_r.
Qed.

(** A 30th block does not fit a log of 30 blocks. *)
Lemma log_puts_overrun l s a start bs out :
  log_inv s a start 30 bs out -> 0 < out -> ca_held a = ∅ ->
  NoDup (bs ++ l.*1) -> (length bs + length l = 30)%nat ->
  (forall x, x ∈ l.*1 -> 0 <= x < 2147483648 /\ ~ in_log start 30 x) ->
  log_puts l s = Panic "too big a transaction".
Proof.
  revert s a bs. induction l as [|[bn d] l IH]; intros s a bs Hinv Hout Hh Hnd Hlen Hl.
  { pose proof (ao_fits _ _ _ (li_ok _ _ _ _ (lv_lh _ _ _ _ _ _ Hinv))). simpl in Hlen. lia. }
  cbn [log_puts]. csimpl in Hnd. csimpl in Hl.
  destruct (Hl bn) as [Hbn Hhome]; [set_solver|].
  destruct (decide (length bs = 29)%nat) as [E|E].
  - apply bind_panic.
    destruct (abs_bread (st_bio s) a bn (lv_abs _ _ _ _ _ _ Hinv)) as (i & b1 & H1 & Hi & Ha1).
    { intros i. rewrite Hh. by rewrite lookup_empty. }
    { right. rewrite Hh, map_size_empty, (lv_pins _ _ _ _ _ _ Hinv).
      apply (pins_size _ _ _ _ (lv_lh _ _ _ _ _ _ Hinv)). }
    destruct (abs_buf_write b1 _ i bn d Ha1) as (b2 & H2 & Ha2); [apply lookup_insert_eq|].
    destruct s as [b g]. unfold log_put. mstep (bop_ok _ _ g _ _ H1).
    unfold bdata_set. fold (buf_write i d). mstep (bop_ok _ _ g _ _ H2). apply bind_panic.
    eapply (log_write_full _ (ca_set bn d (ca_hold i bn a)) start 30 bs out); [|lia].
    by apply (log_inv_bio (Lst b g) a).
  - simpl in Hlen.
    assert (bn ∉ bs) as Hnin.
    { apply NoDup_app in Hnd as (_ & Hd & _). intros Hin. apply (Hd bn Hin). set_solver. }
    destruct (log_put_spec s a start 30 bs out bn d Hinv) as (s1 & a1 & H1 & Hinv1 & Hh1 & _);
      [done|done|done|done|lia|lia|].
    mstep H1. unfold log_add in Hinv1. rewrite decide_False in Hinv1 by done.
    eapply (IH s1 a1 (bs ++ [bn])); [done|done|done| | |].
    + by rewrite <- app_assoc.
    + rewrite length_app. simpl. lia.
    + intros x Hx. apply Hl. set_solver.
Qed.
