(* ===== verification/LogCrash.v ===== *)
(** Crash safety of the log.

    A crash keeps a prefix of the disk writes that were issued and loses the
    memory.  [reboot] is what main.c does next to the disk: [binit], then
    [initlog] from [fsinit].  It may itself be cut short, any number of
    times. *)

From S2P Require Import Prelude Mem Sleeplock Bio BioSpec Cache DiskLog Log LogSpec LogTx.

Section crash.
Context (pid start sz : Z).

Definition reboot (d : gmap Z block) : outcome lst unit :=
  (bop binit;; initlog ROOTDEV start sz) (Lst (boot d pid) log_boot).

(** A log that recovery can read. *)
Definition log_sound (d : gmap Z block) : Prop :=
  0 <= hdr_n (d !!! start) /\ area_ok start sz (hdr_list (d !!! start)).

(** Recovery is started and cut short, zero or more times. *)
Inductive crashes : gmap Z block -> gmap Z block -> Prop :=
| crashes_refl d : crashes d d
| crashes_step d s k d' :
    reboot d = Ok tt s ->
    crashes (dapply d (take k (bc_writes (st_bio s)))) d' ->
    crashes d d'.

Definition home (x : Z) : Prop := ~ in_log start sz x.

Lemma reboot_spec d :
  log_sound d ->
  exists s a h0, reboot d = Ok tt s /\ log_inv s a start sz [] 0 /\ ca_held a = ∅ /\ hdr_n h0 = 0 /\
    bc_writes (st_bio s) = recovery_trace start (fun x => d !!! x) h0 /\
    (forall x, home x -> view (st_bio s) x = recover start (fun x => d !!! x) x) /\
    bc_disk (st_bio s) = dapply d (bc_writes (st_bio s)).
Proof.
  intros [Hn Hok]. destruct (abs_binit d pid) as (b0 & Hb0 & Ha0).
  destruct (initlog_spec d b0 log_boot start sz Ha0 Hn Hok)
    as (b & g & h0 & Hrun & Hlh & Hsz & Hlk & Hout & Hcm & Hh0 & Hab).
  set (ws := recovery_trace start (fun x => d !!! x) h0) in *.
  destruct (ca_puts_proj ws (cache_boot d)) as (Hv & Hd & Hw & Hhe & HP).
  exists (Lst b g), (ca_puts ws (cache_boot d)), h0.
  split; [unfold reboot; mstep (bop_ok _ _ log_boot _ _ Hb0); exact Hrun|]. clear Hb0 Hrun.
  destruct Hab as (l & Pb & Hbabs). pose proof (ba_writes _ _ _ _ Hbabs) as Hbw.
  pose proof (ba_disk _ _ _ _ Hbabs) as Hbd. rewrite Hw in Hbw. rewrite Hd in Hbd. simpl in Hbw, Hbd.
  split_and!; try done.
  - split; simpl; try done; [by exists l, Pb|].
    rewrite Hd. simpl. rewrite dapply_wapply. unfold ws, recovery_trace. rewrite wapply_snoc. simpl.
    by rewrite decide_True.
  - intros x Hx. simpl. rewrite (ba_view _ _ _ _ Hbabs), Hv. simpl. unfold ws, recovery_trace.
    rewrite wapply_snoc. simpl. rewrite decide_False; [done|]. by apply (not_start _ _ _ Hok).
  - simpl. by rewrite Hbd, Hbw.
Qed.

Lemma area_ok_nil bs : area_ok start sz bs -> area_ok start sz [].
Proof.
  intros []. split; simpl; try done; try lia; [apply NoDup_nil_2|].
  intros x Hx. by apply not_elem_of_nil in Hx.
Qed.

(** A header that is empty or the old one keeps the log sound. *)
Lemma log_sound_hdr d d' :
  log_sound d -> d' !!! start = d !!! start \/ hdr_n (d' !!! start) = 0 -> log_sound d'.
Proof.
  intros [Hn Hok] [E|E]; [by split; rewrite E|]. split; [lia|].
  unfold hdr_list. rewrite E. by eapply area_ok_nil.
Qed.

Lemma crashes_recover d d' :
  crashes d d' -> log_sound d ->
  log_sound d' /\ forall x, home x ->
    recover start (fun x => d' !!! x) x = recover start (fun x => d !!! x) x.
Proof.
  induction 1 as [d|d s k d' Hrun Hcr IH]; intros Hs; [done|].
  destruct (reboot_spec d Hs) as (s' & a & h0 & Hrun' & _ & _ & Hh0 & Hw & _).
  rewrite Hrun in Hrun'. injection Hrun' as <-. clear Hrun Hcr. rewrite Hw in IH. pose proof Hs as [Hn Hok].
  set (f := fun x : Z => d !!! x) in *.
  destruct IH as [Hs' Hrec].
  - apply (log_sound_hdr d _ Hs). rewrite !dapply_wapply. fold f.
    unfold recovery_trace. rewrite take_app.
    destruct (k - length (install start (hdr_list (f start)) f))%nat eqn:Ek.
    + left. simpl. rewrite app_nil_r. apply wapply_notin. rewrite fmap_take, install_fst.
      intros Hin%subseteq_take. by apply (home_not_start _ _ _ Hok) in Hin.
    + right. simpl. rewrite take_nil, wapply_snoc. simpl. by rewrite decide_True.
  - split; [done|]. intros x Hx. rewrite Hrec by done.
    rewrite <- (recovery_crash start sz f h0 k Hok Hh0 x Hx).
    unfold recover. rewrite !dapply_wapply. fold f.
    rewrite (wapply_ext _ (wapply f (take k (recovery_trace start f h0)))) by (intros; apply dapply_wapply).
    f_equal. unfold install. apply imap_ext. intros. by rewrite dapply_wapply.
Qed.
End crash.

Section claims.
Context (pid start sz : Z).

(** What any number of interrupted recoveries and a completed one make of
    a disk. *)
Lemma crashes_reboot d d' :
  log_sound start sz d -> crashes pid start sz d d' ->
  exists s a, reboot pid start sz d' = Ok tt s /\ log_inv s a start sz [] 0 /\
    forall x, home start sz x -> view (st_bio s) x = recover start (fun y => d !!! y) x.
Proof.
  intros Hs Hc. destruct (crashes_recover _ _ _ _ _ Hc Hs) as [Hs' Hr].
  destruct (reboot_spec pid start sz d' Hs') as (s & a & h0 & Hrun & Hinv & _ & _ & _ & Hv & _).
  exists s, a. split; [exact Hrun|]. split; [exact Hinv|].
  intros x Hx. rewrite (Hv x Hx). by apply Hr.
Qed.

(** The disk that a crash in the middle of a commit leaves has a sound log. *)
Lemma commit_prefix_sound d v bs ws k :
  area_ok start sz bs -> hdr_n (d !!! start) = 0 -> commit_writes v start bs ws ->
  log_sound start sz (dapply d (take k ws)).
Proof.
  intros Hok Hd Hws. assert (log_sound start sz d) as Hsd.
  { split; [lia|]. unfold hdr_list. rewrite Hd. by eapply area_ok_nil. }
  destruct Hws as [[-> ->]|(h1 & h0 & Hh1 & Hh0 & ->)]; [by rewrite take_nil|].
  unfold commit_trace. rewrite take_app.
  assert (length (logged start bs v) = length bs) as HL by apply length_imap. rewrite HL.
  destruct (k - length bs)%nat as [|k1] eqn:E1.
  { simpl. rewrite app_nil_r. apply (log_sound_hdr _ _ d); [done|left].
    rewrite dapply_wapply. apply take_logged_other. apply start_not_entry. }
  cbn [take app]. rewrite take_app, length_fmap.
  assert (forall f, wapply f (take k1 ((fun b => (b, v b)) <$> bs)) start = f start) as Hst.
  { intros f. apply wapply_notin, homes_notin. intros Hin. by apply (home_not_start _ _ _ Hok) in Hin. }
  destruct (k1 - length bs)%nat as [|k2] eqn:E2.
  - simpl. rewrite app_nil_r. split; rewrite dapply_wapply, wapply_app; simpl;
      fold (wapply (fun x => if decide (x = start) then h1 else
        wapply (fun y => d !!! y) (take k (logged start bs v)) x) (take k1 ((fun b => (b, v b)) <$> bs)));
      rewrite Hst, decide_True by done.
    + destruct Hh1 as [-> _]. lia.
    + by rewrite (hdr_is_list _ _ Hh1).
  - apply (log_sound_hdr _ _ d); [done|right]. cbn [take]. rewrite take_nil, dapply_wapply.
    rewrite app_comm_cons, !app_assoc, wapply_snoc. simpl. by rewrite decide_True.
Qed.

(** A prefix of a commit recovers to the content before or after it. *)
Lemma commit_prefix_recover d v bs ws k :
  area_ok start sz bs -> hdr_n (d !!! start) = 0 -> commit_writes v start bs ws ->
  (forall x, home start sz x -> x ∉ bs -> v x = d !!! x) ->
  (forall x, home start sz x -> recover start (fun y => dapply d (take k ws) !!! y) x = d !!! x) \/
  (forall x, home start sz x -> recover start (fun y => dapply d (take k ws) !!! y) x = v x).
Proof.
  intros Hok Hd Hws Hv.
  assert (forall x, recover start (fun y => dapply d (take k ws) !!! y) x =
    recover start (wapply (fun y => d !!! y) (take k ws)) x) as Hext.
  { intros x. unfold recover. rewrite dapply_wapply.
    rewrite (wapply_ext _ (wapply (fun y => d !!! y) (take k ws))) by (intros; apply dapply_wapply).
    f_equal. unfold install. apply imap_ext. intros. by rewrite dapply_wapply. }
  destruct Hws as [[-> ->]|(h1 & h0 & Hh1 & Hh0 & ->)].
  - left. intros x Hx. rewrite Hext, take_nil. by apply recover_empty.
  - destruct (Nat.ltb (length bs) k) eqn:E; [right|left]; intros x Hx; rewrite Hext;
      rewrite (commit_crash start sz bs Hok (fun y => d !!! y) v h1 h0 k Hd Hh1 Hh0 x Hx), E; [|done].
    case_decide; [done|]. by rewrite Hv.
Qed.

(** C1: A commit is atomic under crashes.  Let the last system call of a
    transaction call [end_op].  It returns and the home blocks on the disk
    then have the transaction's content.  If instead the machine stops
    after any number of the commit's disk writes, and stops again any
    number of times while it recovers, then the [binit] and [initlog] that
    run to their end return, and every block outside the log has the
    content it had on the disk before the commit, or every one has the
    content of the transaction. *)
Theorem end_op_crash_safe s a bs :
  log_inv s a start sz bs 1 -> ca_held a = ∅ ->
  exists s' ws, end_op s = Ok tt s' /\
    bc_writes (st_bio s') = bc_writes (st_bio s) ++ ws /\
    (forall x, home start sz x -> bc_disk (st_bio s') !!! x = view (st_bio s) x) /\
    forall k d', crashes pid start sz (dapply (bc_disk (st_bio s)) (take k ws)) d' ->
      exists r, reboot pid start sz d' = Ok tt r /\
        ((forall x, home start sz x -> view (st_bio r) x = bc_disk (st_bio s) !!! x) \/
         (forall x, home start sz x -> view (st_bio r) x = view (st_bio s) x)).
Proof.
  intros Hinv Hh. pose proof Hinv as [Habs Hlh _ _ _ _ HP Hhdr].
  destruct (end_op_last s a start sz bs Hinv Hh) as (s' & a' & Hrun & Hinv' & Hc).
  destruct Hc as [(ws & Hw & Hws) _ _ _ Hdisk _].
  pose proof Hinv' as [(l' & Pb' & Hb') _ _ _ _ _ _ _]. pose proof Habs as (l & Pb & Hb).
  pose proof (li_ok _ _ _ _ Hlh) as Hok.
  exists s', ws. split; [exact Hrun|]. clear Hrun.
  rewrite (ba_writes _ _ _ _ Hb'), (ba_writes _ _ _ _ Hb), (ba_disk _ _ _ _ Hb'), (ba_disk _ _ _ _ Hb).
  split; [exact Hw|]. split. { intros x Hx. by rewrite (ba_view _ _ _ _ Hb), Hdisk. }
  intros k d' Hcr.
  pose proof (commit_prefix_sound (ca_disk a) (ca_view a) bs ws k Hok Hhdr Hws) as Hsound.
  destruct (crashes_reboot _ _ Hsound Hcr) as (r & ar & Hr & _ & Hv).
  exists r. split; [exact Hr|]. clear Hr Hcr.
  destruct (commit_prefix_recover (ca_disk a) (ca_view a) bs ws k Hok Hhdr Hws) as [H|H].
  - intros x Hx Hnin. apply (abs_clean (st_bio s)); [done| |rewrite HP; set_solver].
    intros i. rewrite Hh. by rewrite lookup_empty.
  - left. intros x Hx. by rewrite Hv, H.
  - right. intros x Hx. by rewrite Hv, H, (ba_view _ _ _ _ Hb).
Qed.
End claims.

(** C16: Recovery of a disk with a sound log may be cut short any number of
    times before it runs to its end.  The run that is not cut short returns with an
    empty log, and every home block has, in the cache and on the disk, the
    content of its log block if the header lists it, and what the disk held
    otherwise. *)
Theorem recovery_restarts pid start sz d d' :
  log_sound start sz d -> crashes pid start sz d d' ->
  exists r, reboot pid start sz d' = Ok tt r /\ lh_n (st_log r) = 0 /\
    forall x, home start sz x ->
      let bs := hdr_list (d !!! start) in
      let content := match list_find (fun b => b = x) bs with
                     | Some (k, _) => d !!! (start + 1 + Z.of_nat k)
                     | None => d !!! x
                     end in
      view (st_bio r) x = content /\ bc_disk (st_bio r) !!! x = content.
Proof.
  intros Hs Hc. destruct (crashes_recover _ _ _ _ _ Hc Hs) as [Hs' Hr].
  destruct (reboot_spec pid start sz d' Hs') as (s & a & h0 & Hrun & Hinv & Hh & _ & Hw & Hv & Hd).
  exists s. split; [exact Hrun|]. clear Hrun Hc. pose proof Hinv as [Habs Hlh _ _ _ _ HP _].
  split; [apply (li_n _ _ _ _ Hlh)|]. intros x Hx. cbv zeta.
  assert (view (st_bio s) x = bc_disk (st_bio s) !!! x) as ->.
  { destruct Habs as (l & Pb & Hb). rewrite (ba_view _ _ _ _ Hb), (ba_disk _ _ _ _ Hb).
    apply (abs_clean (st_bio s)); [by exists l, Pb| |by rewrite HP].
    intros i. rewrite Hh. by rewrite lookup_empty. }
  assert (bc_disk (st_bio s) !!! x = recover start (fun y => d !!! y) x) as ->.
  { rewrite Hd, dapply_wapply, Hw. unfold recovery_trace. rewrite wapply_snoc. simpl.
    destruct Hs' as [_ Hok']. rewrite decide_False by by apply (not_start _ _ _ Hok').
    rewrite <- (Hr x Hx). done. }
  destruct Hs as [_ Hok]. rewrite recover_find by apply (ao_nodup _ _ _ Hok). done.
Qed.

(** C39: On a log of [LOGSIZE] blocks, the size mkfs.c gives it, [begin_op]
    admits three system calls at once, and if each of them then logs
    [MAXOPBLOCKS] blocks, as many as it is entitled to, [log_write] panics:
    the header takes one of the blocks that [begin_op] counts as free. *)
Theorem reserved_space_overrun s a start l :
  log_inv s a start LOGSIZE [] 0 -> ca_held a = ∅ ->
  NoDup l.*1 -> Z.of_nat (length l) = 3 * MAXOPBLOCKS ->
  (forall x, x ∈ l.*1 -> 0 <= x < 2147483648 /\ ~ in_log start LOGSIZE x) ->
  exists s', (begin_op;; begin_op;; begin_op) s = Ok tt s' /\
    log_puts l s' = Panic "too big a transaction".
Proof.
  change LOGSIZE with 30. unfold MAXOPBLOCKS. intros Hinv Hh Hnd Hlen Hl.
  destruct (begin_op_admits _ _ _ _ _ _ Hinv) as (s1 & H1 & Hinv1); [done|].
  destruct (begin_op_admits _ _ _ _ _ _ Hinv1) as (s2 & H2 & Hinv2); [done|].
  destruct (begin_op_admits _ _ _ _ _ _ Hinv2) as (s3 & H3 & Hinv3); [done|].
  exists s3. split; [mstep H1; mstep H2; exact H3|].
  eapply log_puts_overrun; [exact Hinv3|lia|exact Hh|exact Hnd|simpl; lia|exact Hl].
Qed.

(** The idiom of log.c, [bread], an assignment to the data,
    [log_write], [brelse], inside a transaction with room in the log: it
    returns, the block is among those the commit will write and others are
    not touched, its content is the assigned one for every later reader, and
    the disk is as it was. *)
Theorem log_put_correct s a start sz bs out bn d :
  log_inv s a start sz bs out -> 0 < out -> ca_held a = ∅ ->
  0 <= bn < 2147483648 -> home start sz bn ->
  Z.of_nat (length bs) < sz - 1 -> Z.of_nat (length bs) < 29 ->
  exists s' a', log_put bn d s = Ok tt s' /\
    log_inv s' a' start sz (if decide (bn ∈ bs) then bs else bs ++ [bn]) out /\
    bc_disk (st_bio s') = bc_disk (st_bio s) /\
    forall x, view (st_bio s') x = if decide (x = bn) then d else view (st_bio s) x.
Proof.
  intros Hinv Hout Hh Hbn Hhome Hsz H29.
  destruct (log_put_spec s a start sz bs out bn d Hinv) as (s' & a' & Hrun & Hinv' & _ & HD & HV); try done.
  exists s', a'. split; [exact Hrun|]. split; [exact Hinv'|].
  destruct (lv_abs _ _ _ _ _ _ Hinv) as (l & Pb & Hb), (lv_abs _ _ _ _ _ _ Hinv') as (l' & Pb' & Hb').
  split; [by rewrite (ba_disk _ _ _ _ Hb'), (ba_disk _ _ _ _ Hb)|].
  intros x. rewrite (ba_view _ _ _ _ Hb'), HV, (ba_view _ _ _ _ Hb). done.
Qed.

(** ** Witnesses *)

(** A fresh disk, and one with a committed transaction on block 40. *)
Definition example_disk : gmap Z block :=
  <[2 := st32 (st32 ∅ 0 1) 4 40]> (<[3 := st32 ∅ 0 7]> ∅).

Lemma example_disk_sound : log_sound 2 30 example_disk.
Proof.
  split; [done|]. change (hdr_list (example_disk !!! 2)) with [40].
  split; simpl; try lia; [apply NoDup_singleton|].
  intros b ->%list_elem_of_singleton. unfold in_log. lia.
Qed.

Lemma empty_log_sound : log_sound 2 30 ∅.
Proof.
  split; [done|]. change (hdr_list (∅ !!! 2)) with (@nil Z).
  split; simpl; try lia; [apply NoDup_nil_2|]. intros b Hb. by apply not_elem_of_nil in Hb.
Qed.

(** A transaction that writes block 40 on a fresh disk. *)
Lemma example_transaction :
  exists s a, log_inv s a 2 30 [40] 1 /\ ca_held a = ∅.
Proof.
  destruct (reboot_spec 1 2 30 ∅ empty_log_sound) as (s & a & _ & _ & Hinv & Hh & _).
  destruct (begin_op_admits _ _ _ _ _ _ Hinv) as (s1 & _ & Hinv1); [done|].
  destruct (log_put_spec s1 a 2 30 [] 1 40 (st32 ∅ 0 7) Hinv1) as (s2 & a2 & _ & Hinv2 & Hh2 & _);
    [lia|done|lia|unfold in_log; lia|simpl; lia|simpl; lia|].
  by exists s2, a2.
Qed.

Lemma end_op_crash_safe_witness :
  exists s s' ws, end_op s = Ok tt s' /\ bc_writes (st_bio s') = bc_writes (st_bio s) ++ ws /\
    bc_disk (st_bio s') !!! 40 = view (st_bio s) 40.
Proof.
  destruct example_transaction as (s & a & Hinv & Hh).
  destruct (end_op_crash_safe 1 2 30 s a [40] Hinv Hh) as (s' & ws & Hrun & Hw & Hd & _).
  exists s, s', ws. split; [exact Hrun|]. split; [exact Hw|]. apply Hd. unfold home, in_log. lia.
Defined.

Lemma recovery_restarts_witness :
  exists r, reboot 1 2 30 example_disk = Ok tt r /\ lh_n (st_log r) = 0 /\
    view (st_bio r) 40 = st32 ∅ 0 7.
Proof.
  destruct (recovery_restarts 1 2 30 example_disk example_disk example_disk_sound
    (crashes_refl 1 2 30 example_disk)) as (r & Hr & Hn & Hv).
  exists r. split; [exact Hr|]. split; [exact Hn|]. apply (Hv 40). unfold home, in_log. lia.
Defined.

Lemma log_put_correct_witness :
  exists s s', log_put 41 ∅ s = Ok tt s' /\ view (st_bio s') 41 = ∅.
Proof.
  destruct example_transaction as (s & a & Hinv & Hh).
  destruct (log_put_correct s a 2 30 [40] 1 41 ∅ Hinv) as (s' & a' & Hrun & _ & _ & Hv);
    [lia|exact Hh|lia|unfold home, in_log; lia|simpl; lia|simpl; lia|].
  exists s, s'. split; [exact Hrun|]. apply (Hv 41).
Defined.

Definition thirty_blocks : list (Z * block) := (fun k => (100 + Z.of_nat k, ∅)) <$> seq 0 30.

Lemma reserved_space_overrun_witness :
  exists s s', (begin_op;; begin_op;; begin_op) s = Ok tt s' /\
    log_puts thirty_blocks s' = Panic "too big a transaction".
Proof.
  destruct (reboot_spec 1 2 30 ∅ empty_log_sound) as (s & a & _ & _ & Hinv & Hh & _).
  destruct (reserved_space_overrun s a 2 thirty_blocks Hinv Hh) as (s' & H1 & H2).
  - apply (bool_decide_unpack _). vm_compute. exact I.
  - reflexivity.
  - intros x (w & -> & (k & -> & Hk)%list_elem_of_fmap)%list_elem_of_fmap.
    apply elem_of_seq in Hk. unfold in_log, LOGSIZE, MAXOPBLOCKS. simpl. lia.
  - exists s, s'. split; [exact H1|exact H2].
Defined.
