(* ===== verification/BlockLayer.v ===== *)
(** What the file system needs of the buffer cache and the log, as an
    interface, and log.c over bio.c as its implementation.

    The abstract state is that of an open transaction: the content of the
    blocks, the held buffers, the held blocks that were changed and not yet
    given to [log_write], and the logged blocks. *)

From S2P Require Import Prelude Mem Sleeplock Bio BioSpec Cache DiskLog Log LogSpec LogTx.

(** The operations fs.c calls. *)
Class BlockLayer (L : Type) := {
  op_bread : Z -> Z -> M L nat;
  op_data : nat -> M L block;
  op_set : nat -> block -> M L unit;
  op_log_write : nat -> M L unit;
  op_brelse : nat -> M L unit;
  op_initlog : Z -> Z -> Z -> M L unit;
  op_begin : M L unit;
  op_end : M L unit }.

Record tx := Tx {
  t_view : Z -> block;
  t_held : gmap nat Z;
  t_dirty : gset Z;
  t_log : list Z }.

Definition t_hold i bn t := Tx (t_view t) (<[i := bn]> (t_held t)) (t_dirty t) (t_log t).
Definition t_free i t := Tx (t_view t) (delete i (t_held t)) (t_dirty t) (t_log t).
Definition t_set bn d t := Tx (fun x => if decide (x = bn) then d else t_view t x) (t_held t) ({[bn]} ∪ t_dirty t) (t_log t).
Definition t_logged bn t := Tx (t_view t) (t_held t) (t_dirty t ∖ {[bn]}) (log_add bn (t_log t)).

Definition tx_eq (t t' : tx) : Prop :=
  (forall x, t_view t x = t_view t' x) /\ t_held t = t_held t' /\ t_dirty t = t_dirty t' /\ t_log t = t_log t'.

Infix "≡t" := tx_eq (at level 70).

#[export] Instance tx_eq_equiv : Equivalence tx_eq.
Proof.
  split; unfold tx_eq.
  - done.
  - intros a b. naive_solver.
  - intros a b c (H & -> & -> & ->) (H' & -> & -> & ->). split; [|done]. intros x. by rewrite H.
Qed.

(** The promises.  [home] are the blocks a transaction may log, [cap] the
    blocks it has room for. *)
Class BlockLaws (L : Type) `{BlockLayer L} (home : Z -> Prop) (cap : nat) (st : L -> tx -> Prop) := {
  law_bread l t bn :
    st l t -> (forall i, t_held t !! i <> Some bn) -> (size (t_held t) + length (t_log t) < NBUF)%nat ->
    exists i l', op_bread ROOTDEV bn l = Ok i l' /\ t_held t !! i = None /\ st l' (t_hold i bn t);
  law_data l t i bn :
    st l t -> t_held t !! i = Some bn -> op_data i l = Ok (t_view t bn) l;
  law_set l t i bn d :
    st l t -> t_held t !! i = Some bn -> exists l', op_set i d l = Ok tt l' /\ st l' (t_set bn d t);
  law_log_write l t i bn :
    st l t -> t_held t !! i = Some bn -> home bn -> (length (t_log t) < cap)%nat ->
    exists l', op_log_write i l = Ok tt l' /\ st l' (t_logged bn t);
  law_brelse l t i bn :
    st l t -> t_held t !! i = Some bn -> bn ∉ t_dirty t ->
    exists l', op_brelse i l = Ok tt l' /\ st l' (t_free i t);
  law_inj l t i j bn :
    st l t -> t_held t !! i = Some bn -> t_held t !! j = Some bn -> i = j;
  law_ext l t t' : st l t -> t ≡t t' -> st l t' }.

(** ** log.c over bio.c *)

#[export] Instance log_layer : BlockLayer lst := {
  op_bread dev bn := bop (bread dev bn);
  op_data := bdata;
  op_set := bdata_set;
  op_log_write := log_write;
  op_brelse i := bop (brelse i);
  op_initlog := initlog;
  op_begin := begin_op;
  op_end := end_op }.

(** A held block is clean, logged or waiting to be logged. *)
Definition log_tx (start sz out : Z) (s : lst) (t : tx) : Prop :=
  exists a, log_inv s a start sz (t_log t) out /\ (forall x, ca_view a x = t_view t x) /\
    ca_held a = t_held t /\
    forall bn, bn ∉ t_dirty t -> bn ∉ t_log t -> ca_view a bn = ca_disk a !!! bn.

Definition log_home (start sz bn : Z) : Prop := 0 <= bn < 2147483648 /\ ~ in_log start sz bn.

Lemma log_inv_pins_size s a start sz bs out :
  log_inv s a start sz bs out -> size (ca_pins a) = length bs.
Proof.
  intros H. rewrite (lv_pins _ _ _ _ _ _ H).
  apply size_list_to_set, (li_ok _ _ _ _ (lv_lh _ _ _ _ _ _ H)).
Qed.

#[export] Instance log_laws start sz out :
  0 < out -> BlockLaws lst (log_home start sz) (Z.to_nat (Z.min (sz - 1) 29)) (log_tx start sz out).
Proof.
  intros Hout. split.
  - intros [b g] t bn (a & Hinv & Hv & Hh & Hcl) Hun Hroom.
    destruct (abs_bread b a bn (lv_abs _ _ _ _ _ _ Hinv)) as (i & b' & Hrun & Hi & Ha').
    { intros i. rewrite Hh. apply Hun. }
    { right. rewrite Hh, (log_inv_pins_size _ _ _ _ _ _ Hinv). done. }
    exists i, (Lst b' g). split; [by apply bop_ok|]. split; [by rewrite <- Hh|].
    exists (ca_hold i bn a). split; [by apply (log_inv_bio (Lst b g) a)|].
    split; [done|]. split; [simpl; by rewrite Hh|done].
  - intros [b g] t i bn (a & Hinv & Hv & Hh & Hcl) Hi. simpl. unfold bdata, gets. simpl.
    rewrite <- Hh in Hi. by rewrite (abs_data b a i bn (lv_abs _ _ _ _ _ _ Hinv) Hi), Hv.
  - intros [b g] t i bn d (a & Hinv & Hv & Hh & Hcl) Hi. rewrite <- Hh in Hi.
    destruct (abs_buf_write b a i bn d (lv_abs _ _ _ _ _ _ Hinv) Hi) as (b' & Hrun & Ha').
    exists (Lst b' g). split; [by apply (bop_ok (buf_write i d))|].
    exists (ca_set bn d a). split; [by apply (log_inv_bio (Lst b g) a)|].
    split; [intros x; simpl; by rewrite Hv|]. split; [done|].
    intros x Hx Hx'. simpl. rewrite decide_False by set_solver. apply Hcl; set_solver.
  - intros s t i bn (a & Hinv & Hv & Hh & Hcl) Hi [Hbn Hhome] Hlen. rewrite <- Hh in Hi.
    destruct (log_write_spec _ _ _ _ _ _ i bn Hinv Hout Hi Hbn Hhome) as (s' & Hrun & Hinv'); [lia|lia|].
    exists s'. split; [done|]. exists (ca_pin bn a). split; [done|]. split; [done|]. split; [done|].
    intros x Hx Hx'. simpl. apply Hcl.
    + intros Hd. apply Hx. simpl. assert (x <> bn) by (intros ->; apply Hx'; simpl; unfold log_add; case_decide; set_solver).
      set_solver.
    + intros Hl. apply Hx'. simpl. unfold log_add. case_decide; set_solver.
  - intros [b g] t i bn (a & Hinv & Hv & Hh & Hcl) Hi Hd. pose proof Hi as Hi'. rewrite <- Hh in Hi.
    destruct (abs_brelse b a i bn (lv_abs _ _ _ _ _ _ Hinv) Hi) as (b' & Hrun & Ha').
    { destruct (decide (bn ∈ t_log t)) as [Hin|Hin].
      - left. rewrite (lv_pins _ _ _ _ _ _ Hinv). by apply elem_of_list_to_set.
      - right. by apply Hcl. }
    exists (Lst b' g). split; [by apply bop_ok|].
    exists (ca_free i a). split; [by apply (log_inv_bio (Lst b g) a)|].
    split; [done|]. split; [simpl; by rewrite Hh|done].
  - intros s t i j bn (a & Hinv & _ & Hh & _) Hi Hj. rewrite <- Hh in Hi, Hj.
    by apply (abs_inj _ _ _ _ _ (lv_abs _ _ _ _ _ _ Hinv) Hi Hj).
  - intros s t t' (a & Hinv & Hv & Hh & Hcl) (E1 & E2 & E3 & E4). exists a.
    rewrite <- E2, <- E3, <- E4. split; [done|]. split; [|done]. intros x. by rewrite Hv.
Qed.
