(* ===== verification/Kalloc.v ===== *)
(** The physical page allocator: src/src/kernel/kalloc.c.

    The free list is threaded through the free pages themselves: the first
    eight bytes of a free page are the address of the next one. *)

From S2P Require Import Prelude Mem Sleeplock Strings.

Definition PGSIZE : Z := 4096.
Definition KERNBASE : Z := 0x80000000.
Definition PHYSTOP : Z := KERNBASE + 128 * 1024 * 1024.

Definition PGROUNDUP (sz : Z) : Z := Z.land (u64 (sz + PGSIZE - 1)) (Z.lnot (PGSIZE - 1)).
Definition PGROUNDDOWN (a : Z) : Z := Z.land a (Z.lnot (PGSIZE - 1)).

(** Physical memory and [kmem]. *)
Record kst := Kst { k_mem : mem; k_lock : bool; k_freelist : Z }.

Definition set_k_mem m s := Kst m (k_lock s) (k_freelist s).
Definition set_k_lock v s := Kst (k_mem s) v (k_freelist s).
Definition set_k_freelist r s := Kst (k_mem s) (k_lock s) r.

Definition kload (a : Z) : M kst Z := gets (fun s => ld64 (k_mem s) a).
Definition kstore (a v : Z) : M kst unit := modify (fun s => set_k_mem (st64 (k_mem s) a v) s).
Definition kmemset (a c n : Z) : M kst unit :=
  modify (fun s => set_k_mem (KString.memset (k_mem s) a c n) s).
Definition kmem_acquire : M kst unit := acquire k_lock set_k_lock.
Definition kmem_release : M kst unit := release k_lock set_k_lock.

Section kalloc.
(** [kend]: the first address after the kernel, from the linker script. *)
Context (kend : Z).

Definition kfree (pa : Z) : M kst unit :=
  if negb (pa mod PGSIZE =? 0) || (pa <? kend) || (pa >=? PHYSTOP) then panic "kfree"
  else
    kmemset pa 1 PGSIZE;;
    kmem_acquire;;
    r ← gets k_freelist;
    kstore pa r;;
    modify (set_k_freelist pa);;
    kmem_release.

Definition kalloc : M kst Z :=
  kmem_acquire;;
  r ← gets k_freelist;
  when (negb (r =? 0))
    (next ← kload r;
     modify (set_k_freelist next));;
  kmem_release;;
  when (negb (r =? 0)) (kmemset r 5 PGSIZE);;
  mret r.

(** [for(p = PGROUNDUP(pa_start); p + PGSIZE <= pa_end; p += PGSIZE)] *)
Definition freerange (pa_start pa_end : Z) : M kst unit :=
  let p := PGROUNDUP pa_start in
  for_loop (Z.to_nat ((pa_end - p) / PGSIZE)) 0 (fun i =>
    kfree (p + i * PGSIZE);; mret (None (A := unit)));;
  mret tt.

Definition kinit : M kst unit :=
  modify (set_k_lock false);;
  freerange kend PHYSTOP.
End kalloc.

(** ** The free list *)

(** The pages [l] hang off [r], in order. *)
Fixpoint flist (m : mem) (r : Z) (l : list Z) : Prop :=
  match l with
  | [] => r = 0
  | p :: l' => r = p /\ flist m (ld64 m p) l'
  end.

Definition page_ok (kend p : Z) : Prop := p mod PGSIZE = 0 /\ kend <= p < PHYSTOP /\ 0 < p.

Record kinv (kend : Z) (s : kst) (l : list Z) : Prop := {
  ki_lock : k_lock s = false;
  ki_list : flist (k_mem s) (k_freelist s) l;
  ki_pages : Forall (page_ok kend) l;
  ki_nodup : NoDup l }.

(** Address [a] lies in page [p]. *)
Definition in_page (p a : Z) : Prop := p <= a < p + PGSIZE.

(** Distinct pages do not meet. *)
Lemma page_disjoint p q a : p mod PGSIZE = 0 -> q mod PGSIZE = 0 -> in_page p a -> in_page q a -> p = q.
Proof.
  unfold in_page, PGSIZE. intros Hp Hq H1 H2.
  pose proof (Z.div_mod p 4096). pose proof (Z.div_mod q 4096). lia.
Qed.

Lemma ld64_ext m m' a : (forall i, 0 <= i < 8 -> rd m (a + i) = rd m' (a + i)) -> ld64 m a = ld64 m' a.
Proof. intros H. apply ldn_ext. intros. apply H. lia. Qed.

Lemma flist_ext m m' r l :
  (forall p a, p ∈ l -> in_page p a -> rd m' a = rd m a) -> flist m r l -> flist m' r l.
Proof.
  revert r. induction l as [|p l IH]; intros r H; [done|]. intros [-> Hl]. split; [done|].
  replace (ld64 m' p) with (ld64 m p).
  - apply IH; [|done]. intros q a Hq. apply H. by right.
  - apply ld64_ext. intros i Hi. symmetry. apply (H p); [by left|]. unfold in_page, PGSIZE. lia.
Qed.

(** The memory outside the pages [ps] is the same. *)
Definition same_outside (ps : list Z) (m m' : mem) : Prop :=
  forall a, (forall p, p ∈ ps -> ~ in_page p a) -> rd m' a = rd m a.

Lemma same_outside_refl ps m : same_outside ps m m.
Proof. done. Qed.

Lemma same_outside_trans ps qs m1 m2 m3 :
  same_outside ps m1 m2 -> same_outside qs m2 m3 -> same_outside (ps ++ qs) m1 m3.
Proof. intros H1 H2 a Ha. rewrite H2, H1; [done|set_solver..]. Qed.

Lemma same_outside_mono ps qs m m' : ps ⊆ qs -> same_outside ps m m' -> same_outside qs m m'.
Proof. intros Hs H a Ha. apply H. intros p Hp. apply Ha. by apply Hs. Qed.

Section kalloc_spec.
Context (kend : Z).

Lemma kalloc_none s : kinv kend s [] -> kalloc s = Ok 0 s.
Proof.
  intros [Hl Hf _ _]. simpl in Hf. destruct s as [m lk r]. simpl in *. subst. done.
Qed.

Lemma kalloc_some s p l :
  kinv kend s (p :: l) ->
  exists s', kalloc s = Ok p s' /\ kinv kend s' l /\ page_ok kend p /\ (p ∉ l) /\
    (forall a, rd (k_mem s') a = (if inr a p PGSIZE then 5 else rd (k_mem s) a)).
Proof.
  intros [Hl Hf Hp Hnd]. destruct s as [m lk r]. simpl in *. subst lk. destruct Hf as [-> Hf].
  apply Forall_cons in Hp as [Hpp Hp]. apply NoDup_cons in Hnd as [Hpl Hnd].
  exists (Kst (KString.memset m p 5 PGSIZE) false (ld64 m p)).
  assert (forall a, rd (KString.memset m p 5 PGSIZE) a = if inr a p PGSIZE then 5 else rd m a) as Hrd.
  { intros a. by rewrite rd_memset. }
  split_and!; try done.
  - unfold kalloc. unfold kmem_acquire, acquire. rewrite (bind_ok _ _ _ tt (Kst m true p)) by done.
    rewrite gets_bind. simpl k_freelist.
    destruct (Z.eqb_spec p 0) as [->|]; [by destruct Hpp as (_ & _ & ?)|]. done.
  - split; simpl; try done. eapply flist_ext; [|exact Hf]. intros q a Hq Ha. rewrite Hrd.
    rewrite Forall_forall in Hp. destruct (inr_spec a p PGSIZE) as [Hin|]; [|done].
    destruct Hpl. rewrite (page_disjoint p q a); [done|apply Hpp|by apply Hp|done|done].
Qed.

Lemma kfree_spec s l p :
  kinv kend s l -> page_ok kend p -> p ∉ l ->
  exists s', kfree kend p s = Ok tt s' /\ kinv kend s' (p :: l) /\
    same_outside [p] (k_mem s) (k_mem s').
Proof.
  intros [Hl Hf Hp Hnd] (Hal & Hrange & Hpos) Hpl. destruct s as [m lk r]. simpl in *. subst lk.
  set (m1 := KString.memset m p 1 PGSIZE).
  exists (Kst (st64 m1 p r) false p).
  assert (same_outside [p] m (st64 m1 p r)) as Hsame.
  { intros a Ha. specialize (Ha p). unfold in_page, PGSIZE in Ha.
    assert (~ (p <= a < p + 4096)) by (apply Ha; set_solver).
    unfold st64. rewrite rd_stn_other by lia. unfold m1, PGSIZE. rewrite rd_memset by lia.
    by rewrite inr_false by lia. }
  assert (0 <= r < 18446744073709551616) as Hr.
  { destruct l as [|q l]; simpl in Hf; [lia|]. destruct Hf as [-> _].
    apply Forall_cons in Hp as [(_ & ? & ?) _]. unfold PHYSTOP, KERNBASE in *. lia. }
  split_and!; try done.
  - unfold kfree. rewrite (proj2 (Z.eqb_eq _ _) Hal). cbn [negb orb].
    rewrite (proj2 (Z.ltb_ge p kend)) by lia. cbn [orb].
    destruct (Z.geb_spec p PHYSTOP); [lia|]. done.
  - split; simpl.
    + done.
    + split; [done|]. rewrite ld64_st64, u64_small by lia.
      eapply flist_ext; [|exact Hf]. intros q a Hq Ha. apply Hsame. intros p' ->%list_elem_of_singleton Hin.
      rewrite Forall_forall in Hp. destruct Hpl. rewrite (page_disjoint p q a); [done|done|by apply Hp|done|done].
    + by constructor.
    + by constructor.
Qed.

Lemma kfree_bad s pa :
  pa mod PGSIZE <> 0 \/ pa < kend \/ PHYSTOP <= pa -> kfree kend pa s = Panic "kfree".
Proof.
  intros H. unfold kfree. destruct (Z.eqb_spec (pa mod PGSIZE) 0), (Z.ltb_spec pa kend), (Z.geb_spec pa PHYSTOP); try done.
  lia.
Qed.

(** The pages of [freerange], last one first. *)
Definition range_pages (p : Z) (n : nat) : list Z :=
  rev ((fun i => p + Z.of_nat i * PGSIZE) <$> seq 0 n).

Lemma range_pages_S p n : range_pages p (S n) = (p + Z.of_nat n * PGSIZE) :: range_pages p n.
Proof. unfold range_pages. by rewrite seq_S, fmap_app, rev_app_distr. Qed.

Lemma range_pages_elem p n x :
  x ∈ range_pages p n -> exists i, (i < n)%nat /\ x = p + Z.of_nat i * PGSIZE.
Proof.
  unfold range_pages. rewrite list_elem_of_In, <- in_rev, <- list_elem_of_In.
  intros (i & -> & Hi%elem_of_seq)%list_elem_of_fmap. exists i. split; [lia|done].
Qed.

(** A loop of [kfree]s over fresh pages. *)
Lemma kfree_range s p n :
  kinv kend s [] -> p mod PGSIZE = 0 -> kend <= p -> 0 < p ->
  p + Z.of_nat n * PGSIZE <= PHYSTOP ->
  exists s', for_loop n 0 (fun i => kfree kend (p + i * PGSIZE);; mret (None (A := unit))) s = Ok None s' /\
    kinv kend s' (range_pages p n).
Proof.
  intros Hs Hp Hk H0 Hend.
  destruct (for_loop_inv (fun t s => kinv kend s (range_pages p (Z.to_nat t)))
    (fun i => kfree kend (p + i * PGSIZE);; mret (None (A := unit))) n 0 s) as (s' & Hrun & Hs').
  - exact Hs.
  - intros t s1 Ht Hs1.
    destruct (kfree_spec s1 _ (p + t * PGSIZE) Hs1) as (s2 & H2 & Hs2 & _).
    + split; [by rewrite Z.mod_add|]. unfold PGSIZE in *. lia.
    + intros (i & Hi & E)%range_pages_elem. unfold PGSIZE in *. lia.
    + exists s2. mstep H2. split; [done|].
      replace (Z.to_nat (t + 1)) with (S (Z.to_nat t)) by lia.
      by rewrite range_pages_S, Z2Nat.id by lia.
  - exists s'. split; [done|]. by rewrite Z.add_0_l, Nat2Z.id in Hs'.
Qed.
End kalloc_spec.

(** ** Rounding to pages *)

Lemma land_lnot_pgsize a : Z.land a (Z.lnot (PGSIZE - 1)) = a - a mod PGSIZE.
Proof.
  change (PGSIZE - 1) with (Z.ones 12). rewrite <- Z.ldiff_land, Z.ldiff_ones_r by lia.
  rewrite Z.shiftr_div_pow2, Z.shiftl_mul_pow2 by lia. change (2 ^ 12) with PGSIZE.
  pose proof (Z.div_mod a PGSIZE). unfold PGSIZE in *. lia.
Qed.

Lemma PGROUNDDOWN_eq a : PGROUNDDOWN a = a - a mod PGSIZE.
Proof. apply land_lnot_pgsize. Qed.

Lemma PGROUNDUP_eq a :
  0 <= a -> a + PGSIZE <= 18446744073709551616 ->
  PGROUNDUP a = (a + PGSIZE - 1) - (a + PGSIZE - 1) mod PGSIZE.
Proof.
  intros H0 H1. unfold PGROUNDUP. rewrite u64_small by (unfold PGSIZE in *; lia).
  apply land_lnot_pgsize.
Qed.

Lemma mod_pgsize_range a : 0 <= a mod PGSIZE < PGSIZE.
Proof. apply Z.mod_pos_bound. done. Qed.

Lemma PGROUNDDOWN_spec a :
  PGROUNDDOWN a mod PGSIZE = 0 /\ PGROUNDDOWN a <= a < PGROUNDDOWN a + PGSIZE.
Proof.
  rewrite PGROUNDDOWN_eq. pose proof (mod_pgsize_range a).
  split; [|lia]. rewrite Zminus_mod, Zmod_mod, Z.sub_diag. done.
Qed.

Lemma PGROUNDUP_spec a :
  0 <= a -> a + PGSIZE <= 18446744073709551616 ->
  PGROUNDUP a mod PGSIZE = 0 /\ a <= PGROUNDUP a < a + PGSIZE.
Proof.
  intros H0 H1. rewrite PGROUNDUP_eq by done. pose proof (mod_pgsize_range (a + PGSIZE - 1)).
  split; [|lia]. rewrite Zminus_mod, Zmod_mod, Z.sub_diag. done.
Qed.

(** All the memory after the kernel ends up on the free list. *)
Lemma kinit_spec kend m lk :
  0 < kend <= PHYSTOP -> let p := PGROUNDUP kend in
  exists s', kinit kend (Kst m lk 0) = Ok tt s' /\
    kinv kend s' (range_pages p (Z.to_nat ((PHYSTOP - p) / PGSIZE))).
Proof.
  intros Hk p. assert (PHYSTOP = 2281701376) as HT by done.
  destruct (PGROUNDUP_spec kend) as [Hp1 Hp2]; [lia|unfold PGSIZE; lia|]. fold p in Hp1, Hp2.
  unfold kinit. rewrite modify_bind. unfold freerange. fold p.
  destruct (kfree_range kend (set_k_lock false (Kst m lk 0)) p (Z.to_nat ((PHYSTOP - p) / PGSIZE)))
    as (s' & Hrun & Hs').
  - split; simpl; try done; constructor.
  - done.
  - lia.
  - lia.
  - assert (PHYSTOP mod PGSIZE = 0) by done. unfold PGSIZE in *.
    pose proof (Z.div_mod PHYSTOP 4096). pose proof (Z.div_mod p 4096).
    assert (p <= PHYSTOP) by lia. pose proof (Z.div_pos (PHYSTOP - p) 4096).
    pose proof (Z.mul_div_le (PHYSTOP - p) 4096). lia.
  - exists s'. mstep Hrun. by split.
Qed.
