(* ===== verification/KallocZig.v ===== *)
(** The page allocator the build links: src/src/kernel/kalloc.zig, which takes
    the place of kalloc.c.  It keeps the same list, and does to memory what
    the C version does, so what is proved of the one holds of the other. *)

From S2P Require Import Prelude Mem Sleeplock Strings Kalloc.

Inductive free_error := AddressNotPageAligned | AddressTooLow | AddressTooHigh.

Section kalloc_zig.
Context (kend : Z).

(** None for success. *)
Definition freePage (pa : Z) : M kst (option free_error) :=
  if negb (pa mod PGSIZE =? 0) then mret (Some AddressNotPageAligned)
  else if pa <? kend then mret (Some AddressTooLow)
  else if pa >=? PHYSTOP then mret (Some AddressTooHigh)
  else
    kmemset pa 1 PGSIZE;;
    kmem_acquire;;
    r ← gets k_freelist;
    kstore pa r;;
    modify (set_k_freelist pa);;
    kmem_release;;
    mret None.

Definition zig_kfree (pa : Z) : M kst unit :=
  e ← freePage pa;
  match e with Some _ => panic "kfree error" | None => mret tt end.

(** The page is filled before the lock is released. *)
Definition allocPage : M kst (option Z) :=
  kmem_acquire;;
  r ← gets k_freelist;
  if r =? 0 then
    kmem_release;;
    mret None
  else
    next ← kload r;
    modify (set_k_freelist next);;
    kmemset r 5 PGSIZE;;
    kmem_release;;
    mret (Some r).

Definition zig_kalloc : M kst Z :=
  p ← allocPage;
  match p with Some r => mret r | None => mret 0 end.

Definition zig_freerange (pa_start pa_end : Z) : M kst unit :=
  let p := PGROUNDUP pa_start in
  for_loop (Z.to_nat ((pa_end - p) / PGSIZE)) 0 (fun i =>
    e ← freePage (p + i * PGSIZE);
    match e with Some _ => panic "freerange error" | None => mret (None (A := unit)) end);;
  mret tt.

Definition zig_kinit : M kst unit :=
  modify (set_k_lock false);;
  zig_freerange kend PHYSTOP.

(** ** The interface of Zig's standard library *)

(** [freePage(ptr + j * PGSIZE) catch @panic(msg)] for [j] from 0. *)
Definition free_pages (msg : string) (n ptr : Z) : M kst unit :=
  for_loop (Z.to_nat n) 0 (fun j =>
    e ← freePage (ptr + j * PGSIZE);
    match e with Some _ => panic msg | None => mret (None (A := unit)) end);;
  mret tt.

(** A round of the loop of [alloc] over the pages after the first: the answer
    of an early return, or none. *)
Definition alloc_round (start i : Z) : M kst (option (option Z)) :=
  new ← allocPage;
  match new with
  | None =>
      free_pages "Alloc failed" i start;;
      mret (Some None)
  | Some new =>
      if negb (start + i * PGSIZE =? new) then
        free_pages "Freeing after alloc failure failed" i start;;
        e ← freePage new;
        match e with Some _ => panic "Freeing after alloc failure failed" | None => mret (Some None) end
      else mret None
  end.

Definition alloc (n : Z) : M kst (option Z) :=
  if negb (n >? 0) then panic "reached unreachable code"
  else if n >? 2 ^ 64 - 1 - (PGSIZE - 1) then mret None
  else if n >? PGSIZE then panic "Unimplemented: n > PGSIZE"
  else
    let aligned_len := PGROUNDUP n in
    let page_count := aligned_len / PGSIZE in
    start ← allocPage;
    match start with
    | None => mret None
    | Some start =>
        r ← for_loop (Z.to_nat (page_count - 1)) 1 (alloc_round start);
        match r with
        | Some r => mret r
        | None => if start mod PGSIZE =? 0 then mret (Some start) else panic "reached unreachable code"
        end
    end.

(** The buffer is at [ptr] and has [len] bytes. *)
Definition resize (ptr len new_size : Z) : M kst bool :=
  let new_size_aligned := PGROUNDUP new_size in
  let buf_aligned_len := PGROUNDUP len in
  if new_size_aligned =? buf_aligned_len then mret true
  else if new_size_aligned <? buf_aligned_len then
    free_pages "Could not free page" ((buf_aligned_len - new_size_aligned) / PGSIZE) ptr;;
    mret true
  else mret false.

Definition free (ptr len : Z) : M kst unit :=
  let page_count := PGROUNDUP len / PGSIZE in
  free_pages "Could not free page" page_count ptr.

(** ** The same allocator *)

(** Equal but for the message of a panic. *)
Definition same_run {A} (o o' : outcome kst A) : Prop :=
  match o, o' with Panic _, Panic _ => True | _, _ => o = o' end.

Lemma same_run_refl {A} (o : outcome kst A) : same_run o o.
Proof. by destruct o. Qed.

Lemma same_run_bind {A B} (m m' : M kst A) (k k' : A -> M kst B) s :
  same_run (m s) (m' s) -> (forall a s, same_run (k a s) (k' a s)) -> same_run ((m ≫= k) s) ((m' ≫= k') s).
Proof.
  unfold mbind, M_bind. intros Hm Hk. destruct (m s), (m' s); simpl in *; simplify_eq; try done; try apply Hk.
Qed.

Lemma freePage_run pa s :
  same_run (zig_kfree pa s) (kfree kend pa s).
Proof.
  unfold zig_kfree, freePage, kfree. destruct (negb _); [done|]. destruct (pa <? kend); [done|]. destruct (pa >=? PHYSTOP); [done|].
  cbn [orb]. rewrite !bind_bind. unfold kmemset. rewrite !modify_bind.
  destruct s as [m [] f]; [done|]. apply same_run_refl.
Qed.

Lemma for_loop_run {R} (f g : Z -> M kst (option R)) n : forall i s,
  (forall j s, same_run (f j s) (g j s)) -> same_run (for_loop n i f s) (for_loop n i g s).
Proof.
  induction n as [|n IH]; intros i s H; [done|]. cbn [for_loop]. apply same_run_bind; [apply H|].
  intros [r|] s'; [apply same_run_refl|by apply IH].
Qed.

(** The two allocators do the same in every state, down to the bytes of
    memory; only the messages of their panics differ. *)
Theorem kalloc_zig_same s :
  zig_kalloc s = kalloc s /\ (forall pa, same_run (zig_kfree pa s) (kfree kend pa s)) /\
  same_run (zig_kinit s) (kinit kend s).
Proof.
  split_and!.
  - unfold zig_kalloc, allocPage, kalloc. destruct s as [m [] f]; [done|]. rewrite !bind_bind.
    assert (kmem_acquire (Kst m false f) = Ok tt (Kst m true f)) as Ha by done.
    rewrite (bind_ok _ _ _ _ _ Ha), (bind_ok _ _ _ _ _ Ha). rewrite !bind_bind, !gets_bind. cbn [k_freelist].
    destruct (Z.eqb_spec f 0) as [->|]; reflexivity.
  - intros pa. apply freePage_run.
  - unfold zig_kinit, kinit. rewrite !modify_bind. unfold zig_freerange, freerange.
    apply same_run_bind; [|intros; apply same_run_refl]. apply for_loop_run. intros j s'.
    pose proof (freePage_run (PGROUNDUP kend + j * PGSIZE) s') as H. unfold zig_kfree in H. revert H.
    unfold mbind, M_bind. destruct (freePage _ s') as [[e|] s1|?|? ?|]; destruct (kfree _ _ s'); simpl; intros H; try done; unfold mret, M_ret in *; by simplify_eq.
Qed.

(** ** The interface *)

Lemma freePage_ok s l p : kinv kend s l -> page_ok kend p -> p ∉ l ->
  exists s', freePage p s = Ok None s' /\ kinv kend s' (p :: l) /\ same_outside [p] (k_mem s) (k_mem s').
Proof.
  intros H Hp Hl. destruct (kfree_spec kend s l p H Hp Hl) as (s' & R & H'). exists s'. split; [|done].
  pose proof (freePage_run p s) as E. rewrite R in E. unfold zig_kfree in E. revert E. unfold mbind, M_bind.
  destruct (freePage p s) as [[e|] s1|?|? ?|]; simpl; intros E; try done. unfold mret, M_ret in E. by simplify_eq.
Qed.

Lemma free_one msg s l p : kinv kend s l -> page_ok kend p -> p ∉ l ->
  exists s', free_pages msg 1 p s = Ok tt s' /\ kinv kend s' (p :: l) /\ same_outside [p] (k_mem s) (k_mem s').
Proof.
  intros H Hp Hl. destruct (freePage_ok s l p H Hp Hl) as (s' & R & H'). exists s'. split; [|done].
  unfold free_pages. change (Z.to_nat 1) with 1%nat. cbn [for_loop]. rewrite !bind_bind.
  rewrite (bind_ok _ _ s None s') by (by rewrite Z.mul_0_l, Z.add_0_r). done.
Qed.

Lemma round_up_one n : 0 < n <= PGSIZE -> PGROUNDUP n = PGSIZE.
Proof.
  intros H. destruct (PGROUNDUP_spec n) as [H1 H2]; [lia|unfold PGSIZE in *; lia|]. apply Z.mod_divide in H1 as [k Hk]; [|done].
  unfold PGSIZE in *. lia.
Qed.

(** An allocation of up to a page takes the first free page, or fails without
    a change when there is none; freeing it gives the page back. *)
Theorem alloc_free s l n : kinv kend s l -> 0 < n <= PGSIZE ->
  match l with
  | [] => alloc n s = Ok None s
  | p :: l' => exists s', alloc n s = Ok (Some p) s' /\ kinv kend s' l' /\
      forall s2, kinv kend s2 l' -> exists s3, free p n s2 = Ok tt s3 /\ kinv kend s3 (p :: l')
  end.
Proof.
  intros H Hn. assert (PGSIZE = 4096) as EP by done. unfold alloc. rewrite (proj2 (Z.gtb_lt n 0)) by lia. cbn [negb].
  destruct (Z.gtb_spec n (2 ^ 64 - 1 - (PGSIZE - 1))); [lia|]. destruct (Z.gtb_spec n PGSIZE); [lia|]. cbv zeta. rewrite round_up_one by done.
  change (Z.to_nat (PGSIZE / PGSIZE - 1)) with 0%nat. cbn [for_loop]. pose proof (proj1 (kalloc_zig_same s)) as E.
  assert (forall r s', kalloc s = Ok r s' -> allocPage s = Ok (if r =? 0 then None else Some r) s' \/ allocPage s = Ok (Some r) s') as Hr.
  { intros r s' Ek. rewrite Ek in E. unfold zig_kalloc in E. revert E. unfold mbind, M_bind.
    destruct (allocPage s) as [[p|] s1|?|? ?|]; intros E'; try done; unfold mret, M_ret in E'; simplify_eq; [by right|by left]. }
  destruct l as [|p l].
  - destruct (Hr 0 s (kalloc_none kend s H)) as [R|R]; [by rewrite (bind_ok _ _ _ _ _ R)|]. exfalso. revert R. unfold allocPage.
    destruct H as [Hl Hf _ _]. simpl in Hf. destruct s as [m lk f]. simpl in *. by subst.
  - destruct (kalloc_some kend s p l H) as (s' & Rk & H' & Hp & Hnp & _). assert (p <> 0) as Hp0 by (destruct Hp as (_ & _ & ?); lia).
    assert (allocPage s = Ok (Some p) s') as R by (destruct (Hr p s' Rk) as [R|R]; [by rewrite (proj2 (Z.eqb_neq _ _) Hp0) in R|done]).
    exists s'. rewrite (bind_ok _ _ _ _ _ R), ret_bind. destruct Hp as (Hal & Hp). rewrite Hal. split; [done|]. split; [done|].
    intros s2 H2. unfold free. rewrite round_up_one by done. change (PGSIZE / PGSIZE) with 1.
    destruct (free_one "Could not free page" s2 l p H2 (conj Hal Hp) Hnp) as (s3 & R3 & H3 & _). by exists s3.
Qed.

(** Shrinking a buffer of two pages to one frees the page that stays in use,
    the first, and keeps the other. *)
Theorem resize_frees_first s l p : kinv kend s l -> page_ok kend p -> p ∉ l ->
  exists s', resize p (2 * PGSIZE) PGSIZE s = Ok true s' /\ kinv kend s' (p :: l) /\ same_outside [p] (k_mem s) (k_mem s').
Proof.
  intros H Hp Hl. unfold resize. change (PGROUNDUP PGSIZE) with PGSIZE. change (PGROUNDUP (2 * PGSIZE)) with (2 * PGSIZE).
  change (PGSIZE =? 2 * PGSIZE) with false. change (PGSIZE <? 2 * PGSIZE) with true. cbv iota zeta. change ((2 * PGSIZE - PGSIZE) / PGSIZE) with 1.
  destruct (free_one "Could not free page" s l p H Hp Hl) as (s' & R & H'). exists s'. by rewrite (bind_ok _ _ _ _ _ R).
Qed.
End kalloc_zig.
