(* ===== verification/Vm.v ===== *)
(** Page tables and the copies between kernel and user memory:
    src/src/kernel/vm.c, with the address arithmetic of
    src/src/kernel/riscv.h. *)

From S2P Require Import Prelude Mem Sleeplock Strings Kalloc.

Definition PTE_V : Z := 1.
Definition PTE_R : Z := 2.
Definition PTE_W : Z := 4.
Definition PTE_X : Z := 8.
Definition PTE_U : Z := 16.

Definition PA2PTE (pa : Z) : Z := u64 (Z.shiftl (Z.shiftr pa 12) 10).
Definition PTE2PA (pte : Z) : Z := u64 (Z.shiftl (Z.shiftr pte 10) 12).
Definition PTE_FLAGS (pte : Z) : Z := Z.land pte 0x3FF.
Definition PXMASK : Z := 0x1FF.
Definition PX (level va : Z) : Z := Z.land (Z.shiftr va (12 + 9 * level)) PXMASK.
Definition MAXVA : Z := Z.shiftl 1 38.

Definition TRAMPOLINE : Z := MAXVA - PGSIZE.
Definition TRAPFRAME : Z := TRAMPOLINE - PGSIZE.
Definition KSTACK (p : Z) : Z := TRAMPOLINE - (p + 1) * 2 * PGSIZE.
Definition UART0 : Z := 0x10000000.
Definition VIRTIO0 : Z := 0x10001000.
Definition PLIC : Z := 0x0c000000.

(** [c & flag] as a condition. *)
Definition has (v flag : Z) : bool := negb (Z.land v flag =? 0).

Section vm.
Context (kend : Z).

(** One round of the loop of [walk]: the next table, or [None] for
    [return 0]. *)
Definition walk_step (level pagetable va : Z) (alloc : bool) : M kst (option Z) :=
  let pte := pagetable + 8 * PX level va in
  v ← kload pte;
  if has v PTE_V then mret (Some (PTE2PA v))
  else if negb alloc then mret None
  else
    pg ← kalloc;
    if pg =? 0 then mret None
    else
      kmemset pg 0 PGSIZE;;
      kstore pte (Z.lor (PA2PTE pg) PTE_V);;
      mret (Some pg).

Fixpoint walk_loop (level : nat) (pagetable va : Z) (alloc : bool) : M kst Z :=
  match level with
  | O => mret (pagetable + 8 * PX 0 va)
  | S l =>
      r ← walk_step (Z.of_nat level) pagetable va alloc;
      match r with
      | None => mret 0
      | Some pagetable' => walk_loop l pagetable' va alloc
      end
  end.

Definition walk (pagetable va : Z) (alloc : bool) : M kst Z :=
  if va >=? MAXVA then panic "walk" else walk_loop 2 pagetable va alloc.

Definition walkaddr (pagetable va : Z) : M kst Z :=
  if va >=? MAXVA then mret 0
  else
    pte ← walk pagetable va false;
    if pte =? 0 then mret 0
    else
      v ← kload pte;
      if negb (has v PTE_V) then mret 0
      else if negb (has v PTE_U) then mret 0
      else mret (PTE2PA v).

(** The rounds that the loop of [mappages] can make before it reaches
    [last] or an address that [walk] refuses. *)
Definition map_fuel (a last : Z) : nat :=
  Z.to_nat ((if a <=? last then last - a else MAXVA - a) / PGSIZE + 2).

Fixpoint mappages_loop (fuel : nat) (pagetable a last pa perm : Z) : M kst Z :=
  match fuel with
  | O => out_of_fuel
  | S f =>
      pte ← walk pagetable a true;
      if pte =? 0 then mret (-1)
      else
        v ← kload pte;
        if has v PTE_V then panic "mappages: remap"
        else
          kstore pte (Z.lor (Z.lor (PA2PTE pa) perm) PTE_V);;
          if a =? last then mret 0
          else mappages_loop f pagetable (u64 (a + PGSIZE)) last (u64 (pa + PGSIZE)) perm
  end.

Definition mappages (pagetable va size pa perm : Z) : M kst Z :=
  if size =? 0 then panic "mappages: size"
  else
    let a := PGROUNDDOWN va in
    let last := PGROUNDDOWN (u64 (va + size - 1)) in
    mappages_loop (map_fuel a last) pagetable a last pa perm.

Definition kvmmap (kpgtbl va pa sz perm : Z) : M kst unit :=
  r ← mappages kpgtbl va sz pa perm;
  when (negb (r =? 0)) (panic "kvmmap").

(** [for(a = va; a < va + npages*PGSIZE; a += PGSIZE)] *)
Definition unmap_count (va npages : Z) : nat :=
  Z.to_nat ((u64 (va + npages * PGSIZE) - va + PGSIZE - 1) / PGSIZE).

Definition uvmunmap (pagetable va npages : Z) (do_free : bool) : M kst unit :=
  if negb (va mod PGSIZE =? 0) then panic "uvmunmap: not aligned"
  else
    for_loop (unmap_count va npages) 0 (fun i =>
      let a := va + i * PGSIZE in
      pte ← walk pagetable a false;
      if pte =? 0 then panic "uvmunmap: walk"
      else
        v ← kload pte;
        if negb (has v PTE_V) then panic "uvmunmap: not mapped"
        else if PTE_FLAGS v =? PTE_V then panic "uvmunmap: not a leaf"
        else
          when do_free (kfree kend (PTE2PA v));;
          kstore pte 0;;
          mret (None (A := unit)));;
    mret tt.

Definition uvmcreate : M kst Z :=
  pagetable ← kalloc;
  if pagetable =? 0 then mret 0
  else kmemset pagetable 0 PGSIZE;; mret pagetable.

(** [src] is an object of the kernel with content [code]. *)
Definition uvmfirst (pagetable : Z) (code : mem) (src sz : Z) : M kst unit :=
  if sz >=? PGSIZE then panic "uvmfirst: more than a page"
  else
    pg ← kalloc;
    kmemset pg 0 PGSIZE;;
    mappages pagetable 0 PGSIZE pg (Z.lor (Z.lor (Z.lor PTE_W PTE_R) PTE_X) PTE_U);;
    modify (fun s => set_k_mem (mcopy (Z.to_nat sz) (k_mem s) pg code src) s).

Definition uvmdealloc (pagetable oldsz newsz : Z) : M kst Z :=
  if newsz >=? oldsz then mret oldsz
  else
    when (PGROUNDUP newsz <? PGROUNDUP oldsz)
      (let npages := i32 ((PGROUNDUP oldsz - PGROUNDUP newsz) / PGSIZE) in
       uvmunmap pagetable (PGROUNDUP newsz) npages true);;
    mret newsz.

Definition uvmalloc (pagetable oldsz newsz xperm : Z) : M kst Z :=
  if newsz <? oldsz then mret oldsz
  else
    let oldsz := PGROUNDUP oldsz in
    r ← for_loop (Z.to_nat ((newsz - oldsz + PGSIZE - 1) / PGSIZE)) 0 (fun i =>
      let a := oldsz + i * PGSIZE in
      pg ← kalloc;
      if pg =? 0 then
        uvmdealloc pagetable a oldsz;;
        mret (Some 0)
      else
        kmemset pg 0 PGSIZE;;
        r ← mappages pagetable a PGSIZE pg (Z.lor (Z.lor PTE_R PTE_U) xperm);
        if negb (r =? 0) then
          kfree kend pg;;
          uvmdealloc pagetable a oldsz;;
          mret (Some 0)
        else mret None);
    mret (default newsz r).

(** The recursion is as deep as the page table has levels. *)
Fixpoint freewalk (levels : nat) (pagetable : Z) : M kst unit :=
  match levels with
  | O => out_of_fuel
  | S l =>
      for_loop 512 0 (fun i =>
        pte ← kload (pagetable + 8 * i);
        if has pte PTE_V && (Z.land pte (Z.lor (Z.lor PTE_R PTE_W) PTE_X) =? 0) then
          freewalk l (PTE2PA pte);;
          kstore (pagetable + 8 * i) 0;;
          mret (None (A := unit))
        else if has pte PTE_V then panic "freewalk: leaf"
        else mret None);;
      kfree kend pagetable
  end.

Definition uvmfree (pagetable sz : Z) : M kst unit :=
  when (sz >? 0) (uvmunmap pagetable 0 (PGROUNDUP sz / PGSIZE) true);;
  freewalk 3 pagetable.

Definition uvmcopy (old new sz : Z) : M kst Z :=
  r ← for_loop (Z.to_nat ((sz + PGSIZE - 1) / PGSIZE)) 0 (fun k =>
    let i := k * PGSIZE in
    pte ← walk old i false;
    if pte =? 0 then panic "uvmcopy: pte should exist"
    else
      v ← kload pte;
      if negb (has v PTE_V) then panic "uvmcopy: page not present"
      else
        let pa := PTE2PA v in
        let flags := PTE_FLAGS v in
        pg ← kalloc;
        if pg =? 0 then mret (Some i)
        else
          modify (fun s => set_k_mem (KString.memmove (k_mem s) pg pa PGSIZE) s);;
          r ← mappages new i PGSIZE pg flags;
          if negb (r =? 0) then kfree kend pg;; mret (Some i)
          else mret None);
  match r with
  | None => mret 0
  | Some i => uvmunmap new 0 (i / PGSIZE) true;; mret (-1)
  end.

Definition uvmclear (pagetable va : Z) : M kst unit :=
  pte ← walk pagetable va false;
  if pte =? 0 then panic "uvmclear"
  else
    v ← kload pte;
    kstore pte (Z.land v (Z.lnot PTE_U)).

(** The three copies walk page by page; a round copies at least one byte, so
    [len] rounds are enough.  [move] is the copy of one round:
    [custom_memcpy] in physical memory, or a copy out of an object [ms] of
    the kernel that the model keeps apart from physical memory. *)
Fixpoint copyout_loop (move : mem -> Z -> Z -> Z -> mem) (fuel : nat)
    (pagetable dstva src len : Z) : M kst Z :=
  match fuel with
  | O => if len >? 0 then out_of_fuel else mret 0
  | S f =>
      if len >? 0 then
        let va0 := PGROUNDDOWN dstva in
        pa0 ← walkaddr pagetable va0;
        if pa0 =? 0 then mret (-1)
        else
          let n := PGSIZE - (dstva - va0) in
          let n := if n >? len then len else n in
          modify (fun s => set_k_mem (move (k_mem s) (pa0 + (dstva - va0)) src n) s);;
          copyout_loop move f pagetable (va0 + PGSIZE) (src + n) (len - n)
      else mret 0
  end.

Definition copyout (pagetable dstva src len : Z) : M kst Z :=
  copyout_loop PageCopy.custom_memcpy (Z.to_nat len) pagetable dstva src len.

Definition copyout_obj (pagetable dstva : Z) (ms : mem) (src len : Z) : M kst Z :=
  copyout_loop (fun m d s n => mcopy (Z.to_nat n) m d ms s) (Z.to_nat len) pagetable dstva src len.

Fixpoint copyin_loop (fuel : nat) (pagetable dst srcva len : Z) : M kst Z :=
  match fuel with
  | O => if len >? 0 then out_of_fuel else mret 0
  | S f =>
      if len >? 0 then
        let va0 := PGROUNDDOWN srcva in
        pa0 ← walkaddr pagetable va0;
        if pa0 =? 0 then mret (-1)
        else
          let n := PGSIZE - (srcva - va0) in
          let n := if n >? len then len else n in
          modify (fun s => set_k_mem (PageCopy.custom_memcpy (k_mem s) dst (pa0 + (srcva - va0)) n) s);;
          copyin_loop f pagetable (dst + n) (va0 + PGSIZE) (len - n)
      else mret 0
  end.

Definition copyin (pagetable dst srcva len : Z) : M kst Z :=
  copyin_loop (Z.to_nat len) pagetable dst srcva len.

(** [copyin] into an object [md] of the kernel: also returns the object. *)
Fixpoint copyin_obj_loop (fuel : nat) (pagetable : Z) (md : mem) (dst srcva len : Z) : M kst (Z * mem) :=
  match fuel with
  | O => if len >? 0 then out_of_fuel else mret (0, md)
  | S f =>
      if len >? 0 then
        let va0 := PGROUNDDOWN srcva in
        pa0 ← walkaddr pagetable va0;
        if pa0 =? 0 then mret (-1, md)
        else
          let n := PGSIZE - (srcva - va0) in
          let n := if n >? len then len else n in
          m ← gets k_mem;
          copyin_obj_loop f pagetable (mcopy (Z.to_nat n) md dst m (pa0 + (srcva - va0)))
            (dst + n) (va0 + PGSIZE) (len - n)
      else mret (0, md)
  end.

Definition copyin_obj (pagetable : Z) (md : mem) (dst srcva len : Z) : M kst (Z * mem) :=
  copyin_obj_loop (Z.to_nat len) pagetable md dst srcva len.

(** The inner loop of [copyinstr] over one page: the memory, whether a NUL
    was copied, and [max] and [dst] after it. *)
Fixpoint copystr_page (n : nat) (m : mem) (dst p max : Z) : mem * bool * Z * Z :=
  match n with
  | O => (m, false, max, dst)
  | S n' =>
      if rd m p =? 0 then (wr m dst 0, true, max, dst)
      else copystr_page n' (wr m dst (rd m p)) (dst + 1) (p + 1) (max - 1)
  end.

Fixpoint copyinstr_loop (fuel : nat) (pagetable dst srcva max : Z) : M kst Z :=
  match fuel with
  | O => if max >? 0 then out_of_fuel else mret (-1)
  | S f =>
      if max >? 0 then
        let va0 := PGROUNDDOWN srcva in
        pa0 ← walkaddr pagetable va0;
        if pa0 =? 0 then mret (-1)
        else
          let n := PGSIZE - (srcva - va0) in
          let n := if n >? max then max else n in
          m ← gets k_mem;
          let '(m', got_null, max', dst') :=
            copystr_page (Z.to_nat n) m dst (pa0 + (srcva - va0)) max in
          modify (set_k_mem m');;
          if got_null then mret 0
          else copyinstr_loop f pagetable dst' (va0 + PGSIZE) max'
      else mret (-1)
  end.

Definition copyinstr (pagetable dst srcva max : Z) : M kst Z :=
  copyinstr_loop (Z.to_nat max) pagetable dst srcva max.

(** [etext], [trampoline]: from the linker script and trampoline.S. *)
Context (etext trampoline : Z).

Definition NPROC : Z := 64.

(** [proc_mapstacks] of proc.c. *)
Definition proc_mapstacks (kpgtbl : Z) : M kst unit :=
  for_loop (Z.to_nat NPROC) 0 (fun p =>
    pa ← kalloc;
    when (pa =? 0) (panic "kalloc");;
    kvmmap kpgtbl (KSTACK p) pa PGSIZE (Z.lor PTE_R PTE_W);;
    mret (None (A := unit)));;
  mret tt.

Definition kvmmake : M kst Z :=
  kpgtbl ← kalloc;
  kmemset kpgtbl 0 PGSIZE;;
  kvmmap kpgtbl UART0 UART0 PGSIZE (Z.lor PTE_R PTE_W);;
  kvmmap kpgtbl VIRTIO0 VIRTIO0 PGSIZE (Z.lor PTE_R PTE_W);;
  kvmmap kpgtbl PLIC PLIC 0x400000 (Z.lor PTE_R PTE_W);;
  kvmmap kpgtbl KERNBASE KERNBASE (etext - KERNBASE) (Z.lor PTE_R PTE_X);;
  kvmmap kpgtbl etext etext (PHYSTOP - etext) (Z.lor PTE_R PTE_W);;
  kvmmap kpgtbl TRAMPOLINE trampoline PGSIZE (Z.lor PTE_R PTE_X);;
  proc_mapstacks kpgtbl;;
  mret kpgtbl.
End vm.
