(* ===== verification/VmSpec.v ===== *)
(** Page tables as maps from virtual pages to entries.

    The three-level tree in physical memory is described by the pages it is
    made of: [pages] sends the address of each page-table page to its level
    and to the virtual pages it covers.  Under that description [walk] and
    [mappages] act on the map [pte_of]. *)

From S2P Require Import Prelude Mem Sleeplock Strings Kalloc Vm.

(** ** Page-table entries *)

Lemma has_V_lor v : has (Z.lor v PTE_V) PTE_V = true.
Proof.
  unfold has, PTE_V. apply negb_true_iff, Z.eqb_neq. intros E.
  assert (Z.testbit (Z.land (Z.lor v 1) 1) 0 = true) as H
    by (rewrite Z.land_spec, Z.lor_spec, orb_true_r; done).
  rewrite E in H. done.
Qed.

Lemma has_zero flag : has 0 flag = false.
Proof. done. Qed.

Lemma shiftr_small v n : 0 <= n -> 0 <= v < 2 ^ n -> Z.shiftr v n = 0.
Proof. intros Hn Hv. rewrite Z.shiftr_div_pow2 by done. by apply Z.div_small. Qed.

Definition pa_ok (pa : Z) : Prop := pa mod PGSIZE = 0 /\ 0 <= pa < 2 ^ 56.

Lemma PA2PTE_eq pa : 0 <= pa < 2 ^ 56 -> PA2PTE pa = Z.shiftl (Z.shiftr pa 12) 10.
Proof.
  intros H. unfold PA2PTE. apply u64_small.
  rewrite Z.shiftr_div_pow2, Z.shiftl_mul_pow2 by lia. change (2 ^ 12) with 4096. change (2 ^ 10) with 1024.
  pose proof (Z.div_pos pa 4096). assert (pa / 4096 < 2 ^ 44).
  { apply Z.div_lt_upper_bound; [lia|]. change (4096 * 2 ^ 44) with (2 ^ 56). lia. }
  change (2 ^ 44) with 17592186044416 in *. lia.
Qed.

(** The physical address survives in an entry with permission bits. *)
Lemma PTE2PA_mk pa perm :
  pa_ok pa -> 0 <= perm < 1024 -> PTE2PA (Z.lor (Z.lor (PA2PTE pa) perm) PTE_V) = pa.
Proof.
  intros [Hal Hr] Hp. unfold PTE2PA. rewrite PA2PTE_eq by done. rewrite !Z.shiftr_lor.
  rewrite (shiftr_small perm) by (change (2 ^ 10) with 1024; lia).
  rewrite (shiftr_small PTE_V) by (unfold PTE_V; change (2 ^ 10) with 1024; lia).
  rewrite !Z.lor_0_r, Z.shiftr_shiftl_l, Z.sub_diag, Z.shiftl_0_r by lia.
  rewrite Z.shiftr_div_pow2, Z.shiftl_mul_pow2 by lia. change (2 ^ 12) with PGSIZE.
  pose proof (Z.div_mod pa PGSIZE ltac:(done)) as Hd. rewrite Hal in Hd.
  replace (pa / PGSIZE * PGSIZE) with pa by lia.
  apply u64_small. change (2 ^ 56) with 72057594037927936 in Hr. lia.
Qed.

Lemma mk_pte_range pa perm :
  0 <= pa < 2 ^ 56 -> 0 <= perm < 1024 -> 0 <= Z.lor (Z.lor (PA2PTE pa) perm) PTE_V < 2 ^ 64.
Proof.
  intros Hp Hf. assert (0 <= PA2PTE pa < 2 ^ 64) by (apply u64_range).
  split; [rewrite !Z.lor_nonneg; unfold PTE_V; lia|].
  destruct (Z.eq_dec (Z.lor (Z.lor (PA2PTE pa) perm) PTE_V) 0) as [->|Hne]; [done|].
  apply Z.log2_lt_pow2; [|rewrite !Z.log2_lor].
  - assert (0 <= Z.lor (Z.lor (PA2PTE pa) perm) PTE_V) by (rewrite !Z.lor_nonneg; unfold PTE_V; lia). lia.
  - assert (Z.log2 perm <= Z.log2 1024) by (apply Z.log2_le_mono; lia).
    change (Z.log2 1024) with 10 in *. change (Z.log2 PTE_V) with 0.
    destruct (Z.eq_dec (PA2PTE pa) 0) as [->|]; [simpl Z.log2; lia|].
    assert (Z.log2 (PA2PTE pa) < 64) by (apply Z.log2_lt_pow2; lia). lia.
  - lia.
  - unfold PTE_V. lia.
  - rewrite Z.lor_nonneg. lia.
  - unfold PTE_V. lia.
Qed.

(** ** Virtual page numbers and table indices *)

Definition vpn (va : Z) : Z := va / PGSIZE.

Lemma PX_eq level va : 0 <= level -> 0 <= va -> PX level va = (vpn va / 512 ^ level) mod 512.
Proof.
  intros Hl Hva. unfold PX, PXMASK, vpn. change 0x1FF with (Z.ones 9). rewrite Z.land_ones by lia.
  rewrite Z.shiftr_div_pow2 by lia. rewrite Z.pow_add_r by lia. change (2 ^ 12) with PGSIZE.
  rewrite Z.pow_mul_r by lia. change (2 ^ 9) with 512. rewrite <- Z.div_div; [done|done|].
  apply Z.pow_pos_nonneg; lia.
Qed.

Lemma PX_range level va : 0 <= PX level va < 512.
Proof.
  unfold PX, PXMASK. change 0x1FF with (Z.ones 9). rewrite Z.land_ones by lia.
  change (2 ^ 9) with 512. apply Z.mod_pos_bound. lia.
Qed.

Lemma MAXVA_eq : MAXVA = 2 ^ 38.
Proof. done. Qed.

Lemma vpn_top va : 0 <= va < MAXVA -> vpn va / 512 ^ 3 = 0.
Proof.
  intros H. rewrite MAXVA_eq in H. unfold vpn, PGSIZE. apply Z.div_small.
  change (2 ^ 38) with (4096 * 67108864) in H. change (512 ^ 3) with 134217728.
  assert (va / 4096 < 67108864) by (apply Z.div_lt_upper_bound; lia).
  pose proof (Z.div_pos va 4096). lia.
Qed.

(** The index at a level and what is above it determine what is above the
    next level. *)
Lemma vpn_split va l :
  0 <= l -> 0 <= va -> vpn va / 512 ^ l = vpn va / 512 ^ (l + 1) * 512 + PX l va.
Proof.
  intros Hl Hva. rewrite PX_eq by done. rewrite Z.pow_add_r, Z.pow_1_r by lia.
  rewrite <- Z.div_div by (try apply Z.pow_pos_nonneg; lia).
  pose proof (Z.div_mod (vpn va / 512 ^ l) 512). lia.
Qed.

(** ** The page-table tree *)

(** Entry [i] of the table at [p]. *)
Definition ent (m : mem) (p i : Z) : Z := ld64 m (p + 8 * i).

(** Page [p] is a table of level [l] for the virtual pages [v] with
    [v / 512 ^ (l + 1) = q]. *)
Abbreviation layout := (gmap Z (nat * Z)).

Record ptree (m : mem) (pages : layout) (root : Z) : Prop := {
  pt_root : pages !! root = Some (2%nat, 0);
  pt_page : forall p x, pages !! p = Some x -> pa_ok p /\ 0 < p /\ (x.1 <= 2)%nat;
  pt_inj : forall p p' x, pages !! p = Some x -> pages !! p' = Some x -> p = p';
  pt_next : forall p l q i, pages !! p = Some (S l, q) -> 0 <= i < 512 ->
    has (ent m p i) PTE_V = true -> pages !! PTE2PA (ent m p i) = Some (l, q * 512 + i);
  pt_up : forall x l q, pages !! x = Some (l, q) -> (l < 2)%nat ->
    exists p, pages !! p = Some (S l, q / 512) /\ has (ent m p (q mod 512)) PTE_V = true }.

(** The walk without allocation, as a function of memory. *)
Definition next_table (m : mem) (level p va : Z) : option Z :=
  let v := ent m p (PX level va) in
  if has v PTE_V then Some (PTE2PA v) else None.

Definition leaf_table (m : mem) (root va : Z) : option Z :=
  match next_table m 2 root va with
  | Some p => next_table m 1 p va
  | None => None
  end.

(** The entry for a virtual address; [0] where there is no table. *)
Definition pte_of (m : mem) (root va : Z) : Z :=
  match leaf_table m root va with
  | Some p => ent m p (PX 0 va)
  | None => 0
  end.

Lemma ent_ext m m' p i :
  (forall a, p <= a < p + PGSIZE -> rd m' a = rd m a) -> 0 <= i < 512 -> ent m' p i = ent m p i.
Proof.
  intros H Hi. unfold ent. apply ld64_ext. intros k Hk. apply H. unfold PGSIZE. lia.
Qed.

Lemma ent_st64_same m p i v : ent (st64 m (p + 8 * i) v) p i = u64 v.
Proof. apply ld64_st64. Qed.

Lemma ent_st64_other m p i q j v :
  p mod PGSIZE = 0 -> q mod PGSIZE = 0 -> 0 <= i < 512 -> 0 <= j < 512 -> (p, i) <> (q, j) ->
  ent (st64 m (p + 8 * i) v) q j = ent m q j.
Proof.
  intros Hp Hq Hi Hj Hne. unfold ent. apply ld64_st64_other. unfold PGSIZE in *.
  pose proof (Z.div_mod p 4096). pose proof (Z.div_mod q 4096).
  destruct (Z.eq_dec p q) as [->|]; [|lia].
  assert (i <> j) by congruence. lia.
Qed.

Section tree.
Context (m : mem) (pages : layout) (root : Z).
Hypothesis Ht : ptree m pages root.

Lemma next_table_page level l p va t :
  level = Z.of_nat (S l) -> 0 <= va ->
  pages !! p = Some (S l, vpn va / 512 ^ (level + 1)) ->
  next_table m level p va = Some t -> pages !! t = Some (l, vpn va / 512 ^ level).
Proof.
  intros -> Hva Hp Hn. unfold next_table in Hn. destruct (has _ _) eqn:E; [|done]. simplify_eq.
  rewrite vpn_split by lia. eapply (pt_next _ _ _ Ht); [exact Hp|apply PX_range|exact E].
Qed.

Lemma root_page va : 0 <= va < MAXVA -> pages !! root = Some (2%nat, vpn va / 512 ^ (2 + 1)).
Proof. intros Hva. rewrite (pt_root _ _ _ Ht). by rewrite vpn_top. Qed.

Lemma leaf_table_page va t :
  0 <= va < MAXVA -> leaf_table m root va = Some t -> pages !! t = Some (0%nat, vpn va / 512).
Proof.
  intros Hva. unfold leaf_table. destruct (next_table m 2 root va) as [t1|] eqn:E1; [|done].
  intros E2. apply (next_table_page 2 1) in E1; [|done|lia|by apply root_page].
  apply (next_table_page 1 0) in E2; [done|done|lia|exact E1].
Qed.

(** Two addresses with the same leaf entry lie in the same page. *)
Lemma leaf_entry_inj va va' t :
  0 <= va < MAXVA -> 0 <= va' < MAXVA ->
  leaf_table m root va = Some t -> leaf_table m root va' = Some t ->
  PX 0 va = PX 0 va' -> vpn va = vpn va'.
Proof.
  intros Hva Hva' H1 H2 HP. apply leaf_table_page in H1, H2; try done.
  rewrite H1 in H2. simplify_eq.
  rewrite !PX_eq in HP by lia. change (512 ^ 0) with 1 in HP. rewrite !Z.div_1_r in HP.
  pose proof (Z.div_mod (vpn va) 512). pose proof (Z.div_mod (vpn va') 512). lia.
Qed.
End tree.

(** Addresses of one virtual page have the same entry. *)
Lemma PX_vpn level va va' :
  0 <= level -> 0 <= va -> 0 <= va' -> vpn va = vpn va' -> PX level va = PX level va'.
Proof. intros. rewrite !PX_eq by done. congruence. Qed.

Lemma leaf_table_vpn m root va va' :
  0 <= va -> 0 <= va' -> vpn va = vpn va' -> leaf_table m root va = leaf_table m root va'.
Proof.
  intros H1 H2 E. unfold leaf_table, next_table.
  rewrite (PX_vpn 2 va va'), (PX_vpn 1 va va') by (done || lia). done.
Qed.

Lemma pte_of_vpn m root va va' :
  0 <= va -> 0 <= va' -> vpn va = vpn va' -> pte_of m root va = pte_of m root va'.
Proof.
  intros H1 H2 E. unfold pte_of. rewrite (leaf_table_vpn _ _ va va') by done.
  by rewrite (PX_vpn 0 va va') by (done || lia).
Qed.

(** ** Changing one entry *)

(** [m'] differs from [m] on the tables [pages] at most in entry [i] of [p]. *)
Definition one_entry (pages : layout) (p i : Z) (m m' : mem) : Prop :=
  forall q j, is_Some (pages !! q) -> 0 <= j < 512 -> (q, j) <> (p, i) -> ent m' q j = ent m q j.

Lemma next_table_one pages p i m m' level q va :
  one_entry pages p i m m' -> is_Some (pages !! q) -> (q, PX level va) <> (p, i) ->
  next_table m' level q va = next_table m level q va.
Proof.
  intros H Hq Hne. unfold next_table. rewrite H; [done|done|apply PX_range|done].
Qed.

Lemma mod512_range q : 0 <= q mod 512 < 512.
Proof. apply Z.mod_pos_bound. lia. Qed.

(** Changing a leaf entry changes the map at one page. *)
Lemma set_leaf m m' pages root va t :
  ptree m pages root -> 0 <= va < MAXVA -> leaf_table m root va = Some t ->
  one_entry pages t (PX 0 va) m m' ->
  ptree m' pages root /\
  (forall va', 0 <= va' < MAXVA -> leaf_table m' root va' = leaf_table m root va') /\
  forall va', 0 <= va' < MAXVA ->
    pte_of m' root va' = if decide (vpn va' = vpn va) then ent m' t (PX 0 va) else pte_of m root va'.
Proof.
  intros Ht Hva Hleaf H1. pose proof (leaf_table_page _ _ _ Ht _ _ Hva Hleaf) as Htp.
  assert (forall p l q i, pages !! p = Some (S l, q) -> 0 <= i < 512 -> ent m' p i = ent m p i) as Hup.
  { intros p l q i Hp Hi. apply H1; [by eexists|done|]. intros [= -> _]. congruence. }
  assert (forall va', 0 <= va' < MAXVA -> leaf_table m' root va' = leaf_table m root va') as Hlt.
  { intros va' Hva'. unfold leaf_table, next_table.
    rewrite (Hup root 1%nat 0) by (apply Ht || apply PX_range).
    destruct (has _ _) eqn:E; [|done].
    assert (pages !! PTE2PA (ent m root (PX 2 va')) = Some (1%nat, 0 * 512 + PX 2 va')) as Hp1.
    { apply (pt_next _ _ _ Ht); [apply Ht|apply PX_range|done]. }
    by rewrite (Hup _ _ _ _ Hp1 (PX_range 1 va')). }
  split; [|split; [done|]].
  - split; [apply Ht|apply Ht|apply Ht| |].
    + intros p l q i Hp Hi. rewrite (Hup p l q i) by done. by apply (pt_next _ _ _ Ht).
    + intros x l q Hx Hl. destruct (pt_up _ _ _ Ht x l q Hx Hl) as (p & Hp & Hh).
      exists p. rewrite (Hup p l (q / 512)) by (done || apply mod512_range). done.
  - intros va' Hva'. case_decide as E.
    + rewrite (pte_of_vpn _ _ va' va) by (done || lia). unfold pte_of. by rewrite Hlt, Hleaf.
    + unfold pte_of. rewrite Hlt by done. destruct (leaf_table m root va') as [t'|] eqn:El; [|done].
      apply H1; [exists (0%nat, vpn va' / 512); by apply (leaf_table_page _ _ _ Ht)|apply PX_range|].
      intros [= -> HP]. apply E. by apply (leaf_entry_inj _ _ _ Ht va' va t).
Qed.

(** Hanging an empty table under an invalid entry changes the tree and not
    the map. *)
Section add_table.
Context (m m' : mem) (pages : layout) (root p pg : Z) (l : nat) (q i : Z).
Hypothesis Ht : ptree m pages root.
Hypothesis Hp : pages !! p = Some (S l, q).
Hypothesis Hi : 0 <= i < 512.
Hypothesis Hinv : has (ent m p i) PTE_V = false.
Hypothesis Hpg : pages !! pg = None.
Hypothesis Hpgok : pa_ok pg /\ 0 < pg.
Hypothesis H1 : one_entry pages p i m m'.
Hypothesis Hnew : has (ent m' p i) PTE_V = true /\ PTE2PA (ent m' p i) = pg.
Hypothesis Hzero : forall j, 0 <= j < 512 -> ent m' pg j = 0.

Lemma no_twin x : pages !! x <> Some (l, q * 512 + i).
Proof.
  intros Hx. destruct (pt_page _ _ _ Ht p _ Hp) as (_ & _ & Hl). simpl in Hl.
  destruct (pt_up _ _ _ Ht x _ _ Hx) as (p' & Hp' & Hh); [lia|].
  rewrite Z.div_add_l, (Z.div_small i), Z.add_0_r in Hp' by lia.
  rewrite Z.add_comm, Z.mod_add, Z.mod_small in Hh by lia.
  rewrite (pt_inj _ _ _ Ht _ _ _ Hp' Hp) in Hh. congruence.
Qed.

Lemma add_ptree : ptree m' (<[pg := (l, q * 512 + i)]> pages) root.
Proof.
  assert (forall x y, pages !! x = Some y -> x <> pg) as Hne by (intros x y Hx ->; congruence).
  split.
  - rewrite lookup_insert_ne; [apply Ht|]. intros ->. by rewrite (pt_root _ _ _ Ht) in Hpg.
  - intros x y [[<- <-]|[_ Hx]]%lookup_insert_Some; [|by apply (pt_page _ _ _ Ht)].
    destruct (pt_page _ _ _ Ht p _ Hp) as (_ & _ & Hl). simpl in *. split; [apply Hpgok|lia].
  - intros x x' y [[<- <-]|[Hn Hx]]%lookup_insert_Some [[<- E]|[Hn' Hx']]%lookup_insert_Some.
    + done.
    + by apply no_twin in Hx'.
    + subst y. by apply no_twin in Hx.
    + by apply (pt_inj _ _ _ Ht _ _ y).
  - intros x l' q' j [[<- E]|[Hn Hx]]%lookup_insert_Some Hj Hh.
    + rewrite Hzero in Hh by done. done.
    + destruct (decide ((x, j) = (p, i))) as [[= -> ->]|Hd].
      * rewrite (proj2 Hnew), lookup_insert_eq. rewrite Hp in Hx. by simplify_eq.
      * rewrite H1 in * by done. pose proof (pt_next _ _ _ Ht _ _ _ _ Hx Hj Hh) as Hy.
        rewrite lookup_insert_ne; [done|]. intros E. by apply (Hne _ _ Hy).
  - intros x l' q' [[<- E]|[Hn Hx]]%lookup_insert_Some Hl.
    + simplify_eq. exists p. rewrite Z.div_add_l, (Z.div_small i), Z.add_0_r by lia.
      rewrite Z.add_comm, Z.mod_add, Z.mod_small by lia. rewrite (proj1 Hnew).
      split; [|done]. rewrite lookup_insert_ne; [done|]. intros E. by apply (Hne _ _ Hp).
    + destruct (pt_up _ _ _ Ht x l' q' Hx Hl) as (p' & Hp' & Hh). exists p'.
      split; [rewrite lookup_insert_ne; [done|]; intros E; by apply (Hne _ _ Hp')|].
      destruct (decide ((p', q' mod 512) = (p, i))) as [[= -> ->]|Hd]; [apply Hnew|].
      rewrite H1; [done|by eexists|apply mod512_range|done].
Qed.

Lemma next_zero level va : next_table m' level pg va = None.
Proof. unfold next_table. by rewrite Hzero by apply PX_range. Qed.

(** A path that goes through the changed entry ends in the empty table. *)
Lemma next_add level va x l' q' :
  pages !! x = Some (l', q') ->
  next_table m' level x va = next_table m level x va \/
  (next_table m level x va = None /\ next_table m' level x va = Some pg /\ x = p).
Proof.
  intros Hx. destruct (decide ((x, PX level va) = (p, i))) as [[= -> E]|Hd].
  - right. unfold next_table. rewrite E, Hinv, (proj1 Hnew), (proj2 Hnew). done.
  - left. eapply next_table_one; [exact H1|by eexists|done].
Qed.

Lemma add_pte_of va : 0 <= va < MAXVA -> pte_of m' root va = pte_of m root va.
Proof.
  intros Hva. unfold pte_of, leaf_table.
  destruct (next_add 2 va root _ _ (pt_root _ _ _ Ht)) as [->|(-> & -> & _)].
  - destruct (next_table m 2 root va) as [t1|] eqn:E1; [|done].
    apply (next_table_page _ _ _ Ht 2 1) in E1; [|done|lia|by apply (root_page _ _ _ Ht)].
    destruct (next_add 1 va t1 _ _ E1) as [->|(-> & -> & _)].
    + destruct (next_table m 1 t1 va) as [t0|] eqn:E0; [|done].
      apply (next_table_page _ _ _ Ht 1 0) in E0; [|done|lia|done].
      apply H1; [by eexists|apply PX_range|]. intros [= -> _]. congruence.
    + by rewrite Hzero by apply PX_range.
  - by rewrite next_zero.
Qed.
End add_table.

(** ** walk *)

Record vm_inv (kend : Z) (s : kst) (pages : layout) (root : Z) (free : list Z) : Prop := {
  vi_k : kinv kend s free;
  vi_t : ptree (k_mem s) pages root;
  vi_dis : forall p, p ∈ free -> pages !! p = None;
  vi_ok : forall p x, pages !! p = Some x -> page_ok kend p }.

(** What a step that may add tables keeps: the tables there were, the map,
    and the memory outside the tables. *)
Record vm_ext (root : Z) (s s' : kst) (pages pages' : layout) (free free' : list Z) : Prop := {
  ve_pages : pages ⊆ pages';
  ve_free : exists new, free = new ++ free' /\
    forall p, is_Some (pages' !! p) <-> is_Some (pages !! p) \/ p ∈ new;
  ve_map : forall va, 0 <= va < MAXVA -> pte_of (k_mem s') root va = pte_of (k_mem s) root va;
  ve_path : forall x y level va t, pages !! x = Some y ->
    next_table (k_mem s) level x va = Some t -> next_table (k_mem s') level x va = Some t;
  ve_frame : forall a, (forall p, is_Some (pages' !! p) -> ~ in_page p a) ->
    rd (k_mem s') a = rd (k_mem s) a }.

Lemma vm_ext_refl root s pages free : vm_ext root s s pages pages free free.
Proof. split; try done. exists []. split; [done|set_solver]. Qed.

Lemma vm_ext_trans root s1 s2 s3 p1 p2 p3 f1 f2 f3 :
  vm_ext root s1 s2 p1 p2 f1 f2 -> vm_ext root s2 s3 p2 p3 f2 f3 -> vm_ext root s1 s3 p1 p3 f1 f3.
Proof.
  intros [A1 (n1 & A2 & A2') A3 A4 A5] [B1 (n2 & B2 & B2') B3 B4 B5]. split.
  - by trans p2.
  - exists (n1 ++ n2). split; [by rewrite <- app_assoc, <- B2|].
    intros p. rewrite B2', A2', elem_of_app. tauto.
  - intros va Hva. by rewrite B3, A3.
  - intros x y level va t Hx Hn. eapply B4; [by eapply lookup_weaken|]. by eapply A4.
  - intros a Ha. rewrite B5, A5; [done| |done]. intros p [x Hx]. apply Ha. exists x.
    by eapply lookup_weaken.
Qed.

Lemma page_ok_pa kend p : 0 <= kend -> page_ok kend p -> pa_ok p /\ 0 < p.
Proof.
  intros Hk (H1 & H2 & H3). split; [|done]. split; [done|].
  assert (PHYSTOP < 2 ^ 56) by done. lia.
Qed.

Lemma walk_noalloc root va s :
  0 <= va < MAXVA ->
  walk root va false s =
    Ok (match leaf_table (k_mem s) root va with Some t => t + 8 * PX 0 va | None => 0 end) s.
Proof.
  intros Hva. unfold walk. destruct (Z.geb_spec va MAXVA); [lia|].
  unfold leaf_table, next_table, ent. cbn [walk_loop]. unfold walk_step, kload.
  change (Z.of_nat 2) with 2. change (Z.of_nat 1) with 1.
  unfold mbind, M_bind, gets, mret, M_ret.
  destruct (has (ld64 (k_mem s) (root + 8 * PX 2 va)) PTE_V); [|done].
  by destruct (has (ld64 (k_mem s) (_ + 8 * PX 1 va)) PTE_V).
Qed.

Section walk.
Context (kend : Z) (Hkend : 0 <= kend).

(** One level, with allocation. *)
Lemma walk_step_alloc s pages root free level l p va :
  vm_inv kend s pages root free -> level = Z.of_nat (S l) -> 0 <= va ->
  pages !! p = Some (S l, vpn va / 512 ^ (level + 1)) ->
  (exists t s' pages' free', walk_step level p va true s = Ok (Some t) s' /\
     vm_inv kend s' pages' root free' /\ vm_ext root s s' pages pages' free free' /\
     next_table (k_mem s') level p va = Some t /\ (length free <= S (length free'))%nat) \/
  (walk_step level p va true s = Ok None s /\ free = []).
Proof.
  intros [Hk Ht Hdis Hok] Hlev Hva Hp. unfold walk_step, kload. rewrite gets_bind.
  fold (ent (k_mem s) p (PX level va)). destruct (has (ent (k_mem s) p (PX level va)) PTE_V) eqn:EV.
  { left. exists (PTE2PA (ent (k_mem s) p (PX level va))), s, pages, free. split; [done|].
    split; [done|]. split; [apply vm_ext_refl|]. split; [|lia]. unfold next_table. by rewrite EV. }
  cbn [negb]. destruct free as [|pg free'].
  { right. split; [|done]. by rewrite (bind_ok _ _ _ _ _ (kalloc_none kend s Hk)). }
  left. destruct (kalloc_some kend s pg free' Hk) as (s1 & Hrun & Hk1 & Hpgok & Hpgn & Hrd).
  destruct (page_ok_pa kend pg Hkend Hpgok) as [Hpapg Hpg0].
  set (i := PX level va) in *. pose proof (PX_range level va) as Hi. fold i in Hi.
  set (m2 := KString.memset (k_mem s1) pg 0 PGSIZE).
  set (m3 := st64 m2 (p + 8 * i) (Z.lor (PA2PTE pg) PTE_V)).
  set (s3 := set_k_mem m3 s1).
  assert (pages !! pg = None) as Hpgp by (apply Hdis; by left).
  assert (p <> pg) as Hppg by (intros ->; congruence).
  destruct (pt_page _ _ _ Ht p _ Hp) as ((Hpal & _) & _ & _).
  assert (forall a, rd m2 a = if inr a pg PGSIZE then 0 else rd (k_mem s) a) as Hrd2.
  { intros a. unfold m2. rewrite rd_memset by done. rewrite Hrd. by destruct (inr a pg PGSIZE). }
  assert (forall x j, x mod PGSIZE = 0 -> x <> pg -> 0 <= j < 512 -> ent m2 x j = ent (k_mem s) x j) as Hent2.
  { intros x j Hx Hne Hj. apply ent_ext; [|done]. intros a Ha. rewrite Hrd2.
    destruct (inr_spec a pg PGSIZE); [|done]. destruct Hne.
    apply (page_disjoint x pg a); [done|apply Hpgok|done|done]. }
  assert (one_entry pages p i (k_mem s) m3) as H1.
  { intros x j [y Hx] Hj Hne. destruct (pt_page _ _ _ Ht x _ Hx) as ((Hxal & _) & _ & _).
    unfold m3. rewrite ent_st64_other by (done || congruence). apply Hent2; [done| |done].
    intros ->. congruence. }
  assert (has (ent m3 p i) PTE_V = true /\ PTE2PA (ent m3 p i) = pg) as Hnew.
  { pose proof (mk_pte_range pg 0 (proj2 Hpapg)) as Hr. rewrite Z.lor_0_r in Hr.
    unfold m3. rewrite ent_st64_same, u64_small by (apply Hr; lia). split; [apply has_V_lor|].
    rewrite <- (Z.lor_0_r (PA2PTE pg)). by apply PTE2PA_mk. }
  assert (forall j, 0 <= j < 512 -> ent m3 pg j = 0) as Hzero.
  { intros j Hj. unfold m3. rewrite ent_st64_other; [|done|apply Hpgok|done|done|congruence].
    unfold ent, ld64. apply ldn_zero. intros a Ha. rewrite Hrd2, inr_true; [done|].
    unfold PGSIZE. lia. }
  exists pg, s3, (<[pg := (l, vpn va / 512 ^ (level + 1) * 512 + i)]> pages), free'.
  split; [|split; [|split]].
  - rewrite (bind_ok _ _ _ _ _ Hrun). destruct (Z.eqb_spec pg 0); [lia|]. done.
  - split.
    + destruct Hk1 as [K1 K2 K3 K4]. split; [exact K1| |exact K3|exact K4].
      change (k_mem s3) with m3. change (k_freelist s3) with (k_freelist s1).
      eapply flist_ext; [|exact K2]. intros x a Hx Ha. unfold m3.
      destruct Hk as [_ _ Hpg' Hnd]. apply Forall_cons in Hpg' as [_ Hpg'].
      rewrite Forall_forall in Hpg'. destruct (Hpg' x Hx) as (Hxal & _).
      assert (x <> p) as Hxp. { intros ->. by rewrite (Hdis p) in Hp by (by right). }
      assert (~ in_page p a) as Hnp by (intros Hin; by apply Hxp, (page_disjoint x p a)).
      unfold in_page, PGSIZE in Hnp. unfold st64. rewrite rd_stn_other by lia.
      rewrite Hrd2, Hrd. destruct (inr_spec a pg PGSIZE) as [Hin|]; [|done].
      destruct Hpgn. rewrite (page_disjoint pg x a); [done|apply Hpgok|done|done|done].
    + by eapply add_ptree.
    + intros x Hx. rewrite lookup_insert_ne; [apply Hdis; by right|]. intros ->. done.
    + intros x y [[<- _]|[_ Hx]]%lookup_insert_Some; [done|]. by apply (Hok x y).
  - split.
    + by apply insert_subseteq.
    + exists [pg]. split; [done|]. intros x. rewrite lookup_insert_is_Some, list_elem_of_singleton.
      split; [intros [<-|[_ H]]; [by right|by left]|]. intros [H| ->]; [|by left].
      destruct (decide (pg = x)); [by left|by right].
    + intros va' Hva'. by eapply add_pte_of.
    + intros x [l' q'] lv va' t Hx Hn.
      destruct (next_add (k_mem s) m3 pages p pg i EV H1 Hnew lv va' x _ _ Hx) as [E|(E & _)]; [|congruence].
      change (k_mem s3) with m3. by rewrite E.
    + intros a Ha. change (k_mem s3) with m3. unfold m3.
      assert (~ in_page p a) as Hnp.
      { apply Ha. rewrite lookup_insert_ne by done. by eexists. }
      assert (~ in_page pg a) as Hnpg by (apply Ha; by rewrite lookup_insert_eq).
      unfold in_page, PGSIZE in *. unfold st64. rewrite rd_stn_other by lia.
      rewrite Hrd2, inr_false; [done|unfold PGSIZE; lia].
  - split; [|simpl; lia]. unfold next_table. fold i. change (k_mem s3) with m3.
    by rewrite (proj1 Hnew), (proj2 Hnew).
Qed.

(** [walk] with allocation: the address of the leaf entry, or [0] with the
    free list used up. *)
Lemma walk_alloc s pages root free va :
  vm_inv kend s pages root free -> 0 <= va < MAXVA ->
  exists r s' pages' free', walk root va true s = Ok r s' /\
    vm_inv kend s' pages' root free' /\ vm_ext root s s' pages pages' free free' /\
    ((r = 0 /\ free' = [] /\ (length free < 2)%nat) \/
     exists t, r = t + 8 * PX 0 va /\ leaf_table (k_mem s') root va = Some t /\
       (length free <= 2 + length free')%nat).
Proof.
  intros Hinv Hva. unfold walk. destruct (Z.geb_spec va MAXVA); [lia|]. cbn [walk_loop].
  change (Z.of_nat 2) with 2. change (Z.of_nat 1) with 1.
  pose proof (root_page _ _ _ (vi_t _ _ _ _ _ Hinv) va Hva) as Hroot.
  destruct (walk_step_alloc s pages root free 2 1 root va Hinv eq_refl (proj1 Hva) Hroot)
    as [(t1 & s1 & pages1 & free1 & H1 & Hinv1 & Hext1 & Hn1 & Hl1)|[H1 ->]].
  2: { rewrite (bind_ok _ _ _ _ _ H1). exists 0, s, pages, []. split; [done|]. split; [done|].
       split; [apply vm_ext_refl|left]. simpl. split_and!; (done || lia). }
  rewrite (bind_ok _ _ _ _ _ H1). cbv beta iota.
  pose proof (root_page _ _ _ (vi_t _ _ _ _ _ Hinv1) va Hva) as Hroot1.
  assert (pages1 !! t1 = Some (1%nat, vpn va / 512 ^ (1 + 1))) as Ht1.
  { eapply (next_table_page _ _ _ (vi_t _ _ _ _ _ Hinv1) 2 1); [done|lia|exact Hroot1|exact Hn1]. }
  destruct (walk_step_alloc s1 pages1 root free1 1 0 t1 va Hinv1 eq_refl (proj1 Hva) Ht1)
    as [(t0 & s2 & pages2 & free2 & H2 & Hinv2 & Hext2 & Hn2 & Hl2)|[H2 ->]].
  2: { rewrite (bind_ok _ _ _ _ _ H2). exists 0, s1, pages1, []. split; [done|]. split; [done|].
       split; [done|left]. simpl in Hl1. split_and!; (done || lia). }
  rewrite (bind_ok _ _ _ _ _ H2). cbv beta iota.
  exists (t0 + 8 * PX 0 va), s2, pages2, free2. split; [done|]. split; [done|].
  split; [by eapply vm_ext_trans|]. right. exists t0. split; [done|].
  split; [|lia]. unfold leaf_table. by rewrite (ve_path _ _ _ _ _ _ _ Hext2 root _ 2 va t1 Hroot1 Hn1).
Qed.
End walk.

(** ** mappages *)

Definition mk_pte (pa perm : Z) : Z := Z.lor (Z.lor (PA2PTE pa) perm) PTE_V.

(** Tables may be added, from the free list; memory outside them is kept. *)
Record vm_grow (s s' : kst) (pages pages' : layout) (free free' : list Z) : Prop := {
  vg_pages : pages ⊆ pages';
  vg_free : exists new, free = new ++ free' /\
    forall p, is_Some (pages' !! p) <-> is_Some (pages !! p) \/ p ∈ new;
  vg_frame : forall a, (forall p, is_Some (pages' !! p) -> ~ in_page p a) ->
    rd (k_mem s') a = rd (k_mem s) a }.

Lemma vm_grow_trans s1 s2 s3 p1 p2 p3 f1 f2 f3 :
  vm_grow s1 s2 p1 p2 f1 f2 -> vm_grow s2 s3 p2 p3 f2 f3 -> vm_grow s1 s3 p1 p3 f1 f3.
Proof.
  intros [A1 (n1 & A2 & A2') A5] [B1 (n2 & B2 & B2') B5]. split.
  - by trans p2.
  - exists (n1 ++ n2). split; [by rewrite <- app_assoc, <- B2|].
    intros p. rewrite B2', A2', elem_of_app. tauto.
  - intros a Ha. rewrite B5, A5; [done| |done]. intros p [x Hx]. apply Ha. exists x.
    by eapply lookup_weaken.
Qed.

Lemma vm_ext_grow root s s' p p' f f' : vm_ext root s s' p p' f f' -> vm_grow s s' p p' f f'.
Proof. intros []. by split. Qed.

Section store.
Context (kend : Z) (Hkend : 0 <= kend).

(** Storing into a leaf entry. *)
Lemma store_leaf s pages root free va t v :
  vm_inv kend s pages root free -> 0 <= va < MAXVA -> leaf_table (k_mem s) root va = Some t ->
  0 <= v < 2 ^ 64 ->
  let s' := set_k_mem (st64 (k_mem s) (t + 8 * PX 0 va) v) s in
  vm_inv kend s' pages root free /\ vm_grow s s' pages pages free free /\
  (forall va', 0 <= va' < MAXVA -> leaf_table (k_mem s') root va' = leaf_table (k_mem s) root va') /\
  forall va', 0 <= va' < MAXVA ->
    pte_of (k_mem s') root va' = if decide (vpn va' = vpn va) then v else pte_of (k_mem s) root va'.
Proof.
  intros [Hk Ht Hdis Hok] Hva Hleaf Hv s'.
  pose proof (leaf_table_page _ _ _ Ht _ _ Hva Hleaf) as Htp.
  pose proof (PX_range 0 va) as Hi. set (i := PX 0 va) in *.
  destruct (pt_page _ _ _ Ht t _ Htp) as ((Htal & _) & _ & _).
  assert (forall a, ~ in_page t a -> rd (k_mem s') a = rd (k_mem s) a) as Hfr.
  { intros a Ha. unfold s', st64. cbn [k_mem set_k_mem]. unfold in_page, PGSIZE in Ha. apply rd_stn_other. lia. }
  assert (one_entry pages t i (k_mem s) (k_mem s')) as H1.
  { intros x j [y Hx] Hj Hne. destruct (pt_page _ _ _ Ht x _ Hx) as ((Hxal & _) & _ & _).
    apply ent_st64_other; done || congruence. }
  destruct (set_leaf _ _ _ _ _ _ Ht Hva Hleaf H1) as (Ht' & Hlt & Hpte).
  split; [|split; [|split; [exact Hlt|]]].
  - split; [|exact Ht'|exact Hdis|exact Hok].
    destruct Hk as [K1 K2 K3 K4]. split; [exact K1| |exact K3|exact K4].
    eapply flist_ext; [|exact K2]. intros p a Hp Ha. apply Hfr. intros Hin.
    rewrite Forall_forall in K3. destruct (K3 p Hp) as (Hpal & _).
    assert (p = t) as -> by by apply (page_disjoint p t a). by rewrite (Hdis t Hp) in Htp.
  - split; [done|exists []; split; [done|set_solver]|]. intros a Ha. apply Hfr, Ha. by eexists.
  - intros va' Hva'. rewrite Hpte by done. case_decide; [|done]. fold i.
    unfold s'. cbn [k_mem set_k_mem]. rewrite ent_st64_same. by apply u64_small.
Qed.
End store.

Lemma vpn_aligned a va : a mod PGSIZE = 0 -> vpn va = vpn a <-> in_page a va.
Proof.
  intros Ha. unfold vpn, in_page, PGSIZE in *.
  pose proof (Z.div_mod a 4096). pose proof (Z.div_mod va 4096). pose proof (Z.mod_pos_bound va 4096).
  split; intros; [lia|]. assert (va / 4096 * 4096 = a / 4096 * 4096) by lia. lia.
Qed.

Lemma PGROUNDDOWN_page a va : a mod PGSIZE = 0 -> in_page a va -> PGROUNDDOWN va = a.
Proof.
  intros Ha Hin. rewrite PGROUNDDOWN_eq. unfold in_page, PGSIZE in *.
  pose proof (Z.div_mod a 4096). pose proof (Z.div_mod va 4096). pose proof (Z.mod_pos_bound va 4096). lia.
Qed.

(** [k] pages from [a] on are mapped to the physical pages from [pa] on, the
    rest of the map is as before. *)
Definition map_post (root a k pa perm : Z) (m m' : mem) : Prop :=
  forall va, 0 <= va < MAXVA -> pte_of m' root va =
    if inr va a (k * PGSIZE) then mk_pte (pa + (PGROUNDDOWN va - a)) perm else pte_of m root va.

Lemma map_post_0 root a pa perm m m' :
  (forall va, 0 <= va < MAXVA -> pte_of m' root va = pte_of m root va) ->
  map_post root a 0 pa perm m m'.
Proof. intros H va Hva. rewrite inr_false by lia. by apply H. Qed.

Lemma map_post_cons root a k pa perm m m1 m' :
  a mod PGSIZE = 0 -> 0 <= k ->
  (forall va, 0 <= va < MAXVA -> pte_of m1 root va =
     if decide (vpn va = vpn a) then mk_pte pa perm else pte_of m root va) ->
  map_post root (a + PGSIZE) k (pa + PGSIZE) perm m1 m' ->
  map_post root a (k + 1) pa perm m m'.
Proof.
  intros Ha Hk H1 H va Hva. rewrite (H va Hva), (H1 va Hva).
  assert (vpn va = vpn a <-> in_page a va) as Hv by by apply vpn_aligned.
  unfold in_page, PGSIZE in *.
  destruct (inr_spec va (a + 4096) (k * 4096)) as [Hin|Hin].
  - rewrite inr_true by lia. f_equal. lia.
  - case_decide as E.
    + rewrite inr_true by lia. f_equal.
      rewrite (PGROUNDDOWN_page a) by (unfold in_page, PGSIZE; tauto). lia.
    + rewrite inr_false by lia. done.
Qed.

Section mappages.
Context (kend : Z) (Hkend : 0 <= kend) (root perm : Z) (Hperm : 0 <= perm < 1024).

(** The entry at [a] after the round of the loop for [a]. *)
Lemma map_step s pages free a pa :
  vm_inv kend s pages root free -> 0 <= a < MAXVA -> pa_ok pa ->
  has (pte_of (k_mem s) root a) PTE_V = false ->
  (exists s' pages', walk root a true s = Ok 0 s' /\ vm_inv kend s' pages' root [] /\
     vm_grow s s' pages pages' free [] /\ (length free < 2)%nat /\
     forall va, 0 <= va < MAXVA -> pte_of (k_mem s') root va = pte_of (k_mem s) root va) \/
  (exists t s1 s' pages' free', walk root a true s = Ok t s1 /\ t <> 0 /\
     has (ld64 (k_mem s1) t) PTE_V = false /\
     s' = set_k_mem (st64 (k_mem s1) t (mk_pte pa perm)) s1 /\
     vm_inv kend s' pages' root free' /\ vm_grow s s' pages pages' free free' /\
     (length free <= 2 + length free')%nat /\
     forall va, 0 <= va < MAXVA -> pte_of (k_mem s') root va =
       if decide (vpn va = vpn a) then mk_pte pa perm else pte_of (k_mem s) root va).
Proof.
  intros Hinv Ha Hpa Hnv.
  destruct (walk_alloc kend Hkend s pages root free a Hinv Ha)
    as (r & s1 & pages1 & free1 & Hrun & Hinv1 & Hext & [(-> & -> & Hl)|(t & -> & Hleaf & Hl)]).
  - left. exists s1, pages1. split; [done|]. split; [done|]. split; [by eapply vm_ext_grow|].
    split; [done|apply Hext].
  - right. pose proof (mk_pte_range pa perm (proj2 Hpa) Hperm) as Hr.
    destruct (store_leaf kend Hkend s1 pages1 root free1 a t (mk_pte pa perm) Hinv1 Ha Hleaf Hr)
      as (Hinv2 & Hgrow2 & _ & Hpte2).
    pose proof (PX_range 0 a).
    destruct (pt_page _ _ _ (vi_t _ _ _ _ _ Hinv1) t _ (leaf_table_page _ _ _ (vi_t _ _ _ _ _ Hinv1) _ _ Ha Hleaf))
      as (_ & Ht0 & _).
    eexists _, s1, _, pages1, free1. split; [exact Hrun|]. split; [lia|]. split.
    { rewrite <- (ve_map _ _ _ _ _ _ _ Hext a Ha) in Hnv. unfold pte_of in Hnv. by rewrite Hleaf in Hnv. }
    split; [done|]. split; [exact Hinv2|].
    split; [eapply vm_grow_trans; [by eapply vm_ext_grow|exact Hgrow2]|]. split; [done|].
    intros va Hva. rewrite Hpte2 by done. by rewrite (ve_map _ _ _ _ _ _ _ Hext).
Qed.

Lemma mappages_loop_spec n : forall fuel s pages free a pa,
  (n < fuel)%nat ->
  vm_inv kend s pages root free -> a mod PGSIZE = 0 -> 0 <= a ->
  a + (Z.of_nat n + 1) * PGSIZE <= MAXVA ->
  pa mod PGSIZE = 0 -> 0 <= pa -> pa + (Z.of_nat n + 1) * PGSIZE <= 2 ^ 56 ->
  (forall va, inr va a ((Z.of_nat n + 1) * PGSIZE) = true -> has (pte_of (k_mem s) root va) PTE_V = false) ->
  exists r s' pages' free' k,
    mappages_loop fuel root a (a + Z.of_nat n * PGSIZE) pa perm s = Ok r s' /\
    vm_inv kend s' pages' root free' /\ vm_grow s s' pages pages' free free' /\
    map_post root a k pa perm (k_mem s) (k_mem s') /\
    (r = 0 /\ k = Z.of_nat n + 1 \/
     r = -1 /\ 0 <= k <= Z.of_nat n /\ free' = [] /\ (length free < 2 * (n + 1))%nat).
Proof.
  assert (MAXVA = 274877906944) as HM by done. change (2 ^ 56) with 72057594037927936.
  induction n as [|n IH]; intros fuel s pages free a pa Hf Hinv Hal Ha0 Hend Hpal Hpa0 Hpend Hfree;
    (destruct fuel as [|fuel]; [lia|]); cbn [mappages_loop]; unfold PGSIZE in *;
    (assert (pa_ok pa) as Hpa by (split; [done|]; change (2 ^ 56) with 72057594037927936; lia));
    (assert (has (pte_of (k_mem s) root a) PTE_V = false) as Hnv by (apply Hfree, inr_true; lia));
    (destruct (map_step s pages free a pa Hinv ltac:(lia) Hpa Hnv) as
      [(s' & pages' & Hrun & Hinv' & Hgrow & Hlen & Hmap)|
       (t & s1 & s' & pages' & free' & Hrun & Ht0 & Hnv' & Es' & Hinv' & Hgrow & Hlen & Hmap)];
     [exists (-1), s', pages', [], 0; split; [by rewrite (bind_ok _ _ _ _ _ Hrun)|];
      split; [done|]; split; [done|]; split; [by apply map_post_0|right; split_and!; (done || lia)]|]);
    rewrite (bind_ok _ _ _ _ _ Hrun); (destruct (Z.eqb_spec t 0); [done|]);
    unfold kload, kstore; rewrite gets_bind, Hnv', modify_bind; fold (mk_pte pa perm); rewrite <- Es'.
  - destruct (Z.eqb_spec a (a + Z.of_nat 0 * 4096)); [|lia].
    exists 0, s', pages', free', 1. split; [done|]. split; [done|]. split; [done|].
    split; [|left; lia]. apply (map_post_cons _ _ 0 _ _ _ (k_mem s')); [done|lia|done|by apply map_post_0].
  - destruct (Z.eqb_spec a (a + Z.of_nat (S n) * 4096)); [lia|].
    rewrite !u64_small by lia.
    replace (a + Z.of_nat (S n) * 4096) with (a + 4096 + Z.of_nat n * 4096) by lia.
    destruct (IH fuel s' pages' free' (a + 4096) (pa + 4096)) as (r & s2 & pages2 & free2 & k & H2 & Hinv2 & Hgrow2 & Hpost & Hr).
    + lia.
    + done.
    + rewrite <- (Z.mul_1_l 4096) at 1. by rewrite Z.mod_add.
    + lia.
    + lia.
    + rewrite <- (Z.mul_1_l 4096) at 1. by rewrite Z.mod_add.
    + lia.
    + lia.
    + intros va Hva. destruct (inr_spec va (a + 4096) ((Z.of_nat n + 1) * 4096)) as [Hin|]; [|done].
      rewrite Hmap by lia. rewrite decide_False.
      * apply Hfree, inr_true. lia.
      * intros E. apply (vpn_aligned a va Hal) in E. unfold in_page, PGSIZE in E. lia.
    + exists r, s2, pages2, free2, (k + 1). split; [exact H2|]. split; [done|].
      split; [by eapply vm_grow_trans|]. split.
      * eapply map_post_cons; [done|lia|exact Hmap|exact Hpost].
      * destruct Hr as [[-> ->]|(-> & Hk & -> & Hl)]; [left|right]; split_and!; (done || lia).
Qed.
End mappages.
