(* ===== verification/CopySpec.v ===== *)
(** copyout, copyin and copyinstr act on the memory a page table shows to its
    user. *)

From S2P Require Import Prelude Mem Sleeplock Strings Kalloc Vm VmSpec.

(** The physical address behind a user virtual address. *)
Definition utrans (m : mem) (root va : Z) : option Z :=
  if (0 <=? va) && (va <? MAXVA) then
    let v := pte_of m root va in
    if has v PTE_V && has v PTE_U && negb (PTE2PA v =? 0)
    then Some (PTE2PA v + va mod PGSIZE) else None
  else None.

Lemma utrans_range m root va a : utrans m root va = Some a -> 0 <= va < MAXVA.
Proof. unfold utrans. destruct (0 <=? va) eqn:E1, (va <? MAXVA) eqn:E2; try done. intros _. zprop. lia. Qed.

Lemma walkaddr_spec pages root va s :
  ptree (k_mem s) pages root -> 0 <= va ->
  walkaddr root va s =
    Ok (match utrans (k_mem s) root va with Some a => a - va mod PGSIZE | None => 0 end) s.
Proof.
  intros Ht H0. unfold walkaddr, utrans. rewrite (proj2 (Z.leb_le 0 va) H0). cbn [andb].
  destruct (Z.geb_spec va MAXVA) as [H|H]; [by rewrite (proj2 (Z.ltb_ge va MAXVA)) by lia|].
  rewrite (proj2 (Z.ltb_lt va MAXVA)) by lia.
  rewrite (bind_ok _ _ _ _ _ (walk_noalloc root va s ltac:(lia))). unfold pte_of.
  destruct (leaf_table (k_mem s) root va) as [t|] eqn:El; [|done].
  pose proof (PX_range 0 va).
  destruct (pt_page _ _ _ Ht t _ (leaf_table_page _ _ _ Ht va t ltac:(lia) El)) as (_ & Ht0 & _).
  destruct (Z.eqb_spec (t + 8 * PX 0 va) 0) as [E|E]; [lia|].
  unfold kload. rewrite gets_bind. fold (ent (k_mem s) t (PX 0 va)).
  set (v := ent (k_mem s) t (PX 0 va)).
  destruct (has v PTE_V); [|done]. destruct (has v PTE_U); [|done]. cbn [negb andb].
  destruct (Z.eqb_spec (PTE2PA v) 0) as [E0|E0]; cbn [negb]; rewrite ret_ok; f_equal; lia.
Qed.

(** Within a page translation is linear. *)
Lemma utrans_page m root va va' :
  0 <= va -> 0 <= va' -> PGROUNDDOWN va = PGROUNDDOWN va' ->
  utrans m root va' = (fun a => a + (va' - va)) <$> utrans m root va.
Proof.
  intros H0 H0' E. rewrite !PGROUNDDOWN_eq in E.
  assert (vpn va = vpn va') as Ev.
  { unfold vpn, PGSIZE in *. pose proof (Z.div_mod va 4096). pose proof (Z.div_mod va' 4096). lia. }
  assert (MAXVA mod PGSIZE = 0) by done.
  assert ((va <? MAXVA) = (va' <? MAXVA)) as Em.
  { unfold PGSIZE in *. pose proof (Z.div_mod va 4096). pose proof (Z.div_mod va' 4096).
    pose proof (Z.mod_pos_bound va 4096). pose proof (Z.mod_pos_bound va' 4096).
    pose proof (Z.div_mod MAXVA 4096).
    destruct (Z.ltb_spec va MAXVA), (Z.ltb_spec va' MAXVA); lia. }
  unfold utrans. rewrite (proj2 (Z.leb_le 0 va) H0), (proj2 (Z.leb_le 0 va') H0'), <- Em.
  destruct (va <? MAXVA); [|done]. cbn [andb]. rewrite (pte_of_vpn m root va' va) by done.
  destruct (_ && _ && _); [|done]. simpl. f_equal. lia.
Qed.

(** The map depends on the tables only. *)
Lemma pte_of_frame m m' pages root :
  ptree m pages root ->
  (forall p a, is_Some (pages !! p) -> in_page p a -> rd m' a = rd m a) ->
  ptree m' pages root /\ forall va, 0 <= va < MAXVA -> pte_of m' root va = pte_of m root va.
Proof.
  intros Ht H.
  assert (forall p i, is_Some (pages !! p) -> 0 <= i < 512 -> ent m' p i = ent m p i) as He.
  { intros p i Hp Hi. apply ent_ext; [|done]. intros a Ha. by apply (H p). }
  split.
  - split; [apply Ht|apply Ht|apply Ht| |].
    + intros p l q i Hp Hi. rewrite He by (done || by eexists). by apply (pt_next _ _ _ Ht).
    + intros x l q Hx Hl. destruct (pt_up _ _ _ Ht x l q Hx Hl) as (p & Hp & Hh). exists p.
      rewrite He by (apply mod512_range || by eexists). done.
  - intros va Hva. unfold pte_of, leaf_table, next_table.
    rewrite (He root) by (apply PX_range || (eexists; apply Ht)).
    destruct (has (ent m root (PX 2 va)) PTE_V) eqn:E2; [|done].
    assert (is_Some (pages !! PTE2PA (ent m root (PX 2 va)))) as H1.
    { eexists. eapply (pt_next _ _ _ Ht); [apply Ht|apply PX_range|done]. }
    rewrite (He _ _ H1 (PX_range 1 va)). destruct (has (ent m _ (PX 1 va)) PTE_V) eqn:E1; [|done].
    apply He; [|apply PX_range]. eexists.
    apply (leaf_table_page _ _ _ Ht va); [done|]. unfold leaf_table, next_table. by rewrite E2, E1.
Qed.

(** User memory: apart from the tables, each byte seen at one address. *)
Record user_ok (m : mem) (pages : layout) (root : Z) : Prop := {
  uo_tree : ptree m pages root;
  uo_data : forall va a p, utrans m root va = Some a -> is_Some (pages !! p) -> ~ in_page p a;
  uo_inj : forall va va' a, utrans m root va = Some a -> utrans m root va' = Some a -> va = va' }.

Lemma user_ok_frame m m' pages root :
  user_ok m pages root ->
  (forall a, (forall va, utrans m root va <> Some a) -> rd m' a = rd m a) ->
  user_ok m' pages root /\ forall va, utrans m' root va = utrans m root va.
Proof.
  intros [Ht Hd Hi] H. destruct (pte_of_frame m m' pages root Ht) as [Ht' Hp].
  { intros p a Hp Ha. apply H. intros va Hva. by apply (Hd va a p). }
  assert (forall va, utrans m' root va = utrans m root va) as Hu.
  { intros va. unfold utrans. destruct (0 <=? va) eqn:E1, (va <? MAXVA) eqn:E2; try done. cbn [andb].
    zprop. by rewrite Hp by lia. }
  split; [|done]. split; [done| |].
  - intros va a p. rewrite Hu. apply Hd.
  - intros va va' a. rewrite !Hu. apply Hi.
Qed.

(** [m'] is [m] with [k] bytes [sv 0], [sv 1], ... stored at user address
    [dst] on. *)
Definition ustored (root : Z) (m m' : mem) (dst k : Z) (sv : Z -> Z) : Prop :=
  (forall i a, 0 <= i < k -> utrans m root (dst + i) = Some a -> rd m' a = sv i) /\
  (forall a, (forall i, 0 <= i < k -> utrans m root (dst + i) <> Some a) -> rd m' a = rd m a).

Lemma ustored_frame root m m' pages dst k sv :
  user_ok m pages root -> ustored root m m' dst k sv ->
  user_ok m' pages root /\ forall va, utrans m' root va = utrans m root va.
Proof.
  intros Hu [_ H2]. apply user_ok_frame; [done|]. intros a Ha. apply H2. intros i _. apply Ha.
Qed.

Lemma ustored_app root pages m m1 m' dst k1 k2 sv :
  user_ok m pages root -> 0 <= k1 -> 0 <= k2 ->
  ustored root m m1 dst k1 sv -> ustored root m1 m' (dst + k1) k2 (fun i => sv (k1 + i)) ->
  ustored root m m' dst (k1 + k2) sv.
Proof.
  intros Hu Hk1 Hk2 H1 H2. destruct (ustored_frame _ _ _ _ _ _ _ Hu H1) as [Hu1 Ht].
  destruct H1 as [A1 A2], H2 as [B1 B2]. split.
  - intros i a Hi Ha. destruct (decide (i < k1)) as [Hlt|Hge].
    + rewrite B2; [apply A1; [lia|done]|]. intros j Hj. rewrite Ht. intros Hj'.
      pose proof (uo_inj _ _ _ Hu _ _ _ Ha Hj'). lia.
    + rewrite (B1 (i - k1) a); [f_equal; lia|lia|]. rewrite Ht. rewrite <- Ha. f_equal. lia.
  - intros a Ha. rewrite B2, A2; [done| |].
    + intros i Hi. apply Ha. lia.
    + intros i Hi. rewrite Ht. specialize (Ha (k1 + i)). rewrite Z.add_assoc in Ha. apply Ha. lia.
Qed.

(** ** copyout *)

Section copyout.
Context (pages : layout) (root : Z).

(** [src] bytes the copy reads: in physical memory apart from user memory,
    or in an object of the kernel. *)
Context (move : mem -> Z -> Z -> Z -> mem) (sv : Z -> Z) (good : mem -> Prop) (src0 len0 : Z).
Hypothesis Hmove : forall m d s n va,
  user_ok m pages root -> good m -> 0 < n -> src0 <= s -> s + n <= src0 + len0 ->
  (forall i, 0 <= i < n -> utrans m root (va + i) = Some (d + i)) ->
  forall a, rd (move m d s n) a = if inr a d n then sv (s + (a - d)) else rd m a.
Hypothesis Hgood : forall m m',
  user_ok m pages root -> good m ->
  (forall a, (forall va, utrans m root va <> Some a) -> rd m' a = rd m a) -> good m'.

(** One round of the copy, inside one page. *)
Lemma copy_round m dst s n a0 :
  user_ok m pages root -> good m -> 0 <= dst -> 0 < n -> dst mod PGSIZE + n <= PGSIZE ->
  src0 <= s -> s + n <= src0 + len0 -> utrans m root dst = Some a0 ->
  ustored root m (move m a0 s n) dst n (fun i => sv (s + i)).
Proof.
  intros Hu Hg H0 Hn Hpg Hs1 Hs2 Ha0.
  assert (forall i, 0 <= i < n -> utrans m root (dst + i) = Some (a0 + i)) as Hlin.
  { intros i Hi. rewrite (utrans_page m root dst (dst + i)); [rewrite Ha0; simpl; f_equal; lia|lia|lia|].
    pose proof (PGROUNDDOWN_spec dst) as [P1 P2]. symmetry. apply PGROUNDDOWN_page; [done|].
    rewrite PGROUNDDOWN_eq in *. unfold in_page. lia. }
  pose proof (Hmove m a0 s n dst Hu Hg Hn Hs1 Hs2 Hlin) as Hrd. split.
  - intros i a Hi Ha. rewrite Hlin in Ha by done. simplify_eq. rewrite Hrd, inr_true by lia.
    f_equal. lia.
  - intros a Ha. rewrite Hrd. destruct (inr_spec a a0 n) as [Hin|]; [|done].
    exfalso. apply (Ha (a - a0)); [lia|]. rewrite Hlin by lia. f_equal. lia.
Qed.

(** The loop: [0] when the whole range is mapped, and then the bytes are
    where they should be; [-1] at the first page that is not, with what
    comes before it copied. *)
Lemma copyout_loop_spec fuel : forall s dst src len,
  user_ok (k_mem s) pages root -> good (k_mem s) -> 0 <= dst -> 0 <= len -> (Z.to_nat len <= fuel)%nat ->
  src0 <= src -> src + len <= src0 + len0 ->
  exists r k m', copyout_loop move fuel root dst src len s = Ok r (set_k_mem m' s) /\
    ustored root (k_mem s) m' dst k (fun i => sv (src + i)) /\ 0 <= k /\
    ((r = 0 /\ k = len /\ forall i, 0 <= i < len -> is_Some (utrans (k_mem s) root (dst + i))) \/
     (r = -1 /\ k < len /\ utrans (k_mem s) root (dst + k) = None /\
      forall i, 0 <= i < k -> is_Some (utrans (k_mem s) root (dst + i)))).
Proof.
  induction fuel as [|fuel IH]; intros s dst src len Hu Hg H0 Hlen Hf Hs1 Hs2; cbn [copyout_loop].
  - destruct (Z.gtb_spec len 0); [lia|]. exists 0, 0, (k_mem s). split; [by destruct s|].
    split; [split; [lia|done]|]. split; [lia|]. left. split_and!; lia || (intros; lia).
  - destruct (Z.gtb_spec len 0) as [Hpos|].
    2: { exists 0, 0, (k_mem s). split; [by destruct s|]. split; [split; [lia|done]|]. split; [lia|].
         left. split_and!; lia || (intros; lia). }
    pose proof (PGROUNDDOWN_spec dst) as [P1 P2]. set (va0 := PGROUNDDOWN dst) in *.
    assert (dst - va0 = dst mod PGSIZE) as Eoff by (unfold va0; rewrite PGROUNDDOWN_eq; lia).
    pose proof (mod_pgsize_range dst) as Hoff.
    assert (0 <= va0) as Hva0 by (unfold PGSIZE in *; pose proof (Z.div_mod va0 4096); lia).
    rewrite (bind_ok _ _ _ _ _ (walkaddr_spec pages root va0 s (uo_tree _ _ _ Hu) Hva0)).
    rewrite P1. rewrite Eoff.
    assert (utrans (k_mem s) root dst = (fun a => a + dst mod PGSIZE) <$> utrans (k_mem s) root va0) as Hd.
    { rewrite (utrans_page _ _ va0 dst), Eoff; [done|lia|lia|].
      apply PGROUNDDOWN_page; [done|]. unfold in_page, PGSIZE in *. lia. }
    destruct (utrans (k_mem s) root va0) as [pa0|] eqn:E0; cbn [fmap option_fmap option_map] in Hd.
    2: { exists (-1), 0, (k_mem s). split; [by destruct s|]. split; [split; [lia|done]|]. split; [lia|].
         right. rewrite Z.add_0_r. split_and!; try done. intros; lia. }
    rewrite Z.sub_0_r.
    destruct (Z.eqb_spec pa0 0) as [->|Hpa0].
    { exfalso. unfold utrans in E0. destruct (_ && _); [|done].
      destruct (has (pte_of (k_mem s) root va0) PTE_V), (has (pte_of (k_mem s) root va0) PTE_U); try done.
      destruct (Z.eqb_spec (PTE2PA (pte_of (k_mem s) root va0)) 0); [done|]. simpl in E0. simplify_eq.
      rewrite P1 in E0. lia. }
    set (n := if PGSIZE - dst mod PGSIZE >? len then len else PGSIZE - dst mod PGSIZE).
    assert (0 < n <= len /\ dst mod PGSIZE + n <= PGSIZE /\ (n = len \/ dst + n = va0 + PGSIZE)) as (Hn & Hn2 & Hn3).
    { unfold n. destruct (Z.gtb_spec (PGSIZE - dst mod PGSIZE) len); lia. }
    rewrite modify_bind.
    pose proof (copy_round (k_mem s) dst src n _ Hu Hg H0 ltac:(lia) Hn2 Hs1 ltac:(lia) Hd) as Hst.
    set (m1 := move (k_mem s) (pa0 + dst mod PGSIZE) src n) in *.
    destruct (ustored_frame _ _ _ _ _ _ _ Hu Hst) as [Hu1 Ht1].
    assert (good m1) as Hg1.
    { apply (Hgood (k_mem s)); [done|done|]. intros a Ha. apply Hst. intros i _. apply Ha. }
    assert (forall i, 0 <= i < n -> is_Some (utrans (k_mem s) root (dst + i))) as Hmapped.
    { intros i Hi. rewrite (utrans_page _ _ dst (dst + i)); [rewrite Hd; by eexists|lia|lia|].
      fold va0. symmetry. apply PGROUNDDOWN_page; [done|]. unfold in_page. lia. }
    destruct (decide (n = len)) as [E|E].
    + rewrite E in *. rewrite Z.sub_diag.
      assert (forall d s', copyout_loop move fuel root d s' 0 = mret 0) as Hz by by destruct fuel.
      rewrite Hz. exists 0, len, m1. split; [done|]. split; [done|]. split; [lia|]. left. done.
    + assert (dst + n = va0 + PGSIZE) as En by (destruct Hn3; lia). rewrite <- En.
      destruct (IH (set_k_mem m1 s) (dst + n) (src + n) (len - n)) as (r & k & m' & Hrun & Hst' & Hk & Hr);
        [done|done|lia|lia|lia|lia|lia|].
      exists r, (n + k), m'. split; [exact Hrun|]. split.
      { eapply ustored_app; [exact Hu|lia|lia|exact Hst|]. revert Hst'. unfold ustored. simpl k_mem.
        intros [B1 B2]. split; [|done]. intros i a Hi Ha. rewrite (B1 i a Hi Ha). f_equal. lia. }
      simpl k_mem in Hr. setoid_rewrite Ht1 in Hr.
      assert (forall i, n <= i -> dst + n + (i - n) = dst + i) as Hadd by lia.
      split; [lia|]. destruct Hr as [(-> & Hkl & Hall)|(-> & Hkl & Hnone & Hall)]; [left|right].
      * split; [done|]. split; [lia|]. intros i Hi. destruct (decide (i < n)); [apply Hmapped; lia|].
        rewrite <- (Hadd i) by lia. apply Hall. lia.
      * split; [done|]. split; [lia|]. split; [by rewrite Z.add_assoc|].
        intros i Hi. destruct (decide (i < n)); [apply Hmapped; lia|].
        rewrite <- (Hadd i) by lia. apply Hall. lia.
Qed.
End copyout.

(** ** The two sources of [copyout] *)

(** Out of physical memory that no user page covers. *)
Lemma copyout_phys root pages s dst src len :
  user_ok (k_mem s) pages root -> 0 <= dst -> 0 <= len ->
  (forall va a, utrans (k_mem s) root va = Some a -> ~ (src <= a < src + len)) ->
  exists r k m', copyout root dst src len s = Ok r (set_k_mem m' s) /\
    ustored root (k_mem s) m' dst k (fun i => rd (k_mem s) (src + i)) /\ 0 <= k /\
    ((r = 0 /\ k = len /\ forall i, 0 <= i < len -> is_Some (utrans (k_mem s) root (dst + i))) \/
     (r = -1 /\ k < len /\ utrans (k_mem s) root (dst + k) = None /\
      forall i, 0 <= i < k -> is_Some (utrans (k_mem s) root (dst + i)))).
Proof.
  intros Hu H0 Hlen Hdis. set (m0 := k_mem s) in *.
  set (good := fun m : mem => (forall va, utrans m root va = utrans m0 root va) /\
    forall x, src <= x < src + len -> rd m x = rd m0 x).
  apply (copyout_loop_spec pages root PageCopy.custom_memcpy (rd m0) good src len); try done; try lia.
  - intros m d s' n va Hum [Hg1 Hg2] Hn Hs1 Hs2 Hlin a.
    assert (fwd_safe d s' n) as Hsafe.
    { unfold fwd_safe. destruct (decide (d <= s')) as [|Hd]; [by left|right].
      destruct (decide (s' + n <= d)) as [|Hd2]; [done|]. exfalso.
      apply (Hdis (va + 0) d); [|lia]. rewrite <- Hg1, Hlin by lia. f_equal. lia. }
    rewrite (custom_memcpy_copied m d s' n) by (done || lia).
    destruct (inr_spec a d n) as [Hin|]; [|done]. apply Hg2. lia.
  - intros m m' Hum [Hg1 Hg2] Hfr. destruct (user_ok_frame _ _ _ _ Hum Hfr) as [_ Ht]. split.
    + intros va. by rewrite Ht, Hg1.
    + intros x Hx. rewrite Hfr; [by apply Hg2|]. intros va Hva. rewrite Hg1 in Hva. by apply (Hdis va x).
Qed.

(** Out of an object of the kernel. *)
Lemma copyout_obj_spec root pages s dst ms src len :
  user_ok (k_mem s) pages root -> 0 <= dst -> 0 <= len ->
  exists r k m', copyout_obj root dst ms src len s = Ok r (set_k_mem m' s) /\
    ustored root (k_mem s) m' dst k (fun i => rd ms (src + i)) /\ 0 <= k /\
    ((r = 0 /\ k = len /\ forall i, 0 <= i < len -> is_Some (utrans (k_mem s) root (dst + i))) \/
     (r = -1 /\ k < len /\ utrans (k_mem s) root (dst + k) = None /\
      forall i, 0 <= i < k -> is_Some (utrans (k_mem s) root (dst + i)))).
Proof.
  intros Hu H0 Hlen.
  apply (copyout_loop_spec pages root (fun m d s n => mcopy (Z.to_nat n) m d ms s) (rd ms) (fun _ => True) src len); try done; try lia.
  intros m d s' n va _ _ Hn _ _ _ a. rewrite rd_mcopy, Z2Nat.id by lia.
  destruct (inr a d n); [|done]. f_equal. 
Qed.

(** ** copyin into an object of the kernel *)

Lemma copyin_obj_loop_spec pages root fuel : forall s md dst src len,
  user_ok (k_mem s) pages root -> 0 <= src -> 0 <= len -> (Z.to_nat len <= fuel)%nat ->
  exists r k md', copyin_obj_loop fuel root md dst src len s = Ok (r, md') s /\ 0 <= k /\
    (forall i a, 0 <= i < k -> utrans (k_mem s) root (src + i) = Some a -> rd md' (dst + i) = rd (k_mem s) a) /\
    (forall x, inr x dst k = false -> rd md' x = rd md x) /\
    (forall i, 0 <= i < k -> is_Some (utrans (k_mem s) root (src + i))) /\
    ((r = 0 /\ k = len) \/ (r = -1 /\ k < len /\ utrans (k_mem s) root (src + k) = None)).
Proof.
  induction fuel as [|fuel IH]; intros s md dst src len Hu H0 Hlen Hf; cbn [copyin_obj_loop].
  - destruct (Z.gtb_spec len 0); [lia|]. exists 0, 0, md. split; [done|]. split_and!; try lia; done.
  - destruct (Z.gtb_spec len 0) as [Hpos|].
    2: { exists 0, 0, md. split; [done|]. split_and!; try lia; done. }
    pose proof (PGROUNDDOWN_spec src) as [P1 P2]. set (va0 := PGROUNDDOWN src) in *.
    assert (src - va0 = src mod PGSIZE) as Eoff by (unfold va0; rewrite PGROUNDDOWN_eq; lia).
    pose proof (mod_pgsize_range src) as Hoff.
    assert (0 <= va0) as Hva0 by (unfold PGSIZE in *; pose proof (Z.div_mod va0 4096); lia).
    rewrite (bind_ok _ _ _ _ _ (walkaddr_spec pages root va0 s (uo_tree _ _ _ Hu) Hva0)).
    rewrite P1, Eoff.
    assert (utrans (k_mem s) root src = (fun a => a + src mod PGSIZE) <$> utrans (k_mem s) root va0) as Hd.
    { rewrite (utrans_page _ _ va0 src), Eoff; [done|lia|lia|].
      apply PGROUNDDOWN_page; [done|]. unfold in_page, PGSIZE in *. lia. }
    destruct (utrans (k_mem s) root va0) as [pa0|] eqn:E0; cbn [fmap option_fmap option_map] in Hd.
    2: { exists (-1), 0, md. split; [done|]. rewrite Z.add_0_r. split_and!; try lia; try done.
         right. split_and!; done || lia. }
    rewrite Z.sub_0_r.
    destruct (Z.eqb_spec pa0 0) as [->|Hpa0].
    { exfalso. unfold utrans in E0. destruct (_ && _); [|done].
      destruct (has (pte_of (k_mem s) root va0) PTE_V), (has (pte_of (k_mem s) root va0) PTE_U); try done.
      destruct (Z.eqb_spec (PTE2PA (pte_of (k_mem s) root va0)) 0); [done|]. simpl in E0. simplify_eq.
      rewrite P1 in E0. lia. }
    set (n := if PGSIZE - src mod PGSIZE >? len then len else PGSIZE - src mod PGSIZE).
    assert (0 < n <= len /\ src mod PGSIZE + n <= PGSIZE /\ (n = len \/ src + n = va0 + PGSIZE)) as (Hn & Hn2 & Hn3).
    { unfold n. destruct (Z.gtb_spec (PGSIZE - src mod PGSIZE) len); lia. }
    rewrite gets_bind. set (md1 := mcopy (Z.to_nat n) md dst (k_mem s) (pa0 + src mod PGSIZE)).
    assert (forall x, rd md1 x = if inr x dst n then rd (k_mem s) (pa0 + src mod PGSIZE + (x - dst)) else rd md x) as Hmd1.
    { intros x. unfold md1. by rewrite rd_mcopy, Z2Nat.id by lia. }
    assert (forall i, 0 <= i < n -> utrans (k_mem s) root (src + i) = Some (pa0 + src mod PGSIZE + i)) as Hlin.
    { intros i Hi. rewrite (utrans_page _ _ src (src + i)); [rewrite Hd; simpl; f_equal; lia|lia|lia|].
      fold va0. symmetry. apply PGROUNDDOWN_page; [done|]. unfold in_page. lia. }
    destruct (decide (n = len)) as [E|E].
    + rewrite E in *. rewrite Z.sub_diag.
      assert (forall d x, copyin_obj_loop fuel root md1 d x 0 = mret (0, md1)) as Hz by by destruct fuel.
      rewrite Hz. exists 0, len, md1. split; [done|]. split; [lia|]. split_and!.
      * intros i a Hi Ha. rewrite Hlin in Ha by done. simplify_eq. rewrite Hmd1, inr_true by lia. f_equal. lia.
      * intros x Hx. rewrite Hmd1. by rewrite Hx.
      * intros i Hi. rewrite Hlin by done. by eexists.
      * by left.
    + assert (src + n = va0 + PGSIZE) as En by (destruct Hn3; lia). rewrite <- En.
      destruct (IH s md1 (dst + n) (src + n) (len - n)) as (r & k & md' & Hrun & Hk & H1 & H2 & H3 & Hr);
        [done|lia|lia|lia|].
      exists r, (n + k), md'. split; [exact Hrun|]. split; [lia|]. split_and!.
      * intros i a Hi Ha. destruct (decide (i < n)) as [Hlt|Hge].
        -- rewrite H2 by (apply inr_false; lia). rewrite Hlin in Ha by lia. simplify_eq.
           rewrite Hmd1, inr_true by lia. f_equal. lia.
        -- replace (dst + i) with (dst + n + (i - n)) by lia. apply H1; [lia|].
           rewrite <- Ha. f_equal. lia.
      * intros x Hx. rewrite H2, Hmd1; [|destruct (inr_spec x (dst + n) k); [|done];
          rewrite inr_true in Hx by lia; done].
        rewrite inr_false; [done|]. destruct (inr_spec x dst (n + k)); [done|]. lia.
      * intros i Hi. destruct (decide (i < n)); [rewrite Hlin by lia; by eexists|].
        replace (src + i) with (src + n + (i - n)) by lia. apply H3. lia.
      * destruct Hr as [[-> ->]|(-> & Hkl & Hn')]; [left; lia|right].
        split; [done|]. split; [lia|]. by rewrite Z.add_assoc.
Qed.
