(* ===== verification/VmProps.v ===== *)
(** What the allocator, the page tables and the user copies guarantee. *)

From S2P Require Import Prelude Mem Sleeplock Strings Kalloc Vm VmSpec CopySpec.

(** ** The allocator *)

(** [kalloc] and [kfree] on a free list of pages [l].  [kalloc] returns
    [0] and changes nothing when the list is empty; otherwise it returns the
    first page, which is aligned, lies between the kernel and [PHYSTOP] and
    is no longer on the list, and it touches no byte outside that page.
    [kfree] of that page puts it back in front and again touches nothing
    else. *)
Theorem kalloc_kfree_correct kend s l :
  kinv kend s l ->
  match l with
  | [] => kalloc s = Ok 0 s
  | p :: l' =>
      exists s1, kalloc s = Ok p s1 /\ kinv kend s1 l' /\ page_ok kend p /\ (p ∉ l') /\
        same_outside [p] (k_mem s) (k_mem s1) /\
        exists s2, kfree kend p s1 = Ok tt s2 /\ kinv kend s2 l /\
          same_outside [p] (k_mem s1) (k_mem s2)
  end.
Proof.
  intros H. destruct l as [|p l']; [by apply (kalloc_none kend)|].
  destruct (kalloc_some kend s p l' H) as (s1 & Hrun & H1 & Hp & Hn & Hrd).
  exists s1. split; [exact Hrun|]. split; [done|]. split; [done|]. split; [done|]. split.
  - intros a Ha. rewrite Hrd. destruct (inr_spec a p PGSIZE) as [Hin|]; [|done].
    exfalso. by apply (Ha p); [left|].
  - apply (kfree_spec kend s1 l' p); done.
Qed.

(** ** Page tables *)

Lemma uvmcreate_spec kend s root free :
  0 <= kend -> kinv kend s (root :: free) ->
  exists s', uvmcreate s = Ok root s' /\ vm_inv kend s' {[root := (2%nat, 0)]} root free /\
    forall va, pte_of (k_mem s') root va = 0.
Proof.
  intros Hk H. destruct (kalloc_some kend s root free H) as (s1 & Hrun & H1 & Hp & Hn & Hrd).
  destruct (page_ok_pa kend root Hk Hp) as [Hpa H0].
  set (m2 := KString.memset (k_mem s1) root 0 PGSIZE). set (s2 := set_k_mem m2 s1).
  assert (forall a, rd m2 a = if inr a root PGSIZE then 0 else rd (k_mem s1) a) as Hrd2
    by (intros a; unfold m2; by rewrite rd_memset).
  assert (forall i, 0 <= i < 512 -> ent m2 root i = 0) as Hz.
  { intros i Hi. unfold ent, ld64. apply ldn_zero. intros a Ha. rewrite Hrd2, inr_true; [done|].
    unfold PGSIZE. lia. }
  exists s2. split; [|split].
  - unfold uvmcreate. rewrite (bind_ok _ _ _ _ _ Hrun). destruct (Z.eqb_spec root 0); [lia|]. done.
  - split.
    + destruct H1 as [K1 K2 K3 K4]. split; [exact K1| |exact K3|exact K4].
      change (k_mem s2) with m2. change (k_freelist s2) with (k_freelist s1).
      eapply flist_ext; [|exact K2]. intros p a Hpf Ha. rewrite Hrd2.
      rewrite Forall_forall in K3. destruct (inr_spec a root PGSIZE) as [Hin|]; [|done].
      destruct Hn. rewrite (page_disjoint root p a); [done|apply Hp|by apply K3|done|done].
    + change (k_mem s2) with m2. split.
      * by rewrite lookup_singleton_eq.
      * intros p x [<- <-]%lookup_singleton_Some. simpl. split; [done|]. lia.
      * intros p p' x [<- _]%lookup_singleton_Some [<- _]%lookup_singleton_Some. done.
      * intros p l q i [<- _]%lookup_singleton_Some Hi. rewrite Hz by done. done.
      * intros x l q [_ [= <- _]]%lookup_singleton_Some. lia.
    + intros p Hpf. apply lookup_singleton_ne. intros ->. done.
    + intros p x [<- _]%lookup_singleton_Some. done.
  - intros va. change (k_mem s2) with m2. unfold pte_of, leaf_table, next_table.
    by rewrite Hz by apply PX_range.
Qed.

(** The pages that [mappages] maps. *)
Definition map_count (va size : Z) : Z :=
  (PGROUNDDOWN (va + size - 1) - PGROUNDDOWN va) / PGSIZE + 1.

Lemma map_count_spec va size :
  0 <= va -> 0 < size -> 0 <= map_count va size - 1 /\
  PGROUNDDOWN (va + size - 1) = PGROUNDDOWN va + (map_count va size - 1) * PGSIZE /\
  va + size <= PGROUNDDOWN va + map_count va size * PGSIZE < va + size + PGSIZE.
Proof.
  intros H0 Hs. unfold map_count.
  pose proof (PGROUNDDOWN_spec va) as [A1 A2]. pose proof (PGROUNDDOWN_spec (va + size - 1)) as [B1 B2].
  set (a := PGROUNDDOWN va) in *. set (b := PGROUNDDOWN (va + size - 1)) in *. unfold PGSIZE in *.
  pose proof (Z.div_mod a 4096). pose proof (Z.div_mod b 4096).
  assert ((b - a) / 4096 = b / 4096 - a / 4096) as ->.
  { symmetry. apply (Z.div_unique _ _ _ 0); lia. }
  lia.
Qed.

(** The specification of [mappages] that its callers use. *)
Lemma mappages_spec kend s pages root free va size pa perm :
  0 <= kend -> vm_inv kend s pages root free ->
  0 <= va -> 0 < size -> PGROUNDDOWN va + map_count va size * PGSIZE <= MAXVA ->
  pa mod PGSIZE = 0 -> 0 <= pa -> pa + map_count va size * PGSIZE <= 2 ^ 56 -> 0 <= perm < 1024 ->
  (forall x, inr x (PGROUNDDOWN va) (map_count va size * PGSIZE) = true ->
     has (pte_of (k_mem s) root x) PTE_V = false) ->
  exists r s' pages' free' k,
    mappages root va size pa perm s = Ok r s' /\
    vm_inv kend s' pages' root free' /\ vm_grow s s' pages pages' free free' /\
    (forall x, 0 <= x < MAXVA -> pte_of (k_mem s') root x =
       if inr x (PGROUNDDOWN va) (k * PGSIZE)
       then mk_pte (pa + (PGROUNDDOWN x - PGROUNDDOWN va)) perm
       else pte_of (k_mem s) root x) /\
    (r = 0 /\ k = map_count va size \/
     r = -1 /\ 0 <= k < map_count va size /\ free' = [] /\
     Z.of_nat (length free) < 2 * map_count va size).
Proof.
  intros Hk Hinv H0 Hs Hend Hpal Hpa Hpend Hperm Hfree.
  destruct (map_count_spec va size H0 Hs) as (Hc & Hlast & Hsz).
  pose proof (PGROUNDDOWN_spec va) as [A1 A2]. assert (MAXVA = 274877906944) as HM by done.
  assert (0 <= PGROUNDDOWN va) as Ha0 by (unfold PGSIZE in *; pose proof (Z.div_mod (PGROUNDDOWN va) 4096); lia).
  unfold mappages. destruct (Z.eqb_spec size 0) as [|_]; [lia|]. rewrite u64_small by lia.
  set (n := Z.to_nat (map_count va size - 1)).
  assert (map_count va size = Z.of_nat n + 1) as En by lia. rewrite En in *.
  rewrite Hlast. replace (Z.of_nat n + 1 - 1) with (Z.of_nat n) by lia.
  destruct (mappages_loop_spec kend Hk root perm Hperm n
    (map_fuel (PGROUNDDOWN va) (PGROUNDDOWN va + Z.of_nat n * PGSIZE)) s pages free (PGROUNDDOWN va) pa)
    as (r & s' & pages' & free' & k & Hrun & Hinv' & Hgrow & Hpost & Hr); try done.
  { unfold map_fuel. rewrite (proj2 (Z.leb_le _ _)) by (unfold PGSIZE; lia).
    replace (PGROUNDDOWN va + Z.of_nat n * PGSIZE - PGROUNDDOWN va) with (Z.of_nat n * PGSIZE) by lia.
    rewrite Z.div_mul by done. lia. }
  exists r, s', pages', free', k. split; [exact Hrun|]. split; [done|]. split; [done|].
  split; [exact Hpost|]. destruct Hr as [[-> ->]|(-> & Hk' & -> & Hl)]; [left|right]; split_and!; (done || lia).
Qed.

(** C19: [mappages] of an unmapped range, on a page table described by
    [pages].  It returns.  On success each virtual page of the range, rounded
    out to whole pages, is mapped to its physical page with the permissions
    asked for; on failure it has run out of free pages, of which there were
    fewer than two for each page to map, and has mapped a prefix of the range.  In both cases every other virtual page maps as
    before, the page table is still a tree, page-table pages come from the
    free list, and no memory outside page tables has changed. *)
Theorem mappages_correct kend s pages root free va size pa perm :
  0 <= kend -> vm_inv kend s pages root free ->
  0 <= va -> 0 < size -> PGROUNDDOWN va + map_count va size * PGSIZE <= MAXVA ->
  pa mod PGSIZE = 0 -> 0 <= pa -> pa + map_count va size * PGSIZE <= 2 ^ 56 -> 0 <= perm < 1024 ->
  (forall x, inr x (PGROUNDDOWN va) (map_count va size * PGSIZE) = true ->
     has (pte_of (k_mem s) root x) PTE_V = false) ->
  exists r s' pages' free' k,
    mappages root va size pa perm s = Ok r s' /\
    vm_inv kend s' pages' root free' /\ vm_grow s s' pages pages' free free' /\
    (forall x, 0 <= x < MAXVA -> pte_of (k_mem s') root x =
       if inr x (PGROUNDDOWN va) (k * PGSIZE)
       then mk_pte (pa + (PGROUNDDOWN x - PGROUNDDOWN va)) perm
       else pte_of (k_mem s) root x) /\
    (r = 0 /\ k = map_count va size \/
     r = -1 /\ 0 <= k < map_count va size /\ free' = [] /\
     Z.of_nat (length free) < 2 * map_count va size).
Proof. apply mappages_spec. Qed.

(** ** Copies between the kernel and its user *)

Lemma has_U_user v : has (Z.lor (Z.lor v (Z.lor PTE_R PTE_U)) PTE_V) PTE_U = true.
Proof.
  unfold has. apply negb_true_iff, Z.eqb_neq. intros E.
  assert (Z.testbit (Z.land (Z.lor (Z.lor v (Z.lor PTE_R PTE_U)) PTE_V) PTE_U) 4 = true) as H
    by (rewrite Z.land_spec, !Z.lor_spec; simpl; rewrite !orb_true_r; done).
  by rewrite E in H.
Qed.

(** C20: [copyout] from kernel memory that no user page covers, into the
    address space of [root].  It returns.  If every page of the destination
    range is mapped for the user it returns 0, and the user then sees the
    [len] bytes at [dst]; if not, it returns -1 and stops at the first
    address that is not mapped.  No physical byte outside the copied range
    changes, and the address space is the same. *)
Theorem copyout_correct root pages s dst src len :
  user_ok (k_mem s) pages root -> 0 <= dst -> 0 <= len ->
  (forall va a, utrans (k_mem s) root va = Some a -> ~ (src <= a < src + len)) ->
  exists r k m', copyout root dst src len s = Ok r (set_k_mem m' s) /\
    (forall i a, 0 <= i < k -> utrans (k_mem s) root (dst + i) = Some a ->
       rd m' a = rd (k_mem s) (src + i)) /\
    (forall a, (forall i, 0 <= i < k -> utrans (k_mem s) root (dst + i) <> Some a) ->
       rd m' a = rd (k_mem s) a) /\
    user_ok m' pages root /\ (forall va, utrans m' root va = utrans (k_mem s) root va) /\
    ((r = 0 /\ k = len /\ forall i, 0 <= i < len -> is_Some (utrans (k_mem s) root (dst + i))) \/
     (r = -1 /\ 0 <= k < len /\ utrans (k_mem s) root (dst + k) = None)).
Proof.
  intros Hu H0 Hlen Hdis.
  destruct (copyout_phys root pages s dst src len Hu H0 Hlen Hdis) as (r & k & m' & Hrun & Hst & Hk & Hr).
  destruct (ustored_frame _ _ _ _ _ _ _ Hu Hst) as [Hu' Ht].
  exists r, k, m'. split; [exact Hrun|]. destruct Hst as [S1 S2].
  split; [exact S1|]. split; [exact S2|]. split; [done|]. split; [done|].
  destruct Hr as [?|(-> & Hkl & Hn & _)]; [by left|right]. split_and!; (done || lia).
Qed.

(** A round trip through user memory: what [copyout] stored with result
    0, [copyin] reads back with result 0, byte for byte, and reading does
    not change memory. *)
Theorem copyout_copyin_roundtrip root pages s dst ms src len s' :
  user_ok (k_mem s) pages root -> 0 <= dst -> 0 <= len ->
  copyout_obj root dst ms src len s = Ok 0 s' ->
  exists md, copyin_obj root ∅ 0 dst len s' = Ok (0, md) s' /\
    forall i, 0 <= i < len -> rd md i = rd ms (src + i).
Proof.
  intros Hu H0 Hlen Hrun.
  destruct (copyout_obj_spec root pages s dst ms src len Hu H0 Hlen) as (r & k & m' & Hrun' & Hst & Hk & Hr).
  rewrite Hrun in Hrun'. injection Hrun' as <- Es'.
  destruct Hr as [(_ & -> & Hmap)|(? & _)]; [|lia].
  destruct (ustored_frame _ _ _ _ _ _ _ Hu Hst) as [Hu' Ht].
  destruct (copyin_obj_loop_spec pages root (Z.to_nat len) s' ∅ 0 dst len) as
    (r2 & k2 & md & Hrun2 & Hk2 & H1 & _ & _ & Hr2); [by subst s'|lia|lia|lia|].
  assert (forall va, utrans (k_mem s') root va = utrans (k_mem s) root va) as Ht' by by subst s'.
  destruct Hr2 as [[-> ->]|(-> & Hlt & Hnone)].
  - exists md. split; [exact Hrun2|]. intros i Hi. destruct (Hmap i Hi) as [a Ha].
    rewrite <- (Z.add_0_l i) at 1. rewrite (H1 i a Hi) by by rewrite Ht'.
    subst s'. simpl. by apply Hst.
  - exfalso. rewrite Ht' in Hnone. destruct (Hmap k2) as [a Ha]; [lia|]. congruence.
Qed.

(** [copyout] does not look at [PTE_W]: through a page that the user may
    only read, it stores and reports success. *)
Theorem copyout_ignores_write_permission root pages s dst ms src len :
  user_ok (k_mem s) pages root -> 0 <= dst -> 0 <= len ->
  (forall i, 0 <= i < len -> exists pa, pa_ok pa /\ pa <> 0 /\
     dst + i < MAXVA /\ pte_of (k_mem s) root (dst + i) = mk_pte pa (Z.lor PTE_R PTE_U)) ->
  exists s', copyout_obj root dst ms src len s = Ok 0 s' /\
    forall i, 0 <= i < len -> exists a, utrans (k_mem s') root (dst + i) = Some a /\
      rd (k_mem s') a = rd ms (src + i).
Proof.
  intros Hu H0 Hlen Hro.
  assert (forall i, 0 <= i < len -> is_Some (utrans (k_mem s) root (dst + i))) as Hmap.
  { intros i Hi. destruct (Hro i Hi) as (pa & Hpa & Hne & Hmax & Hpte). unfold utrans.
    rewrite (proj2 (Z.leb_le 0 _)), (proj2 (Z.ltb_lt _ _)) by lia. cbn [andb]. rewrite Hpte.
    unfold mk_pte. rewrite has_V_lor, PTE2PA_mk by done.
    rewrite has_U_user.
    destruct (Z.eqb_spec pa 0); [done|]. by eexists. }
  destruct (copyout_obj_spec root pages s dst ms src len Hu H0 Hlen) as (r & k & m' & Hrun & Hst & Hk & Hr).
  destruct Hr as [(-> & -> & _)|(_ & Hlt & Hnone & _)].
  - exists (set_k_mem m' s). split; [exact Hrun|]. intros i Hi. destruct (Hmap i Hi) as [a Ha].
    exists a. destruct (ustored_frame _ _ _ _ _ _ _ Hu Hst) as [_ Ht]. simpl. rewrite Ht.
    split; [done|]. by apply Hst.
  - exfalso. destruct (Hmap k) as [a Ha]; [lia|]. congruence.
Qed.

(** ** Witnesses: eight free pages, and one user page that is read-only *)

Definition kend8 : Z := PHYSTOP - 8 * PGSIZE.

Lemma example_free : exists s, kinv kend8 s (range_pages kend8 8).
Proof.
  destruct (kinit_spec kend8 ∅ false) as (s & _ & H); [done|].
  exists s. exact H.
Qed.

(** The page [a] of the user is the only one that is mapped. *)
Lemma user_ok_one m pages root a pa perm :
  ptree m pages root -> 0 <= a < MAXVA -> pa_ok pa -> 0 <= perm < 1024 -> pages !! pa = None ->
  (forall va, 0 <= va < MAXVA -> pte_of m root va = if decide (vpn va = vpn a) then mk_pte pa perm else 0) ->
  user_ok m pages root.
Proof.
  intros Ht Ha Hpa Hperm Hn Hpte.
  assert (forall va x, utrans m root va = Some x -> vpn va = vpn a /\ x = pa + va mod PGSIZE) as Hu.
  { intros va x Hx. pose proof (utrans_range _ _ _ _ Hx) as Hr. unfold utrans in Hx.
    rewrite (proj2 (Z.leb_le 0 va)), (proj2 (Z.ltb_lt va MAXVA)) in Hx by lia. cbn [andb] in Hx.
    rewrite Hpte in Hx by done. destruct (decide (vpn va = vpn a)) as [E|E].
    - unfold mk_pte in Hx. rewrite PTE2PA_mk in Hx by done. destruct (_ && _ && _); by simplify_eq.
    - done. }
  split; [done| |].
  - intros va x p Hx [y Hp] Hin. apply Hu in Hx as [_ ->].
    destruct (pt_page _ _ _ Ht p y Hp) as ((Hpal & _) & _ & _).
    assert (pa = p) as ->.
    { apply (page_disjoint pa p (pa + va mod PGSIZE)); [apply Hpa|done| |done].
      pose proof (mod_pgsize_range va). unfold in_page. lia. }
    congruence.
  - intros va va' x Hx Hx'. apply Hu in Hx as [E1 ->], Hx' as [E2 E3].
    unfold vpn in *. pose proof (Z.div_mod va PGSIZE ltac:(done)). pose proof (Z.div_mod va' PGSIZE ltac:(done)).
    congruence || lia.
Qed.

Lemma example_space :
  exists s pages root pa, user_ok (k_mem s) pages root /\ pa_ok pa /\ pa <> 0 /\
    (forall i, 0 <= i < PGSIZE -> pte_of (k_mem s) root i = mk_pte pa (Z.lor PTE_R PTE_U)) /\
    forall va a, utrans (k_mem s) root va = Some a -> ~ (0 <= a < PGSIZE).
Proof.
  destruct example_free as [s0 H0].
  assert (range_pages kend8 8 = (kend8 + 7 * PGSIZE) :: (kend8 + 6 * PGSIZE) :: range_pages kend8 6) as E by done.
  rewrite E in H0.
  destruct (uvmcreate_spec kend8 s0 _ _ ltac:(done) H0) as (s1 & _ & Hinv1 & Hz).
  set (root := kend8 + 7 * PGSIZE) in *.
  destruct (kalloc_some kend8 s1 _ _ (vi_k _ _ _ _ _ Hinv1)) as (s2 & _ & Hk2 & Hpg & Hpgn & Hrd).
  set (pg := kend8 + 6 * PGSIZE) in *.
  assert (vm_inv kend8 s2 {[root := (2%nat, 0)]} root (range_pages kend8 6)) as Hinv2.
  { destruct (pte_of_frame (k_mem s1) (k_mem s2) {[root := (2%nat, 0)]} root (vi_t _ _ _ _ _ Hinv1)) as [Ht2 _].
    - intros p a [x [<- _]%lookup_singleton_Some] Ha. rewrite Hrd, inr_false; [done|].
      unfold in_page, root, pg, PGSIZE in *. lia.
    - split; [done|exact Ht2| |apply Hinv1]. intros p Hp. apply (vi_dis _ _ _ _ _ Hinv1). by right. }
  assert (forall va, 0 <= va < MAXVA -> pte_of (k_mem s2) root va = 0) as Hz2.
  { intros va Hva. rewrite <- (Hz va).
    apply (pte_of_frame (k_mem s1) (k_mem s2) {[root := (2%nat, 0)]} root (vi_t _ _ _ _ _ Hinv1)); [|done].
    intros p a [x [<- _]%lookup_singleton_Some] Ha. rewrite Hrd, inr_false; [done|].
    unfold in_page, root, pg, PGSIZE in *. lia. }
  assert (Hpaok : pa_ok pg) by by apply (page_ok_pa kend8).
  destruct (map_step kend8 ltac:(done) root (Z.lor PTE_R PTE_U) ltac:(done) s2 _ _ 0 pg Hinv2 ltac:(done) Hpaok)
    as [(s' & pages' & _ & _ & _ & Hbad & _)|(t & s3 & s' & pages' & free' & _ & _ & _ & _ & Hinv' & Hg & _ & Hmap)].
  { by rewrite Hz2. }
  { simpl in Hbad. lia. }
  assert (forall va, 0 <= va < MAXVA -> pte_of (k_mem s') root va =
    if decide (vpn va = vpn 0) then mk_pte pg (Z.lor PTE_R PTE_U) else 0) as Hmap'.
  { intros va Hva. rewrite Hmap by done. case_decide; [done|by apply Hz2]. }
  assert (pages' !! pg = None) as Hpn.
  { destruct (vg_free _ _ _ _ _ _ Hg) as (new & En & Hnew). apply eq_None_not_Some.
    intros [[x [Hr _]%lookup_singleton_Some]|Hin]%Hnew.
    - unfold root, pg, PGSIZE in Hr. lia.
    - apply Hpgn. rewrite En. apply elem_of_app. by left. }
  pose proof (user_ok_one (k_mem s') pages' root 0 pg (Z.lor PTE_R PTE_U) (vi_t _ _ _ _ _ Hinv')
    ltac:(done) Hpaok ltac:(done) Hpn Hmap') as Hu.
  exists s', pages', root, pg. split; [done|]. split; [done|]. split; [done|]. split.
  - intros i Hi. rewrite Hmap' by (assert (PGSIZE < MAXVA) by done; lia).
    rewrite decide_True; [done|]. unfold vpn. rewrite Z.div_small by done. done.
  - intros va a Ha. pose proof (utrans_range _ _ _ _ Ha) as Hr. unfold utrans in Ha.
    rewrite (proj2 (Z.leb_le 0 va)), (proj2 (Z.ltb_lt va MAXVA)) in Ha by lia. cbn [andb] in Ha.
    rewrite Hmap' in Ha by done. case_decide; [|done]. unfold mk_pte in Ha.
    rewrite PTE2PA_mk in Ha by done. pose proof (mod_pgsize_range va).
    destruct (_ && _ && _); simplify_eq. assert (PGSIZE < pg) by done. lia.
Qed.

Lemma kalloc_kfree_correct_witness :
  exists s s1, kalloc s = Ok (kend8 + 7 * PGSIZE) s1.
Proof.
  destruct example_free as [s H].
  destruct (kalloc_kfree_correct kend8 s _ H) as (s1 & H1 & _). exists s, s1. exact H1.
Defined.

Lemma mappages_correct_witness :
  exists s root r s', mappages root 0 PGSIZE 0x80000000 (Z.lor PTE_R PTE_U) s = Ok r s' /\ r = 0.
Proof.
  destruct example_free as [s0 H0].
  destruct (uvmcreate_spec kend8 s0 _ (range_pages kend8 7) ltac:(done) H0) as (s1 & _ & Hinv1 & Hz).
  destruct (mappages_correct kend8 s1 _ _ _ 0 PGSIZE 0x80000000 (Z.lor PTE_R PTE_U) ltac:(done) Hinv1)
    as (r & s' & pages' & free' & k & Hrun & _ & _ & _ & Hr); try done.
  { intros x _. by rewrite Hz. }
  eexists s1, _, r, s'. split; [exact Hrun|]. destruct Hr as [[-> _]|(_ & _ & _ & Hl)]; [done|].
  vm_compute in Hl. done.
Defined.

Lemma copyout_correct_witness :
  exists s root r k m', copyout root 0 0 8 s = Ok r (set_k_mem m' s) /\ (r = 0 \/ 0 <= k < 8).
Proof.
  destruct example_space as (s & pages & root & pa & Hu & _ & _ & _ & Hdis).
  destruct (copyout_correct root pages s 0 0 8 Hu) as (r & k & m' & Hrun & _ & _ & _ & _ & Hr); [lia|lia| |].
  { intros va a Ha Hin. apply (Hdis va a Ha). unfold PGSIZE. lia. }
  exists s, root, r, k, m'. split; [exact Hrun|]. destruct Hr as [[? _]|(_ & ? & _)]; [by left|by right].
Defined.

Lemma copyout_ignores_write_permission_witness :
  exists s root s', copyout_obj root 0 (wr ∅ 0 65) 0 1 s = Ok 0 s'.
Proof.
  destruct example_space as (s & pages & root & pa & Hu & Hpa & Hne & Hpte & _).
  destruct (copyout_ignores_write_permission root pages s 0 (wr ∅ 0 65) 0 1 Hu) as (s' & Hrun & _); [lia|lia| |].
  { intros i Hi. exists pa. split; [done|]. split; [done|].
    split; [assert (1 < MAXVA) by done; lia|]. apply Hpte. unfold PGSIZE. lia. }
  exists s, root, s'. exact Hrun.
Defined.

Lemma copyout_copyin_roundtrip_witness :
  exists s root s' md, copyout_obj root 0 (wr ∅ 0 65) 0 1 s = Ok 0 s' /\
    copyin_obj root ∅ 0 0 1 s' = Ok (0, md) s' /\ rd md 0 = 65.
Proof.
  destruct example_space as (s & pages & root & pa & Hu & Hpa & Hne & Hpte & _).
  destruct (copyout_obj_spec root pages s 0 (wr ∅ 0 65) 0 1 Hu) as (r & k & m' & Hrun & _ & Hk & Hr); [lia|lia|].
  assert (utrans (k_mem s) root 0 <> None) as Hmap.
  { unfold utrans. rewrite (Hpte 0) by done. unfold mk_pte. rewrite has_V_lor, PTE2PA_mk by done.
    rewrite has_U_user.
    destruct (Z.eqb_spec pa 0); done. }
  destruct Hr as [(-> & -> & _)|(_ & Hlt & Hn & _)]; [|assert (k = 0) by lia; subst k; done].
  destruct (copyout_copyin_roundtrip root pages s 0 (wr ∅ 0 65) 0 1 _ Hu ltac:(lia) ltac:(lia) Hrun) as (md & Hin & Hb).
  eexists s, root, _, md. split; [exact Hrun|]. split; [exact Hin|]. apply (Hb 0). lia.
Defined.
