(* ===== verification/Fs.v ===== *)
(** The file system: src/src/kernel/fs.c and fs.h, with the in-memory inode of
    file.h and the copies to and from a process of proc.c.

    The code is written against the interface of BlockLayer.v.  An inode
    pointer is the index of the inode in [itable].  A kernel address is an
    address of the memory in [f_k]; the local [struct dirent de] of
    [dirlookup] and [dirlink] and the local [name] of [namei] have the
    addresses [de] and [nm]. *)

From S2P Require Import Prelude Mem Sleeplock Strings Kalloc Vm Bio BlockLayer.

Definition ROOTINO : Z := 1.
Definition FSMAGIC : Z := 0x10203040.
Definition NDIRECT : Z := 12.
Definition NINDIRECT : Z := BSIZE / 4.
Definition MAXFILE : Z := NDIRECT + NINDIRECT.
Definition IPB : Z := BSIZE / 64.
Definition BPB : Z := BSIZE * 8.
Definition DIRSIZ : Z := 14.
Definition DESIZE : Z := 16.
Definition NINODE : nat := 50.
Definition T_DIR : Z := 1.
Definition T_FILE : Z := 2.
Definition T_DEVICE : Z := 3.
Definition MAXPATH : nat := 128.

Record superblock := Superblock {
  sb_magic : Z; sb_size : Z; sb_nblocks : Z; sb_ninodes : Z;
  sb_nlog : Z; sb_logstart : Z; sb_inodestart : Z; sb_bmapstart : Z }.

Definition IBLOCK (i : Z) (sb : superblock) : Z := i / IPB + sb_inodestart sb.
Definition BBLOCK (b : Z) (sb : superblock) : Z := b / BPB + sb_bmapstart sb.

(** [struct inode]; [addrs] is indexed from zero. *)
Record inode := Inode {
  i_dev : Z; i_inum : Z; i_ref : Z; i_lock : sleeplock; i_valid : bool;
  i_type : Z; i_major : Z; i_minor : Z; i_nlink : Z; i_size : Z; i_addrs : gmap Z Z }.

(** An array of zeros. *)
Definition no_addrs : gmap Z Z := foldl (fun m k => <[Z.of_nat k := 0]> m) ∅ (seq 0 13).

#[export] Instance inode_inhabited : Inhabited inode :=
  populate (Inode 0 0 0 inhabitant false 0 0 0 0 0 no_addrs).

Definition set_i_ref v i := Inode (i_dev i) (i_inum i) v (i_lock i) (i_valid i) (i_type i) (i_major i) (i_minor i) (i_nlink i) (i_size i) (i_addrs i).
Definition set_i_lock v i := Inode (i_dev i) (i_inum i) (i_ref i) v (i_valid i) (i_type i) (i_major i) (i_minor i) (i_nlink i) (i_size i) (i_addrs i).
Definition set_i_valid v i := Inode (i_dev i) (i_inum i) (i_ref i) (i_lock i) v (i_type i) (i_major i) (i_minor i) (i_nlink i) (i_size i) (i_addrs i).
Definition set_i_type v i := Inode (i_dev i) (i_inum i) (i_ref i) (i_lock i) (i_valid i) v (i_major i) (i_minor i) (i_nlink i) (i_size i) (i_addrs i).
Definition set_i_devno mj mn i := Inode (i_dev i) (i_inum i) (i_ref i) (i_lock i) (i_valid i) (i_type i) mj mn (i_nlink i) (i_size i) (i_addrs i).
Definition set_i_nlink v i := Inode (i_dev i) (i_inum i) (i_ref i) (i_lock i) (i_valid i) (i_type i) (i_major i) (i_minor i) v (i_size i) (i_addrs i).
Definition set_i_size v i := Inode (i_dev i) (i_inum i) (i_ref i) (i_lock i) (i_valid i) (i_type i) (i_major i) (i_minor i) (i_nlink i) v (i_addrs i).
Definition set_i_addr k v i := Inode (i_dev i) (i_inum i) (i_ref i) (i_lock i) (i_valid i) (i_type i) (i_major i) (i_minor i) (i_nlink i) (i_size i) (<[k := v]> (i_addrs i)).
Definition set_i_disk ty mj mn nl sz ad i := Inode (i_dev i) (i_inum i) (i_ref i) (i_lock i) (i_valid i) ty mj mn nl sz ad.
Definition recycle_inode dev inum i := Inode dev inum 1 (i_lock i) false (i_type i) (i_major i) (i_minor i) (i_nlink i) (i_size i) (i_addrs i).

(** [f_l] is the block layer, [f_k] memory, [f_pt], [f_cwd] and [f_pid] are
    fields of [myproc()], [f_out] what the kernel printed. *)
Record fst (L : Type) := Fst {
  f_l : L; f_k : kst; f_sb : superblock; f_it_lock : bool; f_inode : gmap nat inode;
  f_pt : Z; f_cwd : nat; f_pid : Z; f_out : list string; f_woken : list chan }.
Arguments Fst {L}. Arguments f_l {L}. Arguments f_k {L}. Arguments f_sb {L}. Arguments f_it_lock {L}.
Arguments f_inode {L}. Arguments f_pt {L}. Arguments f_cwd {L}. Arguments f_pid {L}. Arguments f_out {L}. Arguments f_woken {L}.

Section state.
Context {L : Type}.

Definition set_f_l (l : L) (s : fst L) := Fst l (f_k s) (f_sb s) (f_it_lock s) (f_inode s) (f_pt s) (f_cwd s) (f_pid s) (f_out s) (f_woken s).
Definition set_f_k k (s : fst L) := Fst (f_l s) k (f_sb s) (f_it_lock s) (f_inode s) (f_pt s) (f_cwd s) (f_pid s) (f_out s) (f_woken s).
Definition set_f_sb b (s : fst L) := Fst (f_l s) (f_k s) b (f_it_lock s) (f_inode s) (f_pt s) (f_cwd s) (f_pid s) (f_out s) (f_woken s).
Definition set_f_it_lock v (s : fst L) := Fst (f_l s) (f_k s) (f_sb s) v (f_inode s) (f_pt s) (f_cwd s) (f_pid s) (f_out s) (f_woken s).
Definition set_f_inode v (s : fst L) := Fst (f_l s) (f_k s) (f_sb s) (f_it_lock s) v (f_pt s) (f_cwd s) (f_pid s) (f_out s) (f_woken s).
Definition set_f_out v (s : fst L) := Fst (f_l s) (f_k s) (f_sb s) (f_it_lock s) (f_inode s) (f_pt s) (f_cwd s) (f_pid s) v (f_woken s).
Definition set_f_woken v (s : fst L) := Fst (f_l s) (f_k s) (f_sb s) (f_it_lock s) (f_inode s) (f_pt s) (f_cwd s) (f_pid s) (f_out s) v.

Definition geti (i : nat) (s : fst L) : inode := f_inode s !!! i.
Definition updi (i : nat) (f : inode -> inode) (s : fst L) : fst L :=
  set_f_inode (<[i := f (geti i s)]> (f_inode s)) s.

#[export] Instance fs_wakeup : Wakeup (fst L) := fun ch =>
  modify (fun s => set_f_woken (ch :: f_woken s) s).
End state.

Section fs.
Context {L : Type} `{BlockLayer L}.
Abbreviation F := (M (fst L)).

Definition lop {A} (m : M L A) : F A := zoom f_l set_f_l m.
Definition kop {A} (m : M kst A) : F A := zoom f_k set_f_k m.
Definition printf (msg : string) : F unit := modify (fun s => set_f_out (f_out s ++ [msg]) s).
Definition it_acquire : F unit := acquire f_it_lock set_f_it_lock.
Definition it_release : F unit := release f_it_lock set_f_it_lock.
Definition getsb : F superblock := gets f_sb.

Definition ilock_get (i : nat) (s : fst L) : sleeplock := i_lock (geti i s).
Definition ilock_set (i : nat) (l : sleeplock) (s : fst L) : fst L := updi i (set_i_lock l) s.
Definition ichan (i : nat) : chan := Chan "inode.lock" (Z.of_nat i).

(** ** Copies to and from memory: [either_copyout] and [either_copyin] of
    proc.c, with the block at the kernel's end. *)

Definition either_copyout (user_dst : bool) (dst : Z) (src : block) (off len : Z) : F Z :=
  if user_dst then
    pt ← gets f_pt;
    kop (copyout_obj pt dst src off len)
  else
    kop (modify (fun k => set_k_mem (mcopy (Z.to_nat len) (k_mem k) dst src off) k));;
    mret 0.

Definition either_copyin (dst : block) (off : Z) (user_src : bool) (src len : Z) : F (Z * block) :=
  if user_src then
    pt ← gets f_pt;
    kop (copyin_obj pt dst off src len)
  else
    m ← kop (gets k_mem);
    mret (0, mcopy (Z.to_nat len) dst off m src).

(** ** Super block *)

Definition readsb (dev : Z) : F unit :=
  bp ← lop (op_bread dev 1);
  d ← lop (op_data bp);
  modify (set_f_sb (Superblock (ld32 d 0) (ld32 d 4) (ld32 d 8) (ld32 d 12)
                               (ld32 d 16) (ld32 d 20) (ld32 d 24) (ld32 d 28)));;
  lop (op_brelse bp).

Definition fsinit (dev : Z) : F unit :=
  readsb dev;;
  sb ← getsb;
  if negb (sb_magic sb =? FSMAGIC) then panic "invalid file system"
  else lop (op_initlog dev (sb_logstart sb) (sb_nlog sb)).

(** ** Blocks *)

Definition bzero (dev bno : Z) : F unit :=
  bp ← lop (op_bread dev bno);
  lop (op_set bp ∅);;
  lop (op_log_write bp);;
  lop (op_brelse bp).

(** The bit of block [bi] in a bitmap block, as a mask of its byte. *)
Definition bitmask (bi : Z) : Z := Z.shiftl 1 (bi mod 8).

Definition balloc (dev : Z) : F Z :=
  sb ← getsb;
  r ← for_loop (Z.to_nat ((sb_size sb + BPB - 1) / BPB)) 0 (fun k =>
    let b := k * BPB in
    bp ← lop (op_bread dev (BBLOCK b sb));
    r ← for_loop (Z.to_nat (Z.min BPB (sb_size sb - b))) 0 (fun bi =>
      let m := bitmask bi in
      d ← lop (op_data bp);
      if Z.land (rd d (bi / 8)) m =? 0 then
        lop (op_set bp (wr d (bi / 8) (Z.lor (rd d (bi / 8)) m)));;
        lop (op_log_write bp);;
        lop (op_brelse bp);;
        bzero dev (b + bi);;
        mret (Some (b + bi))
      else mret None);
    match r with
    | Some x => mret (Some x)
    | None => lop (op_brelse bp);; mret None
    end);
  match r with
  | Some x => mret x
  | None => printf "balloc: out of blocks";; mret 0
  end.

Definition bfree (dev b : Z) : F unit :=
  sb ← getsb;
  bp ← lop (op_bread dev (BBLOCK b sb));
  let bi := b mod BPB in
  let m := bitmask bi in
  d ← lop (op_data bp);
  if Z.land (rd d (bi / 8)) m =? 0 then panic "freeing free block"
  else
    lop (op_set bp (wr d (bi / 8) (Z.land (rd d (bi / 8)) (Z.lnot m))));;
    lop (op_log_write bp);;
    lop (op_brelse bp).

(** ** Inodes *)

Definition iinit : F unit :=
  modify (set_f_it_lock false);;
  for_loop NINODE 0 (fun i =>
    zoom (ilock_get (Z.to_nat i)) (ilock_set (Z.to_nat i)) initsleeplock;;
    mret (None (A := unit)));;
  mret tt.

(** The scan of [iget]: the entry of the inode, or the first empty one. *)
Fixpoint iget_scan (n : nat) (i : nat) (empty : option nat) (dev inum : Z) : F (option nat * option nat) :=
  match n with
  | O => mret (None, empty)
  | S n' =>
      ip ← gets (geti i);
      if (i_ref ip >? 0) && (i_dev ip =? dev) && (i_inum ip =? inum) then mret (Some i, empty)
      else
        let empty' := match empty with
                      | None => if i_ref ip =? 0 then Some i else None
                      | Some _ => empty
                      end in
        iget_scan n' (S i) empty' dev inum
  end.

Definition iget (dev inum : Z) : F nat :=
  it_acquire;;
  r ← iget_scan NINODE 0 None dev inum;
  match r with
  | (Some i, _) =>
      modify (updi i (fun ip => set_i_ref (i_ref ip + 1) ip));;
      it_release;;
      mret i
  | (None, None) => panic "iget: no inodes"
  | (None, Some i) =>
      modify (updi i (recycle_inode dev inum));;
      it_release;;
      mret i
  end.

Definition idup (i : nat) : F nat :=
  it_acquire;;
  modify (updi i (fun ip => set_i_ref (i_ref ip + 1) ip));;
  it_release;;
  mret i.

(** Offset of inode [inum] in its block; the fields of [struct dinode]. *)
Definition dino (inum : Z) : Z := inum mod IPB * 64.

Definition ialloc (dev type : Z) : F (option nat) :=
  sb ← getsb;
  r ← for_loop (Z.to_nat (sb_ninodes sb - 1)) 1 (fun inum =>
    bp ← lop (op_bread dev (IBLOCK inum sb));
    d ← lop (op_data bp);
    let dip := dino inum in
    if i16 (ld16 d dip) =? 0 then
      lop (op_set bp (st16 (mfill 64 d dip 0) dip type));;
      lop (op_log_write bp);;
      lop (op_brelse bp);;
      i ← iget dev inum;
      mret (Some i)
    else
      lop (op_brelse bp);;
      mret None);
  match r with
  | Some i => mret (Some i)
  | None => printf "ialloc: no inodes";; mret None
  end.

(** [memmove] of the thirteen words of [addrs] to and from a block. *)
Definition store_addrs (d : block) (a : Z) (addrs : gmap Z Z) : block :=
  foldl (fun d k => st32 d (a + 4 * Z.of_nat k) (addrs !!! Z.of_nat k)) d (seq 0 13).
Definition load_addrs (d : block) (a : Z) : gmap Z Z :=
  foldl (fun m k => <[Z.of_nat k := ld32 d (a + 4 * Z.of_nat k)]> m) ∅ (seq 0 13).

Definition put_dinode (d : block) (dip : Z) (ip : inode) : block :=
  let d := st16 d dip (i_type ip) in
  let d := st16 d (dip + 2) (i_major ip) in
  let d := st16 d (dip + 4) (i_minor ip) in
  let d := st16 d (dip + 6) (i_nlink ip) in
  let d := st32 d (dip + 8) (i_size ip) in
  store_addrs d (dip + 12) (i_addrs ip).

Definition get_dinode (d : block) (dip : Z) (ip : inode) : inode :=
  set_i_disk (i16 (ld16 d dip)) (i16 (ld16 d (dip + 2))) (i16 (ld16 d (dip + 4)))
             (i16 (ld16 d (dip + 6))) (ld32 d (dip + 8)) (load_addrs d (dip + 12)) ip.

Definition iupdate (i : nat) : F unit :=
  ip ← gets (geti i);
  sb ← getsb;
  bp ← lop (op_bread (i_dev ip) (IBLOCK (i_inum ip) sb));
  d ← lop (op_data bp);
  lop (op_set bp (put_dinode d (dino (i_inum ip)) ip));;
  lop (op_log_write bp);;
  lop (op_brelse bp).

Definition ilock_acquire (i : nat) : F unit :=
  pid ← gets f_pid;
  zoom (ilock_get i) (ilock_set i) (acquiresleep pid (ichan i)).

(** An inode pointer is an index here, so that [ip == 0] cannot arise. *)
Definition ilock (i : nat) : F unit :=
  ip ← gets (geti i);
  if i_ref ip <? 1 then panic "ilock"
  else
    ilock_acquire i;;
    ip ← gets (geti i);
    when (negb (i_valid ip))
      (sb ← getsb;
       bp ← lop (op_bread (i_dev ip) (IBLOCK (i_inum ip) sb));
       d ← lop (op_data bp);
       modify (updi i (get_dinode d (dino (i_inum ip))));;
       lop (op_brelse bp);;
       modify (updi i (set_i_valid true));;
       ip ← gets (geti i);
       when (i_type ip =? 0) (panic "ilock: no type")).

Definition iunlock (i : nat) : F unit :=
  pid ← gets f_pid;
  held ← zoom (ilock_get i) (ilock_set i) (holdingsleep pid);
  ip ← gets (geti i);
  if negb held || (i_ref ip <? 1) then panic "iunlock"
  else releasesleep (ilock_get i) (ilock_set i) (ichan i).

(** ** Inode content *)

Definition bmap (i : nat) (bn : Z) : F Z :=
  ip ← gets (geti i);
  if bn <? NDIRECT then
    let addr := i_addrs ip !!! bn in
    if addr =? 0 then
      addr ← balloc (i_dev ip);
      if addr =? 0 then mret 0
      else modify (updi i (set_i_addr bn addr));; mret addr
    else mret addr
  else
    let bn := bn - NDIRECT in
    if bn <? NINDIRECT then
      let addr := i_addrs ip !!! NDIRECT in
      addr ←
        (if addr =? 0 then
           addr ← balloc (i_dev ip);
           when (negb (addr =? 0)) (modify (updi i (set_i_addr NDIRECT addr)));;
           mret addr
         else mret addr);
      if addr =? 0 then mret 0
      else
        bp ← lop (op_bread (i_dev ip) addr);
        a ← lop (op_data bp);
        let addr := ld32 a (4 * bn) in
        addr ←
          (if addr =? 0 then
             addr ← balloc (i_dev ip);
             when (negb (addr =? 0))
               (a ← lop (op_data bp);
                lop (op_set bp (st32 a (4 * bn) addr));;
                lop (op_log_write bp));;
             mret addr
           else mret addr);
        lop (op_brelse bp);;
        mret addr
    else panic "bmap: out of range".

Definition itrunc (i : nat) : F unit :=
  for_loop (Z.to_nat NDIRECT) 0 (fun k =>
    ip ← gets (geti i);
    let addr := i_addrs ip !!! k in
    when (negb (addr =? 0))
      (bfree (i_dev ip) addr;;
       modify (updi i (set_i_addr k 0)));;
    mret (None (A := unit)));;
  ip ← gets (geti i);
  when (negb (i_addrs ip !!! NDIRECT =? 0))
    (bp ← lop (op_bread (i_dev ip) (i_addrs ip !!! NDIRECT));
     for_loop (Z.to_nat NINDIRECT) 0 (fun j =>
       a ← lop (op_data bp);
       let addr := ld32 a (4 * j) in
       when (negb (addr =? 0)) (bfree (i_dev ip) addr);;
       mret (None (A := unit)));;
     lop (op_brelse bp);;
     bfree (i_dev ip) (i_addrs ip !!! NDIRECT);;
     modify (updi i (set_i_addr NDIRECT 0)));;
  modify (updi i (set_i_size 0));;
  iupdate i.

Definition iput (i : nat) : F unit :=
  it_acquire;;
  ip ← gets (geti i);
  when ((i_ref ip =? 1) && i_valid ip && (i_nlink ip =? 0))
    (ilock_acquire i;;
     it_release;;
     itrunc i;;
     modify (updi i (set_i_type 0));;
     iupdate i;;
     modify (updi i (set_i_valid false));;
     releasesleep (ilock_get i) (ilock_set i) (ichan i);;
     it_acquire);;
  modify (updi i (fun ip => set_i_ref (i_ref ip - 1) ip));;
  it_release.

Definition iunlockput (i : nat) : F unit := iunlock i;; iput i.

(** [struct stat] as [dev], [ino], [type], [nlink], [size]. *)
Definition stati (i : nat) : F (Z * Z * Z * Z * Z) :=
  ip ← gets (geti i);
  mret (i_dev ip, i_inum ip, i_type ip, i_nlink ip, i_size ip).

(** A round copies at least one byte, so [n] rounds are enough. *)
Fixpoint readi_loop (fuel : nat) (i : nat) (user_dst : bool) (dst off n tot : Z) : F Z :=
  match fuel with
  | O => if tot <? n then out_of_fuel else mret tot
  | S f =>
      if tot <? n then
        addr ← bmap i (off / BSIZE);
        if addr =? 0 then mret tot
        else
          ip ← gets (geti i);
          bp ← lop (op_bread (i_dev ip) addr);
          let m := Z.min (n - tot) (BSIZE - off mod BSIZE) in
          d ← lop (op_data bp);
          r ← either_copyout user_dst dst d (off mod BSIZE) m;
          if r =? -1 then
            lop (op_brelse bp);;
            mret (-1)
          else
            lop (op_brelse bp);;
            readi_loop f i user_dst (dst + m) (off + m) n (tot + m)
      else mret tot
  end.

Definition readi (i : nat) (user_dst : bool) (dst off n : Z) : F Z :=
  ip ← gets (geti i);
  if (off >? i_size ip) || (u32 (off + n) <? off) then mret 0
  else
    let n := if u32 (off + n) >? i_size ip then i_size ip - off else n in
    readi_loop (Z.to_nat n) i user_dst dst off n 0.

(** The loop of [writei] ends with [tot] and [off]. *)
Fixpoint writei_loop (fuel : nat) (i : nat) (user_src : bool) (src off n tot : Z) : F (Z * Z) :=
  match fuel with
  | O => if tot <? n then out_of_fuel else mret (tot, off)
  | S f =>
      if tot <? n then
        addr ← bmap i (off / BSIZE);
        if addr =? 0 then mret (tot, off)
        else
          ip ← gets (geti i);
          bp ← lop (op_bread (i_dev ip) addr);
          let m := Z.min (n - tot) (BSIZE - off mod BSIZE) in
          d ← lop (op_data bp);
          '(r, d') ← either_copyin d (off mod BSIZE) user_src src m;
          lop (op_set bp d');;
          if r =? -1 then
            lop (op_brelse bp);;
            mret (tot, off)
          else
            lop (op_log_write bp);;
            lop (op_brelse bp);;
            writei_loop f i user_src (src + m) (off + m) n (tot + m)
      else mret (tot, off)
  end.

Definition writei (i : nat) (user_src : bool) (src off n : Z) : F Z :=
  ip ← gets (geti i);
  if (off >? i_size ip) || (u32 (off + n) <? off) then mret (-1)
  else if u32 (off + n) >? MAXFILE * BSIZE then mret (-1)
  else
    '(tot, off') ← writei_loop (Z.to_nat n) i user_src src off n 0;
    ip ← gets (geti i);
    when (off' >? i_size ip) (modify (updi i (set_i_size off')));;
    iupdate i;;
    mret tot.

(** ** Directories *)

Context (de nm : Z).

(** [s] and [t] are addresses of kernel memory. *)
Definition namecmp (m : mem) (s t : Z) : Z := KString.strncmp m s m t DIRSIZ.

(** The result is the inode and [*poff]. *)
Definition dirlookup (dp : nat) (name : Z) : F (option (nat * Z)) :=
  ip ← gets (geti dp);
  if negb (i_type ip =? T_DIR) then panic "dirlookup not DIR"
  else
    for_loop (Z.to_nat ((i_size ip + DESIZE - 1) / DESIZE)) 0 (fun k =>
      let off := k * DESIZE in
      r ← readi dp false de off DESIZE;
      if negb (r =? DESIZE) then panic "dirlookup read"
      else
        m ← kop (gets k_mem);
        if ld16 m de =? 0 then mret None
        else if namecmp m name (de + 2) =? 0 then
          ip ← gets (geti dp);
          x ← iget (i_dev ip) (ld16 m de);
          mret (Some (x, off))
        else mret None).

Definition dirlink (dp : nat) (name inum : Z) : F Z :=
  r ← dirlookup dp name;
  match r with
  | Some (i, _) => iput i;; mret (-1)
  | None =>
      ip ← gets (geti dp);
      let count := Z.to_nat ((i_size ip + DESIZE - 1) / DESIZE) in
      r ← for_loop count 0 (fun k =>
        r ← readi dp false de (k * DESIZE) DESIZE;
        if negb (r =? DESIZE) then panic "dirlink read"
        else
          m ← kop (gets k_mem);
          if ld16 m de =? 0 then mret (Some (k * DESIZE)) else mret None);
      let off := default (Z.of_nat count * DESIZE) r in
      kop (modify (fun s => set_k_mem (KString.strncpy (k_mem s) (de + 2) (k_mem s) name DIRSIZ) s));;
      kop (modify (fun s => set_k_mem (st16 (k_mem s) de inum) s));;
      r ← writei dp false de off DESIZE;
      mret (if negb (r =? DESIZE) then -1 else 0)
  end.

(** ** Paths *)

(** [while( *path == '/') path++;] *)
Fixpoint skip_slashes (fuel : nat) (m : mem) (path : Z) : option Z :=
  match fuel with
  | O => None
  | S f => if rd m path =? 47 then skip_slashes f m (path + 1) else Some path
  end.

(** [while( *path != '/' and *path != 0) path++;] *)
Fixpoint skip_name (fuel : nat) (m : mem) (path : Z) : option Z :=
  match fuel with
  | O => None
  | S f => if (rd m path =? 47) || (rd m path =? 0) then Some path else skip_name f m (path + 1)
  end.

(** The rest of the path and the memory with [name] filled in; [Some None]
    is the null pointer, [None] a path longer than [MAXPATH]. *)
Definition skipelem (m : mem) (path name : Z) : option (option (Z * mem)) :=
  match skip_slashes (S MAXPATH) m path with
  | None => None
  | Some s =>
      if rd m s =? 0 then Some None
      else
        match skip_name (S MAXPATH) m s with
        | None => None
        | Some p =>
            let len := p - s in
            let m' := if len >=? DIRSIZ then KString.memmove m name s DIRSIZ
                      else wr (KString.memmove m name s len) (name + len) 0 in
            match skip_slashes (S MAXPATH) m' p with
            | None => None
            | Some p' => Some (Some (p', m'))
            end
        end
  end.

(** The loop of [namex]; a round consumes at least one byte of the path. *)
Fixpoint namex_loop (fuel : nat) (i : nat) (path : Z) (nameiparent : bool) (name : Z) : F (option nat) :=
  match fuel with
  | O => out_of_fuel
  | S f =>
      m ← kop (gets k_mem);
      match skipelem m path name with
      | None => out_of_fuel
      | Some None =>
          if nameiparent then iput i;; mret None
          else mret (Some i)
      | Some (Some (path', m')) =>
          kop (modify (set_k_mem m'));;
          ilock i;;
          ip ← gets (geti i);
          if negb (i_type ip =? T_DIR) then iunlockput i;; mret None
          else
            m ← kop (gets k_mem);
            if nameiparent && (rd m path' =? 0) then
              iunlock i;;
              mret (Some i)
            else
              next ← dirlookup i name;
              match next with
              | None => iunlockput i;; mret None
              | Some (next, _) =>
                  iunlockput i;;
                  namex_loop f next path' nameiparent name
              end
      end
  end.

Definition namex (path : Z) (nameiparent : bool) (name : Z) : F (option nat) :=
  m ← kop (gets k_mem);
  i ← (if rd m path =? 47 then iget ROOTDEV ROOTINO
       else cwd ← gets f_cwd; idup cwd);
  namex_loop (S MAXPATH) i path nameiparent name.

Definition namei (path : Z) : F (option nat) := namex path false nm.
Definition nameiparent (path name : Z) : F (option nat) := namex path true name.
End fs.
