(* ===== verification/FsSpec.v ===== *)
(** The allocation of blocks and inodes, and the mapping from a file to its
    blocks, over any block layer that keeps the promises of BlockLayer.v. *)

From S2P Require Import Prelude Mem Sleeplock Strings Kalloc Vm Bio LogTx BlockLayer Fs.

(** ** Bitmap blocks *)

(** The bit of [bi] in bitmap block [d]. *)
Definition bit_of (d : block) (bi : Z) : bool := negb (Z.land (rd d (bi / 8)) (bitmask bi) =? 0).

Lemma bitmask_eq bi : bitmask bi = 2 ^ (bi mod 8).
Proof. unfold bitmask. rewrite Z.shiftl_mul_pow2, Z.mul_1_l; [done|]. apply Z.mod_pos_bound. lia. Qed.

Lemma bit_of_testbit d bi : bit_of d bi = Z.testbit (rd d (bi / 8)) (bi mod 8).
Proof. unfold bit_of. rewrite bitmask_eq. apply land_pow2_testbit. apply Z.mod_pos_bound. lia. Qed.

Lemma testbit_u8 x n : 0 <= n < 8 -> Z.testbit (u8 x) n = Z.testbit x n.
Proof. intros Hn. unfold u8, wrap. apply Z.mod_pow2_bits_low. lia. Qed.

(** Writing byte [bi / 8] changes the bits of that byte. *)
Lemma bit_of_wr d bi v bi' :
  bit_of (wr d (bi / 8) v) bi' =
    if bi / 8 =? bi' / 8 then Z.testbit v (bi' mod 8) else bit_of d bi'.
Proof.
  rewrite !bit_of_testbit, rd_wr. destruct (bi / 8 =? bi' / 8); [|done].
  apply testbit_u8. apply Z.mod_pos_bound. lia.
Qed.

Lemma div_mod_8 a b : a / 8 = b / 8 -> a mod 8 = b mod 8 -> a = b.
Proof. intros. pose proof (Z.div_mod a 8). pose proof (Z.div_mod b 8). lia. Qed.

Definition set_bit (d : block) (bi : Z) : block := wr d (bi / 8) (Z.lor (rd d (bi / 8)) (bitmask bi)).
Definition clear_bit (d : block) (bi : Z) : block := wr d (bi / 8) (Z.land (rd d (bi / 8)) (Z.lnot (bitmask bi))).

Lemma bit_of_set d bi bi' : bit_of (set_bit d bi) bi' = (bi' =? bi) || bit_of d bi'.
Proof.
  pose proof (Z.mod_pos_bound bi 8 ltac:(lia)). pose proof (Z.mod_pos_bound bi' 8 ltac:(lia)).
  unfold set_bit. rewrite bit_of_wr, bit_of_testbit.
  destruct (Z.eqb_spec (bi / 8) (bi' / 8)) as [E|E].
  - rewrite E, Z.lor_spec, bitmask_eq, Z.pow2_bits_eqb by lia.
    destruct (Z.eqb_spec (bi mod 8) (bi' mod 8)) as [Em|Em].
    + rewrite (div_mod_8 _ _ E Em), Z.eqb_refl. by rewrite orb_true_r.
    + destruct (Z.eqb_spec bi' bi) as [->|]; [done|]. by rewrite orb_false_r.
  - destruct (Z.eqb_spec bi' bi) as [->|]; done.
Qed.

Lemma bit_of_clear d bi bi' : bit_of (clear_bit d bi) bi' = negb (bi' =? bi) && bit_of d bi'.
Proof.
  pose proof (Z.mod_pos_bound bi 8 ltac:(lia)). pose proof (Z.mod_pos_bound bi' 8 ltac:(lia)).
  unfold clear_bit. rewrite bit_of_wr, bit_of_testbit.
  destruct (Z.eqb_spec (bi / 8) (bi' / 8)) as [E|E].
  - rewrite E, Z.land_spec, Z.lnot_spec, bitmask_eq, Z.pow2_bits_eqb by lia.
    destruct (Z.eqb_spec (bi mod 8) (bi' mod 8)) as [Em|Em].
    + rewrite (div_mod_8 _ _ E Em), Z.eqb_refl. by rewrite andb_false_r.
    + destruct (Z.eqb_spec bi' bi) as [->|]; [done|]. by rewrite andb_true_r.
  - destruct (Z.eqb_spec bi' bi) as [->|]; done.
Qed.

Section fs_spec.
Context {L : Type} `{BL : BlockLayer L} (home : Z -> Prop) (cap : nat) (st : L -> tx -> Prop)
  `{LW : !BlockLaws L home cap st}.
Implicit Types (s : fst L) (t : tx).

Definition at_tx s t : Prop := st (f_l s) t.

Lemma lop_ok {A} (m : M L A) s r l' : m (f_l s) = Ok r l' -> lop m s = Ok r (set_f_l l' s).
Proof. unfold lop, zoom. by intros ->. Qed.

(** [s'] is [s] up to the block layer. *)
Definition same_fs s s' : Prop := exists l, s' = set_f_l l s.

Lemma same_fs_refl s : same_fs s s.
Proof. exists (f_l s). by destruct s. Qed.
Lemma same_fs_trans s1 s2 s3 : same_fs s1 s2 -> same_fs s2 s3 -> same_fs s1 s3.
Proof. intros [l ->] [l' ->]. by exists l'. Qed.
Lemma same_fs_set s l : same_fs s (set_f_l l s).
Proof. by exists l. Qed.

Definition room (t : tx) (k : nat) : Prop := (size (t_held t) + length (t_log t) + k <= NBUF)%nat.
Definition free_blk (t : tx) (bn : Z) : Prop := forall i, t_held t !! i <> Some bn.

Lemma f_bread s t bn :
  at_tx s t -> free_blk t bn -> room t 1 ->
  exists i s', lop (op_bread ROOTDEV bn) s = Ok i s' /\ same_fs s s' /\ t_held t !! i = None /\
    at_tx s' (t_hold i bn t).
Proof.
  intros Ht Hf Hr. destruct (law_bread (f_l s) t bn Ht Hf) as (i & l' & Hrun & Hi & Ht').
  { unfold room in Hr. lia. }
  exists i, (set_f_l l' s). split; [by apply lop_ok|]. split; [apply same_fs_set|]. done.
Qed.

Lemma f_data s t i bn : at_tx s t -> t_held t !! i = Some bn -> lop (op_data i) s = Ok (t_view t bn) s.
Proof.
  intros Ht Hi. rewrite (lop_ok _ s _ _ (law_data (f_l s) t i bn Ht Hi)). by destruct s.
Qed.

Lemma f_set s t i bn d :
  at_tx s t -> t_held t !! i = Some bn ->
  exists s', lop (op_set i d) s = Ok tt s' /\ same_fs s s' /\ at_tx s' (t_set bn d t).
Proof.
  intros Ht Hi. destruct (law_set (f_l s) t i bn d Ht Hi) as (l' & Hrun & Ht').
  exists (set_f_l l' s). split; [by apply lop_ok|]. split; [apply same_fs_set|done].
Qed.

Lemma f_log_write s t i bn :
  at_tx s t -> t_held t !! i = Some bn -> home bn -> (length (t_log t) < cap)%nat ->
  exists s', lop (op_log_write i) s = Ok tt s' /\ same_fs s s' /\ at_tx s' (t_logged bn t).
Proof.
  intros Ht Hi Hh Hl. destruct (law_log_write (f_l s) t i bn Ht Hi Hh Hl) as (l' & Hrun & Ht').
  exists (set_f_l l' s). split; [by apply lop_ok|]. split; [apply same_fs_set|done].
Qed.

Lemma f_brelse s t i bn :
  at_tx s t -> t_held t !! i = Some bn -> bn ∉ t_dirty t ->
  exists s', lop (op_brelse i) s = Ok tt s' /\ same_fs s s' /\ at_tx s' (t_free i t).
Proof.
  intros Ht Hi Hd. destruct (law_brelse (f_l s) t i bn Ht Hi Hd) as (l' & Hrun & Ht').
  exists (set_f_l l' s). split; [by apply lop_ok|]. split; [apply same_fs_set|done].
Qed.

Lemma at_tx_ext s t t' : at_tx s t -> t ≡t t' -> at_tx s t'.
Proof. unfold at_tx. apply law_ext. Qed.

(** A state of the transaction between accesses to blocks: nothing is
    waiting to be logged. *)
Definition settled (t : tx) : Prop := t_dirty t = ∅.

(** Logging [bn] with content [d]. *)
Definition t_put (bn : Z) (d : block) (t : tx) : tx :=
  Tx (fun x => if decide (x = bn) then d else t_view t x) (t_held t) (t_dirty t) (log_add bn (t_log t)).

Lemma log_add_length bn bs : (length (log_add bn bs) <= S (length bs))%nat.
Proof. unfold log_add. case_decide; [lia|]. rewrite length_app. simpl. lia. Qed.

Lemma t_put_log bn d t : (length (t_log (t_put bn d t)) <= S (length (t_log t)))%nat.
Proof. apply log_add_length. Qed.

(** The end of an access that changed the block: set, log, release. *)
Lemma f_commit_block s t i bn d :
  at_tx s (t_hold i bn t) -> t_held t !! i = None -> settled t -> home bn -> (length (t_log t) < cap)%nat ->
  exists s', (lop (op_set i d);; lop (op_log_write i);; lop (op_brelse i)) s = Ok tt s' /\
    same_fs s s' /\ at_tx s' (t_put bn d t).
Proof.
  intros Ht Hi Hd Hh Hl.
  destruct (f_set s _ i bn d Ht) as (s1 & H1 & E1 & Ht1); [apply lookup_insert_eq|].
  destruct (f_log_write s1 _ i bn Ht1) as (s2 & H2 & E2 & Ht2); [apply lookup_insert_eq|done|done|].
  destruct (f_brelse s2 _ i bn Ht2) as (s3 & H3 & E3 & Ht3); [apply lookup_insert_eq|simpl; set_solver|].
  exists s3. split; [mstep H1; mstep H2; exact H3|].
  split; [by eapply same_fs_trans; [|eapply same_fs_trans]|].
  eapply at_tx_ext; [exact Ht3|]. split_and!; simpl; try done.
  - by rewrite delete_insert_id.
  - rewrite Hd. set_solver.
Qed.

(** ** Blocks *)

Lemma bzero_spec s t bno :
  at_tx s t -> settled t -> free_blk t bno -> room t 1 -> home bno -> (length (t_log t) < cap)%nat ->
  exists s', bzero ROOTDEV bno s = Ok tt s' /\ same_fs s s' /\ at_tx s' (t_put bno ∅ t).
Proof.
  intros Ht Hd Hf Hr Hh Hl. destruct (f_bread s t bno Ht Hf Hr) as (i & s1 & H1 & E1 & Hi & Ht1).
  destruct (f_commit_block s1 t i bno ∅ Ht1 Hi Hd Hh Hl) as (s2 & H2 & E2 & Ht2).
  exists s2. split; [unfold bzero; mstep H1; exact H2|]. split; [by eapply same_fs_trans|done].
Qed.

(** Block [b] is marked in the bitmap. *)
Definition used (v : Z -> block) (sb : superblock) (b : Z) : bool := bit_of (v (BBLOCK b sb)) (b mod BPB).

(** The bitmap can be read and written, and what it marks as free may be
    handed out. *)
Record alloc_ok (sb : superblock) (t : tx) : Prop := {
  al_size : 0 <= sb_size sb < 2147483648;
  al_map : forall b, 0 <= b < sb_size sb -> home (BBLOCK b sb) /\ free_blk t (BBLOCK b sb);
  al_free : forall b, 0 <= b < sb_size sb -> used (t_view t) sb b = false ->
    home b /\ free_blk t b /\ 0 < b /\ forall x, 0 <= x < sb_size sb -> BBLOCK x sb <> b }.

Lemma BPB_split k bi : 0 <= k -> 0 <= bi < BPB -> (k * BPB + bi) / BPB = k /\ (k * BPB + bi) mod BPB = bi.
Proof.
  intros Hk Hb. unfold BPB, BSIZE in *. split.
  - rewrite Z.div_add_l by lia. rewrite Z.div_small; lia.
  - rewrite Z.add_comm, Z.mod_add by lia. by apply Z.mod_small.
Qed.

(** The bitmap block of [b] with the bit of [b] set. *)
Definition mark (sb : superblock) (b : Z) (t : tx) : tx :=
  t_put (BBLOCK b sb) (set_bit (t_view t (BBLOCK b sb)) (b mod BPB)) t.

(** The inner loop: the first free bit of the bitmap block that is held. *)
Lemma balloc_inner s t sb k bp n :
  at_tx s (t_hold bp (BBLOCK (k * BPB) sb) t) -> t_held t !! bp = None -> settled t -> alloc_ok sb t ->
  room t 2 -> (length (t_log t) + 1 < cap)%nat ->
  0 <= k -> k * BPB < sb_size sb -> n = Z.to_nat (Z.min BPB (sb_size sb - k * BPB)) ->
  let body := fun bi =>
      let m := bitmask bi in
      d ← lop (op_data bp);
      if Z.land (rd d (bi / 8)) m =? 0 then
        lop (op_set bp (wr d (bi / 8) (Z.lor (rd d (bi / 8)) m)));;
        lop (op_log_write bp);;
        lop (op_brelse bp);;
        bzero ROOTDEV (k * BPB + bi);;
        mret (Some (k * BPB + bi))
      else mret None in
  (for_loop n 0 body s = Ok None s /\
     forall b, k * BPB <= b < Z.min ((k + 1) * BPB) (sb_size sb) -> used (t_view t) sb b = true) \/
  (exists b s', k * BPB <= b < Z.min ((k + 1) * BPB) (sb_size sb) /\
     for_loop n 0 body s = Ok (Some b) s' /\ same_fs s s' /\
     used (t_view t) sb b = false /\
     (forall x, k * BPB <= x < b -> used (t_view t) sb x = true) /\
     at_tx s' (t_put b ∅ (mark sb b t))).
Proof.
  intros Ht Hbp Hd [Hsz Hmap Hfree] Hroom Hcap Hk Hkb Hn body.
  assert (0 < BPB) by done. assert (Hblk : forall bi, 0 <= bi < BPB ->
    BBLOCK (k * BPB + bi) sb = BBLOCK (k * BPB) sb /\ (k * BPB + bi) mod BPB = bi).
  { intros bi Hbi. unfold BBLOCK. destruct (BPB_split k bi Hk Hbi) as [-> ->].
    split; [|done]. by rewrite Z.div_mul by lia. }
  assert (Hdata : lop (op_data bp) s = Ok (t_view t (BBLOCK (k * BPB) sb)) s).
  { apply (f_data s _ bp (BBLOCK (k * BPB) sb) Ht). apply lookup_insert_eq. }
  set (d := t_view t (BBLOCK (k * BPB) sb)) in *.
  assert (Hused : forall bi, 0 <= bi < BPB -> used (t_view t) sb (k * BPB + bi) = bit_of d bi).
  { intros bi Hbi. unfold used. by destruct (Hblk bi Hbi) as [-> ->]. }
  destruct (for_loop_find (fun bi => negb (bit_of d bi)) (fun s1 => s1 = s) body n 0 s)
    as [(s' & Hrun & -> & Hall)|(bi & s1 & Hbi & -> & HP & Hall & Hrun)].
  - done.
  - intros bi s1 Hbi -> HP. exists s. split; [|done]. unfold body. mstep Hdata.
    apply negb_false_iff in HP. unfold bit_of in HP. apply negb_true_iff in HP. by rewrite HP.
  - left. split; [done|]. intros b Hb. replace b with (k * BPB + (b - k * BPB)) by lia.
    rewrite Hused by lia. apply negb_false_iff, Hall. lia.
  - right. assert (0 <= bi < BPB) as Hbi' by lia. set (b := k * BPB + bi).
    assert (k * BPB <= b < Z.min ((k + 1) * BPB) (sb_size sb)) as Hb by (unfold b; lia).
    assert (used (t_view t) sb b = false) as Hub.
    { unfold b. rewrite Hused by done. by apply negb_true_iff in HP. }
    assert (0 <= b < sb_size sb) as Hbr by lia.
    destruct (Hmap b Hbr) as [Hhm Hfm]. destruct (Hfree b Hbr Hub) as (Hhb & Hfb & Hb0 & Hnb).
    destruct (Hblk bi Hbi') as [Eb Em].
    destruct (f_commit_block s t bp (BBLOCK (k * BPB) sb) (set_bit d bi) Ht Hbp Hd) as (s2 & H2 & E2 & Ht2);
      [by rewrite <- Eb|lia|].
    assert (mark sb b t = t_put (BBLOCK (k * BPB) sb) (set_bit d bi) t) as Hmk.
    { unfold mark, b. by rewrite Eb, Em. }
    rewrite <- Hmk in Ht2. pose proof (t_put_log (BBLOCK b sb) (set_bit (t_view t (BBLOCK b sb)) (b mod BPB)) t) as Hlog.
    destruct (bzero_spec s2 (mark sb b t) b Ht2) as (s3 & H3 & E3 & Ht3); [done|done| |done|unfold mark; lia|].
    { unfold room, mark in *. simpl in *. lia. }
    exists b, s3. split; [done|]. split; [|split; [by eapply same_fs_trans|split; [done|split; [|done]]]].
    + apply Hrun. unfold body. mstep Hdata. apply negb_true_iff in HP. unfold bit_of in HP.
      apply negb_false_iff in HP. rewrite HP. fold (set_bit d bi).
      revert H2. unfold mbind, M_bind. 
      destruct (lop (op_set bp (set_bit d bi)) s) as [[] u| | |]; try discriminate.
      destruct (lop (op_log_write bp) u) as [[] u'| | |]; try discriminate. intros ->.
      fold b. by rewrite H3.
    + intros x Hx. replace x with (k * BPB + (x - k * BPB)) by lia.
      rewrite Hused by lia. apply negb_false_iff, Hall. lia.
Qed.

(** What [balloc] does: [None] when the bitmap is full. *)
Definition balloc_post s t s' (r : Z) (t' : tx) : Prop :=
  same_fs s s' /\ at_tx s' t' /\
  exists sb, f_sb s = sb /\ 0 < r < sb_size sb /\ used (t_view t) sb r = false /\
    (forall x, 0 <= x < r -> used (t_view t) sb x = true) /\ t' = t_put r ∅ (mark sb r t).

Lemma balloc_spec s t :
  at_tx s t -> settled t -> alloc_ok (f_sb s) t -> room t 2 -> (length (t_log t) + 1 < cap)%nat ->
  (exists s', balloc ROOTDEV s = Ok 0 (set_f_out (f_out s ++ ["balloc: out of blocks"]) s') /\
     same_fs s s' /\ at_tx s' t /\ forall b, 0 <= b < sb_size (f_sb s) -> used (t_view t) (f_sb s) b = true) \/
  (exists b s', balloc ROOTDEV s = Ok b s' /\ balloc_post s t s' b (t_put b ∅ (mark (f_sb s) b t))).
Proof.
  intros Ht Hd Hok Hroom Hcap. unfold balloc, getsb. rewrite gets_bind. set (sb := f_sb s) in *.
  pose proof (al_size _ _ Hok) as Hsz. assert (BPB = 8192) as HB by done.
  match goal with |- context [for_loop ?n 0 ?body] =>
    pose (P := fun k => existsb (fun j => negb (used (t_view t) sb (k * BPB + Z.of_nat j)))
               (seq 0 (Z.to_nat (Z.min BPB (sb_size sb - k * BPB)))));
    destruct (for_loop_find P (fun s1 => same_fs s s1 /\ at_tx s1 t) body n 0 s)
      as [(s' & Hrun & [E' Ht'] & Hall)|(k & s1 & Hk & [E1 Ht1] & HP & Hall & Hrun)]
  end.
  - split; [apply same_fs_refl|done].
  - intros k s1 Hk [E1 Ht1] HP.
    assert (k * BPB < sb_size sb) as Hkb.
    { rewrite HB in *. pose proof (Z.div_mod (sb_size sb + 8192 - 1) 8192). pose proof (Z.mod_pos_bound (sb_size sb + 8192 - 1) 8192). lia. }
    destruct (al_map _ _ Hok (k * BPB)) as [Hhm Hfm]; [lia|].
    destruct (f_bread s1 t (BBLOCK (k * BPB) sb) Ht1 Hfm) as (bp & s2 & H2 & E2 & Hbp & Ht2); [unfold room in *; lia|].
    mstep H2.
    destruct (balloc_inner s2 t sb k bp _ Ht2 Hbp Hd Hok Hroom Hcap ltac:(lia) Hkb eq_refl)
      as [[Hin _]|(b & s3 & Hb & _ & _ & Hub & _)].
    + mstep Hin. destruct (f_brelse s2 _ bp (BBLOCK (k * BPB) sb) Ht2) as (s3 & H3 & E3 & Ht3);
        [apply lookup_insert_eq|simpl; rewrite Hd; set_solver|].
      exists s3. mstep H3. split; [done|]. split; [by eapply same_fs_trans; [|eapply same_fs_trans]|].
      eapply at_tx_ext; [exact Ht3|]. split_and!; simpl; try done. by rewrite delete_insert_id.
    + exfalso. assert (P k = true) as HPt; [|congruence]. unfold P. apply existsb_exists.
      exists (Z.to_nat (b - k * BPB)). split; [apply in_seq; lia|].
      rewrite Z2Nat.id by lia. replace (k * BPB + (b - k * BPB)) with b by lia. by rewrite Hub.
  - left. exists s'. mstep Hrun. split; [destruct E' as [l ->]; done|]. split; [done|]. split; [done|].
    intros b Hb. destruct (used (t_view t) sb b) eqn:E; [done|]. exfalso.
    assert (P (b / BPB) = true) as HPt.
    { unfold P. apply existsb_exists. exists (Z.to_nat (b mod BPB)).
      pose proof (Z.mod_pos_bound b BPB ltac:(lia)). pose proof (Z.div_mod b BPB ltac:(lia)).
      split; [apply in_seq; lia|]. rewrite Z2Nat.id by lia.
      replace (b / BPB * BPB + b mod BPB) with b by lia. by rewrite E. }
    rewrite Hall in HPt; [done|]. rewrite HB in *. pose proof (Z.div_pos b 8192).
    pose proof (Z.div_mod (sb_size sb + 8192 - 1) 8192). pose proof (Z.mod_pos_bound (sb_size sb + 8192 - 1) 8192).
    pose proof (Z.div_mod b 8192). pose proof (Z.mod_pos_bound b 8192). lia.
  - right. assert (k * BPB < sb_size sb) as Hkb.
    { rewrite HB in *. pose proof (Z.div_mod (sb_size sb + 8192 - 1) 8192). pose proof (Z.mod_pos_bound (sb_size sb + 8192 - 1) 8192). lia. }
    destruct (al_map _ _ Hok (k * BPB)) as [Hhm Hfm]; [lia|].
    destruct (f_bread s1 t (BBLOCK (k * BPB) sb) Ht1 Hfm) as (bp & s2 & H2 & E2 & Hbp & Ht2); [unfold room in *; lia|].
    destruct (balloc_inner s2 t sb k bp _ Ht2 Hbp Hd Hok Hroom Hcap ltac:(lia) Hkb eq_refl)
      as [[_ Hfull]|(b & s3 & Hb & Hin & E3 & Hub & Hbelow & Ht3)].
    + exfalso. unfold P in HP. apply existsb_exists in HP as (j & Hj & Hu). apply in_seq in Hj.
      rewrite Hfull in Hu by lia. done.
    + exists b, s3. split.
      * rewrite (bind_ok _ _ _ _ _ (Hrun b s3 ltac:(by mstep H2; mstep Hin))). done.
      * split; [by eapply same_fs_trans; [|eapply same_fs_trans]|]. split; [done|]. exists sb.
        destruct (al_free _ _ Hok b ltac:(lia) Hub) as (_ & _ & Hb0 & _).
        split; [done|]. split; [lia|]. split; [done|]. split; [|done].
        intros x Hx. destruct (decide (k * BPB <= x)); [apply Hbelow; lia|].
        destruct (used (t_view t) sb x) eqn:E; [done|]. exfalso.
        pose proof (Z.mod_pos_bound x BPB ltac:(lia)). pose proof (Z.div_mod x BPB ltac:(lia)).
        assert (P (x / BPB) = true) as HPt.
        { unfold P. apply existsb_exists. exists (Z.to_nat (x mod BPB)).
          split; [apply in_seq; lia|]. rewrite Z2Nat.id by lia.
          replace (x / BPB * BPB + x mod BPB) with x by lia. by rewrite E. }
        rewrite Hall in HPt; [done|]. rewrite HB in *. pose proof (Z.div_pos x 8192). lia.
Qed.

(** [x] is a block of the bitmap. *)
Definition bitmap_blk (sb : superblock) (x : Z) : Prop := exists b, 0 <= b < sb_size sb /\ BBLOCK b sb = x.

Lemma BPB_eq_split a b : a / BPB = b / BPB -> a mod BPB = b mod BPB -> a = b.
Proof. intros. pose proof (Z.div_mod a BPB ltac:(done)). pose proof (Z.div_mod b BPB ltac:(done)). lia. Qed.

(** Setting or clearing the bit of [b] is seen at [b] and nowhere else. *)
Lemma used_put sb t b d f :
  (forall bi, bit_of d bi = f bi) ->
  (forall bi, bi <> b mod BPB -> f bi = bit_of (t_view t (BBLOCK b sb)) bi) ->
  forall x, used (t_view (t_put (BBLOCK b sb) d t)) sb x =
    if decide (x = b) then f (b mod BPB) else used (t_view t) sb x.
Proof.
  intros Hd Hf x. unfold used, t_put. simpl. case_decide as Eb.
  - assert (x / BPB = b / BPB) as Ed by (unfold BBLOCK in Eb; lia).
    rewrite Hd. case_decide as Ex; [by subst|].
    rewrite Hf; [by rewrite Eb|]. intros Em. by apply Ex, BPB_eq_split.
  - case_decide as Ex; [subst; done|done].
Qed.

Lemma used_mark sb t b x : used (t_view (mark sb b t)) sb x = bool_decide (x = b) || used (t_view t) sb x.
Proof.
  unfold mark. rewrite (used_put sb t b _ (fun bi => (bi =? b mod BPB) || bit_of (t_view t (BBLOCK b sb)) bi)).
  - case_decide as E; [|by rewrite bool_decide_false]. rewrite bool_decide_true by done.
    by rewrite Z.eqb_refl.
  - intros bi. apply bit_of_set.
  - intros bi Hne. by rewrite (proj2 (Z.eqb_neq _ _) Hne).
Qed.

(** The effect of allocating [r]. *)
Record grown (sb : superblock) (t t' : tx) (r : Z) (k : nat) : Prop := {
  gr_view : t_view t' r = ∅;
  gr_used : forall x, 0 <= x < sb_size sb -> used (t_view t') sb x = bool_decide (x = r) || used (t_view t) sb x;
  gr_other : forall x, ~ bitmap_blk sb x -> x <> r -> t_view t' x = t_view t x;
  gr_held : t_held t' = t_held t;
  gr_dirty : t_dirty t' = t_dirty t;
  gr_log : (length (t_log t') <= length (t_log t) + k)%nat }.

Lemma alloc_grown sb t r :
  alloc_ok sb t -> 0 <= r < sb_size sb -> used (t_view t) sb r = false ->
  grown sb t (t_put r ∅ (mark sb r t)) r 2.
Proof.
  intros Hok Hr Hu. destruct (al_free _ _ Hok r Hr Hu) as (_ & _ & _ & Hnb).
  split; simpl; try done.
  - by rewrite decide_True.
  - intros x Hx. unfold used, t_put. simpl. rewrite decide_False by by apply Hnb.
    apply used_mark.
  - intros x Hx Hne. rewrite decide_False by done. rewrite decide_False; [done|].
    intros ->. apply Hx. by exists r.
  - pose proof (log_add_length r (log_add (BBLOCK r sb) (t_log t))).
    pose proof (log_add_length (BBLOCK r sb) (t_log t)). lia.
Qed.

Lemma alloc_ok_grown sb t t' r k : alloc_ok sb t -> grown sb t t' r k -> alloc_ok sb t'.
Proof.
  intros [A1 A2 A3] G. split; [done| |].
  - intros b Hb. unfold free_blk. rewrite (gr_held _ _ _ _ _ G). by apply A2.
  - intros b Hb Hu. rewrite (gr_used _ _ _ _ _ G) in Hu by done. apply orb_false_iff in Hu as [_ Hu].
    unfold free_blk. rewrite (gr_held _ _ _ _ _ G). by apply A3.
Qed.

(** [bfree] of a block in use clears its bit; of a free block it panics. *)
Lemma bfree_spec s t b :
  at_tx s t -> settled t -> room t 1 -> (length (t_log t) < cap)%nat ->
  home (BBLOCK b (f_sb s)) -> free_blk t (BBLOCK b (f_sb s)) ->
  if used (t_view t) (f_sb s) b
  then exists s', bfree ROOTDEV b s = Ok tt s' /\ same_fs s s' /\
    at_tx s' (t_put (BBLOCK b (f_sb s)) (clear_bit (t_view t (BBLOCK b (f_sb s))) (b mod BPB)) t)
  else bfree ROOTDEV b s = Panic "freeing free block".
Proof.
  intros Ht Hd Hr Hl Hh Hf. unfold bfree, getsb. set (sb := f_sb s) in *.
  destruct (f_bread s t (BBLOCK b sb) Ht Hf Hr) as (bp & s1 & H1 & E1 & Hbp & Ht1).
  pose proof (f_data s1 _ bp (BBLOCK b sb) Ht1 (lookup_insert_eq _ _ _)) as Hdata. simpl in Hdata.
  unfold used, bit_of. destruct (Z.land _ _ =? 0) eqn:E; cbn [negb].
  - rewrite gets_bind. fold sb. mstep H1. mstep Hdata. by rewrite E.
  - destruct (f_commit_block s1 t bp (BBLOCK b sb) (clear_bit (t_view t (BBLOCK b sb)) (b mod BPB)) Ht1 Hbp Hd Hh Hl)
      as (s2 & H2 & E2 & Ht2).
    exists s2. split; [|split; [by eapply same_fs_trans|done]].
    rewrite gets_bind. fold sb. mstep H1. mstep Hdata. rewrite E. exact H2.
Qed.

Lemma used_clear sb t b x :
  used (t_view (t_put (BBLOCK b sb) (clear_bit (t_view t (BBLOCK b sb)) (b mod BPB)) t)) sb x =
    negb (bool_decide (x = b)) && used (t_view t) sb x.
Proof.
  rewrite (used_put sb t b _ (fun bi => negb (bi =? b mod BPB) && bit_of (t_view t (BBLOCK b sb)) bi)).
  - case_decide as E; [|by rewrite bool_decide_false]. rewrite bool_decide_true by done.
    by rewrite Z.eqb_refl.
  - intros bi. apply bit_of_clear.
  - intros bi Hne. by rewrite (proj2 (Z.eqb_neq _ _) Hne).
Qed.
End fs_spec.
