(* ===== verification/FileSpec.v ===== *)
(** A file as the blocks its inode lists: what [bmap] returns and keeps. *)

From S2P Require Import Prelude Mem Sleeplock Strings Kalloc Vm Bio LogTx BlockLayer Fs FsSpec.

(** The block address of file block [bn], [0] for none. *)
Definition ind (ip : inode) : Z := i_addrs ip !!! NDIRECT.

Definition fblock (v : Z -> block) (ip : inode) (bn : Z) : Z :=
  if bn <? NDIRECT then i_addrs ip !!! bn
  else if ind ip =? 0 then 0 else ld32 (v (ind ip)) (4 * (bn - NDIRECT)).

Definition set_i_addrs (A : gmap Z Z) (ip : inode) : inode :=
  set_i_disk (i_type ip) (i_major ip) (i_minor ip) (i_nlink ip) (i_size ip) A ip.

Lemma set_i_addr_addrs k x ip : set_i_addr k x ip = set_i_addrs (<[k := x]> (i_addrs ip)) ip.
Proof. done. Qed.

Lemma set_i_addrs_same ip : set_i_addrs (i_addrs ip) ip = ip.
Proof. by destruct ip. Qed.

Section file.
Context {L : Type} `{BL : BlockLayer L} (home : Z -> Prop) (cap : nat) (st : L -> tx -> Prop)
  `{LW : !BlockLaws L home cap st}.
Implicit Types (s : fst L) (t : tx).
Abbreviation at_tx := (at_tx st).
Abbreviation alloc_ok := (alloc_ok home).

Lemma geti_updi i f s j : geti j (updi i f s) = if decide (i = j) then f (geti i s) else geti j s.
Proof.
  unfold geti, updi. simpl. case_decide as E; [subst; apply lookup_total_insert_eq|].
  by apply lookup_total_insert_ne.
Qed.

Lemma geti_updi_eq i f s : geti i (updi i f s) = f (geti i s).
Proof. rewrite geti_updi. by rewrite decide_True. Qed.

(** A block that belongs to the file system's structures. *)
Record blk_ok (sb : superblock) (t : tx) (x : Z) : Prop := {
  bk_range : 0 < x < sb_size sb;
  bk_home : home x;
  bk_free : free_blk t x;
  bk_used : used (t_view t) sb x = true;
  bk_map : ~ bitmap_blk sb x }.

Record inode_ok (sb : superblock) (t : tx) (ip : inode) : Prop := {
  io_dev : i_dev ip = ROOTDEV;
  io_data : forall bn, 0 <= bn < MAXFILE -> fblock (t_view t) ip bn <> 0 ->
    blk_ok sb t (fblock (t_view t) ip bn) /\ fblock (t_view t) ip bn <> ind ip;
  io_ind : ind ip <> 0 -> blk_ok sb t (ind ip);
  io_inj : forall bn bn', 0 <= bn < MAXFILE -> 0 <= bn' < MAXFILE ->
    fblock (t_view t) ip bn <> 0 -> fblock (t_view t) ip bn = fblock (t_view t) ip bn' -> bn = bn';
  io_dino : blk_ok sb t (IBLOCK (i_inum ip) sb) /\ IBLOCK (i_inum ip) sb <> ind ip /\
    forall bn, 0 <= bn < MAXFILE -> fblock (t_view t) ip bn <> IBLOCK (i_inum ip) sb }.

(** [s'] is [s] up to the block layer, the block list of inode [i] and the
    console. *)
Record same_but (s s' : fst L) (i : nat) (A : gmap Z Z) : Prop := {
  sbt_k : f_k s' = f_k s; sbt_sb : f_sb s' = f_sb s; sbt_lk : f_it_lock s' = f_it_lock s;
  sbt_pt : f_pt s' = f_pt s; sbt_cwd : f_cwd s' = f_cwd s; sbt_pid : f_pid s' = f_pid s;
  sbt_woken : f_woken s' = f_woken s;
  sbt_i : geti i s' = set_i_addrs A (geti i s);
  sbt_j : forall j, j <> i -> geti j s' = geti j s }.

Lemma same_fs_but s s' i : same_fs s s' -> same_but s s' i (i_addrs (geti i s)).
Proof. intros [l ->]. split; try done. simpl. by rewrite set_i_addrs_same. Qed.

Lemma same_but_trans s1 s2 s3 i A B : same_but s1 s2 i A -> same_but s2 s3 i B -> same_but s1 s3 i B.
Proof.
  intros [] []. split; try congruence.
  - rewrite sbt_i1, sbt_i0. done.
  - intros j Hj. rewrite sbt_j1, sbt_j0 by done. done.
Qed.

Lemma same_but_out s o i : same_but s (set_f_out o s) i (i_addrs (geti i s)).
Proof. split; try done. simpl. by rewrite set_i_addrs_same. Qed.

Lemma same_but_addr s i k x : same_but s (updi i (set_i_addr k x) s) i (<[k := x]> (i_addrs (geti i s))).
Proof. split; try done; [by rewrite geti_updi_eq|]. intros j Hj. rewrite geti_updi. by rewrite decide_False. Qed.

(** No block is free. *)
Definition disk_full (sb : superblock) (t : tx) : Prop :=
  forall b, 0 <= b < sb_size sb -> used (t_view t) sb b = true.

(** What [bmap i bn] keeps and gives, from [s] and [t] with inode [ip] to
    [s'] and [t'] with inode [ip']. *)
Record bmapped s t (i : nat) (bn : Z) s' t' (r : Z) (k : nat) : Prop := {
  bm_tx : at_tx s' t';
  bm_held : t_held t' = t_held t;
  bm_dirty : t_dirty t' = t_dirty t;
  bm_log : (length (t_log t') <= length (t_log t) + k)%nat;
  bm_state : exists A, same_but s s' i A;
  bm_alloc : alloc_ok (f_sb s) t';
  bm_inode : inode_ok (f_sb s) t' (geti i s');
  bm_map : forall x, 0 <= x < MAXFILE -> fblock (t_view t') (geti i s') x =
    if decide (x = bn /\ r <> 0) then r else fblock (t_view t) (geti i s) x;
  bm_old : fblock (t_view t) (geti i s) bn <> 0 -> r = fblock (t_view t) (geti i s) bn;
  bm_new : fblock (t_view t) (geti i s) bn = 0 -> r <> 0 ->
    t_view t' r = ∅ /\ used (t_view t) (f_sb s) r = false /\ 0 < r < sb_size (f_sb s);
  bm_frame : forall x, 0 <= x < sb_size (f_sb s) -> used (t_view t) (f_sb s) x = true ->
    ~ bitmap_blk (f_sb s) x -> x <> ind (geti i s) -> t_view t' x = t_view t x;
  bm_used : forall x, 0 <= x < sb_size (f_sb s) -> used (t_view t) (f_sb s) x = true ->
    used (t_view t') (f_sb s) x = true;
  bm_ind : ind (geti i s') = ind (geti i s) \/
    (used (t_view t) (f_sb s) (ind (geti i s')) = false /\ 0 <= ind (geti i s') < sb_size (f_sb s));
  bm_full : r = 0 -> disk_full (f_sb s) t' }.

(** A block that is in use stays what it is when another is allocated. *)
Lemma grown_blk sb t t' r k x :
  grown sb t t' r k -> used (t_view t) sb r = false -> blk_ok sb t x ->
  blk_ok sb t' x /\ t_view t' x = t_view t x /\ x <> r.
Proof.
  intros G Hr [B1 B2 B3 B4 B5]. assert (x <> r) by congruence. split; [|split; [|done]].
  - split; try done.
    + unfold free_blk. by rewrite (gr_held _ _ _ _ _ G).
    + rewrite (gr_used _ _ _ _ _ G) by lia. by rewrite B4, orb_true_r.
  - by apply (gr_other _ _ _ _ _ G).
Qed.

(** The new block itself. *)
Lemma grown_new sb t t' r k :
  alloc_ok sb t -> grown sb t t' r k -> 0 <= r < sb_size sb -> used (t_view t) sb r = false -> blk_ok sb t' r.
Proof.
  intros Hok G Hr Hu. destruct (al_free _ _ _ Hok r Hr Hu) as (H1 & H2 & H3 & H4). split; try done; [lia|..].
  - unfold free_blk. by rewrite (gr_held _ _ _ _ _ G).
  - rewrite (gr_used _ _ _ _ _ G) by done. by rewrite bool_decide_true.
  - intros (b & Hb & E). by apply (H4 b Hb).
Qed.

(** The blocks of an inode do not move when a block is allocated. *)
Lemma grown_fblock sb t t' r k ip bn :
  grown sb t t' r k -> used (t_view t) sb r = false -> (ind ip <> 0 -> blk_ok sb t (ind ip)) ->
  fblock (t_view t') ip bn = fblock (t_view t) ip bn.
Proof.
  intros G Hr Hi. unfold fblock. destruct (bn <? NDIRECT); [done|].
  destruct (Z.eqb_spec (ind ip) 0) as [|Hn]; [done|].
  destruct (grown_blk _ _ _ _ _ _ G Hr (Hi Hn)) as (_ & -> & _). done.
Qed.

Lemma inode_ok_grown sb t t' r k ip :
  grown sb t t' r k -> used (t_view t) sb r = false -> inode_ok sb t ip -> inode_ok sb t' ip.
Proof.
  intros G Hr [I1 I2 I3 I4 I5].
  assert (forall bn, fblock (t_view t') ip bn = fblock (t_view t) ip bn) as Hf
    by (intros bn; by eapply grown_fblock).
  split.
  - done.
  - intros bn Hbn. rewrite Hf. intros Hn. destruct (I2 bn Hbn Hn) as [Hb Hne]. split; [|done].
    by eapply grown_blk.
  - intros Hn. by eapply grown_blk; [exact G| |apply I3].
  - intros bn bn' Hbn Hbn'. rewrite !Hf. by apply I4.
  - destruct I5 as (Hb & Hne & Hd). split; [by eapply grown_blk|]. split; [done|].
    intros bn Hbn. rewrite Hf. by apply Hd.
Qed.

(** Entry [k] of the block list set to a fresh block. *)
Lemma fblock_direct v ip bn x bn' :
  bn < NDIRECT ->
  fblock v (set_i_addr bn x ip) bn' = if decide (bn' = bn) then x else fblock v ip bn'.
Proof.
  intros Hbn. unfold fblock, ind. simpl. case_decide as E.
  - subst. rewrite (proj2 (Z.ltb_lt _ _) Hbn). apply lookup_total_insert_eq.
  - rewrite (lookup_total_insert_ne _ bn NDIRECT) by lia.
    destruct (bn' <? NDIRECT); [by apply lookup_total_insert_ne|done].
Qed.

Lemma inode_ok_direct sb t t' r k ip bn :
  alloc_ok sb t -> inode_ok sb t ip -> grown sb t t' r k -> 0 < r < sb_size sb ->
  used (t_view t) sb r = false -> 0 <= bn < NDIRECT -> fblock (t_view t) ip bn = 0 ->
  inode_ok sb t' (set_i_addr bn r ip).
Proof.
  intros Hal Hio G Hr Hu Hbn Hz.
  pose proof (inode_ok_grown _ _ _ _ _ _ G Hu Hio) as [I1 I2 I3 I4 I5].
  pose proof (grown_new _ _ _ _ _ Hal G ltac:(lia) Hu) as Hnew.
  assert (ind (set_i_addr bn r ip) = ind ip) as Hind.
  { unfold ind. simpl. apply lookup_total_insert_ne. lia. }
  assert (forall x, blk_ok sb t x -> x <> r) as Hne by (intros x Hx; by eapply grown_blk).
  destruct Hio as [_ J2 J3 _ (J5 & _)].
  assert (forall x, 0 <= x < MAXFILE -> fblock (t_view t') ip x <> r) as Hfr.
  { intros x Hx E. rewrite (grown_fblock _ _ _ _ _ ip x G Hu J3) in E.
    apply (Hne (fblock (t_view t) ip x)); [apply J2; [done|lia]|done]. }
  split; [done| | | |].
  - intros x Hx. rewrite fblock_direct, Hind by lia. case_decide.
    + intros _. split; [done|]. intros E. destruct (Z.eq_dec (ind ip) 0); [lia|].
      apply (Hne (ind ip)); [by apply J3|done].
    + by apply I2.
  - rewrite Hind. apply I3.
  - intros x y Hx Hy. rewrite !fblock_direct by lia.
    repeat case_decide; subst; try done.
    + intros _ E. exfalso. by apply (Hfr y).
    + intros _ E. exfalso. by apply (Hfr x).
    + by apply I4.
  - rewrite Hind. simpl. destruct I5 as (Hd & Hdi & Hdf). split; [done|]. split; [done|].
    intros x Hx. rewrite fblock_direct by lia. case_decide; [|by apply Hdf].
    intros E. by apply (Hne (IBLOCK (i_inum ip) sb)).
Qed.

(** [bmap] of a block among the first twelve. *)
Lemma bmap_direct s t i bn :
  at_tx s t -> settled t -> alloc_ok (f_sb s) t -> inode_ok (f_sb s) t (geti i s) ->
  room t 2 -> (length (t_log t) + 1 < cap)%nat -> 0 <= bn < NDIRECT ->
  exists r s' t', bmap i bn s = Ok r s' /\ bmapped s t i bn s' t' r 2.
Proof.
  intros Ht Hd Hal Hio Hroom Hcap Hbn. unfold bmap. rewrite gets_bind.
  rewrite (proj2 (Z.ltb_lt bn NDIRECT)) by lia. set (ip := geti i s) in *.
  assert (fblock (t_view t) ip bn = i_addrs ip !!! bn) as Hfb.
  { unfold fblock. by rewrite (proj2 (Z.ltb_lt bn NDIRECT)) by lia. }
  assert (MAXFILE = 268 /\ NDIRECT = 12) as [HMX HND] by done.
  destruct (Z.eqb_spec (i_addrs ip !!! bn) 0) as [E|E].
  - rewrite (io_dev _ _ _ Hio).
    destruct (balloc_spec home cap st s t Ht Hd Hal Hroom Hcap)
      as [(s1 & H1 & E1 & Ht1 & Hfull)|(r & s1 & H1 & E1 & Ht1 & sb & <- & Hr & Hu & _ & _)].
    + exists 0, (set_f_out (f_out s ++ ["balloc: out of blocks"]) s1), t. mstep H1. split; [done|].
      pose proof (same_but_trans _ _ _ _ _ _ (same_fs_but _ _ i E1)
        (same_but_out s1 (f_out s ++ ["balloc: out of blocks"]) i)) as Hsb.
      assert (geti i s1 = ip) as Hg by (destruct E1 as [l ->]; done).
      split; try done; try lia.
      * by eexists.
      * unfold geti in *. simpl. by rewrite Hg.
      * intros x Hx. rewrite decide_False by tauto. unfold geti in *. simpl. by rewrite Hg.
      * intros Hn. fold ip in Hn. congruence.
      * left. unfold geti in *. simpl. by rewrite Hg.
    + pose proof (alloc_grown home (f_sb s) t r Hal ltac:(lia) Hu) as G.
      destruct (Z.eqb_spec r 0) as [|_]; [lia|].
      exists r, (updi i (set_i_addr bn r) s1), (t_put r ∅ (mark (f_sb s) r t)).
      rewrite (bind_ok _ _ _ _ _ H1). destruct (Z.eqb_spec r 0) as [|_]; [lia|]. rewrite modify_bind.
      split; [done|]. assert (geti i s1 = ip) as Hg by (destruct E1 as [l ->]; done).
      assert (geti i (updi i (set_i_addr bn r) s1) = set_i_addr bn r ip) as Hg'
        by (rewrite geti_updi_eq; by rewrite Hg).
      split; try apply G; try done.
      * eexists. eapply same_but_trans; [by apply same_fs_but|apply same_but_addr].
      * by eapply alloc_ok_grown.
      * rewrite Hg'. apply (inode_ok_direct (f_sb s) t _ r 2); try done. congruence.
      * intros x Hx. rewrite Hg', fblock_direct by lia.
        rewrite (grown_fblock _ _ _ _ _ ip x G Hu (io_ind _ _ _ Hio)).
        repeat case_decide; try done; try tauto; lia.
      * intros Hn. fold ip in Hn. congruence.
      * intros _ _. split; [apply G|]. by split.
      * intros x Hx Hux Hnb _. apply G; [done|]. congruence.
      * intros x Hx Hux. rewrite (gr_used _ _ _ _ _ G) by done. by rewrite Hux, orb_true_r.
      * left. rewrite Hg'. unfold ind. simpl. apply lookup_total_insert_ne. lia.
      * lia.
  - exists (i_addrs ip !!! bn), s, t. split; [done|]. split; try done; try lia; try by left.
    + eexists. apply same_fs_but, same_fs_refl.
    + intros x Hx. case_decide as Ec; [|done]. destruct Ec as [-> _]. fold ip. by rewrite Hfb.
    + intros Hn. fold ip. by rewrite <- Hfb.
Qed.

(** Holding a block that is in use does not disturb allocation. *)
Lemma alloc_ok_hold sb t i x : alloc_ok sb t -> blk_ok sb t x -> alloc_ok sb (t_hold i x t).
Proof.
  intros [A1 A2 A3] [B1 B2 B3 B4 B5].
  assert (forall y, y <> x -> free_blk t y -> free_blk (t_hold i x t) y) as Hf.
  { intros y Hy Hfy j. simpl. destruct (decide (j = i)) as [->|].
    - rewrite lookup_insert_eq. congruence.
    - rewrite lookup_insert_ne by done. apply Hfy. }
  split; [done| |].
  - intros b Hb. destruct (A2 b Hb) as [Hh Hfb]. split; [done|]. apply Hf; [|done].
    intros E. apply B5. by exists b.
  - intros b Hb Hu. destruct (A3 b Hb Hu) as (H1 & H2 & H3). split; [done|]. split; [|done].
    apply Hf; [|done]. intros ->. simpl in Hu. congruence.
Qed.

(** Rewriting a block that is not of the bitmap keeps the bitmap. *)
Lemma used_put_other sb t x d b :
  ~ bitmap_blk sb x -> 0 <= b < sb_size sb -> used (t_view (t_put x d t)) sb b = used (t_view t) sb b.
Proof.
  intros Hx Hb. unfold used, t_put. simpl. rewrite decide_False; [done|].
  intros E. apply Hx. by exists b.
Qed.

Lemma alloc_ok_put sb t x d : alloc_ok sb t -> ~ bitmap_blk sb x -> alloc_ok sb (t_put x d t).
Proof.
  intros [A1 A2 A3] Hx. split; [done|done|]. intros b Hb. rewrite used_put_other by done. by apply A3.
Qed.

Lemma blk_ok_put sb t x d y : ~ bitmap_blk sb x -> blk_ok sb t y -> blk_ok sb (t_put x d t) y.
Proof. intros Hx [B1 B2 B3 B4 B5]. split; try done. by rewrite used_put_other by (done || lia). Qed.

(** Storing [r] in entry [k] of the indirect block. *)
Lemma fblock_indirect t ip k r bn' :
  ind ip <> 0 -> 0 <= k < NINDIRECT -> 0 <= r < 4294967296 -> 0 <= bn' < MAXFILE ->
  fblock (t_view (t_put (ind ip) (st32 (t_view t (ind ip)) (4 * k) r) t)) ip bn' =
    if decide (bn' = k + NDIRECT) then r else fblock (t_view t) ip bn'.
Proof.
  intros Hi Hk Hr Hb. assert (MAXFILE = 268 /\ NDIRECT = 12) as [HM HN] by done.
  unfold fblock. destruct (Z.ltb_spec bn' NDIRECT); [by rewrite decide_False by lia|].
  rewrite (proj2 (Z.eqb_neq _ _) Hi). simpl. rewrite decide_True by done. case_decide as E.
  - subst. replace (k + NDIRECT - NDIRECT) with k by lia. rewrite ld32_st32. by apply u32_small.
  - apply ldn_stn_other. lia.
Qed.

Lemma inode_ok_indirect sb t ip k r :
  inode_ok sb t ip -> ind ip <> 0 -> 0 <= k < NINDIRECT -> sb_size sb < 4294967296 ->
  blk_ok sb t r -> r <> ind ip -> r <> IBLOCK (i_inum ip) sb ->
  (forall x, 0 <= x < MAXFILE -> fblock (t_view t) ip x <> r) ->
  inode_ok sb (t_put (ind ip) (st32 (t_view t (ind ip)) (4 * k) r) t) ip.
Proof.
  intros [I1 I2 I3 I4 (D1 & D2 & D3)] Hi Hk Hsz Hr Hri Hrd Hfr.
  destruct (I3 Hi) as [_ _ _ _ Hnb]. pose proof (bk_range _ _ _ Hr) as Hrr.
  split; [done| | | |].
  - intros x Hx. rewrite fblock_indirect by (done || lia). case_decide.
    + intros _. split; [by apply blk_ok_put|done].
    + intros Hn. destruct (I2 x Hx Hn) as [Hb Hne]. split; [by apply blk_ok_put|done].
  - intros _. apply blk_ok_put; [done|by apply I3].
  - intros x y Hx Hy. rewrite !fblock_indirect by (done || lia). repeat case_decide; subst; try done.
    + intros _ E. exfalso. by apply (Hfr y).
    + intros _ E. exfalso. by apply (Hfr x).
    + by apply I4.
  - split; [by apply blk_ok_put|]. split; [done|]. intros x Hx.
    rewrite fblock_indirect by (done || lia). case_decide; [done|]. by apply D3.
Qed.

(** The last part of [bmap]: entry [k] of the indirect block [addr]. *)
Definition bmap_entry (dev addr k : Z) : M (fst L) Z :=
  bp ← lop (op_bread dev addr);
  a ← lop (op_data bp);
  let addr := ld32 a (4 * k) in
  addr ←
    (if addr =? 0 then
       addr ← balloc dev;
       when (negb (addr =? 0))
         (a ← lop (op_data bp);
          lop (op_set bp (st32 a (4 * k) addr));;
          lop (op_log_write bp));;
       mret addr
     else mret addr);
  lop (op_brelse bp);;
  mret addr.

(** Nothing was there to change. *)
Lemma bmapped_same s t i bn s' t' r k A :
  at_tx s' t' -> t ≡t t' -> same_but s s' i A -> A = i_addrs (geti i s) ->
  alloc_ok (f_sb s) t -> inode_ok (f_sb s) t (geti i s) ->
  r = fblock (t_view t) (geti i s) bn -> (r = 0 -> disk_full (f_sb s) t) ->
  bmapped s t i bn s' t' r k.
Proof.
  intros Ht (Ev & Eh & Ed & El) Hsb -> Hal Hio -> Hfull.
  assert (geti i s' = geti i s) as Hg by (rewrite (sbt_i _ _ _ _ Hsb); apply set_i_addrs_same).
  assert (forall x, t_view t x = t_view t' x) as Hv by done.
  assert (forall ip bn, fblock (t_view t') ip bn = fblock (t_view t) ip bn) as Hf.
  { intros ip x. unfold fblock. by rewrite Hv. }
  assert (forall b, used (t_view t') (f_sb s) b = used (t_view t) (f_sb s) b) as Hu.
  { intros b. unfold used. by rewrite Hv. }
  assert (forall x, blk_ok (f_sb s) t x -> blk_ok (f_sb s) t' x) as Hb.
  { intros x [B1 B2 B3 B4 B5]. split; try done; [unfold free_blk; by rewrite <- Eh|by rewrite Hu]. }
  split; try done; try (by rewrite El; lia); try by rewrite ?Eh, ?Ed.
  - by eexists.
  - destruct Hal as [A1 A2 A3]. split; [done| |].
    + intros b Hb'. unfold free_blk. rewrite <- Eh. by apply A2.
    + intros b Hb'. rewrite Hu. unfold free_blk. rewrite <- Eh. by apply A3.
  - rewrite Hg. destruct Hio as [I1 I2 I3 I4 (D1 & D2 & D3)]. split; [done| | | |].
    + intros x Hx. rewrite Hf. intros Hn. destruct (I2 x Hx Hn). split; [by apply Hb|done].
    + intros Hn. by apply Hb, I3.
    + intros x y Hx Hy. rewrite !Hf. by apply I4.
    + split; [by apply Hb|]. split; [done|]. intros x Hx. rewrite Hf. by apply D3.
  - intros x Hx. rewrite Hg, Hf. case_decide as E; [|done]. by destruct E as [-> _].
  - intros E Hn. congruence.
  - left. by rewrite Hg.
  - intros Hr0 b Hb0. rewrite Hu. by apply Hfull.
Qed.

(** A fresh block [r] hung into entry [k] of the indirect block. *)
Lemma bmapped_entry s t i k s' r :
  alloc_ok (f_sb s) t -> inode_ok (f_sb s) t (geti i s) -> ind (geti i s) <> 0 -> 0 <= k < NINDIRECT ->
  0 < r < sb_size (f_sb s) -> used (t_view t) (f_sb s) r = false ->
  fblock (t_view t) (geti i s) (k + NDIRECT) = 0 ->
  same_but s s' i (i_addrs (geti i s)) ->
  let x := ind (geti i s) in
  let tg := t_put r ∅ (mark (f_sb s) r t) in
  let t' := t_put x (st32 (t_view t x) (4 * k) r) tg in
  at_tx s' t' -> bmapped s t i (k + NDIRECT) s' t' r 3.
Proof.
  intros Hal Hio Hi Hk Hr Hu Hz Hsb x tg t' Ht'. set (ip := geti i s) in *. set (sb := f_sb s) in *.
  assert (MAXFILE = 268 /\ NDIRECT = 12 /\ NINDIRECT = 256) as (HM & HN & HI) by done.
  pose proof (alloc_grown home sb t r Hal ltac:(lia) Hu) as G. fold tg in G.
  pose proof (io_ind _ _ _ Hio Hi) as Hx. fold x in Hx.
  destruct (grown_blk _ _ _ _ _ _ G Hu Hx) as (Hxg & Evx & Hxr).
  pose proof (inode_ok_grown _ _ _ _ _ _ G Hu Hio) as Hiog.
  pose proof (grown_new _ _ _ _ _ Hal G ltac:(lia) Hu) as Hnew.
  pose proof (bk_map _ _ _ Hx) as Hxm. pose proof (al_size _ _ _ Hal) as Hsz.
  assert (geti i s' = ip) as Hg by (rewrite (sbt_i _ _ _ _ Hsb); apply set_i_addrs_same).
  assert (Efb : forall y, fblock (t_view tg) ip y = fblock (t_view t) ip y)
    by (intros y; eapply grown_fblock; [exact G|done|apply Hio]).
  assert (forall y, blk_ok sb t y -> y <> r) as Hner by (intros y Hy; by eapply grown_blk).
  assert (t' = t_put x (st32 (t_view tg x) (4 * k) r) tg) as Et' by (unfold t'; by rewrite Evx).
  assert (forall y, ~ bitmap_blk sb y -> y <> r -> y <> x -> t_view t' y = t_view t y) as Hoth.
  { intros y Hy1 Hy2 Hy3. unfold t'. simpl. rewrite decide_False by done. by apply (gr_other _ _ _ _ _ G). }
  split.
  - done.
  - by apply (gr_held _ _ _ _ _ G).
  - by apply (gr_dirty _ _ _ _ _ G).
  - pose proof (gr_log _ _ _ _ _ G). pose proof (log_add_length x (t_log tg)). simpl in *. lia.
  - by eexists.
  - rewrite Et'. apply alloc_ok_put; [|done]. by eapply alloc_ok_grown.
  - rewrite Hg, Et'. apply inode_ok_indirect; try done; try lia.
    + fold sb. lia.
    + intros E. apply (Hner (IBLOCK (i_inum ip) sb)); [apply Hio|done].
    + intros y Hy E. rewrite Efb in E. apply (Hner (fblock (t_view t) ip y)); [|done].
      apply Hio; [done|]. lia.
  - intros y Hy. rewrite Hg, Et'. unfold x. rewrite fblock_indirect by (done || lia). rewrite Efb.
    repeat case_decide; try done; try tauto; lia.
  - intros Hn. fold ip in Hn. congruence.
  - intros _ _. split; [|by split]. unfold t'. simpl. rewrite decide_False by congruence.
    apply (gr_view _ _ _ _ _ G).
  - intros y Hy Huy Hby Hne. fold sb in Huy. apply Hoth; [done|congruence|done].
  - intros y Hy Huy. fold sb in Huy |- *. rewrite Et', used_put_other, (gr_used _ _ _ _ _ G) by done. by rewrite Huy, orb_true_r.
  - left. by rewrite Hg.
  - lia.
Qed.

Lemma bmap_entry_spec s t i k :
  at_tx s t -> settled t -> alloc_ok (f_sb s) t -> inode_ok (f_sb s) t (geti i s) ->
  ind (geti i s) <> 0 -> 0 <= k < NINDIRECT -> room t 3 -> (length (t_log t) + 2 < cap)%nat ->
  exists r s' t', bmap_entry ROOTDEV (ind (geti i s)) k s = Ok r s' /\
    bmapped s t i (k + NDIRECT) s' t' r 3.
Proof.
  intros Ht Hd Hal Hio Hi Hk Hroom Hcap. set (ip := geti i s) in *. set (x := ind ip) in *.
  pose proof (io_ind _ _ _ Hio Hi) as Hx. fold x in Hx. assert (MAXFILE = 268 /\ NDIRECT = 12 /\ NINDIRECT = 256) as (HM & HN & HI) by done.
  assert (fblock (t_view t) ip (k + NDIRECT) = ld32 (t_view t x) (4 * k)) as Hfb.
  { unfold fblock. fold x. rewrite (proj2 (Z.ltb_ge _ _)), (proj2 (Z.eqb_neq _ _) Hi) by lia. f_equal. lia. }
  destruct (f_bread _ _ _ s t x Ht (bk_free _ _ _ Hx)) as (bp & s1 & H1 & E1 & Hbp & Ht1); [unfold room in *; lia|].
  set (t1 := t_hold bp x t) in *. pose proof (f_data _ _ _ s1 t1 bp x Ht1 (lookup_insert_eq _ _ _)) as Hdata.
  change (t_view t1 x) with (t_view t x) in Hdata.
  unfold bmap_entry. mstep H1. mstep Hdata.
  destruct (Z.eqb_spec (ld32 (t_view t x) (4 * k)) 0) as [Ez|Ez].
  - (* a new block *)
    destruct (balloc_spec home cap st s1 t1 Ht1 Hd) as
      [(s2 & H2 & E2 & Ht2 & Hfull)|(r & s2 & H2 & E2 & Ht2 & sb & Esb & Hr & Hu & _ & _)].
    { assert (f_sb s1 = f_sb s) as -> by (by destruct E1 as [l ->]). by apply alloc_ok_hold. }
    { unfold room, t1 in *. simpl. rewrite map_size_insert_None by done. lia. }
    { simpl. lia. }
    + set (s2' := set_f_out (f_out s1 ++ ["balloc: out of blocks"]) s2).
      destruct (f_brelse _ _ _ s2' t1 bp x) as (s3 & H3 & E3 & Ht3); [exact Ht2|apply lookup_insert_eq|simpl; rewrite Hd; set_solver|].
      exists 0, s3, t. rewrite (bind_ok _ _ _ 0 s2') by (by mstep H2). mstep H3. split; [done|].
      eapply bmapped_same; [|reflexivity| |reflexivity|done|done| |].
      * eapply at_tx_ext; [exact _|exact Ht3|]. split_and!; simpl; try done. by rewrite delete_insert_id.
      * destruct E1 as [l1 ->], E2 as [l2 ->], E3 as [l3 ->].
        split; try done. simpl. by rewrite set_i_addrs_same.
      * fold ip. by rewrite Hfb.
      * intros _. assert (f_sb s1 = f_sb s) as Es1 by (by destruct E1 as [l ->]). by rewrite Es1 in Hfull.
    + assert (f_sb s1 = f_sb s) as Es1 by (by destruct E1 as [l ->]). rewrite Es1 in Esb. subst sb.
      rewrite Es1 in Ht2. set (t2 := t_put r ∅ (mark (f_sb s) r t1)) in *.
      change (t_view t1) with (t_view t) in Hu.
      pose proof (alloc_grown home (f_sb s) t r Hal ltac:(lia) Hu) as G.
      destruct (grown_blk _ _ _ _ _ _ G Hu Hx) as (_ & Evx & _).
      pose proof (f_data _ _ _ s2 t2 bp x Ht2 (lookup_insert_eq _ _ _)) as Hdata2.
      change (t_view t2 x) with (t_view (t_put r ∅ (mark (f_sb s) r t)) x) in Hdata2. rewrite Evx in Hdata2.
      set (d := st32 (t_view t x) (4 * k) r).
      destruct (f_set _ _ _ s2 t2 bp x d Ht2) as (s3 & H3 & E3 & Ht3); [apply lookup_insert_eq|].
      destruct (f_log_write _ _ _ s3 _ bp x Ht3) as (s4 & H4 & E4 & Ht4); [apply lookup_insert_eq|apply Hx| |].
      { pose proof (gr_log _ _ _ _ _ G). simpl in *. lia. }
      destruct (f_brelse _ _ _ s4 _ bp x Ht4) as (s5 & H5 & E5 & Ht5); [apply lookup_insert_eq|simpl; set_solver|].
      exists r, s5, (t_put x d (t_put r ∅ (mark (f_sb s) r t))). split.
      * rewrite (bind_ok _ _ _ r s4); [by mstep H5|].
        mstep H2. destruct (Z.eqb_spec r 0) as [|_]; [lia|]. cbn [negb when].
        rewrite (bind_ok _ _ _ tt s4); [done|]. mstep Hdata2. fold d. mstep H3. exact H4.
      * assert (same_but s s5 i (i_addrs (geti i s))) as Hsb.
        { destruct E1 as [l1 ->], E2 as [l2 ->], E3 as [l3 ->], E4 as [l4 ->], E5 as [l5 ->].
          apply same_fs_but. by eexists. }
        apply bmapped_entry; try done; [fold ip; by rewrite Hfb|].
        eapply at_tx_ext; [exact _|exact Ht5|]. split_and!; simpl; try done.
        -- by rewrite delete_insert_id.
        -- rewrite Hd. set_solver.
  - destruct (f_brelse _ _ _ s1 t1 bp x Ht1) as (s2 & H2 & E2 & Ht2); [apply lookup_insert_eq|simpl; rewrite Hd; set_solver|].
    exists (ld32 (t_view t x) (4 * k)), s2, t. rewrite ret_bind. mstep H2. split; [done|].
    eapply bmapped_same; [|reflexivity| |reflexivity|done|done| |].
    + eapply at_tx_ext; [exact _|exact Ht2|]. split_and!; simpl; try done. by rewrite delete_insert_id.
    + destruct E1 as [l1 ->], E2 as [l2 ->]. apply same_fs_but. by eexists.
    + fold ip. by rewrite Hfb.
    + done.
Qed.

(** A fresh, empty indirect block. *)
Section new_indirect.
Context s t (i : nat) s1 (r1 : Z).
Hypothesis Hal : alloc_ok (f_sb s) t.
Hypothesis Hio : inode_ok (f_sb s) t (geti i s).
Hypothesis Hi : ind (geti i s) = 0.
Hypothesis Hr : 0 < r1 < sb_size (f_sb s).
Hypothesis Hu : used (t_view t) (f_sb s) r1 = false.
Hypothesis E1 : same_fs s s1.
Let s2 := updi i (set_i_addr NDIRECT r1) s1.
Let t1 := t_put r1 ∅ (mark (f_sb s) r1 t).

Lemma new_ind_grown : grown (f_sb s) t t1 r1 2.
Proof. apply (alloc_grown home); [done|lia|done]. Qed.
Let G := new_ind_grown.

Lemma new_ind_inode : geti i s2 = set_i_addr NDIRECT r1 (geti i s) /\ ind (geti i s2) = r1.
Proof.
  unfold s2. rewrite geti_updi_eq. destruct E1 as [l ->]. split; [done|].
  unfold ind. simpl. apply lookup_total_insert_eq.
Qed.

Lemma new_ind_fblock bn :
  0 <= bn < MAXFILE -> fblock (t_view t1) (geti i s2) bn = fblock (t_view t) (geti i s) bn.
Proof.
  intros Hbn. destruct new_ind_inode as [Eg Eind]. unfold fblock. rewrite Eind, Hi. rewrite Eg.
  destruct (Z.ltb_spec bn NDIRECT).
  - simpl. apply lookup_total_insert_ne. lia.
  - rewrite (proj2 (Z.eqb_neq r1 0)) by lia. rewrite (gr_view _ _ _ _ _ G).
    unfold ld32. by rewrite ldn_empty.
Qed.

Lemma new_ind_ok : inode_ok (f_sb s) t1 (geti i s2).
Proof.
  destruct new_ind_inode as [Eg Eind].
  assert (forall x, blk_ok (f_sb s) t x -> x <> r1) as Hne by (intros x Hx; by eapply grown_blk).
  assert (forall x, blk_ok (f_sb s) t x -> blk_ok (f_sb s) t1 x) as Hk by (intros x Hx; by eapply grown_blk).
  destruct Hio as [I1 I2 I3 I4 (D1 & D2 & D3)]. split.
  - by rewrite Eg.
  - intros bn Hbn. rewrite new_ind_fblock, Eind by done. intros Hn. destruct (I2 bn Hbn Hn) as [Hb _].
    split; [by apply Hk|by apply Hne].
  - intros _. rewrite Eind. eapply (grown_new _ _ _ _ _ Hal G); [lia|done].
  - intros x y Hx Hy. rewrite !new_ind_fblock by done. by apply I4.
  - rewrite Eind. replace (i_inum (geti i s2)) with (i_inum (geti i s)) by (by rewrite Eg).
    split; [by apply Hk|]. split; [by apply Hne|]. intros x Hx. rewrite new_ind_fblock by done. by apply D3.
Qed.

Lemma new_ind_bmapped bn s' t' r :
  NDIRECT <= bn -> bmapped s2 t1 i bn s' t' r 3 -> bmapped s t i bn s' t' r 5.
Proof.
  intros Hbn H. destruct new_ind_inode as [Eg Eind]. assert (NDIRECT = 12) as HN by done.
  assert (f_sb s2 = f_sb s) as Esb by (unfold s2; by destruct E1 as [l ->]).
  assert (Hu' : forall x, 0 <= x < sb_size (f_sb s) ->
    used (t_view t1) (f_sb s) x = bool_decide (x = r1) || used (t_view t) (f_sb s) x) by apply G.
  assert (fblock (t_view t) (geti i s) bn = 0) as Hz.
  { unfold fblock. rewrite (proj2 (Z.ltb_ge _ _)), Hi by lia. done. }
  pose proof H as [B1 B2 B3 B4 (A & B5) B6 B7 B8 B9 B10 B11 B12 B13 B14]. rewrite Esb in *. split; try done.
  - pose proof (gr_log _ _ _ _ _ G). simpl in *. lia.
  - exists A. assert (same_but s s2 i (<[NDIRECT := r1]> (i_addrs (geti i s1)))) as H0.
    { eapply same_but_trans; [by apply same_fs_but|apply same_but_addr]. }
    by eapply same_but_trans.
  - intros x Hx. rewrite B8 by done. by rewrite new_ind_fblock.
  - intros _ Hn. destruct B10 as (Hv & Hur & Hrr); [|done|].
    + destruct (decide (bn < MAXFILE)); [by rewrite new_ind_fblock by lia|].
      unfold fblock. rewrite (proj2 (Z.ltb_ge _ _)), Eind by lia.
      rewrite (proj2 (Z.eqb_neq r1 0)) by lia. rewrite (gr_view _ _ _ _ _ G).
      unfold ld32. by rewrite ldn_empty.
    + split; [done|]. split; [|done]. rewrite Hu' in Hur by lia. by apply orb_false_iff in Hur as [_ ?].
  - intros x Hx Hux Hnb _. assert (x <> r1) by congruence. rewrite B11; try done.
    + by apply (gr_other _ _ _ _ _ G).
    + rewrite Hu' by done. by rewrite Hux, orb_true_r.
    + by rewrite Eind.
  - intros x Hx Hux. apply B12; [done|]. rewrite Hu' by done. by rewrite Hux, orb_true_r.
  - right. destruct B13 as [->|[Hf Hrg]]; [rewrite Eind; split; [done|lia]|]. split; [|done].
    rewrite Hu' in Hf by done. by apply orb_false_iff in Hf as [_ ?].
Qed.
End new_indirect.

(** [bmap]: the block of the file is returned, allocated if there was none;
    the other blocks of the file stay, what they hold too, and no block in
    use is given away.  [0] means that the disk is full. *)
Lemma bmap_spec s t i bn :
  at_tx s t -> settled t -> alloc_ok (f_sb s) t -> inode_ok (f_sb s) t (geti i s) ->
  room t 5 -> (length (t_log t) + 4 < cap)%nat -> 0 <= bn < MAXFILE ->
  exists r s' t', bmap i bn s = Ok r s' /\ bmapped s t i bn s' t' r 5.
Proof.
  intros Ht Hd Hal Hio Hroom Hcap Hbn. assert (MAXFILE = 268 /\ NDIRECT = 12 /\ NINDIRECT = 256) as (HM & HN & HI) by done.
  assert (forall s t i bn s' t' r k k', (k <= k')%nat -> bmapped s t i bn s' t' r k -> bmapped s t i bn s' t' r k') as Hmono.
  { intros s0 t0 i0 b0 s' t' r k k' Hle []. split; try done. lia. }
  destruct (decide (bn < NDIRECT)) as [Hlt|Hge].
  { destruct (bmap_direct s t i bn Ht Hd Hal Hio) as (r & s' & t' & Hrun & Hb); [unfold room in *; lia|lia|lia|].
    exists r, s', t'. split; [done|]. by apply (Hmono _ _ _ _ _ _ _ 2%nat); [lia|]. }
  unfold bmap. rewrite gets_bind. rewrite (proj2 (Z.ltb_ge _ _)) by lia.
  rewrite (proj2 (Z.ltb_lt (bn - NDIRECT) NINDIRECT)) by lia. rewrite (io_dev _ _ _ Hio).
  change (i_addrs (geti i s) !!! NDIRECT) with (ind (geti i s)).
  replace bn with (bn - NDIRECT + NDIRECT) by lia. set (k := bn - NDIRECT).
  replace (k + NDIRECT - NDIRECT) with k by lia.
  destruct (Z.eqb_spec (ind (geti i s)) 0) as [Ei|Ei].
  - destruct (balloc_spec home cap st s t Ht Hd Hal) as
      [(s1 & H1 & E1 & Ht1 & Hfull)|(r1 & s1 & H1 & E1 & Ht1 & sb & <- & Hr & Hu & _ & _)]; [unfold room in *; lia|lia| |].
    + set (s2 := set_f_out (f_out s ++ ["balloc: out of blocks"]) s1) in *.
      exists 0, s2, t. rewrite (bind_ok _ _ _ 0 s2) by (by mstep H1). split; [done|].
      eapply bmapped_same; [exact Ht1|reflexivity| |reflexivity|done|done| |done].
      * destruct E1 as [l1 ->]. split; try done. simpl. by rewrite set_i_addrs_same.
      * unfold fblock. rewrite (proj2 (Z.ltb_ge _ _)), Ei by lia. done.
    + set (s2 := updi i (set_i_addr NDIRECT r1) s1).
      rewrite (bind_ok _ _ _ r1 s2).
      2: { mstep H1. destruct (Z.eqb_spec r1 0); [lia|]. done. }
      cbv beta. destruct (Z.eqb_spec r1 0) as [|_]; [lia|].
      pose proof (new_ind_grown s t r1 Hal Hr Hu) as G.
      destruct (new_ind_inode s i s1 r1 E1) as [Eg Eind]. fold s2 in Eg, Eind.
      assert (f_sb s2 = f_sb s) as Esb by (unfold s2; by destruct E1 as [l ->]).
      destruct (bmap_entry_spec s2 (t_put r1 ∅ (mark (f_sb s) r1 t)) i k) as (r & s3 & t3 & H3 & Hb).
      * exact Ht1.
      * done.
      * rewrite Esb. by eapply alloc_ok_grown.
      * rewrite Esb. by apply new_ind_ok.
      * rewrite Eind. lia.
      * lia.
      * pose proof (gr_log _ _ _ _ _ G). unfold room in *. rewrite (gr_held _ _ _ _ _ G). lia.
      * pose proof (gr_log _ _ _ _ _ G). lia.
      * exists r, s3, t3. rewrite Eind in H3. split; [exact H3|].
        apply (new_ind_bmapped s t i s1 r1); try done. lia.
  - rewrite ret_bind. rewrite (proj2 (Z.eqb_neq _ _) Ei).
    destruct (bmap_entry_spec s t i k Ht Hd Hal Hio Ei) as (r & s3 & t3 & H3 & Hb); [lia|unfold room in *; lia|lia|].
    exists r, s3, t3. split; [exact H3|]. by apply (Hmono _ _ _ _ _ _ _ 3%nat); [lia|].
Qed.
End file.
