(* ===== verification/Dinode.v ===== *)
(** The disk form of an inode: [put_dinode] is what [iupdate] stores,
    [get_dinode] is what [ilock] loads. *)

From S2P Require Import Prelude Mem Sleeplock Fs.

(** What the fields of [struct dinode] can hold. *)
Definition short (x : Z) : Prop := -32768 <= x < 32768.
Definition uint (x : Z) : Prop := 0 <= x < 4294967296.

Record dinode_fits (ip : inode) : Prop := {
  df_type : short (i_type ip); df_major : short (i_major ip); df_minor : short (i_minor ip);
  df_nlink : short (i_nlink ip); df_size : uint (i_size ip);
  df_addrs : forall k, 0 <= k < 13 -> uint (i_addrs ip !!! k) }.

Lemma i16_u16 x : short x -> i16 (u16 x) = x.
Proof. intros H. unfold i16, u16. rewrite swrap_wrap. by apply i16_small. Qed.

Lemma rd_put_addrs d a (addrs : gmap Z Z) n b :
  b < a \/ a + 4 * Z.of_nat n <= b ->
  rd (foldl (fun d k => st32 d (a + 4 * Z.of_nat k) (addrs !!! Z.of_nat k)) d (seq 0 n)) b = rd d b.
Proof.
  intros H. induction n as [|n IH]; [done|].
  rewrite seq_S, foldl_app. simpl. unfold st32 at 1. rewrite rd_stn_other by lia. apply IH. lia.
Qed.

Lemma rd_store_addrs d a addrs b : b < a \/ a + 52 <= b -> rd (store_addrs d a addrs) b = rd d b.
Proof. intros H. apply (rd_put_addrs d a addrs 13). lia. Qed.

Lemma ld_put_addrs d a (addrs : gmap Z Z) n k :
  (k < n)%nat -> uint (addrs !!! Z.of_nat k) ->
  ld32 (foldl (fun d k => st32 d (a + 4 * Z.of_nat k) (addrs !!! Z.of_nat k)) d (seq 0 n)) (a + 4 * Z.of_nat k)
    = addrs !!! Z.of_nat k.
Proof.
  intros H Hu. induction n as [|n IH]; [lia|]. rewrite seq_S, foldl_app. simpl.
  destruct (decide (k = n)) as [->|].
  - rewrite ld32_st32. by apply u32_small.
  - unfold ld32, st32. rewrite ldn_stn_other by lia. apply IH. lia.
Qed.

Lemma ld_store_addrs d a (addrs : gmap Z Z) k :
  0 <= k < 13 -> uint (addrs !!! k) -> ld32 (store_addrs d a addrs) (a + 4 * k) = addrs !!! k.
Proof.
  intros Hk Hu. replace k with (Z.of_nat (Z.to_nat k)) in * by lia. apply (ld_put_addrs d a addrs 13); [lia|done].
Qed.

Lemma load_addrs_n d a n k :
  (k < n)%nat ->
  foldl (fun m k => <[Z.of_nat k := ld32 d (a + 4 * Z.of_nat k)]> m) (∅ : gmap Z Z) (seq 0 n) !!! Z.of_nat k =
    ld32 d (a + 4 * Z.of_nat k).
Proof.
  intros H. induction n as [|n IH]; [lia|]. rewrite seq_S, foldl_app. simpl.
  destruct (decide (k = n)) as [->|]; [apply lookup_total_insert_eq|].
  rewrite lookup_total_insert_ne by lia. apply IH. lia.
Qed.

Lemma load_addrs_lookup d a k : 0 <= k < 13 -> load_addrs d a !!! k = ld32 d (a + 4 * k).
Proof.
  intros Hk. replace k with (Z.of_nat (Z.to_nat k)) by lia. apply (load_addrs_n d a 13). lia.
Qed.

(** Only the 64 bytes of the slot change. *)
Lemma rd_put_dinode d a ip b : b < a \/ a + 64 <= b -> rd (put_dinode d a ip) b = rd d b.
Proof.
  intros H. unfold put_dinode, st16, st32. rewrite rd_store_addrs by lia. by rewrite !rd_stn_other by lia.
Qed.

Lemma dino_slots n m : n mod IPB <> m mod IPB -> dino n + 64 <= dino m \/ dino m + 64 <= dino n.
Proof. unfold dino. lia. Qed.

Lemma get_dinode_ext d d' a ip :
  (forall b, a <= b < a + 64 -> rd d b = rd d' b) -> get_dinode d a ip = get_dinode d' a ip.
Proof.
  intros H. unfold get_dinode, load_addrs, ld16, ld32.
  assert (forall n o, 0 <= o -> o + Z.of_nat n <= 64 -> ldn n d (a + o) = ldn n d' (a + o)) as Hl.
  { intros n o H0 H1. apply ldn_ext. intros. apply H. lia. }
  rewrite !Hl by lia. rewrite <- (Z.add_0_r a) at 1. rewrite (Hl _ 0), Z.add_0_r by lia. f_equal.
  cbn [seq foldl]. by rewrite <- !Z.add_assoc, !Hl by lia.
Qed.

Section load_field.
Context (d : mem) (a : Z) (ip : inode).
Let d' := put_dinode d a ip.

(** The words of the slot. *)
Lemma put_dinode_words :
  ld16 d' a = u16 (i_type ip) /\ ld16 d' (a + 2) = u16 (i_major ip) /\ ld16 d' (a + 4) = u16 (i_minor ip) /\
  ld16 d' (a + 6) = u16 (i_nlink ip) /\ ld32 d' (a + 8) = u32 (i_size ip).
Proof.
  assert (forall n m x o, o + Z.of_nat n <= a + 12 -> ldn n (store_addrs m (a + 12) x) o = ldn n m o) as Hs.
  { intros. apply ldn_ext. intros. apply rd_store_addrs. lia. }
  unfold d', put_dinode, ld16, ld32, st16, st32. rewrite !Hs by lia.
  split_and!; rewrite ?ldn_stn_other by lia; by rewrite ldn_stn.
Qed.
End load_field.

(** What [iupdate] stored [ilock] loads. *)
Lemma get_put_dinode d a ip ip0 :
  dinode_fits ip ->
  let r := get_dinode (put_dinode d a ip) a ip0 in
  i_type r = i_type ip /\ i_major r = i_major ip /\ i_minor r = i_minor ip /\ i_nlink r = i_nlink ip /\
  i_size r = i_size ip /\ forall k, 0 <= k < 13 -> i_addrs r !!! k = i_addrs ip !!! k.
Proof.
  intros [F1 F2 F3 F4 F5 F6] r. unfold r, get_dinode.
  destruct (put_dinode_words d a ip) as (-> & -> & -> & -> & ->). simpl.
  rewrite !i16_u16 by done. rewrite u32_small by done. repeat (split; [done|]).
  intros k Hk. rewrite load_addrs_lookup by done. unfold put_dinode. apply ld_store_addrs; [done|by apply F6].
Qed.

(** The other inodes of the block stay what they are. *)
Lemma get_put_dinode_other d n m ip ip0 :
  n mod IPB <> m mod IPB -> get_dinode (put_dinode d (dino n) ip) (dino m) ip0 = get_dinode d (dino m) ip0.
Proof.
  intros H. apply get_dinode_ext. intros b Hb. apply rd_put_dinode. pose proof (dino_slots n m H). lia.
Qed.
