(* ===== verification/FileIO.v ===== *)
(** Reading and writing the content of a file: [readi] and [writei] with a
    buffer in kernel memory. *)

From S2P Require Import Prelude Mem Sleeplock Strings Kalloc Vm Bio LogTx BlockLayer Fs FsSpec FileSpec Dinode.

(** The byte of the file at offset [o]; a block that is not there reads as
    zeros. *)
Definition fbyte (v : Z -> block) (ip : inode) (o : Z) : Z :=
  if fblock v ip (o / BSIZE) =? 0 then 0 else rd (v (fblock v ip (o / BSIZE))) (o mod BSIZE).

Section io.
Context {L : Type} `{BL : BlockLayer L} (home : Z -> Prop) (cap : nat) (st : L -> tx -> Prop)
  `{LW : !BlockLaws L home cap st}.
Implicit Types (s : fst L) (t : tx).
Abbreviation at_tx := (at_tx st).
Abbreviation alloc_ok := (alloc_ok home).
Abbreviation inode_ok := (inode_ok home).
Abbreviation blk_ok := (blk_ok home).

(** [bmap] of a block the file has: nothing changes. *)
Lemma bmap_hit s t i bn :
  at_tx s t -> settled t -> inode_ok (f_sb s) t (geti i s) -> room t 1 -> 0 <= bn < MAXFILE ->
  fblock (t_view t) (geti i s) bn <> 0 ->
  exists s', bmap i bn s = Ok (fblock (t_view t) (geti i s) bn) s' /\ same_fs s s' /\ at_tx s' t.
Proof.
  intros Ht Hd Hio Hroom Hbn Hn. assert (MAXFILE = 268 /\ NDIRECT = 12 /\ NINDIRECT = 256) as (HM & HN & HI) by done.
  unfold bmap. rewrite gets_bind. unfold fblock in *. destruct (Z.ltb_spec bn NDIRECT).
  - rewrite (proj2 (Z.eqb_neq _ _) Hn). exists s. split; [done|]. split; [apply same_fs_refl|done].
  - rewrite (proj2 (Z.ltb_lt (bn - NDIRECT) NINDIRECT)) by lia. unfold ind in *.
    destruct (Z.eqb_spec (i_addrs (geti i s) !!! NDIRECT) 0) as [E|E]; [done|].
    set (x := i_addrs (geti i s) !!! NDIRECT) in *. rewrite ret_bind.
    rewrite (proj2 (Z.eqb_neq _ _) E), (io_dev _ _ _ _ Hio).
    destruct (f_bread _ _ _ s t x Ht (bk_free _ _ _ _ (io_ind _ _ _ _ Hio E)) Hroom) as (bp & s1 & H1 & E1 & Hbp & Ht1).
    pose proof (f_data _ _ _ s1 _ bp x Ht1 (lookup_insert_eq _ _ _)) as Hdata.
    destruct (f_brelse _ _ _ s1 _ bp x Ht1) as (s2 & H2 & E2 & Ht2);
      [apply lookup_insert_eq|simpl; rewrite Hd; set_solver|].
    exists s2. mstep H1. mstep Hdata. simpl t_view. rewrite (proj2 (Z.eqb_neq _ _) Hn), ret_bind. mstep H2.
    split; [done|]. split; [by eapply same_fs_trans|].
    eapply at_tx_ext; [exact _|exact Ht2|]. split_and!; simpl; try done. by rewrite delete_insert_id.
Qed.

(** ** readi *)

Definition with_mem (m : mem) s : fst L := set_f_k (set_k_mem m (f_k s)) s.

(** The file has all its blocks. *)
Definition full (t : tx) (ip : inode) : Prop :=
  0 <= i_size ip <= MAXFILE * BSIZE /\
  forall o, 0 <= o < i_size ip -> fblock (t_view t) ip (o / BSIZE) <> 0.

Lemma block_range o n : 0 <= o -> o + n <= MAXFILE * BSIZE -> 0 < n -> 0 <= o / BSIZE < MAXFILE.
Proof.
  intros H0 H1 Hn. assert (BSIZE = 1024) as HB by done. rewrite HB in *. split; [apply Z.div_pos; lia|].
  apply Z.div_lt_upper_bound; lia.
Qed.

(** Offsets of one block. *)
Lemma block_offset o m i :
  0 <= i < m -> m <= BSIZE - o mod BSIZE ->
  (o + i) / BSIZE = o / BSIZE /\ (o + i) mod BSIZE = o mod BSIZE + i.
Proof.
  intros Hi Hm. assert (BSIZE = 1024) as HB by done. rewrite HB in *.
  pose proof (Z.mod_pos_bound o 1024). pose proof (Z.div_mod o 1024).
  assert ((o + i) / 1024 = o / 1024) by (symmetry; apply (Z.div_unique _ _ _ (o mod 1024 + i)); lia).
  split; [done|]. rewrite Zmod_eq by lia. lia.
Qed.

Lemma readi_loop_spec fuel : forall s t i dst off n tot,
  at_tx s t -> settled t -> inode_ok (f_sb s) t (geti i s) -> full t (geti i s) -> room t 1 ->
  0 <= off -> 0 <= tot <= n -> off + (n - tot) <= i_size (geti i s) -> (Z.to_nat (n - tot) <= fuel)%nat ->
  exists l m', readi_loop fuel i false dst off n tot s = Ok n (with_mem m' (set_f_l l s)) /\
    at_tx (set_f_l l s) t /\
    forall a, rd m' a = if inr a dst (n - tot) then fbyte (t_view t) (geti i s) (off + (a - dst))
                        else rd (k_mem (f_k s)) a.
Proof.
  induction fuel as [|fuel IH]; intros s t i dst off n tot Ht Hd Hio Hfull Hroom H0 Htot Hend Hf; cbn [readi_loop].
  - destruct (Z.ltb_spec tot n); [lia|]. exists (f_l s), (k_mem (f_k s)).
    split; [assert (tot = n) as -> by lia; destruct s as [? []]; done|].
    split; [by destruct s|]. intros a. by rewrite inr_false by lia.
  - destruct (Z.ltb_spec tot n) as [Hlt|].
    2: { exists (f_l s), (k_mem (f_k s)). split; [assert (tot = n) as -> by lia; destruct s as [? []]; done|].
         split; [by destruct s|]. intros a. by rewrite inr_false by lia. }
    destruct Hfull as [Hsz Hfb]. set (ip := geti i s) in *. set (v := t_view t) in *.
    assert (Hblk : fblock v ip (off / BSIZE) <> 0) by (apply Hfb; lia).
    pose proof (block_range off 1 H0 ltac:(lia) ltac:(lia)) as Hbr.
    destruct (bmap_hit s t i (off / BSIZE) Ht Hd Hio Hroom Hbr Hblk) as (s1 & H1 & [l1 ->] & Ht1).
    fold ip v in H1. set (x := fblock v ip (off / BSIZE)) in *. mstep H1.
    rewrite (proj2 (Z.eqb_neq _ _) Hblk), gets_bind.
    change (geti i (set_f_l l1 s)) with ip. rewrite (io_dev _ _ _ _ Hio).
    destruct (io_data _ _ _ _ Hio _ Hbr Hblk) as [Hbk _]. fold v ip x in Hbk.
    destruct (f_bread _ _ _ _ t x Ht1 (bk_free _ _ _ _ Hbk) Hroom) as (bp & s2 & H2 & [l2 ->] & Hbp & Ht2).
    mstep H2. pose proof (f_data _ _ _ _ _ bp x Ht2 (lookup_insert_eq _ _ _)) as Hdata. mstep Hdata.
    change (t_view (t_hold bp x t) x) with (v x).
    set (m := Z.min (n - tot) (BSIZE - off mod BSIZE)).
    assert (BSIZE = 1024) as HB by done. pose proof (Z.mod_pos_bound off BSIZE ltac:(lia)) as Hmod.
    assert (0 < m <= n - tot /\ m <= BSIZE - off mod BSIZE) as [Hm1 Hm2] by lia.
    set (km := mcopy (Z.to_nat m) (k_mem (f_k s)) dst (v x) (off mod BSIZE)).
    set (s3 := with_mem km (set_f_l l2 s)).
    rewrite (bind_ok _ _ _ 0 s3) by done. cbn [Z.eqb].
    destruct (f_brelse _ _ _ s3 _ bp x Ht2) as (s4 & H4 & [l4 ->] & Ht4);
      [apply lookup_insert_eq|simpl; rewrite Hd; set_solver|]. mstep H4.
    assert (at_tx (set_f_l l4 s3) t) as Ht4'.
    { eapply at_tx_ext; [exact _|exact Ht4|]. split_and!; simpl; try done. by rewrite delete_insert_id. }
    destruct (IH (set_f_l l4 s3) t i (dst + m) (off + m) n (tot + m)) as (l5 & m5 & H5 & Ht5 & Hrd); try done; try lia.
    { change (geti i (set_f_l l4 s3)) with ip. lia. }
    exists l5, m5. split; [exact H5|]. split; [exact Ht5|]. intros a. rewrite Hrd.
    change (geti i (set_f_l l4 s3)) with ip. change (k_mem (f_k (set_f_l l4 s3))) with km. fold v.
    destruct (inr_spec a (dst + m) (n - (tot + m))).
    + rewrite inr_true by lia. f_equal. lia.
    + unfold km. rewrite rd_mcopy, Z2Nat.id by lia. destruct (inr_spec a dst m) as [Hin|].
      * rewrite inr_true by lia. unfold fbyte.
        destruct (block_offset off m (a - dst) ltac:(lia) Hm2) as [-> ->]. fold x.
        rewrite (proj2 (Z.eqb_neq _ _) Hblk). f_equal.
      * rewrite inr_false by lia. done.
Qed.

(** [readi] into kernel memory: the bytes of the file from [off] on, [n] of
    them or as many as there are. *)
Lemma readi_spec s t i dst off n :
  at_tx s t -> settled t -> inode_ok (f_sb s) t (geti i s) -> full t (geti i s) -> room t 1 ->
  0 <= off -> 0 <= n -> off + n < 4294967296 ->
  let k := Z.max 0 (Z.min n (i_size (geti i s) - off)) in
  exists l m', readi i false dst off n s = Ok k (with_mem m' (set_f_l l s)) /\
    at_tx (set_f_l l s) t /\
    forall a, rd m' a = if inr a dst k then fbyte (t_view t) (geti i s) (off + (a - dst))
                        else rd (k_mem (f_k s)) a.
Proof.
  intros Ht Hd Hio Hfull Hroom H0 Hn Hov k. unfold readi. rewrite gets_bind.
  rewrite u32_small by lia. set (sz := i_size (geti i s)) in *.
  destruct (Z.gtb_spec off sz) as [Hgt|Hle].
  - cbn [orb]. exists (f_l s), (k_mem (f_k s)). assert (k = 0) as -> by lia.
    split; [destruct s as [? []]; done|]. split; [by destruct s|]. intros a. by rewrite inr_false by lia.
  - rewrite (proj2 (Z.ltb_ge _ _)) by lia. cbn [orb].
    set (n' := if off + n >? sz then sz - off else n).
    assert (k = n') as -> by (unfold n'; destruct (Z.gtb_spec (off + n) sz); lia).
    assert (0 <= n' /\ off + n' <= sz) as [Hn0 Hns] by (unfold n'; destruct (Z.gtb_spec (off + n) sz); lia).
    destruct (readi_loop_spec (Z.to_nat n') s t i dst off n' 0 Ht Hd Hio Hfull Hroom H0) as (l & m' & Hrun & Ht' & Hrd);
      [lia|fold sz; lia|lia|].
    exists l, m'. split; [exact Hrun|]. split; [exact Ht'|]. intros a. rewrite Hrd. by rewrite Z.sub_0_r.
Qed.

(** ** writei *)

(** The file of inode [ip] after [w] bytes of [km] at [src] went to offset
    [off]: [ip'] in [t'], with at most [k] blocks more in the log. *)
Record wrote (sb : superblock) (km : mem) (src off w : Z) (t : tx) (ip : inode) (t' : tx) (ip' : inode) (k : nat) : Prop := {
  wo_held : t_held t' = t_held t;
  wo_dirty : t_dirty t' = t_dirty t;
  wo_log : (length (t_log t') <= length (t_log t) + k)%nat;
  wo_alloc : alloc_ok sb t';
  wo_inode : inode_ok sb t' ip';
  wo_bytes : forall o, 0 <= o < MAXFILE * BSIZE ->
    fbyte (t_view t') ip' o = if inr o off w then rd km (src + (o - off)) else fbyte (t_view t) ip o;
  wo_keep : forall bn, 0 <= bn < MAXFILE -> fblock (t_view t) ip bn <> 0 ->
    fblock (t_view t') ip' bn = fblock (t_view t) ip bn;
  wo_has : forall o, off <= o < off + w -> fblock (t_view t') ip' (o / BSIZE) <> 0;
  wo_fresh : forall bn, 0 <= bn < MAXFILE -> fblock (t_view t) ip bn = 0 -> fblock (t_view t') ip' bn <> 0 ->
    used (t_view t) sb (fblock (t_view t') ip' bn) = false;
  wo_ind : ind ip' = ind ip \/ (used (t_view t) sb (ind ip') = false /\ 0 <= ind ip' < sb_size sb);
  wo_frame : forall x, 0 < x < sb_size sb -> used (t_view t) sb x = true -> ~ bitmap_blk sb x ->
    x <> ind ip -> (forall bn, 0 <= bn < MAXFILE -> x <> fblock (t_view t) ip bn) -> t_view t' x = t_view t x;
  wo_used : forall x, 0 <= x < sb_size sb -> used (t_view t) sb x = true -> used (t_view t') sb x = true }.

Lemma wrote_nil sb km src off t ip k :
  alloc_ok sb t -> inode_ok sb t ip -> wrote sb km src off 0 t ip t ip k.
Proof.
  intros. split; try done; try lia; try by left.
  intros o Ho. by rewrite inr_false by lia.
Qed.

Lemma wrote_trans sb km src off w t1 ip1 t2 ip2 k1 w' t3 ip3 k2 :
  0 <= w -> 0 <= w' -> 0 <= off -> off + w + w' <= MAXFILE * BSIZE ->
  wrote sb km src off w t1 ip1 t2 ip2 k1 -> wrote sb km (src + w) (off + w) w' t2 ip2 t3 ip3 k2 ->
  wrote sb km src off (w + w') t1 ip1 t3 ip3 (k1 + k2).
Proof.
  intros Hw Hw' H0 Hmax A B.
  assert (forall o, off <= o < off + w -> 0 <= o / BSIZE < MAXFILE) as Hrg
    by (intros o Ho; apply (block_range o 1); lia).
  assert (forall x, 0 <= x < sb_size sb -> used (t_view t2) sb x = false -> used (t_view t1) sb x = false) as Hu.
  { intros x Hx H. destruct (used (t_view t1) sb x) eqn:E; [|done]. by rewrite (wo_used _ _ _ _ _ _ _ _ _ _ A) in H. }
  assert (forall bn, 0 <= bn < MAXFILE -> fblock (t_view t3) ip3 bn <> 0 -> 0 <= fblock (t_view t3) ip3 bn < sb_size sb) as Hr3.
  { intros bn Hbn Hn. destruct (io_data _ _ _ _ (wo_inode _ _ _ _ _ _ _ _ _ _ B) bn Hbn Hn) as [[] _]. lia. }
  assert (forall bn, 0 <= bn < MAXFILE -> fblock (t_view t2) ip2 bn <> 0 -> 0 <= fblock (t_view t2) ip2 bn < sb_size sb) as Hr2.
  { intros bn Hbn Hn. destruct (io_data _ _ _ _ (wo_inode _ _ _ _ _ _ _ _ _ _ A) bn Hbn Hn) as [[] _]. lia. }
  destruct A as [A1 A2 A3 A4 A5 A6 A7 A8 A9 A10 A11 A12], B as [B1 B2 B3 B4 B5 B6 B7 B8 B9 B10 B11 B12]. split.
  - congruence.
  - congruence.
  - lia.
  - done.
  - done.
  - intros o Ho. rewrite B6, A6 by done. destruct (inr_spec o (off + w) w'), (inr_spec o off w); try lia.
    + rewrite inr_true by lia. f_equal. lia.
    + by rewrite inr_true by lia.
    + by rewrite inr_false by lia.
  - intros bn Hbn Hn. rewrite B7; [by apply A7|done|by rewrite A7].
  - intros o Ho. destruct (decide (o < off + w)); [|apply B8; lia].
    rewrite B7; [apply A8; lia|apply Hrg; lia|apply A8; lia].
  - intros bn Hbn Hz Hn. destruct (decide (fblock (t_view t2) ip2 bn = 0)) as [E|E].
    + by apply Hu; [apply Hr3|apply B9].
    + rewrite B7 by done. by apply A9.
  - destruct B10 as [->|[E Hrg3]]; [done|]. right. split; [by apply Hu|done].
  - intros x Hx Hux Hb Hi Hf. rewrite B11; [by apply A11|done|apply A12; [lia|done]|done| |].
    + destruct A10 as [->|[E _]]; [done|]. congruence.
    + intros bn Hbn E. destruct (decide (fblock (t_view t1) ip1 bn = 0)) as [Ez|En].
      * rewrite E, A9 in Hux; try done. lia.
      * apply (Hf bn Hbn). by rewrite E, A7.
  - intros x Hx Hux. by apply B12, A12.
Qed.

Lemma inode_ok_put sb t ip x d :
  inode_ok sb t ip -> ~ bitmap_blk sb x -> x <> ind ip -> inode_ok sb (t_put x d t) ip.
Proof.
  intros [I1 I2 I3 I4 (D1 & D2 & D3)] Hb Hx.
  assert (forall bn, fblock (t_view (t_put x d t)) ip bn = fblock (t_view t) ip bn) as Hf.
  { intros bn. unfold fblock. simpl. by rewrite decide_False by done. }
  split; [done| | | |].
  - intros bn Hbn. rewrite Hf. intros Hn. destruct (I2 bn Hbn Hn). split; [by apply blk_ok_put|done].
  - intros Hn. by apply blk_ok_put, I3.
  - intros bn bn'. rewrite !Hf. apply I4.
  - split; [by apply blk_ok_put|]. split; [done|]. intros bn. rewrite Hf. apply D3.
Qed.

(** One round of the loop: [bmap], then the bytes of one block. *)
Lemma wrote_round s t i s1 t1 r km src off m :
  0 <= off -> 0 < m -> m <= BSIZE - off mod BSIZE -> off / BSIZE < MAXFILE ->
  bmapped home st s t i (off / BSIZE) s1 t1 r 5 -> r <> 0 -> inode_ok (f_sb s) t (geti i s) ->
  wrote (f_sb s) km src off m t (geti i s)
    (t_put r (mcopy (Z.to_nat m) (t_view t1 r) (off mod BSIZE) km src) t1) (geti i s1) 6.
Proof.
  intros H0 Hm1 Hm2 Hbr [B1 B2 B3 B4 B5 B6 B7 B8 B9 B10 B11 B12 B13] Hr Hio.
  assert (BSIZE = 1024) as HB by done. pose proof (Z.mod_pos_bound off BSIZE ltac:(lia)) as Hmod.
  assert (0 <= off / BSIZE < MAXFILE) as Hbn by (split; [apply Z.div_pos; lia|done]).
  set (ip1 := geti i s1) in *. set (ip := geti i s) in *. set (sb := f_sb s) in *. set (bn0 := off / BSIZE) in *.
  assert (fblock (t_view t1) ip1 bn0 = r) as Er by (rewrite B8 by done; by rewrite decide_True).
  destruct (io_data _ _ _ _ B7 bn0 Hbn) as [Hrb Hri]; [by rewrite Er|]. rewrite Er in *.
  pose proof (bk_map _ _ _ _ Hrb) as Hrm. set (t2 := t_put r _ t1).
  assert (forall bn, fblock (t_view t2) ip1 bn = fblock (t_view t1) ip1 bn) as Hf2.
  { intros bn. unfold fblock. simpl. by rewrite decide_False by done. }
  split; try done.
  - pose proof (t_put_log r (mcopy (Z.to_nat m) (t_view t1 r) (off mod BSIZE) km src) t1). fold t2 in H. lia.
  - by apply alloc_ok_put.
  - by apply inode_ok_put.
  - intros o Ho. pose proof (block_range o 1 ltac:(lia) ltac:(lia) ltac:(lia)) as Hob.
    unfold fbyte. rewrite Hf2, B8 by done. destruct (decide (o / BSIZE = bn0 /\ r <> 0)) as [[E _]|Hne].
    + rewrite (proj2 (Z.eqb_neq _ _) Hr), E. unfold t2. simpl. rewrite decide_True by done.
      rewrite rd_mcopy, Z2Nat.id by lia. pose proof (Z.div_mod o BSIZE ltac:(lia)) as Eo.
      pose proof (Z.div_mod off BSIZE ltac:(lia)) as Eoff. fold bn0 in Eoff. rewrite E in Eo.
      destruct (inr_spec o off m), (inr_spec (o mod BSIZE) (off mod BSIZE) m); try lia; [f_equal; lia|].
      destruct (Z.eqb_spec (fblock (t_view t) ip bn0) 0) as [Ez|En].
      * destruct (B10 Ez Hr) as (-> & _). apply rd_empty.
      * destruct (io_data _ _ _ _ Hio bn0 Hbn En) as [[] Hne]. rewrite <- (B9 En) in Hne, bk_range, bk_used, bk_map |- *.
        by rewrite B11 by (done || lia).
    + rewrite inr_false.
      2: { destruct (decide (off <= o < off + m)); [|lia]. exfalso. apply Hne. split; [|done].
           destruct (block_offset off m (o - off) ltac:(lia) Hm2) as [E _]. unfold bn0. rewrite <- E. f_equal. lia. }
      destruct (Z.eqb_spec (fblock (t_view t) ip (o / BSIZE)) 0) as [|En]; [done|]. f_equal.
      destruct (io_data _ _ _ _ Hio _ Hob En) as [[] Hni].
      unfold t2. simpl. rewrite decide_False; [by apply B11; [lia|..]|]. intros E. apply Hne. split; [|done].
      apply (io_inj _ _ _ _ B7); [done|done| |].
      * rewrite B8 by done. by destruct (decide _).
      * rewrite Er, B8 by done. by destruct (decide _).
  - intros bn Hb Hn. rewrite Hf2, B8 by done. destruct (decide (bn = bn0 /\ r <> 0)) as [[-> _]|_]; [by apply B9|done].
  - intros o Ho. destruct (block_offset off m (o - off) ltac:(lia) Hm2) as [E _].
    replace (off + (o - off)) with o in E by lia. rewrite E, Hf2. fold bn0. by rewrite Er.
  - intros bn Hb Hz. rewrite Hf2, B8 by done. destruct (decide (bn = bn0 /\ r <> 0)) as [[-> _]|_]; [|done]. intros _. by apply B10.
  - intros x Hx Hux Hnb Hi Hfx. unfold t2. simpl. rewrite decide_False; [by apply B11; [lia|..]|].
    intros ->. destruct (decide (fblock (t_view t) ip bn0 = 0)) as [E|E].
    + destruct (B10 E Hr) as (_ & Hf & _). congruence.
    + apply (Hfx bn0 Hbn). by apply B9.
  - intros x Hx Hux. unfold t2. rewrite used_put_other by done. by apply B12.
Qed.

Lemma wrote_mono sb km src off w t ip t' ip' k k' :
  (k <= k')%nat -> wrote sb km src off w t ip t' ip' k -> wrote sb km src off w t ip t' ip' k'.
Proof. intros Hk []. split; try done. lia. Qed.

(** The round that finds the disk full: the file is what it was. *)
Lemma wrote_full s t i bn s1 t1 km src off :
  bmapped home st s t i bn s1 t1 0 5 -> inode_ok (f_sb s) t (geti i s) ->
  wrote (f_sb s) km src off 0 t (geti i s) t1 (geti i s1) 6.
Proof.
  intros [B1 B2 B3 B4 B5 B6 B7 B8 B9 B10 B11 B12 B13] Hio.
  assert (forall x, 0 <= x < MAXFILE -> fblock (t_view t1) (geti i s1) x = fblock (t_view t) (geti i s) x) as Hf.
  { intros x Hx. rewrite B8 by done. apply decide_False. tauto. }
  split; try done; try lia.
  - intros o Ho. pose proof (block_range o 1 ltac:(lia) ltac:(lia) ltac:(lia)) as Hob.
    rewrite inr_false by lia. unfold fbyte. rewrite Hf by done.
    destruct (Z.eqb_spec (fblock (t_view t) (geti i s) (o / BSIZE)) 0) as [|En]; [done|].
    destruct (io_data _ _ _ _ Hio _ Hob En) as [[] Hne]. by rewrite B11 by (done || lia).
  - intros bn' Hb _. by apply Hf.
  - intros bn' Hb E. by rewrite Hf.
  - intros x Hx Hux Hnb Hi _. apply B11; try done. lia.
Qed.

Lemma same_but_fs s s1 s2 i A : same_but s s1 i A -> same_fs s1 s2 -> same_but s s2 i A.
Proof. intros H [l ->]. by destruct H; split. Qed.

Lemma seq3_ok {A : Type} (a b c : M (fst L) unit) (k : M (fst L) A) s s' :
  (a;; b;; c) s = Ok tt s' -> (a;; b;; c;; k) s = k s'.
Proof.
  unfold mbind, M_bind. destruct (a s) as [[] s1| | |]; try done. destruct (b s1) as [[] s2| | |]; try done.
  by intros ->.
Qed.

(** [w] of the [n] bytes at [src] are in the file, in [k] rounds at most:
    all of them, or the disk is full. *)
Lemma writei_loop_spec k : forall fuel s t i src off n tot,
  at_tx s t -> settled t -> alloc_ok (f_sb s) t -> inode_ok (f_sb s) t (geti i s) ->
  room t (6 * k) -> (length (t_log t) + 6 * k <= cap)%nat ->
  0 <= off -> 0 <= tot <= n -> off + (n - tot) <= MAXFILE * BSIZE ->
  n - tot <= Z.of_nat k * BSIZE - off mod BSIZE \/ n = tot -> (Z.to_nat (n - tot) <= fuel)%nat ->
  exists w s' t' A, writei_loop fuel i false src off n tot s = Ok (tot + w, off + w) s' /\
    0 <= w <= n - tot /\ (w = n - tot \/ disk_full (f_sb s) t') /\ at_tx s' t' /\ same_but s s' i A /\
    wrote (f_sb s) (k_mem (f_k s)) src off w t (geti i s) t' (geti i s') (6 * k).
Proof.
  assert (BSIZE = 1024) as HB by done.
  induction k as [|k IH]; intros fuel s t i src off n tot Ht Hd Hal Hio Hroom Hcap H0 Htot Hend Hk Hf;
    pose proof (Z.mod_pos_bound off BSIZE ltac:(lia)) as Hmod.
  { exists 0, s, t, (i_addrs (geti i s)). assert (n = tot) as -> by lia.
    split; [destruct fuel; cbn [writei_loop]; rewrite Z.ltb_irrefl, !Z.add_0_r; done|].
    split; [lia|]. split; [left; lia|]. split; [done|]. split; [apply same_fs_but, same_fs_refl|by apply wrote_nil]. }
  destruct (decide (tot < n)) as [Hlt|Hge].
  2: { exists 0, s, t, (i_addrs (geti i s)). assert (n = tot) as -> by lia.
    split; [destruct fuel; cbn [writei_loop]; rewrite Z.ltb_irrefl, !Z.add_0_r; done|].
    split; [lia|]. split; [left; lia|]. split; [done|]. split; [apply same_fs_but, same_fs_refl|by apply wrote_nil]. }
  destruct fuel as [|fuel]; [lia|]. cbn [writei_loop]. rewrite (proj2 (Z.ltb_lt _ _) Hlt).
  pose proof (block_range off 1 H0 ltac:(lia) ltac:(lia)) as Hbr.
  destruct (bmap_spec home cap st s t i (off / BSIZE) Ht Hd Hal Hio) as (r & s1 & t1 & H1 & Hb);
    [unfold room in *; lia|lia|done|].
  mstep H1. destruct (bm_state _ _ _ _ _ _ _ _ _ _ Hb) as [A HA]. destruct (Z.eqb_spec r 0) as [->|Hr].
  - exists 0, s1, t1, A. rewrite !Z.add_0_r. split; [done|]. split; [lia|]. split; [right; by apply Hb|]. split; [apply Hb|]. split; [done|].
    eapply wrote_mono; [|by eapply wrote_full]. lia.
  - rewrite gets_bind. pose proof (bm_inode _ _ _ _ _ _ _ _ _ _ Hb) as Hio1. rewrite (io_dev _ _ _ _ Hio1).
    destruct (io_data _ _ _ _ Hio1 (off / BSIZE) Hbr) as [Hrb Hri];
      rewrite (bm_map _ _ _ _ _ _ _ _ _ _ Hb), decide_True in * by done; [done|].
    pose proof (bm_log _ _ _ _ _ _ _ _ _ _ Hb) as Hlog. pose proof (bm_held _ _ _ _ _ _ _ _ _ _ Hb) as Hheld.
    assert (settled t1) as Hd1 by (unfold settled; by rewrite (bm_dirty _ _ _ _ _ _ _ _ _ _ Hb)).
    destruct (f_bread _ _ _ s1 t1 r (bm_tx _ _ _ _ _ _ _ _ _ _ Hb) (bk_free _ _ _ _ Hrb)) as (bp & s2 & H2 & E2 & Hbp & Ht2);
      [unfold room in *; rewrite Hheld; lia|].
    mstep H2. pose proof (f_data _ _ _ s2 _ bp r Ht2 (lookup_insert_eq _ _ _)) as Hdata. mstep Hdata.
    change (t_view (t_hold bp r t1) r) with (t_view t1 r).
    set (m := Z.min (n - tot) (BSIZE - off mod BSIZE)).
    assert (0 < m <= n - tot /\ m <= BSIZE - off mod BSIZE) as [Hm1 Hm2] by lia.
    assert (k_mem (f_k s2) = k_mem (f_k s)) as Ekm by (destruct E2 as [l ->]; simpl; by rewrite (sbt_k _ _ _ _ HA)).
    set (d := mcopy (Z.to_nat m) (t_view t1 r) (off mod BSIZE) (k_mem (f_k s)) src).
    rewrite (bind_ok _ _ _ (0, d) s2) by (unfold d; by rewrite <- Ekm; destruct s2).
    destruct (f_commit_block _ _ _ s2 t1 bp r d Ht2 Hbp Hd1 (bk_home _ _ _ _ Hrb) ltac:(lia)) as (s3 & H3 & E3 & Ht3).
    pose proof (wrote_round s t i s1 t1 r (k_mem (f_k s)) src off m H0 ltac:(lia) Hm2 ltac:(lia) Hb Hr Hio) as W. fold d in W.
    assert (same_but s s3 i A) as HA3 by (eapply same_but_fs; [exact HA|by eapply same_fs_trans]).
    assert (geti i s3 = geti i s1) as Eg by (destruct E2 as [l2 ->], E3 as [l3 ->]; done). rewrite <- Eg in W.
    pose proof (wo_log _ _ _ _ _ _ _ _ _ _ W) as Hlog3.
    destruct (IH fuel s3 (t_put r d t1) i (src + m) (off + m) n (tot + m)) as (w & s4 & t4 & A4 & H4 & Hw & Hfull4 & Ht4 & HA4 & W4);
      rewrite ?(sbt_sb _ _ _ _ HA3), ?(sbt_k _ _ _ _ HA3) in *; try apply W; try done; try lia.
    { unfold room in *. rewrite (wo_held _ _ _ _ _ _ _ _ _ _ W). lia. }
    { destruct (decide (n = tot + m)); [by right|]. left. assert (m = BSIZE - off mod BSIZE) as Em by lia.
      replace ((off + m) mod BSIZE) with 0; [lia|]. symmetry. apply Z.mod_divide; [lia|].
      exists (off / BSIZE + 1). pose proof (Z.div_mod off BSIZE ltac:(lia)). lia. }
    exists (m + w), s4, t4, A4. cbn [Z.eqb]. rewrite (seq3_ok _ _ _ _ _ _ H3), H4, !Z.add_assoc.
    split; [done|]. split; [lia|]. split; [destruct Hfull4; [left; lia|by right]|]. split; [done|]. split; [by eapply same_but_trans|].
    replace (6 * S k)%nat with (6 + 6 * k)%nat by lia. eapply wrote_trans; [lia|lia|done|lia|exact W|exact W4].
Qed.

(** [iupdate]: the inode's slot of its block holds the inode. *)
Lemma iupdate_spec s t i :
  at_tx s t -> settled t -> inode_ok (f_sb s) t (geti i s) -> room t 1 -> (length (t_log t) < cap)%nat ->
  let x := IBLOCK (i_inum (geti i s)) (f_sb s) in
  exists s', iupdate i s = Ok tt s' /\ same_fs s s' /\
    at_tx s' (t_put x (put_dinode (t_view t x) (dino (i_inum (geti i s))) (geti i s)) t).
Proof.
  intros Ht Hd Hio Hroom Hcap x. destruct (io_dino _ _ _ _ Hio) as ([_ Hh Hfr _ _] & _).
  unfold iupdate, getsb. rewrite !gets_bind, (io_dev _ _ _ _ Hio). fold x.
  destruct (f_bread _ _ _ s t x Ht Hfr Hroom) as (bp & s1 & H1 & E1 & Hbp & Ht1). mstep H1.
  pose proof (f_data _ _ _ s1 _ bp x Ht1 (lookup_insert_eq _ _ _)) as Hdata. mstep Hdata. simpl t_view.
  destruct (f_commit_block _ _ _ s1 t bp x (put_dinode (t_view t x) (dino (i_inum (geti i s))) (geti i s)) Ht1 Hbp Hd Hh Hcap)
    as (s2 & H2 & E2 & Ht2).
  exists s2. split; [exact H2|]. split; [by eapply same_fs_trans|done].
Qed.

(** The inode [ip'] in [t'] after [w] bytes of [km] at [src] were written at
    [off]. *)
Record written (sb : superblock) (km : mem) (src off w : Z) (t : tx) (ip : inode) (t' : tx) (ip' : inode) (k : nat) : Prop := {
  wn_held : t_held t' = t_held t;
  wn_dirty : t_dirty t' = t_dirty t;
  wn_log : (length (t_log t') <= length (t_log t) + k)%nat;
  wn_alloc : alloc_ok sb t';
  wn_inode : inode_ok sb t' ip';
  wn_full : full t' ip';
  wn_size : i_size ip' = Z.max (i_size ip) (off + w);
  wn_meta : i_inum ip' = i_inum ip /\ i_type ip' = i_type ip /\ i_nlink ip' = i_nlink ip;
  wn_bytes : forall o, 0 <= o < MAXFILE * BSIZE ->
    fbyte (t_view t') ip' o = if inr o off w then rd km (src + (o - off)) else fbyte (t_view t) ip o;
  wn_dino : let x := IBLOCK (i_inum ip) sb in
    t_view t' x = put_dinode (t_view t x) (dino (i_inum ip)) ip';
  wn_frame : forall x, 0 < x < sb_size sb -> used (t_view t) sb x = true -> ~ bitmap_blk sb x ->
    x <> ind ip -> x <> IBLOCK (i_inum ip) sb ->
    (forall bn, 0 <= bn < MAXFILE -> x <> fblock (t_view t) ip bn) -> t_view t' x = t_view t x }.

(** A change of the size alone. *)
Lemma inode_ok_size sb t ip z : inode_ok sb t ip -> inode_ok sb t (set_i_size z ip).
Proof. intros []. by split. Qed.

Lemma fblock_put_other t x d ip bn :
  x <> ind ip -> fblock (t_view (t_put x d t)) ip bn = fblock (t_view t) ip bn.
Proof. intros H. unfold fblock. simpl. by rewrite decide_False by done. Qed.

(** The loop, the new size and the inode's block together. *)
Lemma wrote_written sb km src off w t ip t1 ip1 k z A :
  wrote sb km src off w t ip t1 ip1 k -> inode_ok sb t ip -> full t ip -> 0 <= w -> 0 <= off <= i_size ip ->
  off + w <= MAXFILE * BSIZE -> z = Z.max (i_size ip) (off + w) -> ip1 = set_i_addrs A ip ->
  let x := IBLOCK (i_inum ip) sb in
  let ip' := set_i_size z ip1 in
  written sb km src off w t ip (t_put x (put_dinode (t_view t1 x) (dino (i_inum ip)) ip') t1) ip' (k + 1).
Proof.
  intros W Hio [Hsz Hfull] Hw Hoff Hmax -> E1 x ip'. assert (BSIZE = 1024) as HB by done.
  assert (i_inum ip1 = i_inum ip) as En by (by rewrite E1).
  destruct (io_dino _ _ _ _ (wo_inode _ _ _ _ _ _ _ _ _ _ W)) as (Dx & Di & Db). rewrite En in *. fold x in Dx, Di, Db.
  destruct (io_dino _ _ _ _ Hio) as (Dx0 & Di0 & Db0). fold x in Dx0, Di0, Db0.
  assert (forall d bn, fblock (t_view (t_put x d t1)) ip' bn = fblock (t_view t1) ip1 bn) as Hf
    by (intros; by apply (fblock_put_other t1 x d ip1)).
  destruct W as [W1 W2 W3 W4 W5 W6 W7 W8 W9 W10 W11 W12]. split; try done.
  - etrans; [apply t_put_log|]. lia.
  - apply alloc_ok_put; [done|apply Dx].
  - apply inode_ok_put; [by apply inode_ok_size|apply Dx|done].
  - split; [simpl; lia|]. intros o Ho. rewrite Hf. destruct (decide (o < i_size ip)) as [Hlt|Hge].
    + assert (0 <= o / BSIZE < MAXFILE) as Hob by (apply (block_range o 1); lia).
      rewrite W7; [|done|]; apply Hfull; lia.
    + apply W8. simpl in Ho. lia.
  - simpl. rewrite E1. done.
  - intros o Ho. rewrite <- W6 by done. unfold fbyte. rewrite Hf.
    destruct (Z.eqb_spec (fblock (t_view t1) ip1 (o / BSIZE)) 0); [done|]. simpl.
    rewrite decide_False; [done|]. apply Db. apply (block_range o 1); lia.
  - simpl. rewrite decide_True by done. f_equal. apply W11; try apply Dx0; try done.
    intros bn Hbn E. by apply (Db0 bn Hbn).
  - intros y Hy Huy Hny Hyi Hyx Hyb. simpl. rewrite decide_False by done. by apply W11.
Qed.

(** [writei] of [n] bytes of kernel memory, in [k] blocks at most: [w] of
    them are in the file, all of them unless the disk is full. *)
Lemma writei_spec k s t i src off n :
  at_tx s t -> settled t -> alloc_ok (f_sb s) t -> inode_ok (f_sb s) t (geti i s) -> full t (geti i s) ->
  room t (6 * k + 1) -> (length (t_log t) + 6 * k + 1 <= cap)%nat ->
  0 <= off <= i_size (geti i s) -> 0 <= n -> off + n <= MAXFILE * BSIZE ->
  n <= Z.of_nat k * BSIZE - off mod BSIZE \/ n = 0 ->
  exists w s' t', writei i false src off n s = Ok w s' /\ 0 <= w <= n /\
    (w = n \/ disk_full (f_sb s) t') /\ at_tx s' t' /\ settled t' /\ f_k s' = f_k s /\ f_sb s' = f_sb s /\
    written (f_sb s) (k_mem (f_k s)) src off w t (geti i s) t' (geti i s') (6 * k + 1).
Proof.
  intros Ht Hd Hal Hio Hfull Hroom Hcap Hoff Hn Hmax Hk. assert (MAXFILE * BSIZE = 274432) as HM by done.
  unfold writei. rewrite gets_bind, u32_small by lia.
  rewrite Z.gtb_ltb, !(proj2 (Z.ltb_ge _ _)) by lia. cbn [orb]. rewrite Z.gtb_ltb, (proj2 (Z.ltb_ge _ _)) by lia.
  destruct (writei_loop_spec k (Z.to_nat n) s t i src off n 0) as (w & s1 & t1 & A & H1 & Hw & Hwf & Ht1 & HA & W);
    try done; try lia; [unfold room in *; lia|].
  rewrite (bind_ok _ _ _ _ _ H1), gets_bind. rewrite Z.add_0_l. cbv beta iota.
  pose proof (sbt_i _ _ _ _ HA) as Eip. set (ip1 := geti i s1) in *. set (ip := geti i s) in *.
  set (z := Z.max (i_size ip) (off + w)). set (s2 := updi i (set_i_size z) s1).
  rewrite (bind_ok _ _ _ tt (if off + w >? i_size ip1 then s2 else s1)).
  2: { destruct (off + w >? i_size ip1) eqn:E; cbn [when]; [|done]. unfold modify, s2, z.
       replace (i_size ip `max` (off + w)) with (off + w); [done|]. apply Z.gtb_lt in E. rewrite Eip in E. simpl in E. lia. }
  set (s3 := if _ : bool then s2 else s1).
  assert (geti i s3 = set_i_size z ip1 /\ f_sb s3 = f_sb s /\ f_k s3 = f_k s /\ at_tx s3 t1) as (Eg3 & Esb3 & Ek3 & Ht3).
  { unfold s3. rewrite <- (sbt_sb _ _ _ _ HA), <- (sbt_k _ _ _ _ HA). destruct (Z.gtb_spec (off + w) (i_size ip1)) as [|Hle].
    - split; [apply geti_updi_eq|done].
    - split; [|done]. fold ip1. assert (i_size ip1 = i_size ip) as Hz by (by rewrite Eip).
      replace z with (i_size ip1) by lia. generalize ip1. by intros []. }
  pose proof (wrote_written _ _ _ _ _ _ _ _ _ _ z A W Hio Hfull ltac:(lia) Hoff ltac:(lia) eq_refl Eip) as WN.
  destruct (iupdate_spec s3 t1 i Ht3) as (s4 & H4 & [l4 E4] & Ht4).
  - unfold settled. by rewrite (wo_dirty _ _ _ _ _ _ _ _ _ _ W).
  - rewrite Esb3, Eg3. apply inode_ok_size, W.
  - unfold room in *. rewrite (wo_held _ _ _ _ _ _ _ _ _ _ W). pose proof (wo_log _ _ _ _ _ _ _ _ _ _ W). lia.
  - pose proof (wo_log _ _ _ _ _ _ _ _ _ _ W). lia.
  - rewrite Eg3, Esb3 in Ht4. replace (i_inum (set_i_size z ip1)) with (i_inum ip) in Ht4 by (simpl; by rewrite Eip).
    eexists w, s4, _. mstep H4. split; [done|]. split; [lia|]. split; [|split; [exact Ht4|]].
    + destruct Hwf as [|Hdf]; [left; lia|right]. intros b Hb. rewrite used_put_other; [by apply Hdf| |done].
      apply (io_dino _ _ _ _ Hio).
    + split; [unfold settled; simpl; by rewrite (wo_dirty _ _ _ _ _ _ _ _ _ _ W)|]. rewrite E4.
      split; [done|]. split; [done|]. change (geti i (set_f_l l4 s3)) with (geti i s3). by rewrite Eg3.
Qed.

(** [ilock] of an entry that is not loaded yet. *)
Lemma ilock_load s t j :
  at_tx s t -> settled t -> room t 1 ->
  let ip := geti j s in
  let x := IBLOCK (i_inum ip) (f_sb s) in
  1 <= i_ref ip -> i_valid ip = false -> i_dev ip = ROOTDEV -> i_lock ip = sl_free -> free_blk t x ->
  let ip' := set_i_valid true (get_dinode (t_view t x) (dino (i_inum ip)) (set_i_lock (sl_held_by (f_pid s)) ip)) in
  if i_type ip' =? 0 then ilock j s = Panic "ilock: no type"
  else exists s', ilock j s = Ok tt s' /\ at_tx s' t /\ geti j s' = ip' /\ f_sb s' = f_sb s /\
    forall i, i <> j -> geti i s' = geti i s.
Proof.
  intros Ht Hd Hroom ip x Href Hval Hdev Hlk Hfr ip'.
  unfold ilock. rewrite gets_bind. fold ip. rewrite (proj2 (Z.ltb_ge _ _)) by lia.
  set (s1 := updi j (set_i_lock (sl_held_by (f_pid s))) s).
  assert (ilock_acquire j s = Ok tt s1) as H1.
  { unfold ilock_acquire. rewrite gets_bind. unfold zoom, ilock_get. fold ip. by rewrite Hlk. }
  mstep H1. rewrite gets_bind. assert (geti j s1 = set_i_lock (sl_held_by (f_pid s)) ip) as Eg1 by apply geti_updi_eq.
  rewrite Eg1. cbn [set_i_lock i_valid i_dev i_inum]. rewrite Hval. cbn [negb when]. unfold getsb. rewrite gets_bind.
  assert (f_sb s1 = f_sb s) as -> by done. fold x. rewrite Hdev.
  destruct (f_bread _ _ _ s1 t x Ht Hfr Hroom) as (bp & s2 & H2 & [l2 ->] & Hbp & Ht2). mstep H2.
  pose proof (f_data _ _ _ _ _ bp x Ht2 (lookup_insert_eq _ _ _)) as Hdata. mstep Hdata. rewrite modify_bind.
  set (s3 := updi j _ _). destruct (f_brelse _ _ _ s3 _ bp x Ht2) as (s4 & H4 & [l4 ->] & Ht4);
    [apply lookup_insert_eq|simpl; rewrite Hd; set_solver|]. mstep H4. rewrite modify_bind, gets_bind.
  set (s5 := updi j (set_i_valid true) (set_f_l l4 s3)).
  assert (geti j s5 = ip') as Eg5.
  { unfold s5. rewrite geti_updi_eq. change (geti j (set_f_l l4 s3)) with (geti j s3). unfold s3.
    rewrite geti_updi_eq. change (geti j (set_f_l l2 s1)) with (geti j s1). by rewrite Eg1. }
  rewrite Eg5. destruct (i_type ip' =? 0); [done|]. exists s5. split; [done|]. split; [|split; [done|split; [done|]]].
  - eapply (at_tx_ext _ _ _ s5); [exact Ht4|]. split_and!; simpl; try done. by rewrite delete_insert_id.
  - intros i Hi. unfold s5, s3, s1, geti. simpl. by rewrite !lookup_total_insert_ne by done.
Qed.
End io.
