(* ===== verification/FsProps.v ===== *)
(** Correctness of the file system's data path over the real log: block
    allocation, reading and writing of a file's content. *)

From S2P Require Import Prelude Mem Sleeplock Strings Kalloc Vm Bio BioSpec Cache DiskLog Log LogSpec LogTx LogCrash.
From S2P Require Import BlockLayer Fs FsSpec FileSpec Dinode FileIO.

(** ** A small file system with one file of five bytes in block 46 *)

Definition ex_start : Z := 2.
Definition ex_nlog : Z := 30.
Definition ex_sb : superblock := Superblock FSMAGIC 200 150 16 ex_nlog ex_start 32 45.
Definition ex_bitmap : block := mfill 5 (wr ∅ 5 127) 0 255.
Definition ex_data : block := wr (wr (wr (wr (wr ∅ 0 104) 1 101) 2 108) 3 108) 4 111.
Definition ex_disk : gmap Z block := {[ 45 := ex_bitmap; 46 := ex_data ]}.
Definition ex_inode : inode := Inode ROOTDEV 5 1 inhabitant true 2 0 0 1 5 (<[0 := 46]> no_addrs).

Lemma no_addrs_zero k : 0 <= k < 13 -> no_addrs !!! k = 0.
Proof.
  intros Hk. change no_addrs with (load_addrs ∅ 0). rewrite load_addrs_lookup by done. apply ldn_empty.
Qed.

(** After a boot from [d] and a [begin_op]. *)
Lemma boot_tx (d : gmap Z block) :
  hdr_n (d !!! ex_start) = 0 ->
  exists l t, log_tx ex_start ex_nlog 1 l t /\ t_held t = ∅ /\ t_dirty t = ∅ /\ t_log t = [] /\
    forall x, log_home ex_start ex_nlog x -> t_view t x = d !!! x.
Proof.
  intros Hn. assert (log_sound ex_start ex_nlog d) as Hs.
  { split; [lia|]. unfold hdr_list. rewrite Hn. split; try done; try (unfold ex_start, ex_nlog; simpl; lia).
    - constructor.
    - intros b Hb. inversion Hb. }
  destruct (reboot_spec 1 ex_start ex_nlog d Hs) as (s & a & h0 & _ & Hinv & Hh & _ & _ & Hv & _).
  destruct (begin_op_admits _ _ _ _ _ _ Hinv) as (l & _ & Hl); [done|].
  exists l, (Tx (ca_view a) ∅ ∅ []). split; [|do 3 (split; [done|])].
  - exists a. split; [exact Hl|]. split; [done|]. split; [exact Hh|]. intros bn _ _.
    apply (abs_clean _ _ _ (lv_abs _ _ _ _ _ _ Hinv)); [intros i; by rewrite Hh|].
    rewrite (lv_pins _ _ _ _ _ _ Hinv). set_solver.
  - intros x [_ Hx]. simpl. destruct (lv_abs _ _ _ _ _ _ Hinv) as (o & P & Hb).
    rewrite <- (ba_view _ _ _ _ Hb), Hv by done. by apply recover_empty.
Qed.

Definition ex_k : kst := Kst (wr (wr (wr ∅ 9000 120) 9001 121) 9002 122) false 0.

(** The example's state over a transaction of the log. *)
Definition ex_fs (l : lst) : fst lst := Fst l ex_k ex_sb false {[0%nat := ex_inode]} 0 0%nat 1 [] [].

Section example.
Context (t : tx).
Hypothesis Hheld : t_held t = ∅.
Hypothesis Hview : forall x, log_home ex_start ex_nlog x -> t_view t x = ex_disk !!! x.
Abbreviation home := (log_home ex_start ex_nlog).

Lemma ex_home x : 32 <= x < 2147483648 -> home x.
Proof. intros Hx. split; [lia|]. unfold in_log, ex_start, ex_nlog. lia. Qed.

Lemma ex_bblock b : 0 <= b < 200 -> BBLOCK b ex_sb = 45.
Proof. intros Hb. unfold BBLOCK. rewrite Z.div_small; [done|]. change BPB with 8192. lia. Qed.

Lemma ex_used b : 0 <= b < 47 -> used (t_view t) ex_sb b = true.
Proof.
  intros Hb. unfold used. rewrite ex_bblock, Hview by (lia || (apply ex_home; lia)).
  replace (ex_disk !!! 45) with ex_bitmap by done. rewrite Z.mod_small by (change BPB with 8192; lia).
  assert (forallb (fun k => bit_of ex_bitmap (Z.of_nat k)) (seq 0 47) = true) as H by (vm_compute; done).
  rewrite forallb_forall in H. specialize (H (Z.to_nat b)). rewrite Z2Nat.id in H by lia.
  apply H, in_seq. lia.
Qed.

Lemma ex_blk x : 32 <= x < 47 -> x <> 45 -> blk_ok home ex_sb t x.
Proof.
  intros Hx Hn. split.
  - simpl. lia.
  - apply ex_home. lia.
  - intros i. by rewrite Hheld.
  - apply ex_used. lia.
  - intros (b & Hb & E). simpl in Hb. rewrite ex_bblock in E; lia.
Qed.

Lemma ex_alloc : alloc_ok home ex_sb t.
Proof.
  split; [simpl; lia| |]; intros b Hb; simpl in Hb.
  - rewrite ex_bblock by done. split; [apply ex_home; lia|]. intros i. by rewrite Hheld.
  - intros Hu. assert (47 <= b) by (destruct (decide (b < 47)); [rewrite ex_used in Hu by lia; done|lia]).
    split; [apply ex_home; lia|]. split; [intros i; by rewrite Hheld|]. split; [lia|].
    intros x Hx. rewrite ex_bblock by done. lia.
Qed.

Lemma ex_fblock bn : 0 <= bn < MAXFILE -> fblock (t_view t) ex_inode bn = if decide (bn = 0) then 46 else 0.
Proof.
  intros Hb. unfold fblock. assert (ind ex_inode = 0) as -> by done. cbn [Z.eqb].
  destruct (Z.ltb_spec bn NDIRECT) as [Hl|Hl]; change NDIRECT with 12 in Hl.
  - simpl. destruct (decide (bn = 0)) as [->|]; [done|]. rewrite lookup_total_insert_ne by lia.
    apply no_addrs_zero. lia.
  - by rewrite decide_False by lia.
Qed.

Lemma ex_inode_ok : inode_ok home ex_sb t ex_inode.
Proof.
  split.
  - done.
  - intros bn Hb. rewrite ex_fblock by done. destruct (decide (bn = 0)); [|done]. intros _.
    split; [apply ex_blk; lia|done].
  - done.
  - intros bn bn' Hb Hb'. rewrite !ex_fblock by done. repeat destruct (decide _); subst; done.
  - assert (IBLOCK (i_inum ex_inode) ex_sb = 32) as -> by done. split; [apply ex_blk; lia|]. split; [done|].
    intros bn Hb. rewrite ex_fblock by done. by destruct (decide _).
Qed.

Lemma ex_full : full t ex_inode.
Proof.
  split; [done|]. intros o Ho. simpl in Ho. rewrite Z.div_small by (change BSIZE with 1024; lia).
  by rewrite ex_fblock.
Qed.
End example.

(** ** Reading and writing a file *)

Section claims.
Context (start sz out : Z).
Abbreviation home := (log_home start sz).
Abbreviation cap := (Z.to_nat (Z.min (sz - 1) 29)).
Abbreviation at_tx := (at_tx (log_tx start sz out)).

(** A file that can be read and written in a transaction [t]. *)
Record file_ok (s : fst lst) (t : tx) (i : nat) : Prop := {
  fk_tx : at_tx s t;
  fk_settled : settled t;
  fk_alloc : alloc_ok home (f_sb s) t;
  fk_inode : inode_ok home (f_sb s) t (geti i s);
  fk_full : full t (geti i s) }.

(** C18: [readi] from kernel callers copies exactly the bytes of the file
    from [off] on, [n] of them or as many as the file has, and changes
    nothing else: neither the blocks nor the transaction nor other memory. *)
Theorem readi_correct (s : fst lst) t i dst off n :
  0 < out -> file_ok s t i -> room t 1 -> 0 <= off -> 0 <= n -> off + n < 4294967296 ->
  let k := Z.max 0 (Z.min n (i_size (geti i s) - off)) in
  exists l m', readi i false dst off n s = Ok k (with_mem m' (set_f_l l s)) /\
    at_tx (set_f_l l s) t /\
    forall a, rd m' a = if inr a dst k then fbyte (t_view t) (geti i s) (off + (a - dst))
                        else rd (k_mem (f_k s)) a.
Proof.
  intros Hout [F1 F2 F3 F4 F5] Hroom H0 Hn Hov. pose proof (log_laws start sz out Hout).
  by apply (readi_spec home cap).
Qed.


(** C5: what was written is read back.  [writei] followed by [readi] of the
    same range into a buffer at [dst] puts the bytes that were written
    there. *)
Theorem write_then_read (s : fst lst) t i src dst off n k :
  0 < out -> file_ok s t i -> room t (6 * k + 2) -> (length (t_log t) + 6 * k + 1 <= cap)%nat ->
  0 <= off <= i_size (geti i s) -> 0 <= n -> off + n <= MAXFILE * BSIZE ->
  n <= Z.of_nat k * BSIZE - off mod BSIZE \/ n = 0 ->
  exists w s' t', (w ← writei i false src off n; readi i false dst off w) s = Ok w s' /\
    0 <= w <= n /\ (w = n \/ disk_full (f_sb s) t') /\ at_tx s' t' /\
    forall a, rd (k_mem (f_k s')) a =
      if inr a dst w then rd (k_mem (f_k s)) (src + (a - dst)) else rd (k_mem (f_k s)) a.
Proof.
  intros Hout [F1 F2 F3 F4 F5] Hroom Hcap Hoff Hn Hmax Hk. pose proof (log_laws start sz out Hout).
  assert (MAXFILE * BSIZE = 274432) as HM by done.
  destruct (writei_spec home cap (log_tx start sz out) k s t i src off n)
    as (w & s1 & t1 & Hrun & Hw & Hf & Ht & Hd & Ek & Esb & W); try done; [unfold room in *; lia|].
  destruct (readi_spec home cap (log_tx start sz out) s1 t1 i dst off w) as (l & m' & Hr & Ht' & Hb); try done; try lia.
  { rewrite Esb. apply W. }
  { apply W. }
  { unfold room in *. rewrite (wn_held _ _ _ _ _ _ _ _ _ _ _ W). pose proof (wn_log _ _ _ _ _ _ _ _ _ _ _ W). lia. }
  rewrite (wn_size _ _ _ _ _ _ _ _ _ _ _ W) in Hr, Hb.
  replace (Z.max 0 (Z.min w (Z.max (i_size (geti i s)) (off + w) - off))) with w in Hr, Hb by lia.
  exists w, (with_mem m' (set_f_l l s1)), t1. mstep Hrun. split; [exact Hr|]. repeat (split; [done|]).
  intros a. simpl. rewrite Hb, Ek. destruct (inr_spec a dst w); [|done].
  rewrite (wn_bytes _ _ _ _ _ _ _ _ _ _ _ W) by lia. rewrite inr_true by lia. f_equal. lia.
Qed.

(** [balloc] takes the first free block: it was free, every lower block
    was in use, it is now zero and marked, and the other marks and blocks
    are as before.  It returns 0, and changes no block, exactly when no
    block is free. *)
Theorem balloc_correct (s : fst lst) t :
  0 < out -> at_tx s t -> settled t -> alloc_ok home (f_sb s) t -> room t 2 -> (length (t_log t) + 1 < cap)%nat ->
  exists b s' t', balloc ROOTDEV s = Ok b s' /\ at_tx s' t' /\
    (b = 0 <-> disk_full (f_sb s) t) /\ (b = 0 -> t' = t) /\
    (b <> 0 -> 0 < b < sb_size (f_sb s) /\ used (t_view t) (f_sb s) b = false /\ t_view t' b = ∅ /\
      (forall x, 0 <= x < b -> used (t_view t) (f_sb s) x = true) /\
      (forall x, 0 <= x < sb_size (f_sb s) ->
         used (t_view t') (f_sb s) x = bool_decide (x = b) || used (t_view t) (f_sb s) x) /\
      (forall x, ~ bitmap_blk (f_sb s) x -> x <> b -> t_view t' x = t_view t x)).
Proof.
  intros Hout Ht Hd Hal Hroom Hcap. pose proof (log_laws start sz out Hout).
  destruct (balloc_spec home cap (log_tx start sz out) s t Ht Hd Hal Hroom Hcap)
    as [(s' & Hrun & _ & Ht' & Hf)|(b & s' & Hrun & _ & Ht' & sb & <- & Hb & Hu & Hlow & _)].
  - eexists 0, _, t. split; [exact Hrun|]. by split.
  - pose proof (alloc_grown home (f_sb s) t b Hal ltac:(lia) Hu) as G.
    eexists b, s', _. split; [exact Hrun|]. split; [exact Ht'|]. split; [|split; [lia|]].
    + split; [lia|]. intros Hf. rewrite Hf in Hu by lia. done.
    + intros _. repeat (split; [done || apply G|]). apply G.
Qed.

(** [bfree] of a block in use clears its mark and no other; of a free
    block it panics. *)
Theorem bfree_correct (s : fst lst) t b :
  0 < out -> at_tx s t -> settled t -> alloc_ok home (f_sb s) t -> room t 1 -> (length (t_log t) < cap)%nat ->
  0 <= b < sb_size (f_sb s) ->
  if used (t_view t) (f_sb s) b
  then exists s' t', bfree ROOTDEV b s = Ok tt s' /\ at_tx s' t' /\
    (forall x, used (t_view t') (f_sb s) x = negb (bool_decide (x = b)) && used (t_view t) (f_sb s) x) /\
    (forall x, x <> BBLOCK b (f_sb s) -> t_view t' x = t_view t x)
  else bfree ROOTDEV b s = Panic "freeing free block".
Proof.
  intros Hout Ht Hd Hal Hroom Hcap Hb. pose proof (log_laws start sz out Hout).
  destruct (al_map _ _ _ Hal b Hb) as [Hh Hfr].
  pose proof (bfree_spec home cap (log_tx start sz out) s t b Ht Hd Hroom Hcap Hh Hfr) as Hs.
  destruct (used (t_view t) (f_sb s) b); [|exact Hs]. destruct Hs as (s' & Hrun & _ & Ht').
  eexists s', _. split; [exact Hrun|]. split; [exact Ht'|]. split; [apply used_clear|].
  intros x Hx. simpl. by rewrite decide_False.
Qed.

(** C37: an inode survives the inode table.  After [iupdate] of entry [i],
    [ilock] of an unloaded entry [j] for the same inode number loads the
    type, the device numbers, the link count, the size and the block list
    that entry [i] had. *)
Theorem iupdate_ilock_roundtrip (s : fst lst) t i j :
  0 < out -> at_tx s t -> settled t -> inode_ok home (f_sb s) t (geti i s) -> room t 2 -> (length (t_log t) < cap)%nat ->
  dinode_fits (geti i s) -> i_type (geti i s) <> 0 ->
  i <> j -> i_inum (geti j s) = i_inum (geti i s) -> i_dev (geti j s) = ROOTDEV ->
  1 <= i_ref (geti j s) -> i_valid (geti j s) = false -> i_lock (geti j s) = sl_free ->
  exists s' t', (iupdate i;; ilock j) s = Ok tt s' /\ at_tx s' t' /\ geti i s' = geti i s /\
    let a := geti i s in let b := geti j s' in
    i_valid b = true /\ i_lock b = sl_held_by (f_pid s) /\
    i_type b = i_type a /\ i_major b = i_major a /\ i_minor b = i_minor a /\ i_nlink b = i_nlink a /\
    i_size b = i_size a /\ forall k, 0 <= k < 13 -> i_addrs b !!! k = i_addrs a !!! k.
Proof.
  intros Hout Ht Hd Hio Hroom Hcap Hfit Hty Hij Hin Hdev Href Hval Hlk. pose proof (log_laws start sz out Hout).
  destruct (iupdate_spec home cap (log_tx start sz out) s t i Ht Hd Hio) as (s1 & H1 & [l1 ->] & Ht1);
    [unfold room in *; lia|done|].
  set (x := IBLOCK (i_inum (geti i s)) (f_sb s)) in *. set (t1 := t_put x _ t) in *.
  pose proof (ilock_load home cap (log_tx start sz out) (set_f_l l1 s) t1 j Ht1 Hd) as Hl.
  cbn zeta in Hl. change (geti j (set_f_l l1 s)) with (geti j s) in Hl. change (f_sb (set_f_l l1 s)) with (f_sb s) in Hl.
  rewrite Hin in Hl. fold x in Hl. assert (t_view t1 x = put_dinode (t_view t x) (dino (i_inum (geti i s))) (geti i s)) as Ev
    by (simpl; by rewrite decide_True).
  rewrite Ev in Hl. set (ip0 := set_i_lock _ (geti j s)) in Hl.
  pose proof (get_put_dinode (t_view t x) (dino (i_inum (geti i s))) (geti i s) ip0 Hfit) as Hget. cbn zeta in Hget.
  assert (i_lock (get_dinode (put_dinode (t_view t x) (dino (i_inum (geti i s))) (geti i s)) (dino (i_inum (geti i s))) ip0)
    = sl_held_by (f_pid s)) as E0 by reflexivity.
  set (r := get_dinode _ _ ip0) in E0, Hget, Hl. clearbody r. destruct Hget as (E1 & E2 & E3 & E4 & E5 & E6).
  cbn [set_i_valid i_type] in Hl. rewrite E1, (proj2 (Z.eqb_neq _ _) Hty) in Hl.
  destruct Hl as (s2 & H2 & Ht2 & Eg & _ & Eo); try done.
  { pose proof (t_put_log x (put_dinode (t_view t x) (dino (i_inum (geti i s))) (geti i s)) t) as Hlog. fold t1 in Hlog.
    unfold room in *. simpl t_held. lia. }
  { apply (io_dino _ _ _ _ Hio). }
  exists s2, t1. mstep H1. split; [exact H2|]. split; [done|]. split; [by apply Eo|]. cbn zeta.
  rewrite Eg. repeat split; first [exact E0|exact E1|exact E2|exact E3|exact E4|exact E5|exact E6|reflexivity].
Qed.
End claims.

Lemma ex_file : exists l t, file_ok ex_start ex_nlog 1 (ex_fs l) t 0 /\ t_held t = ∅ /\ t_log t = [] /\
  forall x, log_home ex_start ex_nlog x -> t_view t x = ex_disk !!! x.
Proof.
  destruct (boot_tx ex_disk) as (l & t & Hl & Hh & Hd & Hlog & Hv); [done|].
  exists l, t. split; [|done]. split; [exact Hl|exact Hd|by apply ex_alloc|by apply ex_inode_ok|by apply ex_full].
Qed.

Lemma readi_correct_witness : exists l s' k, readi 0 false 5000 1 3 (ex_fs l) = Ok k s' /\ k = 3 /\ rd (k_mem (f_k s')) 5001 = 108.
Proof.
  destruct ex_file as (l & t & Hf & Hh & Hlog & Hv).
  destruct (readi_correct ex_start ex_nlog 1 (ex_fs l) t 0 5000 1 3) as (l' & m' & Hr & _ & Hb);
    [done|done|unfold room; rewrite Hh, Hlog; vm_compute; lia|lia|lia|lia|].
  exists l. eexists _, _. split; [exact Hr|]. split; [done|]. cbn [with_mem set_f_k set_f_l f_k set_k_mem k_mem].
  rewrite Hb. rewrite inr_true by (vm_compute; split; discriminate || done).
  assert (geti 0 (ex_fs l) = ex_inode) as -> by done.
  unfold fbyte. rewrite Z.div_small, Z.mod_small by (change BSIZE with 1024; lia). rewrite ex_fblock by done.
  rewrite decide_True by done. cbn [Z.eqb]. rewrite Hv by (apply ex_home; lia). done.
Defined.


Lemma write_then_read_witness : exists l w s', (w ← writei 0 false 9000 5 3; readi 0 false 5000 5 w) (ex_fs l) = Ok w s' /\
  rd (k_mem (f_k s')) 5000 = if inr 5000 5000 w then 120 else 0.
Proof.
  destruct ex_file as (l & t & Hf & Hh & Hlog & Hv).
  destruct (write_then_read ex_start ex_nlog 1 (ex_fs l) t 0 9000 5000 5 3 1) as (w & s' & t' & Hr & _ & _ & _ & Hb);
    [done|done|unfold room; rewrite Hh, Hlog; vm_compute; lia|rewrite Hlog; vm_compute; lia|done|lia|done|by left|].
  exists l, w, s'. split; [exact Hr|]. rewrite Hb. done.
Defined.

Lemma balloc_correct_witness : exists l b s', balloc ROOTDEV (ex_fs l) = Ok b s' /\ b <> 46.
Proof.
  destruct ex_file as (l & t & Hf & Hh & Hlog & Hv).
  destruct (balloc_correct ex_start ex_nlog 1 (ex_fs l) t) as (b & s' & t' & Hr & _ & _ & _ & Hb);
    [done|apply Hf|apply Hf|apply Hf|unfold room; rewrite Hh, Hlog; vm_compute; lia|rewrite Hlog; vm_compute; lia|].
  exists l, b, s'. split; [exact Hr|]. intros ->. destruct Hb as (_ & Hu & _); [done|].
  rewrite ex_used in Hu; done.
Defined.

Lemma bfree_correct_witness : exists l s', bfree ROOTDEV 46 (ex_fs l) = Ok tt s'.
Proof.
  destruct ex_file as (l & t & Hf & Hh & Hlog & Hv).
  pose proof (bfree_correct ex_start ex_nlog 1 (ex_fs l) t 46 ltac:(lia) (fk_tx _ _ _ _ _ _ Hf) (fk_settled _ _ _ _ _ _ Hf)
    (fk_alloc _ _ _ _ _ _ Hf) ltac:(unfold room; rewrite Hh, Hlog; vm_compute; lia) ltac:(rewrite Hlog; vm_compute; lia)
    ltac:(done)) as H.
  replace (used (t_view t) (f_sb (ex_fs l)) 46) with true in H by (symmetry; by apply ex_used).
  destruct H as (s' & t' & Hr & _). by exists l, s'.
Defined.

(** A second entry for the same inode, not loaded. *)
Definition ex_fs2 (l : lst) : fst lst :=
  set_f_inode {[0%nat := ex_inode; 1%nat := Inode ROOTDEV 5 1 sl_free false 0 0 0 0 0 no_addrs]} (ex_fs l).

Lemma iupdate_ilock_roundtrip_witness :
  exists l s', (iupdate 0;; ilock 1) (ex_fs2 l) = Ok tt s' /\ i_size (geti 1 s') = 5 /\ i_addrs (geti 1 s') !!! 0 = 46.
Proof.
  destruct ex_file as (l & t & Hf & Hh & Hlog & Hv). set (s := ex_fs2 l).
  destruct (iupdate_ilock_roundtrip ex_start ex_nlog 1 s t 0 1) as (s' & t' & Hr & _ & _ & Hb);
    [done|apply Hf|apply Hf|apply Hf|unfold room; rewrite Hh, Hlog; vm_compute; lia|rewrite Hlog; vm_compute; lia| |done..|].
  - split; [by vm_compute..|]. intros k Hk. change (i_addrs (geti 0 s)) with (<[0 := 46]> no_addrs).
    destruct (decide (k = 0)) as [->|]; [done|]. rewrite lookup_total_insert_ne by lia. by rewrite no_addrs_zero.
  - exists l, s'. destruct Hb as (_ & _ & _ & _ & _ & _ & Hsz & Ha). split; [exact Hr|]. split; [exact Hsz|]. by rewrite Ha.
Defined.
