(* ===== verification/Mkfs.v ===== *)
(** The program that makes the file system image: src/build/mkfs.c, and
    src/build/MakeFilesystemStep.zig, which is the same program as a step of
    the build and is what the build runs.

    The image is a file of sectors; what was never written reads as zeros.
    [die] and a failed assertion end the program, the outcome [Panic]; what
    is printed is left out.  The fields of [struct dinode] are those of an
    inode of Fs.v.  A file on the command line is its name and, if it can be
    opened, the pieces in which [read] returns its content. *)

From S2P Require Import Prelude Mem Sleeplock Strings Kalloc Vm Bio Log BlockLayer Fs.

Definition NINODES : Z := 200.
Definition FSSIZE : Z := 2000.
Definition nbitmap : Z := FSSIZE / (BSIZE * 8) + 1.
Definition ninodeblocks : Z := NINODES / IPB + 1.
Definition nlog : Z := LOGSIZE.
Definition nmeta : Z := 2 + nlog + ninodeblocks + nbitmap.
Definition nblocks : Z := FSSIZE - nmeta.

(** [im_len] is the length of the image in sectors. *)
Record mst := Mst { im : gmap Z block; im_len : Z; freeinode : Z; freeblock : Z }.

Abbreviation F := (M mst).

Definition set_im (i : gmap Z block) (n : Z) (s : mst) : mst := Mst i n (freeinode s) (freeblock s).
Definition set_freeinode (v : Z) (s : mst) : mst := Mst (im s) (im_len s) v (freeblock s).
Definition set_freeblock (v : Z) (s : mst) : mst := Mst (im s) (im_len s) (freeinode s) v.

(** On a little-endian host. *)
Definition xshort (x : Z) : Z := u8 x + 256 * u8 (Z.shiftr x 8).
Definition xint (x : Z) : Z := u8 x + 256 * u8 (Z.shiftr x 8) + 65536 * u8 (Z.shiftr x 16) + 16777216 * u8 (Z.shiftr x 24).

Definition sb : superblock :=
  Superblock FSMAGIC (xint FSSIZE) (xint nblocks) (xint NINODES) (xint nlog) (xint 2) (xint (2 + nlog)) (xint (2 + nlog + ninodeblocks)).

(** The superblock in memory. *)
Definition sb_bytes : block :=
  st32 (st32 (st32 (st32 (st32 (st32 (st32 (st32 ∅ 0 (sb_magic sb)) 4 (sb_size sb)) 8 (sb_nblocks sb)) 12 (sb_ninodes sb))
    16 (sb_nlog sb)) 20 (sb_logstart sb)) 24 (sb_inodestart sb)) 28 (sb_bmapstart sb).

(** [sec * BSIZE] is a [uint]. *)
Definition sector (sec : Z) : Z := u32 (sec * BSIZE) / BSIZE.

Definition wsect (sec : Z) (buf : block) : F unit :=
  modify (fun s => set_im (<[sector sec := buf]> (im s)) (Z.max (im_len s) (sector sec + 1)) s).

Definition rsect (sec : Z) : F block :=
  n ← gets im_len;
  if sector sec <? n then gets (fun s => default ∅ (im s !! sector sec)) else panic "read".

Definition winode (inum : Z) (ip : inode) : F unit :=
  let bn := IBLOCK inum sb in
  buf ← rsect bn;
  wsect bn (put_dinode buf (dino inum) ip).

Definition rinode (inum : Z) : F inode :=
  let bn := IBLOCK inum sb in
  buf ← rsect bn;
  mret (get_dinode buf (dino inum) inhabitant).

(** A [struct dinode] of zeros but for the type, the link count and the size. *)
Definition new_dinode (type : Z) : inode :=
  set_i_disk (xshort type) 0 0 (xshort 1) (xint 0) no_addrs inhabitant.

Definition ialloc (type : Z) : F Z :=
  inum ← gets freeinode;
  modify (set_freeinode (u32 (inum + 1)));;
  winode inum (new_dinode type);;
  mret inum.

Definition balloc (used : Z) : F unit :=
  if negb (used <? BSIZE * 8) then panic "assert"
  else
    let buf := foldl (fun buf i => wr buf (Z.of_nat i / 8) (Z.lor (rd buf (Z.of_nat i / 8)) (Z.shiftl 1 (Z.of_nat i mod 8)))) ∅ (seq 0 (Z.to_nat used)) in
    wsect (sb_bmapstart sb) buf.

(** [freeblock++] *)
Definition take_block : F Z :=
  b ← gets freeblock;
  modify (set_freeblock (u32 (b + 1)));;
  mret b.

(** The sector of block [fbn] of the file, and [din] with it. *)
Definition file_block (din : inode) (fbn : Z) : F (inode * Z) :=
  if fbn <? NDIRECT then
    din ← (if xint (i_addrs din !!! fbn) =? 0 then b ← take_block; mret (set_i_addr fbn (xint b) din) else mret din);
    mret (din, xint (i_addrs din !!! fbn))
  else
    din ← (if xint (i_addrs din !!! NDIRECT) =? 0 then b ← take_block; mret (set_i_addr NDIRECT (xint b) din) else mret din);
    indirect ← rsect (xint (i_addrs din !!! NDIRECT));
    indirect ← (if ld32 indirect (4 * (fbn - NDIRECT)) =? 0 then
                  b ← take_block;
                  let indirect := st32 indirect (4 * (fbn - NDIRECT)) (xint b) in
                  wsect (xint (i_addrs din !!! NDIRECT)) indirect;;
                  mret indirect
                else mret indirect);
    mret (din, xint (ld32 indirect (4 * (fbn - NDIRECT)))).

(** [bcopy(p, buf + a, length p)] *)
Fixpoint bcopy (p : list Z) (buf : block) (a : Z) : block :=
  match p with
  | [] => buf
  | b :: p => bcopy p (wr buf a b) (a + 1)
  end.

(** The loop of [iappend], with the bytes that are left; a round takes one at
    least. *)
Fixpoint iappend_loop (fuel : nat) (din : inode) (off : Z) (p : list Z) : F (inode * Z) :=
  match p with
  | [] => mret (din, off)
  | _ =>
      match fuel with
      | O => out_of_fuel
      | S fuel =>
          let fbn := off / BSIZE in
          if negb (fbn <? MAXFILE) then panic "assert"
          else
            '(din, x) ← file_block din fbn;
            let n1 := Z.min (Z.of_nat (length p)) ((fbn + 1) * BSIZE - off) in
            buf ← rsect x;
            wsect x (bcopy (take (Z.to_nat n1) p) buf (off - fbn * BSIZE));;
            iappend_loop fuel din (off + n1) (drop (Z.to_nat n1) p)
      end
  end.

Definition iappend (inum : Z) (p : list Z) : F unit :=
  din ← rinode inum;
  '(din, off) ← iappend_loop (length p) din (xint (i_size din)) p;
  winode inum (set_i_size (xint off) din).

(** [struct dirent]: the name is cut or filled up with zeros. *)
Definition dirent (inum : Z) (name : list Z) : list Z :=
  let n := xshort inum in
  [u8 n; u8 (n / 256)] ++ take 14 name ++ replicate (14 - length (take 14 name)) 0.

(** What the name is in the file system: without [user/] and the leading
    underscore. *)
Definition user_slash : list Z := [117; 115; 101; 114; 47].
Definition skip_user (argv : list Z) : list Z := if decide (take 5 argv = user_slash) then drop 5 argv else argv.
Definition skip_underscore (name : list Z) : list Z := match name with 95 :: name => name | _ => name end.

Fixpoint append_pieces (inum : Z) (pieces : list (list Z)) : F unit :=
  match pieces with
  | [] => mret tt
  | buf :: pieces => iappend inum buf;; append_pieces inum pieces
  end.

Fixpoint add_files (rootino : Z) (files : list (list Z * option (list (list Z)))) : F unit :=
  match files with
  | [] => mret tt
  | (argv, content) :: files =>
      let shortname := skip_user argv in
      if existsb (Z.eqb 47) shortname then panic "assert"
      else
        match content with
        | None => panic "open"
        | Some pieces =>
            let shortname := skip_underscore shortname in
            inum ← ialloc T_FILE;
            iappend rootino (dirent inum shortname);;
            append_pieces inum pieces;;
            add_files rootino files
        end
  end.

Definition zero_sectors : F (option unit) :=
  for_loop (Z.to_nat FSSIZE) 0 (fun i => wsect i ∅;; mret None).

Definition mkfs (files : list (list Z * option (list (list Z)))) : F unit :=
  modify (set_freeblock nmeta);;
  zero_sectors;;
  wsect 1 sb_bytes;;
  rootino ← ialloc T_DIR;
  if negb (rootino =? ROOTINO) then panic "assert"
  else
    iappend rootino (dirent rootino [46]);;
    iappend rootino (dirent rootino [46; 46]);;
    add_files rootino files;;
    din ← rinode rootino;
    let off := xint (i_size din) in
    let off := (off / BSIZE + 1) * BSIZE in
    winode rootino (set_i_size (xint off) din);;
    b ← gets freeblock;
    balloc b.

(** The file is truncated; [freeblock] is set first of all. *)
Definition mst0 : mst := Mst ∅ 0 1 0.
