(* ===== verification/MkfsProps.v ===== *)
(** The image that mkfs makes is a file system as the theorems on fs.c need
    it, with the files on it. *)

From S2P Require Import Prelude Mem Sleeplock Strings Kalloc Vm Bio DiskLog Log LogTx BlockLayer Fs FsSpec FileSpec Dinode FileIO FsProps Mkfs.

(** ** Numbers *)

Lemma i16_range x : - 32768 <= i16 x < 32768.
Proof.
  unfold i16, swrap. change (2 ^ (16 - 1)) with 32768. change (2 ^ 16) with 65536.
  pose proof (Z.mod_pos_bound (x + 32768) 65536). lia.
Qed.

Lemma xshort_u16 x : xshort x = u16 x.
Proof.
  unfold xshort. rewrite Z.shiftr_div_pow2 by lia. change (2 ^ 8) with 256. unfold u8, u16, wrap.
  change (2 ^ 16) with (256 * 256). change (2 ^ 8) with 256. symmetry. apply Z.rem_mul_r; lia.
Qed.

Lemma xint_u32 x : xint x = u32 x.
Proof.
  unfold xint. rewrite !Z.shiftr_div_pow2 by lia. unfold u8, u32, wrap. change (2 ^ 32) with (256 * (256 * (256 * 256))).
  change (2 ^ 16) with (256 * 256). change (2 ^ 24) with (256 * (256 * 256)). change (2 ^ 8) with 256.
  rewrite (Z.rem_mul_r x 256) by lia. rewrite (Z.rem_mul_r (x / 256) 256) by lia. rewrite (Z.rem_mul_r (x / 256 / 256) 256) by lia.
  rewrite !Z.div_div by lia. change (256 * 256 * 256) with (256 * (256 * 256)). lia.
Qed.

Lemma xint_id x : 0 <= x < 4294967296 -> xint x = x.
Proof. intros. rewrite xint_u32. by apply u32_small. Qed.

Lemma sb_val : sb = Superblock FSMAGIC 2000 1954 200 30 2 32 45.
Proof. reflexivity. Qed.

Lemma sector_id x : 0 <= x < 4194304 -> sector x = x.
Proof.
  intros. unfold sector. assert (BSIZE = 1024) as -> by done. rewrite u32_small by lia. apply Z.div_mul. lia.
Qed.

(** ** The image *)

(** The content of the sectors, and the inode that a slot holds. *)
Definition view (s : mst) (x : Z) : block := default ∅ (im s !! x).
Definition node (v : Z -> block) (inum : Z) : inode := get_dinode (v (IBLOCK inum sb)) (dino inum) inhabitant.

Definition upd (v : Z -> block) (x : Z) (d : block) (y : Z) : block := if decide (y = x) then d else v y.

Lemma rsect_ok x s : 0 <= x < im_len s -> im_len s <= 4194304 -> rsect x s = Ok (view s x) s.
Proof.
  intros H H1. unfold rsect. rewrite gets_bind, sector_id by lia. by rewrite (proj2 (Z.ltb_lt _ _)) by lia.
Qed.

Lemma wsect_ok x d s : 0 <= x < im_len s -> im_len s <= 4194304 ->
  exists s', wsect x d s = Ok tt s' /\ im_len s' = im_len s /\ freeinode s' = freeinode s /\ freeblock s' = freeblock s /\
    forall y, view s' y = upd (view s) x d y.
Proof.
  intros H H1. eexists. split; [reflexivity|]. cbn [set_im im_len freeinode freeblock]. rewrite sector_id by lia.
  split_and!; [lia|done|done|]. intros y. unfold view, upd. cbn [im set_im].
  destruct (decide (y = x)) as [->|]; [by rewrite lookup_insert_eq|by rewrite lookup_insert_ne].
Qed.

Lemma rd_bcopy p buf a b : rd (bcopy p buf a) b = if inr b a (Z.of_nat (length p)) then u8 (p !!! Z.to_nat (b - a)) else rd buf b.
Proof.
  revert buf a. induction p as [|c p IH]; intros buf a; cbn [bcopy length].
  - by rewrite inr_false by lia.
  - rewrite IH, rd_wr. inr_cases; zcases; try lia; try done.
    + replace (Z.to_nat (b - a)) with (S (Z.to_nat (b - (a + 1)))) by lia. done.
    + subst. by rewrite Z.sub_diag.
Qed.

(** ** Blocks of files

    [own] says what a block is used for: block [bn] of inode [inum], or its
    list of blocks, which counts as block [-1]. *)
Definition owner : Type := Z -> option (Z * Z).
Definition give (own : owner) (b : Z) (k : Z * Z) (x : Z) : option (Z * Z) := if decide (x = b) then Some k else own x.

(** The first [n] blocks of the file are there. *)
Record shape (v : Z -> block) (own : owner) (inum : Z) (ip : inode) (n : Z) : Prop := {
  sh_n : 0 <= n <= MAXFILE;
  sh_blocks : forall bn, 0 <= bn < MAXFILE -> if bn <? n then own (fblock v ip bn) = Some (inum, bn) else fblock v ip bn = 0;
  sh_ind : if NDIRECT <? n then own (ind ip) = Some (inum, -1) else ind ip = 0 }.

(** The blocks from [fb] on are not in use. *)
Record spare (v : Z -> block) (own : owner) (fb : Z) : Prop := {
  sp_own : forall b k, own b = Some k -> nmeta <= b < fb;
  sp_zero : forall b a, fb <= b < FSSIZE -> rd (v b) a = 0 }.

Lemma spare_none v own fb b : spare v own fb -> ~ nmeta <= b < fb -> own b = None.
Proof. intros H Hn. destruct (own b) eqn:E; [|done]. by apply (sp_own _ _ _ H) in E. Qed.

Lemma spare_ld32 v own fb b a : spare v own fb -> fb <= b < FSSIZE -> ld32 (v b) a = 0.
Proof. intros H Hb. apply ldn_zero. intros. by apply (sp_zero _ _ _ H). Qed.

Lemma consts : MAXFILE = 268 /\ NDIRECT = 12 /\ NINDIRECT = 256 /\ BSIZE = 1024 /\ nmeta = 46 /\ FSSIZE = 2000.
Proof. done. Qed.

(** Only the list matters for where the blocks are. *)
Lemma fblock_same v v' own inum ip n bn : shape v own inum ip n -> (forall b, own b = Some (inum, -1) -> v' b = v b) ->
  fblock v' ip bn = fblock v ip bn.
Proof.
  intros H Hv. unfold fblock. destruct (bn <? NDIRECT); [done|]. destruct (Z.eqb_spec (ind ip) 0); [done|].
  pose proof (sh_ind _ _ _ _ _ H) as Hi. destruct (NDIRECT <? n); [|done]. by rewrite (Hv _ Hi).
Qed.

Lemma shape_frame v v' own own' inum ip n : shape v own inum ip n -> (forall b, own b = Some (inum, -1) -> v' b = v b) ->
  (forall b k, own b = Some (inum, k) -> own' b = Some (inum, k)) -> shape v' own' inum ip n.
Proof.
  intros H Hv Ho. split; [apply H| |].
  - intros bn Hbn. rewrite (fblock_same v v' own inum ip n bn H Hv).
    pose proof (sh_blocks _ _ _ _ _ H bn Hbn) as Hb. destruct (bn <? n); [by apply Ho|done].
  - pose proof (sh_ind _ _ _ _ _ H) as Hi. destruct (NDIRECT <? n); [by apply Ho|done].
Qed.

(** *** A block the file has *)

Lemma addr_range v own fb b k : spare v own fb -> fb <= FSSIZE -> own b = Some k -> 0 < b < FSSIZE /\ xint b = b.
Proof.
  intros H Hfb Hb. apply (sp_own _ _ _ H) in Hb. destruct consts as (_ & _ & _ & _ & E1 & E2). rewrite E1, E2 in *.
  split; [lia|]. apply xint_id. lia.
Qed.

Lemma file_block_old s own inum din n fbn : spare (view s) own (freeblock s) -> im_len s = FSSIZE -> freeblock s <= FSSIZE ->
  shape (view s) own inum din n -> 0 <= fbn < n -> file_block din fbn s = Ok (din, fblock (view s) din fbn) s.
Proof.
  intros Hs Hl Hf H Hn. pose proof (sh_n _ _ _ _ _ H) as Hmax. pose proof (sh_blocks _ _ _ _ _ H fbn ltac:(lia)) as Hb.
  rewrite (proj2 (Z.ltb_lt _ _)) in Hb by lia. pose proof (addr_range _ _ _ _ _ Hs Hf Hb) as [Hr Ex].
  unfold file_block. unfold fblock in *. destruct (Z.ltb_spec fbn NDIRECT).
  - rewrite Ex, (proj2 (Z.eqb_neq _ _)) by lia. by rewrite ret_bind, Ex.
  - pose proof (sh_ind _ _ _ _ _ H) as Hi. rewrite (proj2 (Z.ltb_lt NDIRECT n)) in Hi by lia.
    pose proof (addr_range _ _ _ _ _ Hs Hf Hi) as [Hri Exi]. unfold ind in *. rewrite Exi.
    destruct (Z.eqb_spec (i_addrs din !!! NDIRECT) 0) as [E|E]; [lia|]. rewrite ret_bind, Exi.
    rewrite (bind_ok _ _ _ _ _ (rsect_ok (i_addrs din !!! NDIRECT) s ltac:(rewrite Hl; lia) ltac:(by rewrite Hl))).
    rewrite (proj2 (Z.eqb_neq _ _)) by lia. by rewrite ret_bind, Ex.
Qed.

(** *** A new block *)

Lemma give_other own b k x k' : own b = None -> own x = Some k' -> give own b k x = Some k'.
Proof. intros Hb Hx. unfold give. destruct (decide (x = b)) as [->|]; [congruence|done]. Qed.

Lemma give_same own b k : give own b k b = Some k.
Proof. unfold give. by rewrite decide_True. Qed.

Lemma spare_give v v' own fb k : spare v own fb -> nmeta <= fb -> (forall b, fb < b < FSSIZE -> v' b = v b) -> spare v' (give own fb k) (fb + 1).
Proof.
  intros H Hm Hv. split.
  - intros b k'. unfold give. destruct (decide (b = fb)) as [->|]; [lia|]. intros Hb%(sp_own _ _ _ H). lia.
  - intros b a Hb. rewrite Hv by lia. apply (sp_zero _ _ _ H). lia.
Qed.

(** What an operation on file [inum] may do: it takes [d] blocks and writes
    only blocks that are then the file's. *)
Record grows (s : mst) (own : owner) (inum d : Z) (s' : mst) (own' : owner) : Prop := {
  gr_len : im_len s' = im_len s;
  gr_ino : freeinode s' = freeinode s;
  gr_fb : freeblock s' = freeblock s + d;
  gr_spare : spare (view s') own' (freeblock s');
  gr_keep : forall b k, own b = Some k -> own' b = Some k;
  gr_new : forall b k, own' b = Some k -> own b = Some k \/ own b = None /\ k.1 = inum;
  gr_view : forall b, (forall bn, own' b <> Some (inum, bn)) -> view s' b = view s b }.

Lemma grows_refl s own inum : spare (view s) own (freeblock s) -> grows s own inum 0 s own.
Proof. intros H. split; try done; [by rewrite Z.add_0_r|auto]. Qed.

Lemma grows_trans s1 o1 inum d1 s2 o2 d2 s3 o3 : grows s1 o1 inum d1 s2 o2 -> grows s2 o2 inum d2 s3 o3 -> grows s1 o1 inum (d1 + d2) s3 o3.
Proof.
  intros A B. split.
  - by rewrite (gr_len _ _ _ _ _ _ B), (gr_len _ _ _ _ _ _ A).
  - by rewrite (gr_ino _ _ _ _ _ _ B), (gr_ino _ _ _ _ _ _ A).
  - rewrite (gr_fb _ _ _ _ _ _ B), (gr_fb _ _ _ _ _ _ A). lia.
  - apply B.
  - intros b k Hb. by apply (gr_keep _ _ _ _ _ _ B), (gr_keep _ _ _ _ _ _ A).
  - intros b k Hb. destruct (gr_new _ _ _ _ _ _ B b k Hb) as [Hb'|[Hn Hk]]; [by apply (gr_new _ _ _ _ _ _ A)|].
    right. split; [|done]. destruct (o1 b) eqn:E; [|done]. apply (gr_keep _ _ _ _ _ _ A) in E. congruence.
  - intros b Hb. rewrite (gr_view _ _ _ _ _ _ B b Hb). apply (gr_view _ _ _ _ _ _ A).
    intros bn Hbn. by apply (Hb bn), (gr_keep _ _ _ _ _ _ B).
Qed.

Lemma take_block_ok s : freeblock s < FSSIZE -> nmeta <= freeblock s ->
  take_block s = Ok (freeblock s) (set_freeblock (freeblock s + 1) s) /\ xint (freeblock s) = freeblock s.
Proof.
  destruct consts as (_ & _ & _ & _ & E1 & E2). rewrite E1, E2. intros H0 H1. unfold take_block. rewrite gets_bind.
  rewrite (u32_small (freeblock s + 1)) by lia. split; [done|]. apply xint_id. lia.
Qed.

(** [freeblock++], for block [bn] of the file. *)
Lemma grows_take s own inum bn : spare (view s) own (freeblock s) -> nmeta <= freeblock s < FSSIZE ->
  grows s own inum 1 (set_freeblock (freeblock s + 1) s) (give own (freeblock s) (inum, bn)).
Proof.
  intros H Hr. assert (own (freeblock s) = None) as Hn by (apply (spare_none _ _ _ _ H); lia).
  split; try done.
  - apply spare_give with (view s); [done|lia|done].
  - intros b k Hb. by apply give_other.
  - intros b k. unfold give. destruct (decide (b = freeblock s)) as [->|]; [intros [= <-]; by right|by left].
Qed.

(** A direct block. *)
Lemma shape_direct v own inum din n b : shape v own inum din n -> n < NDIRECT -> own b = Some (inum, n) ->
  shape v own inum (set_i_addr n b din) (n + 1).
Proof.
  intros H Hn Hb. destruct consts as (HM & HD & _). pose proof (sh_n _ _ _ _ _ H). split; [lia| |].
  - intros bn Hbn. pose proof (sh_blocks _ _ _ _ _ H bn Hbn) as Hold. unfold fblock, ind in *. cbn [set_i_addr i_addrs].
    destruct (Z.ltb_spec bn NDIRECT).
    + destruct (decide (bn = n)) as [->|Hne]; [rewrite lookup_total_insert_eq, (proj2 (Z.ltb_lt n (n + 1))) by lia; done|].
      rewrite lookup_total_insert_ne by done. destruct (Z.ltb_spec bn n), (Z.ltb_spec bn (n + 1)); try lia; done.
    + rewrite lookup_total_insert_ne by lia. destruct (Z.ltb_spec bn n), (Z.ltb_spec bn (n + 1)); try lia; done.
  - pose proof (sh_ind _ _ _ _ _ H) as Hi. unfold ind in *. cbn [set_i_addr i_addrs]. rewrite lookup_total_insert_ne by lia.
    rewrite (proj2 (Z.ltb_ge _ _)) in Hi by lia. by rewrite (proj2 (Z.ltb_ge _ _)) by lia.
Qed.

(** A block of the list, which is at [ind din]. *)
Lemma shape_indirect v v' own inum din n b :
  (forall bn, 0 <= bn < MAXFILE -> if bn <? n then own (fblock v din bn) = Some (inum, bn) else fblock v din bn = 0) ->
  own (ind din) = Some (inum, -1) -> ind din <> 0 -> NDIRECT <= n < MAXFILE -> own b = Some (inum, n) -> uint b ->
  v' (ind din) = st32 (v (ind din)) (4 * (n - NDIRECT)) b -> shape v' own inum din (n + 1).
Proof.
  intros H Hi H0 Hn Hb Hu Hv. destruct consts as (HM & HD & _). split; [lia| |].
  - intros bn Hbn. specialize (H bn Hbn). unfold fblock in *. destruct (Z.ltb_spec bn NDIRECT).
    + destruct (Z.ltb_spec bn n), (Z.ltb_spec bn (n + 1)); try lia; done.
    + rewrite (proj2 (Z.eqb_neq _ _)) in * by done. rewrite Hv. destruct (decide (bn = n)) as [->|Hne].
      * rewrite ld32_st32, u32_small, (proj2 (Z.ltb_lt n (n + 1))) by (unfold uint in Hu; lia). done.
      * unfold ld32, st32. rewrite ldn_stn_other by (simpl Z.of_nat; lia). fold ld32.
        destruct (Z.ltb_spec bn n), (Z.ltb_spec bn (n + 1)); try lia; done.
  - by rewrite (proj2 (Z.ltb_lt _ _)) by lia.
Qed.

(** The new list is empty. *)
Lemma fblock_new_list v din x bn : ind din = 0 -> x <> 0 -> (forall a, rd (v x) a = 0) -> 0 <= bn < MAXFILE ->
  fblock v (set_i_addr NDIRECT x din) bn = fblock v din bn.
Proof.
  intros Hi Hx Hz Hbn. destruct consts as (HM & HD & _). unfold fblock, ind in *. cbn [set_i_addr i_addrs].
  destruct (Z.ltb_spec bn NDIRECT); [by rewrite lookup_total_insert_ne by lia|]. rewrite lookup_total_insert_eq, Hi.
  rewrite (proj2 (Z.eqb_neq x 0)) by done. cbn [Z.eqb]. apply ldn_zero. auto.
Qed.

(** How many blocks the new block [n] of a file takes. *)
Definition cost (n : Z) : Z := if n =? NDIRECT then 2 else 1.

(** The list of the file, made if need be, holds the blocks so far. *)
Lemma list_block s own inum din n : spare (view s) own (freeblock s) -> im_len s = FSSIZE -> nmeta <= freeblock s ->
  shape (view s) own inum din n -> NDIRECT <= n < MAXFILE -> freeblock s + cost n <= FSSIZE ->
  exists s' din' own',
    (if xint (i_addrs din !!! NDIRECT) =? 0 then b ← take_block; mret (set_i_addr NDIRECT (xint b) din) else mret din) s = Ok din' s' /\
    grows s own inum (cost n - 1) s' own' /\ (forall b, view s' b = view s b) /\ own' (ind din') = Some (inum, -1) /\
    (exists A, din' = set_i_addrs A din) /\
    forall bn, 0 <= bn < MAXFILE -> fblock (view s') din' bn = fblock (view s) din bn.
Proof.
  intros Hs Hl Hm H Hn Hf. destruct consts as (HM & HD & _ & _ & E1 & E2). pose proof (sh_ind _ _ _ _ _ H) as Hi. unfold cost in *.
  destruct (Z.eqb_spec n NDIRECT) as [->|Hne].
  - rewrite Z.ltb_irrefl in Hi. unfold ind in Hi. rewrite Hi. change (xint 0 =? 0) with true. cbv iota.
    destruct (take_block_ok s) as [Ht Ex]; [lia|lia|]. rewrite (bind_ok _ _ _ _ _ Ht), Ex.
    eexists _, _, _. split; [reflexivity|]. split; [by apply (grows_take s own inum (-1)); [done|lia]|].
    split; [done|]. cbn [ind set_i_addr i_addrs]. unfold ind. cbn [i_addrs set_i_addr]. rewrite lookup_total_insert_eq.
    split; [apply give_same|]. split; [by eexists|]. intros bn Hbn.
    apply fblock_new_list; [done|lia| |done]. intros a. apply (sp_zero _ _ _ Hs). lia.
  - rewrite (proj2 (Z.ltb_lt _ _)) in Hi by lia. pose proof (addr_range _ _ _ _ _ Hs ltac:(lia) Hi) as [Hr Ex]. unfold ind in *. rewrite Ex.
    rewrite (proj2 (Z.eqb_neq _ _)) by lia. exists s, din, own. split; [done|]. split; [by apply grows_refl|].
    split_and!; [done|done| |done]. exists (i_addrs din). by rewrite set_i_addrs_same.
Qed.

(** The list with one more entry. *)
Lemma indirect_block s own inum din n : spare (view s) own (freeblock s) -> im_len s = FSSIZE -> nmeta <= freeblock s < FSSIZE ->
  own (ind din) = Some (inum, -1) -> NDIRECT <= n < MAXFILE ->
  (forall bn, 0 <= bn < MAXFILE -> if bn <? n then own (fblock (view s) din bn) = Some (inum, bn) else fblock (view s) din bn = 0) ->
  exists s' own', (indirect ← rsect (xint (i_addrs din !!! NDIRECT));
    indirect ← (if ld32 indirect (4 * (n - NDIRECT)) =? 0 then
                  b ← take_block;
                  let indirect := st32 indirect (4 * (n - NDIRECT)) (xint b) in
                  wsect (xint (i_addrs din !!! NDIRECT)) indirect;;
                  mret indirect
                else mret indirect);
    mret (din, xint (ld32 indirect (4 * (n - NDIRECT))))) s = Ok (din, freeblock s) s' /\
    grows s own inum 1 s' own' /\ shape (view s') own' inum din (n + 1) /\ fblock (view s') din n = freeblock s /\
    (forall b, own' b <> Some (inum, -1) -> view s' b = view s b) /\
    (forall bn, 0 <= bn < n -> fblock (view s') din bn = fblock (view s) din bn).
Proof.
  intros Hs Hl Hf Hi Hn H. destruct consts as (HM & HD & _ & _ & E1 & E2).
  pose proof (addr_range _ _ _ _ _ Hs ltac:(lia) Hi) as [Hr Ex]. unfold ind in Ex. rewrite Ex. fold (ind din).
  rewrite (bind_ok _ _ _ _ _ (rsect_ok (ind din) s ltac:(rewrite Hl; lia) ltac:(by rewrite Hl))).
  pose proof (H n ltac:(lia)) as Hz. rewrite Z.ltb_irrefl in Hz. unfold fblock in Hz.
  rewrite (proj2 (Z.ltb_ge n NDIRECT)), (proj2 (Z.eqb_neq (ind din) 0)) in Hz by lia. rewrite Hz. cbn [Z.eqb].
  destruct (take_block_ok s) as [Ht Exb]; [lia|lia|]. rewrite bind_bind, (bind_ok _ _ _ _ _ Ht), Exb. cbv zeta.
  set (s1 := set_freeblock (freeblock s + 1) s). rewrite bind_bind.
  destruct (wsect_ok (ind din) (st32 (view s (ind din)) (4 * (n - NDIRECT)) (freeblock s)) s1) as (s2 & Hw & L2 & I2 & F2 & V2);
    [unfold s1; cbn [set_freeblock im_len]; rewrite Hl; lia|unfold s1; cbn [set_freeblock im_len]; by rewrite Hl|].
  rewrite (bind_ok _ _ _ _ _ Hw), ret_bind. set (own' := give own (freeblock s) (inum, n)).
  assert (own (freeblock s) = None) as Hnone by (apply (spare_none _ _ _ _ Hs); lia).
  assert (own' (ind din) = Some (inum, -1)) as Hi' by (by apply give_other).
  assert (forall b, b <> ind din -> view s2 b = view s b) as Hv by (intros b Hb; rewrite V2; unfold upd; by rewrite decide_False).
  assert (view s2 (ind din) = st32 (view s (ind din)) (4 * (n - NDIRECT)) (freeblock s)) as Hvi by (rewrite V2; unfold upd; by rewrite decide_True).
  assert (shape (view s2) own' inum din (n + 1)) as Hsh.
  { apply (shape_indirect (view s) (view s2) own' inum din n (freeblock s)); try done; [|lia|apply give_same|unfold uint; lia].
    intros bn Hbn. specialize (H bn Hbn). destruct (bn <? n); [by apply give_other|done]. }
  pose proof (grows_take s own inum n Hs Hf) as G. fold s1 own' in G.
  exists s2, own'. split; [|split; [|split; [done|split; [|split]]]].
  - rewrite ld32_st32, u32_small, Exb by lia. done.
  - split; try apply G.
    + by rewrite L2.
    + by rewrite I2.
    + rewrite F2. by apply G.
    + rewrite F2. apply spare_give with (view s); [done|lia|]. intros b Hb. apply Hv. apply (sp_own _ _ _ Hs) in Hi. lia.
    + intros b Hb. apply Hv. intros ->. by apply (Hb (-1)).
  - unfold fblock. rewrite (proj2 (Z.ltb_ge n NDIRECT)), (proj2 (Z.eqb_neq (ind din) 0)), Hvi by lia.
    rewrite ld32_st32. apply u32_small. lia.
  - intros b Hb. apply Hv. intros ->. done.
  - intros bn Hbn. unfold fblock. destruct (Z.ltb_spec bn NDIRECT); [done|]. rewrite (proj2 (Z.eqb_neq (ind din) 0)), Hvi by lia.
    unfold ld32, st32. apply ldn_stn_other. simpl Z.of_nat. lia.
Qed.

(** [file_block] for the next block of the file. *)
Lemma file_block_new s own inum din n : spare (view s) own (freeblock s) -> im_len s = FSSIZE -> nmeta <= freeblock s ->
  shape (view s) own inum din n -> n < MAXFILE -> freeblock s + cost n <= FSSIZE ->
  exists s' din' own' x, file_block din n s = Ok (din', x) s' /\ grows s own inum (cost n) s' own' /\
    shape (view s') own' inum din' (n + 1) /\ fblock (view s') din' n = x /\ (exists A, din' = set_i_addrs A din) /\
    own x = None /\ (forall a, rd (view s' x) a = 0) /\
    (forall bn, 0 <= bn < n -> fblock (view s') din' bn = fblock (view s) din bn) /\
    (forall b, own' b <> Some (inum, -1) -> view s' b = view s b).
Proof.
  intros Hs Hl Hm H Hn Hf. destruct consts as (HM & HD & _ & _ & E1 & E2). pose proof (sh_n _ _ _ _ _ H) as Hn0.
  unfold file_block. destruct (Z.ltb_spec n NDIRECT) as [Hd|Hd].
  - unfold cost in *. rewrite (proj2 (Z.eqb_neq n NDIRECT)) in * by lia.
    pose proof (sh_blocks _ _ _ _ _ H n ltac:(lia)) as Hz. rewrite Z.ltb_irrefl in Hz. unfold fblock in Hz. rewrite (proj2 (Z.ltb_lt n NDIRECT)) in Hz by lia.
    rewrite Hz. change (xint 0 =? 0) with true. cbv iota. destruct (take_block_ok s) as [Ht Ex]; [lia|lia|].
    rewrite bind_bind, (bind_ok _ _ _ _ _ Ht), ret_bind, Ex. pose proof (grows_take s own inum n Hs ltac:(lia)) as G.
    assert (shape (view s) (give own (freeblock s) (inum, n)) inum din n) as H'.
    { eapply shape_frame; [exact H|done|]. intros b k Hb. by apply (gr_keep _ _ _ _ _ _ G). }
    assert (own (freeblock s) = None) as Hnone by (apply (spare_none _ _ _ _ Hs); lia).
    eexists _, _, _, (freeblock s). split; [cbn [set_i_addr i_addrs]; by rewrite lookup_total_insert_eq, Ex|]. split; [exact G|].
    split; [apply (shape_direct _ _ _ _ _ (freeblock s) H' Hd), give_same|]. split; [|split; [by eexists|split; [done|split; [|split]]]].
    + unfold fblock. rewrite (proj2 (Z.ltb_lt n NDIRECT)) by lia. cbn [set_i_addr i_addrs]. apply lookup_total_insert_eq.
    + intros a. apply (sp_zero _ _ _ Hs). lia.
    + intros bn Hbn. unfold fblock, ind. cbn [set_i_addr i_addrs]. by rewrite !lookup_total_insert_ne by lia.
    + done.
  - destruct (list_block s own inum din n Hs Hl Hm H) as (s1 & din1 & own1 & R1 & G1 & V1 & Hi1 & (A & EA) & B1); [lia|lia|].
    rewrite (bind_ok _ _ _ _ _ R1). assert (0 < cost n) as Hc by (unfold cost; destruct (n =? NDIRECT); lia).
    destruct (indirect_block s1 own1 inum din1 n) as (s2 & own2 & R2 & G2 & S2 & F2 & V2 & B2).
    + apply G1.
    + by rewrite (gr_len _ _ _ _ _ _ G1).
    + rewrite (gr_fb _ _ _ _ _ _ G1). lia.
    + done.
    + lia.
    + intros bn Hbn. rewrite B1 by done. pose proof (sh_blocks _ _ _ _ _ H bn Hbn) as Hb. destruct (bn <? n); [by apply (gr_keep _ _ _ _ _ _ G1)|done].
    + pose proof (grows_trans _ _ _ _ _ _ _ _ _ G1 G2) as G. replace (cost n - 1 + 1) with (cost n) in G by lia.
      exists s2, din1, own2, (freeblock s1). split; [exact R2|]. split; [done|]. split; [done|]. split; [done|].
      split; [by exists A|]. assert (own (freeblock s1) = None) as Hnone by (apply (spare_none _ _ _ _ Hs); rewrite (gr_fb _ _ _ _ _ _ G1); lia).
      split; [done|]. pose proof (sh_blocks _ _ _ _ _ S2 n ltac:(lia)) as Hbn. rewrite (proj2 (Z.ltb_lt n (n + 1))), F2 in Hbn by lia.
      split; [|split].
      * intros a. rewrite V2, V1 by (rewrite Hbn; intros [=]; lia). apply (sp_zero _ _ _ Hs). rewrite (gr_fb _ _ _ _ _ _ G1). lia.
      * intros bn Hb. rewrite B2 by lia. apply B1. lia.
      * intros b Hb. rewrite V2 by done. apply V1.
Qed.

(** ** Content *)

Definition cbyte (c : list Z) (o : Z) : Z := u8 (default 0 (c !! Z.to_nat o)).
Definition bcount (n : Z) : Z := (n + BSIZE - 1) / BSIZE.

(** The file holds [c], and zeros up to the end of its last block. *)
Record holds (v : Z -> block) (own : owner) (inum : Z) (ip : inode) (c : list Z) : Prop := {
  ho_shape : shape v own inum ip (bcount (Z.of_nat (length c)));
  ho_bytes : forall o, 0 <= o -> o / BSIZE < bcount (Z.of_nat (length c)) ->
    rd (v (fblock v ip (o / BSIZE))) (o mod BSIZE) = cbyte c o }.

Lemma holds_frame v v' own own' inum ip c : holds v own inum ip c ->
  (forall b k, own b = Some (inum, k) -> v' b = v b /\ own' b = Some (inum, k)) -> holds v' own' inum ip c.
Proof.
  intros H Hv. pose proof (ho_shape _ _ _ _ _ H) as Hs. split; [eapply shape_frame; [done|intros; by eapply Hv|intros; by eapply Hv]|].
  intros o H0 H1. pose proof (sh_n _ _ _ _ _ Hs) as Hn. assert (0 <= o / BSIZE) by (apply Z.div_pos; done).
  rewrite (fblock_same v v' own inum ip (bcount (Z.of_nat (length c))) (o / BSIZE) Hs); [|intros; by eapply Hv].
  pose proof (sh_blocks _ _ _ _ _ Hs (o / BSIZE) ltac:(lia)) as Hb. rewrite (proj2 (Z.ltb_lt _ _)) in Hb by lia.
  destruct (Hv _ _ Hb) as [-> _]. by apply H.
Qed.

(** The block at the end of the content, new or not. *)
Definition end_cost (n : Z) : Z := if n mod BSIZE =? 0 then cost (n / BSIZE) else 0.

Lemma bcount_end n : 0 <= n -> bcount n = if n mod BSIZE =? 0 then n / BSIZE else n / BSIZE + 1.
Proof.
  intros Hn. unfold bcount. assert (BSIZE = 1024) as -> by done. destruct (Z.eqb_spec (n mod 1024) 0) as [E|E].
  - pose proof (Z.div_mod n 1024 ltac:(lia)). symmetry. apply (Z.div_unique _ _ _ 1023); lia.
  - pose proof (Z.div_mod n 1024 ltac:(lia)). pose proof (Z.mod_pos_bound n 1024 ltac:(lia)).
    symmetry. apply (Z.div_unique _ _ _ (n mod 1024 - 1)); lia.
Qed.

Lemma cbyte_end c o : Z.of_nat (length c) <= o -> cbyte c o = 0.
Proof. intros H. unfold cbyte. rewrite lookup_ge_None_2 by lia. done. Qed.

Section append.
Context (inum : Z).

Lemma end_block s own din c : spare (view s) own (freeblock s) -> im_len s = FSSIZE -> nmeta <= freeblock s ->
  holds (view s) own inum din c -> let n := Z.of_nat (length c) in n / BSIZE < MAXFILE -> freeblock s + end_cost n <= FSSIZE ->
  exists s' din' own' x, file_block din (n / BSIZE) s = Ok (din', x) s' /\ grows s own inum (end_cost n) s' own' /\
    shape (view s') own' inum din' (n / BSIZE + 1) /\ fblock (view s') din' (n / BSIZE) = x /\ (exists A, din' = set_i_addrs A din) /\
    forall o, 0 <= o -> o / BSIZE <= n / BSIZE -> rd (view s' (fblock (view s') din' (o / BSIZE))) (o mod BSIZE) = cbyte c o.
Proof.
  intros Hs Hl Hm [H Hb] n Hmax Hf. fold n in H, Hb. assert (0 <= n / BSIZE) as Hn0 by (apply Z.div_pos; [lia|done]).
  rewrite (bcount_end n) in * by lia. unfold end_cost in *. destruct (Z.eqb_spec (n mod BSIZE) 0) as [E|E].
  - destruct (file_block_new s own inum din (n / BSIZE) Hs Hl Hm H Hmax Hf) as (s' & din' & own' & x & R & G & S & Fx & HA & Hx & Z & B & V).
    exists s', din', own', x. do 5 (split; [done|]). intros o H0 H1. assert (0 <= o / BSIZE) as Ho by (apply Z.div_pos; done).
    destruct (Z.eq_dec (o / BSIZE) (n / BSIZE)) as [Eo|Ne].
    + rewrite Eo, Fx, Z, cbyte_end; [done|]. fold n. pose proof (Z.div_mod n BSIZE ltac:(done)). pose proof (Z.div_mod o BSIZE ltac:(done)).
      pose proof (Z.mod_pos_bound o BSIZE ltac:(done)). rewrite Eo in *. lia.
    + rewrite B by lia. pose proof (sh_blocks _ _ _ _ _ H (o / BSIZE) ltac:(pose proof (sh_n _ _ _ _ _ H); lia)) as Hob.
      rewrite (proj2 (Z.ltb_lt _ _)) in Hob by lia. rewrite V; [apply Hb; lia|].
      rewrite (gr_keep _ _ _ _ _ _ G _ _ Hob). intros [=]. lia.
  - exists s, din, own, (fblock (view s) din (n / BSIZE)). split; [apply (file_block_old s own inum din (n / BSIZE + 1)); try done; lia|].
    split; [by apply grows_refl|]. split; [done|]. split; [done|]. split; [exists (i_addrs din); by rewrite set_i_addrs_same|].
    intros o H0 H1. apply Hb; lia.
Qed.

(** All blocks of a file of [n] bytes. *)
Definition blocks (n : Z) : Z := bcount n + (if NDIRECT <? bcount n then 1 else 0).

Lemma bcount_mono n m : n <= m -> bcount n <= bcount m.
Proof. intros H. unfold bcount. apply Z.div_le_mono; [done|]. lia. Qed.

Lemma blocks_mono n m : n <= m -> blocks n <= blocks m.
Proof.
  intros H%bcount_mono. unfold blocks. destruct (Z.ltb_spec NDIRECT (bcount n)), (Z.ltb_spec NDIRECT (bcount m)); lia.
Qed.

(** The bytes that go into the block. *)
Definition round_bytes (n : Z) (p : list Z) : Z := Z.min (Z.of_nat (length p)) ((n / BSIZE + 1) * BSIZE - n).

Lemma round_range n p : 0 <= n -> p <> [] ->
  0 < round_bytes n p <= Z.of_nat (length p) /\ bcount (n + round_bytes n p) = n / BSIZE + 1 /\ n mod BSIZE + round_bytes n p <= BSIZE.
Proof.
  intros Hn Hp. assert (0 < Z.of_nat (length p)) by (destruct p; [done|simpl; lia]). unfold round_bytes, bcount.
  assert (BSIZE = 1024) as -> by done. pose proof (Z.div_mod n 1024 ltac:(lia)). pose proof (Z.mod_pos_bound n 1024 ltac:(lia)).
  split_and!; [lia|lia| |lia]. symmetry.
  apply (Z.div_unique _ _ _ (n mod 1024 + Z.min (Z.of_nat (length p)) ((n / 1024 + 1) * 1024 - n) - 1)); lia.
Qed.

Lemma end_cost_blocks n p : 0 <= n -> p <> [] -> end_cost n = blocks (n + round_bytes n p) - blocks n.
Proof.
  intros Hn Hp. destruct (round_range n p Hn Hp) as (_ & E & _). unfold end_cost, blocks, cost. rewrite E, (bcount_end n) by done.
  destruct (Z.eqb_spec (n mod BSIZE) 0); [|lia].
  destruct (Z.eqb_spec (n / BSIZE) NDIRECT), (Z.ltb_spec NDIRECT (n / BSIZE)), (Z.ltb_spec NDIRECT (n / BSIZE + 1)); lia.
Qed.

Lemma cbyte_app c p o : 0 <= o -> cbyte (c ++ p) o = if o <? Z.of_nat (length c) then cbyte c o else cbyte p (o - Z.of_nat (length c)).
Proof.
  intros Ho. unfold cbyte. destruct (Z.ltb_spec o (Z.of_nat (length c))).
  - by rewrite lookup_app_l by lia.
  - rewrite lookup_app_r by lia. by replace (Z.to_nat o - length c)%nat with (Z.to_nat (o - Z.of_nat (length c))) by lia.
Qed.

Lemma cbyte_total p i : (i < length p)%nat -> u8 (p !!! i) = cbyte p (Z.of_nat i).
Proof.
  intros H. destruct (lookup_lt_is_Some_2 p i H) as [y Hy]. unfold cbyte. by rewrite Nat2Z.id, (list_lookup_total_correct _ _ _ Hy), Hy.
Qed.

(** A round of the loop. *)
Lemma append_round s own din c p : spare (view s) own (freeblock s) -> im_len s = FSSIZE -> nmeta <= freeblock s ->
  holds (view s) own inum din c -> p <> [] -> let n := Z.of_nat (length c) in let n1 := round_bytes n p in
  n / BSIZE < MAXFILE -> freeblock s + end_cost n <= FSSIZE ->
  exists s' din' own' x s1, 0 <= x < FSSIZE /\ im_len s1 = FSSIZE /\ file_block din (n / BSIZE) s = Ok (din', x) s1 /\ rsect x s1 = Ok (view s1 x) s1 /\
    wsect x (bcopy (take (Z.to_nat n1) p) (view s1 x) (n - n / BSIZE * BSIZE)) s1 = Ok tt s' /\
    grows s own inum (end_cost n) s' own' /\ holds (view s') own' inum din' (c ++ take (Z.to_nat n1) p) /\ exists A, din' = set_i_addrs A din.
Proof.
  intros Hs Hl Hm H Hp n n1 Hmax Hf. destruct (end_block s own din c Hs Hl Hm H Hmax Hf) as (s1 & din' & own' & x & R & G & S & Fx & HA & B).
  fold n in R, G, S, Fx, B. destruct (round_range n p ltac:(lia) Hp) as (Hn1 & Ebc & Hfit). fold n1 in Hn1, Ebc, Hfit.
  assert (0 <= n / BSIZE) as Hn0 by (apply Z.div_pos; [lia|done]).
  pose proof (sh_blocks _ _ _ _ _ S (n / BSIZE) ltac:(lia)) as Hx. rewrite (proj2 (Z.ltb_lt _ _)), Fx in Hx by lia.
  pose proof (gr_fb _ _ _ _ _ _ G) as Hfb. pose proof (addr_range _ _ _ _ _ (gr_spare _ _ _ _ _ _ G) ltac:(lia) Hx) as [Hxr _].
  assert (im_len s1 = FSSIZE) as Hl1 by (by rewrite (gr_len _ _ _ _ _ _ G)).
  set (d := bcopy (take (Z.to_nat n1) p) (view s1 x) (n - n / BSIZE * BSIZE)).
  destruct (wsect_ok x d s1) as (s2 & W & L2 & I2 & F2 & V2); [lia|by rewrite Hl1|].
  assert (view s2 x = d) as Vx by (rewrite V2; unfold upd; by rewrite decide_True).
  assert (forall b, b <> x -> view s2 b = view s1 b) as Vo by (intros b Hb; rewrite V2; unfold upd; by rewrite decide_False).
  exists s2, din', own', x, s1. split; [lia|]. split; [done|]. split; [done|]. split; [apply rsect_ok; [lia|by rewrite Hl1]|]. split; [done|].
  split; [|split; [|done]].
  - split; try apply G.
    + by rewrite L2, (gr_len _ _ _ _ _ _ G).
    + by rewrite I2, (gr_ino _ _ _ _ _ _ G).
    + by rewrite F2.
    + rewrite F2. split; [apply G|]. intros b a Hb. pose proof (sp_own _ _ _ (gr_spare _ _ _ _ _ _ G) _ _ Hx).
      rewrite Vo by lia. apply (sp_zero _ _ _ (gr_spare _ _ _ _ _ _ G)). done.
    + intros b Hb. rewrite Vo by (intros ->; by apply (Hb (n / BSIZE))). by apply (gr_view _ _ _ _ _ _ G).
  - assert (Z.of_nat (length (c ++ take (Z.to_nat n1) p)) = n + n1) as El by (rewrite length_app, length_take; lia).
    assert (shape (view s2) own' inum din' (n / BSIZE + 1)) as S2.
    { apply (shape_frame (view s1) (view s2) own' own'); [done| |done]. intros b Hb. apply Vo. intros ->. rewrite Hx in Hb. injection Hb. lia. }
    split; rewrite El, Ebc; [done|]. intros o H0 H1. assert (0 <= o / BSIZE) as Ho by (apply Z.div_pos; done).
    rewrite (fblock_same (view s1) (view s2) own' inum din' _ (o / BSIZE) S)
      by (intros b Hb; apply Vo; intros ->; rewrite Hx in Hb; injection Hb; lia).
    rewrite cbyte_app by done. fold n. pose proof (Z.div_mod o BSIZE ltac:(done)) as Hdo. pose proof (Z.div_mod n BSIZE ltac:(done)) as Hdn.
    pose proof (Z.mod_pos_bound o BSIZE ltac:(done)). pose proof (Z.mod_pos_bound n BSIZE ltac:(done)).
    destruct (Z.eq_dec (o / BSIZE) (n / BSIZE)) as [Eo|Ne].
    + rewrite Eo, Fx, Vx. unfold d. rewrite rd_bcopy, length_take. specialize (B o H0 ltac:(lia)). rewrite Eo, Fx in B.
      replace (n - n / BSIZE * BSIZE) with (n mod BSIZE) by lia. rewrite Eo in Hdo.
      destruct (inr_spec (o mod BSIZE) (n mod BSIZE) (Z.of_nat (Z.to_nat n1 `min` length p))) as [Hin|Hout].
      * rewrite (proj2 (Z.ltb_ge o n)) by lia. rewrite cbyte_total by (rewrite length_take; lia). f_equal. lia.
      * rewrite B. destruct (Z.ltb_spec o n); [done|]. rewrite cbyte_end by (fold n; lia).
        symmetry. apply cbyte_end. rewrite length_take. lia.
    + assert (o < n) as Hlt by nia. rewrite (proj2 (Z.ltb_lt o n)) by done. rewrite <- B by lia. f_equal. apply Vo.
      pose proof (sh_blocks _ _ _ _ _ S (o / BSIZE) ltac:(lia)) as Hbo. rewrite (proj2 (Z.ltb_lt _ _)) in Hbo by lia.
      intros E. rewrite E, Hx in Hbo. injection Hbo. lia.
Qed.

Lemma iappend_loop_cons fuel din off p : p <> [] -> iappend_loop (S fuel) din off p =
  if negb (off / BSIZE <? MAXFILE) then panic "assert"
  else
    '(din, x) ← file_block din (off / BSIZE);
    let n1 := Z.min (Z.of_nat (length p)) ((off / BSIZE + 1) * BSIZE - off) in
    buf ← rsect x;
    wsect x (bcopy (take (Z.to_nat n1) p) buf (off - off / BSIZE * BSIZE));;
    iappend_loop fuel din (off + n1) (drop (Z.to_nat n1) p).
Proof. by destruct p. Qed.

Lemma iappend_loop_ok fuel : forall s own din c p, (length p <= fuel)%nat ->
  spare (view s) own (freeblock s) -> im_len s = FSSIZE -> nmeta <= freeblock s -> holds (view s) own inum din c ->
  let n := Z.of_nat (length c) in let n' := n + Z.of_nat (length p) in
  n' <= MAXFILE * BSIZE -> freeblock s + (blocks n' - blocks n) <= FSSIZE ->
  exists s' din' own', iappend_loop fuel din n p s = Ok (din', n') s' /\ grows s own inum (blocks n' - blocks n) s' own' /\
    holds (view s') own' inum din' (c ++ p) /\ exists A, din' = set_i_addrs A din.
Proof.
  induction fuel as [|fuel IH]; intros s own din c p Hp Hs Hl Hm H n n' Hmax Hf.
  - destruct p; [|simpl in Hp; lia]. exists s, din, own. unfold n'. cbn [length]. rewrite Z.add_0_r, Z.sub_diag, app_nil_r.
    split; [done|]. split; [by apply grows_refl|]. split; [done|]. exists (i_addrs din). by rewrite set_i_addrs_same.
  - destruct (decide (p = [])) as [->|Hne].
    { exists s, din, own. unfold n'. cbn [length]. rewrite Z.add_0_r, Z.sub_diag, app_nil_r.
      split; [done|]. split; [by apply grows_refl|]. split; [done|]. exists (i_addrs din). by rewrite set_i_addrs_same. }
    destruct (round_range n p ltac:(lia) Hne) as (Hn1 & _ & _).
    pose proof (end_cost_blocks n p ltac:(lia) Hne) as Hec. pose proof (blocks_mono (n + round_bytes n p) n' ltac:(unfold n'; lia)) as Hmono.
    assert (n / BSIZE < MAXFILE) as Hfbn by (apply Z.div_lt_upper_bound; [done|unfold n' in Hmax; lia]).
    destruct (append_round s own din c p Hs Hl Hm H Hne Hfbn ltac:(fold n; lia)) as (s1 & din1 & own1 & x & s0 & _ & _ & R1 & R2 & R3 & G & H1 & A & EA).
    fold n in R1, R3, G, H1. set (n1 := round_bytes n p) in *. pose proof (gr_fb _ _ _ _ _ _ G) as Hfb.
    assert (Z.of_nat (length (c ++ take (Z.to_nat n1) p)) = n + n1) as El by (rewrite length_app, length_take; lia).
    assert (Z.of_nat (length (drop (Z.to_nat n1) p)) = Z.of_nat (length p) - n1) as Ed by (rewrite length_drop; lia).
    assert (0 <= end_cost n) as Hec0 by (unfold end_cost, cost; clear; repeat case_match; lia).
    destruct (IH s1 own1 din1 (c ++ take (Z.to_nat n1) p) (drop (Z.to_nat n1) p)) as (s2 & din2 & own2 & R & G2 & H2 & A2 & EA2).
    + lia.
    + apply G.
    + by rewrite (gr_len _ _ _ _ _ _ G).
    + lia.
    + done.
    + rewrite El, Ed. unfold n' in Hmax. lia.
    + rewrite El, Ed. replace (n + n1 + (Z.of_nat (length p) - n1)) with n' by (unfold n'; lia). lia.
    + rewrite El, Ed in R, G2. replace (n + n1 + (Z.of_nat (length p) - n1)) with n' in R, G2 by (unfold n'; lia).
      exists s2, din2, own2. split; [|split; [|split]].
      * rewrite iappend_loop_cons, (proj2 (Z.ltb_lt _ _)) by done. cbn [negb].
        rewrite (bind_ok _ _ _ _ _ R1). fold (round_bytes n p). fold n1. rewrite (bind_ok _ _ _ _ _ R2), (bind_ok _ _ _ _ _ R3). exact R.
      * pose proof (grows_trans _ _ _ _ _ _ _ _ _ G G2) as G'. replace (blocks n' - blocks n) with (end_cost n + (blocks n' - blocks (n + n1))) by lia. done.
      * by rewrite <- app_assoc, take_drop in H2.
      * exists A2. by rewrite EA2, EA.
Qed.
End append.

(** ** The whole image *)

Lemma holds_ext v own inum ip ip' c : (forall k, 0 <= k < 13 -> i_addrs ip' !!! k = i_addrs ip !!! k) ->
  holds v own inum ip c -> holds v own inum ip' c.
Proof.
  intros He [[S1 S2 S3] Hb]. destruct consts as (HM & HD & _). assert (ind ip' = ind ip) as Ei by (unfold ind; apply He; lia).
  assert (forall bn, 0 <= bn -> fblock v ip' bn = fblock v ip bn) as Ef.
  { intros bn Hbn. unfold fblock. rewrite Ei. destruct (Z.ltb_spec bn NDIRECT); [apply He; lia|done]. }
  split; [split; [done| |by rewrite Ei]|].
  - intros bn Hbn. rewrite Ef by lia. by apply S2.
  - intros o H0 H1. rewrite Ef by (apply Z.div_pos; done). by apply Hb.
Qed.

(** The addresses of a file fit their fields. *)
Lemma shape_uint v own fb inum ip n k : spare v own fb -> fb <= FSSIZE -> shape v own inum ip n -> 0 <= k < 13 -> uint (i_addrs ip !!! k).
Proof.
  intros Hs Hf [S1 S2 S3] Hk. destruct consts as (HM & HD & _ & _ & _ & HF). unfold uint.
  assert (forall b, (exists x, own b = Some x) \/ b = 0 -> 0 <= b < 4294967296) as Hb.
  { intros b [[x Hb]| ->]; [|lia]. pose proof (addr_range _ _ _ _ _ Hs Hf Hb) as [? _]. lia. }
  apply Hb. destruct (Z.ltb_spec k NDIRECT) as [Hlt|Hge].
  - specialize (S2 k ltac:(lia)). unfold fblock in S2. rewrite (proj2 (Z.ltb_lt k NDIRECT)) in S2 by done. revert S2. destruct (k <? n); [left; by eexists|by right].
  - replace k with NDIRECT by lia. revert S3. unfold ind. destruct (NDIRECT <? n); [left; by eexists|by right].
Qed.

Lemma IBLOCK_range j : 0 <= j < 208 -> 32 <= IBLOCK j sb < 45.
Proof.
  intros Hj. rewrite sb_val. unfold IBLOCK. cbn [sb_inodestart]. assert (IPB = 16) as -> by done.
  pose proof (Z.div_pos j 16 ltac:(lia) ltac:(lia)). pose proof (Z.div_lt_upper_bound j 16 13 ltac:(lia) ltac:(lia)). lia.
Qed.

Lemma winode_ok inum ip s : 0 <= inum < 208 -> im_len s = FSSIZE ->
  exists s', winode inum ip s = Ok tt s' /\ im_len s' = im_len s /\ freeinode s' = freeinode s /\ freeblock s' = freeblock s /\
    forall y, view s' y = upd (view s) (IBLOCK inum sb) (put_dinode (view s (IBLOCK inum sb)) (dino inum) ip) y.
Proof.
  intros Hi Hl. pose proof (IBLOCK_range inum Hi). destruct consts as (_ & _ & _ & _ & _ & HF). unfold winode.
  rewrite (bind_ok _ _ _ _ _ (rsect_ok (IBLOCK inum sb) s ltac:(lia) ltac:(lia))). apply wsect_ok; lia.
Qed.

(** The inodes after one was written. *)
Lemma node_other v inum ip j : 0 <= j -> 0 <= inum -> j <> inum ->
  node (upd v (IBLOCK inum sb) (put_dinode (v (IBLOCK inum sb)) (dino inum) ip)) j = node v j.
Proof.
  intros Hj Hi Hne. unfold node, upd. destruct (decide (IBLOCK j sb = IBLOCK inum sb)) as [E|E]; [|done].
  rewrite E. apply get_put_dinode_other. unfold IBLOCK in E. assert (IPB = 16) as H16 by done. rewrite H16 in *.
  pose proof (Z.div_mod j 16 ltac:(lia)). pose proof (Z.div_mod inum 16 ltac:(lia)). lia.
Qed.

Lemma node_written v inum ip : dinode_fits ip ->
  let r := node (upd v (IBLOCK inum sb) (put_dinode (v (IBLOCK inum sb)) (dino inum) ip)) inum in
  i_type r = i_type ip /\ i_nlink r = i_nlink ip /\ i_size r = i_size ip /\ forall k, 0 <= k < 13 -> i_addrs r !!! k = i_addrs ip !!! k.
Proof.
  intros Hf r. unfold r, node, upd. rewrite decide_True by done.
  destruct (get_put_dinode (v (IBLOCK inum sb)) (dino inum) ip inhabitant Hf) as (? & _ & _ & ? & ? & ?). done.
Qed.

(** Inode [j] is a file with content [c]. *)
Record file_is (v : Z -> block) (own : owner) (j : Z) (c : list Z) (type : Z) : Prop := {
  fi_holds : holds v own j (node v j) c;
  fi_size : i_size (node v j) = Z.of_nat (length c);
  fi_type : i_type (node v j) = type;
  fi_nlink : i_nlink (node v j) = 1 }.

Record image (s : mst) (own : owner) (C : Z -> list Z) (T : Z -> Z) : Prop := {
  im_l : im_len s = FSSIZE;
  im_spare : spare (view s) own (freeblock s);
  im_fb : nmeta <= freeblock s <= FSSIZE;
  im_ino : 1 <= freeinode s <= NINODES;
  im_files : forall j, 1 <= j < freeinode s -> file_is (view s) own j (C j) (T j);
  im_own : forall b k, own b = Some k -> 1 <= k.1 < freeinode s;
  im_low : forall b, 0 <= b < nmeta -> ~ 32 <= b < 45 -> view s b = if b =? 1 then sb_bytes else ∅;
  im_free : forall j, freeinode s <= j < 208 -> i_type (node (view s) j) = 0 }.

Definition fset {A} (f : Z -> A) (j : Z) (x : A) (i : Z) : A := if decide (i = j) then x else f i.

(** What is written for file [inum] leaves the other files alone. *)
Lemma file_is_frame v v' own own' inum j c ty : file_is v own j c ty -> 0 <= j < 208 -> j <> inum ->
  (forall b, nmeta <= b -> (forall bn, own' b <> Some (inum, bn)) -> v' b = v b) -> (forall b k, own b = Some k -> own' b = Some k) ->
  (forall b k, own b = Some k -> nmeta <= b) -> node v' j = node v j -> file_is v' own' j c ty.
Proof.
  intros [F1 F2 F3 F4] Hj Hne Hv Ho Hown En. split; rewrite ?En; try done.
  eapply holds_frame; [exact F1|]. intros b k Hb. split; [|by apply Ho]. apply Hv; [by eapply Hown|].
  intros bn. rewrite (Ho _ _ Hb). intros [=]. done.
Qed.

Lemma node_short v j : short (i_type (node v j)) /\ short (i_major (node v j)) /\ short (i_minor (node v j)) /\ short (i_nlink (node v j)).
Proof. unfold node, get_dinode, short. cbn [set_i_disk i_type i_major i_minor i_nlink]. split_and!; apply i16_range. Qed.

(** The inode blocks are none of a file's. *)
Lemma image_inode_block s own C T inum k : image s own C T -> 0 <= inum < 208 -> own (IBLOCK inum sb) <> Some k.
Proof.
  intros H Hi E. pose proof (IBLOCK_range inum Hi). apply (sp_own _ _ _ (im_spare _ _ _ _ H)) in E.
  destruct consts as (_ & _ & _ & _ & E1 & _). lia.
Qed.

(** Writing the inode of a file whose blocks are in place. *)
Lemma image_winode s own C T s1 own1 inum d c ip :
  image s own C T -> 1 <= inum < freeinode s -> grows s own inum d s1 own1 -> freeblock s1 <= FSSIZE -> 0 <= d ->
  holds (view s1) own1 inum ip c -> dinode_fits ip -> i_size ip = Z.of_nat (length c) -> i_type ip = T inum -> i_nlink ip = 1 ->
  exists s2, winode inum ip s1 = Ok tt s2 /\ image s2 own1 (fset C inum c) T /\ freeblock s2 = freeblock s + d /\ freeinode s2 = freeinode s.
Proof.
  intros H Hi G Hfb Hd Hh Hfit Hsz Hty Hnl. destruct consts as (_ & _ & _ & _ & E1 & E2). pose proof (im_ino _ _ _ _ H) as Hino.
  assert (NINODES = 200) as E3 by done. pose proof (IBLOCK_range inum ltac:(lia)) as HIB.
  destruct (winode_ok inum ip s1) as (s2 & W & L2 & I2 & F2 & V2); [lia|rewrite (gr_len _ _ _ _ _ _ G); apply H|].
  pose proof (im_fb _ _ _ _ H) as Hfb0. pose proof (gr_fb _ _ _ _ _ _ G) as Hfb1. pose proof (gr_ino _ _ _ _ _ _ G) as Hino1. pose proof (gr_spare _ _ _ _ _ _ G) as Hsp.
  assert (forall b, b <> IBLOCK inum sb -> view s2 b = view s1 b) as Vo by (intros b Hb; rewrite V2; unfold upd; by rewrite decide_False).
  assert (forall b k, own1 b = Some k -> nmeta <= b) as Hown by (intros b k Hb; apply (sp_own _ _ _ Hsp) in Hb; lia).
  assert (forall b, 0 <= b < nmeta -> view s1 b = view s b) as Vlow.
  { intros b Hb. apply (gr_view _ _ _ _ _ _ G). intros bn E%Hown. lia. }
  assert (forall j, node (view s2) j = node (upd (view s1) (IBLOCK inum sb) (put_dinode (view s1 (IBLOCK inum sb)) (dino inum) ip)) j) as Hnode.
  { intros j. unfold node. by rewrite V2. }
  assert (forall j, 0 <= j < 208 -> j <> inum -> node (view s2) j = node (view s) j) as Hother.
  { intros j Hj Hne. rewrite Hnode, node_other by lia. unfold node. pose proof (IBLOCK_range j Hj). by rewrite Vlow by lia. }
  exists s2. split; [done|]. split; [|split; [lia|congruence]]. split.
  - by rewrite L2, (gr_len _ _ _ _ _ _ G), (im_l _ _ _ _ H).
  - rewrite F2. split; [apply Hsp|]. intros b a Hb. rewrite Vo by lia. by apply (sp_zero _ _ _ Hsp).
  - rewrite F2. pose proof (im_fb _ _ _ _ H). lia.
  - rewrite I2, Hino1. done.
  - rewrite I2, Hino1. intros j Hj. unfold fset. destruct (decide (j = inum)) as [->|Hne].
    + destruct (node_written (view s1) inum ip Hfit) as (N1 & N2 & N3 & N4). rewrite <- Hnode in N1, N2, N3, N4.
      split; [|congruence..]. apply (holds_ext _ _ _ ip); [done|]. eapply holds_frame; [exact Hh|].
      intros b k Hb. split; [|done]. apply Vo. apply Hown in Hb. lia.
    + apply (file_is_frame (view s) (view s2) own own1 inum j); [by apply H|lia|done| |apply G| |apply Hother; lia].
      * intros b Hb Hnot. rewrite Vo by lia. by apply (gr_view _ _ _ _ _ _ G).
      * intros b k Hb. apply (sp_own _ _ _ (im_spare _ _ _ _ H)) in Hb. lia.
  - rewrite I2, Hino1. intros b k Hb. destruct (gr_new _ _ _ _ _ _ G b k Hb) as [Hb'|[_ ->]]; [by apply (im_own _ _ _ _ H b)|done].
  - intros b Hb Hnot. rewrite Vo, Vlow by lia. by apply H.
  - rewrite I2, Hino1. intros j Hj. rewrite Hother by lia. by apply H.
Qed.

Lemma rinode_ok s inum : 0 <= inum < 208 -> im_len s = FSSIZE -> rinode inum s = Ok (node (view s) inum) s.
Proof.
  intros Hi Hl. pose proof (IBLOCK_range inum Hi). destruct consts as (_ & _ & _ & _ & _ & HF). unfold rinode.
  by rewrite (bind_ok _ _ _ _ _ (rsect_ok (IBLOCK inum sb) s ltac:(lia) ltac:(lia))).
Qed.

(** [iappend] adds the bytes at the end of the file. *)
Lemma iappend_ok s own C T inum p : image s own C T -> 1 <= inum < freeinode s ->
  let n := Z.of_nat (length (C inum)) in let n' := n + Z.of_nat (length p) in
  n' <= MAXFILE * BSIZE -> freeblock s + (blocks n' - blocks n) <= FSSIZE ->
  exists s' own', iappend inum p s = Ok tt s' /\ image s' own' (fset C inum (C inum ++ p)) T /\
    freeblock s' = freeblock s + (blocks n' - blocks n) /\ freeinode s' = freeinode s.
Proof.
  intros H Hi n n' Hmax Hf. destruct (im_files _ _ _ _ H inum Hi) as [F1 F2 F3 F4]. pose proof (im_ino _ _ _ _ H) as Hino. pose proof (im_fb _ _ _ _ H) as Hfb.
  assert (NINODES = 200) as E3 by done. assert (MAXFILE * BSIZE = 274432) as E4 by done.
  unfold iappend. rewrite (bind_ok _ _ _ _ _ (rinode_ok s inum ltac:(lia) (im_l _ _ _ _ H))), F2, xint_id by lia. fold n.
  destruct (iappend_loop_ok inum (length p) s own (node (view s) inum) (C inum) p) as (s1 & din & own1 & R & G & Hh & A & EA);
    try done; [apply H|apply H|lia|]. fold n n' in R, G. rewrite (bind_ok _ _ _ _ _ R), xint_id by lia.
  pose proof (blocks_mono n n' ltac:(lia)) as Hmono. pose proof (gr_fb _ _ _ _ _ _ G) as Hfb1.
  assert (Z.of_nat (length (C inum ++ p)) = n') as El by (rewrite length_app; lia).
  destruct (node_short (view s) inum) as (N1 & N2 & N3 & N4).
  destruct (image_winode s own C T s1 own1 inum (blocks n' - blocks n) (C inum ++ p) (set_i_size n' din) H Hi G) as (s2 & W & H2 & F & I).
  - lia.
  - lia.
  - eapply holds_ext; [|exact Hh]. done.
  - split; try (rewrite EA; done); [unfold uint; cbn [set_i_size i_size]; lia|].
    intros k Hk. cbn [set_i_size i_addrs]. apply (shape_uint (view s1) own1 (freeblock s1) inum din _ k (gr_spare _ _ _ _ _ _ G) ltac:(lia) (ho_shape _ _ _ _ _ Hh) Hk).
  - by rewrite El.
  - by rewrite EA.
  - by rewrite EA.
  - exists s2, own1. done.
Qed.

Lemma new_dinode_addrs ty k : 0 <= k < 13 -> i_addrs (new_dinode ty) !!! k = 0.
Proof.
  intros Hk. assert (forall n, (n < 13)%nat -> no_addrs !!! Z.of_nat n = 0) as H.
  { intros n Hn. do 13 (destruct n as [|n]; [reflexivity|]). lia. }
  cbn [new_dinode set_i_disk i_addrs]. replace k with (Z.of_nat (Z.to_nat k)) by lia. apply H. lia.
Qed.

Lemma holds_new v own inum ip : (forall k, 0 <= k < 13 -> i_addrs ip !!! k = 0) -> holds v own inum ip [].
Proof.
  intros H. destruct consts as (HM & HD & _). assert (ind ip = 0) as Hi by (unfold ind; apply H; lia).
  change (bcount (Z.of_nat (length (@nil Z)))) with 0. split; change (bcount (Z.of_nat (length (@nil Z)))) with 0.
  - split; [lia| |by rewrite (proj2 (Z.ltb_ge NDIRECT 0)) by lia]. intros bn Hbn. rewrite (proj2 (Z.ltb_ge bn 0)) by lia.
    unfold fblock. rewrite Hi. destruct (Z.ltb_spec bn NDIRECT); [apply H; lia|done].
  - intros o H0 H1. pose proof (Z.div_pos o BSIZE H0 ltac:(done)). lia.
Qed.

(** [ialloc] makes an empty file of the next inode. *)
Lemma ialloc_ok s own C T ty : image s own C T -> freeinode s < NINODES -> 0 <= ty < 32768 ->
  exists s', ialloc ty s = Ok (freeinode s) s' /\ image s' own (fset C (freeinode s) []) (fset T (freeinode s) ty) /\
    freeblock s' = freeblock s /\ freeinode s' = freeinode s + 1.
Proof.
  intros H Hlt Hty. pose proof (im_ino _ _ _ _ H) as Hino. assert (NINODES = 200) as E3 by done. set (inum := freeinode s) in *.
  destruct consts as (_ & _ & _ & _ & E1 & E2). pose proof (im_fb _ _ _ _ H) as Hfb. pose proof (IBLOCK_range inum ltac:(lia)) as HIB.
  unfold ialloc. rewrite gets_bind. fold inum. rewrite modify_bind, u32_small by lia. set (s1 := set_freeinode (inum + 1) s).
  destruct (winode_ok inum (new_dinode ty) s1) as (s2 & W & L2 & I2 & F2 & V2); [lia|apply H|].
  rewrite (bind_ok _ _ _ _ _ W). exists s2. split; [done|]. change (freeblock s1) with (freeblock s) in F2. change (freeinode s1) with (inum + 1) in I2.
  change (im_len s1) with (im_len s) in L2. assert (forall y, view s1 y = view s y) as V1 by done.
  assert (forall b, b <> IBLOCK inum sb -> view s2 b = view s b) as Vo by (intros b Hb; rewrite V2; unfold upd; by rewrite decide_False).
  assert (xshort ty = ty) as Ety by (rewrite xshort_u16; apply u16_small; lia).
  assert (dinode_fits (new_dinode ty)) as Hfit.
  { split; cbn [new_dinode set_i_disk i_type i_major i_minor i_nlink i_size]; unfold short, uint; rewrite ?Ety;
      [lia|lia|lia|by vm_compute|by vm_compute|intros k Hk; rewrite new_dinode_addrs by done; lia]. }
  assert (forall j, node (view s2) j = node (upd (view s1) (IBLOCK inum sb) (put_dinode (view s1 (IBLOCK inum sb)) (dino inum) (new_dinode ty))) j) as Hnode.
  { intros j. unfold node. by rewrite V2. }
  split; [|by split]. split.
  - by rewrite L2, (im_l _ _ _ _ H).
  - rewrite F2. split; [apply H|]. intros b a Hb. rewrite Vo by lia. by apply (sp_zero _ _ _ (im_spare _ _ _ _ H)).
  - by rewrite F2.
  - rewrite I2. lia.
  - rewrite I2. intros j Hj. unfold fset. destruct (decide (j = inum)) as [->|Hne].
    + destruct (node_written (view s1) inum (new_dinode ty) Hfit) as (N1 & N2 & N3 & N4). rewrite <- Hnode in N1, N2, N3, N4.
      split; rewrite ?N1, ?N2, ?N3; [|done|done|done]. apply holds_new. intros k Hk. rewrite N4 by done. by apply new_dinode_addrs.
    + apply (file_is_frame (view s) (view s2) own own inum j); [apply H; lia|lia|done| |done| |rewrite Hnode, node_other by lia; done].
      * intros b Hb _. apply Vo. lia.
      * intros b k Hb. apply (sp_own _ _ _ (im_spare _ _ _ _ H)) in Hb. lia.
  - rewrite I2. intros b k Hb. apply (im_own _ _ _ _ H) in Hb. lia.
  - intros b Hb Hnot. rewrite Vo by lia. by apply H.
  - rewrite I2. intros j Hj. rewrite Hnode, node_other by lia. apply H. lia.
Qed.

(** ** The program *)

Lemma zero_sectors_ok s : im s = ∅ -> im_len s = 0 ->
  exists s', zero_sectors s = Ok None s' /\ im_len s' = FSSIZE /\ freeinode s' = freeinode s /\ freeblock s' = freeblock s /\ forall y, view s' y = ∅.
Proof.
  intros Hi Hl. destruct consts as (_ & _ & _ & _ & _ & E2).
  destruct (for_loop_inv (fun j s' => im_len s' = j /\ freeinode s' = freeinode s /\ freeblock s' = freeblock s /\ forall y, view s' y = ∅)
    (fun i => wsect i ∅;; mret (None (A := unit))) (Z.to_nat FSSIZE) 0 s) as (s' & R & L & I & F & V).
  - split_and!; try done. intros y. unfold view. by rewrite Hi.
  - intros j s1 Hj (L & I & F & V). eexists. split; [reflexivity|]. cbn [set_im im_len freeinode freeblock]. rewrite sector_id by lia.
    split_and!; [lia|done|done|]. intros y. unfold view. cbn [set_im im]. destruct (decide (y = j)) as [->|Hne].
    + by rewrite lookup_insert_eq.
    + rewrite lookup_insert_ne by done. apply V.
  - exists s'. split_and!; [exact R|lia|done|done|done].
Qed.

Lemma image_ext s own C T C' T' : image s own C T -> (forall j, 1 <= j < freeinode s -> C' j = C j /\ T' j = T j) -> image s own C' T'.
Proof. intros [I1 I2 I3 I4 I5 I6 I7 I8] He. split; try done. intros j Hj. destruct (He j Hj) as [-> ->]. by apply I5. Qed.

Lemma append_pieces_ok inum ps : forall s own C T, image s own C T -> 1 <= inum < freeinode s ->
  let n := Z.of_nat (length (C inum)) in let n' := n + Z.of_nat (length (concat ps)) in
  n' <= MAXFILE * BSIZE -> freeblock s + (blocks n' - blocks n) <= FSSIZE ->
  exists s' own', append_pieces inum ps s = Ok tt s' /\ image s' own' (fset C inum (C inum ++ concat ps)) T /\
    freeblock s' = freeblock s + (blocks n' - blocks n) /\ freeinode s' = freeinode s.
Proof.
  induction ps as [|p ps IH]; intros s own C T H Hi n n' Hmax Hf; subst n'; cbn [concat] in *.
  - exists s, own. split; [done|]. rewrite app_nil_r in *. cbn [length] in *. rewrite Z.add_0_r. split; [|split; [lia|done]].
    apply (image_ext _ _ _ _ _ _ H). intros j _. unfold fset. case_decide; by subst.
  - rewrite length_app in *. set (n1 := n + Z.of_nat (length p)).
    pose proof (blocks_mono n1 (n + Z.of_nat (length p + length (concat ps))) ltac:(lia)) as Hm.
    destruct (iappend_ok s own C T inum p H Hi) as (s1 & own1 & R1 & H1 & F1 & I1); [fold n n1; lia|fold n n1; lia|]. fold n n1 in F1.
    set (C1 := fset C inum (C inum ++ p)) in *. assert (C1 inum = C inum ++ p) as E1 by (unfold C1, fset; by rewrite decide_True).
    assert (Z.of_nat (length (C1 inum)) = n1) as En by (rewrite E1, length_app; lia).
    destruct (IH s1 own1 C1 T H1) as (s2 & own2 & R2 & H2 & F2 & I2); [lia| | |]; rewrite ?En; unfold n1; [lia| |].
    + replace (n + Z.of_nat (length p) + Z.of_nat (length (concat ps))) with (n + Z.of_nat (length p + length (concat ps))) by lia. fold n1. lia.
    + exists s2, own2. cbn [append_pieces]. mstep R1. split; [exact R2|]. split; [|split; [|lia]].
      * apply (image_ext _ _ _ _ _ _ H2). intros j _. split; [|done]. unfold fset. rewrite E1. case_decide; [by rewrite app_assoc|].
        unfold C1, fset. by rewrite decide_False.
      * rewrite F2, En, F1. replace (n1 + Z.of_nat (length (concat ps))) with (n + Z.of_nat (length p + length (concat ps))) by (unfold n1; lia). lia.
Qed.

(** ** What the image is to hold *)

Abbreviation source := (list Z * list (list Z))%type.

Definition name_of (f : source) : list Z := skip_underscore (skip_user f.1).
Definition plain (f : source) : Prop := existsb (Z.eqb 47) (skip_user f.1) = false.

(** The directory entries of the files from inode [i] on. *)
Fixpoint entries (i : Z) (fs : list source) : list Z :=
  match fs with
  | [] => []
  | f :: fs => dirent i (name_of f) ++ entries (i + 1) fs
  end.

Definition root_entries (fs : list source) : list Z := dirent 1 [46] ++ dirent 1 [46; 46] ++ entries 2 fs.

(** The file of inode [i + k] is the [k]th. *)
Definition nth_file (fs : list source) (i j : Z) : list Z := default [] (fs !! Z.to_nat (j - i) ≫= fun f => Some (concat f.2)).

Definition size_of (f : source) : Z := Z.of_nat (length (concat f.2)).
Definition data_blocks (fs : list source) : Z := foldr (fun f n => blocks (size_of f) + n) 0 fs.

Lemma dirent_length i name : length (dirent i name) = 16%nat.
Proof. unfold dirent. rewrite !length_app, length_replicate, length_take. cbn [length]. lia. Qed.

Lemma dirents_size fs : forall i, length (entries i fs) = (16 * length fs)%nat.
Proof. induction fs as [|f fs IH]; intros i; cbn [entries length]; [done|]. rewrite length_app, dirent_length, IH. lia. Qed.

Lemma blocks_nonneg n : 0 <= n -> 0 <= blocks n.
Proof. intros H. apply (blocks_mono 0 n) in H. exact H. Qed.

Lemma data_blocks_nonneg fs : 0 <= data_blocks fs.
Proof. induction fs as [|f fs IH]; [done|]. cbn [data_blocks foldr]. pose proof (blocks_nonneg (size_of f) ltac:(unfold size_of; lia)). unfold data_blocks in IH. lia. Qed.

(** One file: its inode, its directory entry and its content. *)
Lemma add_file_ok f s own C T : image s own C T -> 2 <= freeinode s < NINODES ->
  let i := freeinode s in let n := Z.of_nat (length (C 1)) in
  n + 16 <= MAXFILE * BSIZE -> size_of f <= MAXFILE * BSIZE ->
  freeblock s + (blocks (n + 16) - blocks n) + blocks (size_of f) <= FSSIZE ->
  exists s' own', (inum ← ialloc T_FILE; iappend 1 (dirent inum (name_of f));; append_pieces inum f.2) s = Ok tt s' /\
    image s' own' (fset (fset C 1 (C 1 ++ dirent i (name_of f))) i (concat f.2)) (fset T i T_FILE) /\
    freeblock s' = freeblock s + (blocks (n + 16) - blocks n) + blocks (size_of f) /\ freeinode s' = i + 1.
Proof.
  intros H Hi i n Hmax Hsz Hf. pose proof (blocks_nonneg (size_of f) ltac:(unfold size_of; lia)) as Hnn.
  destruct (ialloc_ok s own C T T_FILE H ltac:(lia) ltac:(done)) as (s1 & R1 & H1 & F1 & I1). fold i in R1, H1, I1.
  mstep R1. set (C1 := fset C i []) in *. assert (C1 1 = C 1) as E1 by (unfold C1, fset; rewrite decide_False; [done|lia]).
  destruct (iappend_ok s1 own _ _ 1 (dirent i (name_of f)) H1) as (s2 & own2 & R2 & H2 & F2 & I2);
    [lia|rewrite E1, dirent_length; fold n; lia|rewrite E1, dirent_length; fold n; change (Z.of_nat 16) with 16; lia|].
  rewrite E1, dirent_length in F2. change (Z.of_nat 16) with 16 in F2. fold n in F2. rewrite E1 in H2. mstep R2. set (C2 := fset C1 1 _) in *. assert (C2 i = []) as E2.
  { unfold C2, fset. rewrite decide_False by lia. unfold C1, fset. by rewrite decide_True. }
  destruct (append_pieces_ok i f.2 s2 own2 C2 _ H2) as (s3 & own3 & R3 & H3 & F3 & I3); [lia| | |]; rewrite ?E2 in *; cbn [length] in *.
  - exact Hsz.
  - change (blocks (Z.of_nat 0)) with 0. fold (size_of f). change (Z.of_nat 0 + size_of f) with (size_of f). lia.
  - exists s3, own3. split; [exact R3|]. change (blocks (Z.of_nat 0)) with 0 in F3. fold (size_of f) in F3.
    change (Z.of_nat 0 + size_of f) with (size_of f) in F3. split; [|split; lia].
    apply (image_ext _ _ _ _ _ _ H3). intros j _. split; [|done]. unfold fset at 1 3. case_decide; [done|].
    unfold C2, C1, fset. repeat case_decide; done.
Qed.

Definition args (fs : list source) : list (list Z * option (list (list Z))) := map (fun f => (f.1, Some f.2)) fs.

Lemma add_files_cons f fs s : plain f ->
  add_files 1 (args (f :: fs)) s =
  ((inum ← ialloc T_FILE; iappend 1 (dirent inum (name_of f));; append_pieces inum f.2);; add_files 1 (args fs)) s.
Proof.
  intros Hp. cbn [args map add_files]. fold (args fs). rewrite Hp. fold (name_of f). rewrite !bind_bind.
  unfold mbind, M_bind. destruct (ialloc T_FILE s) as [i s1| | |]; [|done..]. by destruct (iappend _ _ s1).
Qed.

Lemma nth_file_cons f fs i j : i + 1 <= j -> nth_file (f :: fs) i j = nth_file fs (i + 1) j.
Proof. intros H. unfold nth_file. replace (Z.to_nat (j - i)) with (S (Z.to_nat (j - (i + 1)))) by lia. done. Qed.

Lemma nth_file_head f fs i : nth_file (f :: fs) i i = concat f.2.
Proof. unfold nth_file. by rewrite Z.sub_diag. Qed.

Definition fits (f : source) : Prop := plain f /\ size_of f <= MAXFILE * BSIZE.

Lemma add_files_ok fs : forall s own C T, image s own C T -> 2 <= freeinode s -> freeinode s + Z.of_nat (length fs) <= NINODES ->
  let i := freeinode s in let n := Z.of_nat (length (C 1)) in let n' := n + 16 * Z.of_nat (length fs) in
  Forall fits fs -> n' <= MAXFILE * BSIZE -> freeblock s + (blocks n' - blocks n) + data_blocks fs <= FSSIZE ->
  exists s' own' C' T', add_files 1 (args fs) s = Ok tt s' /\ image s' own' C' T' /\
    freeblock s' = freeblock s + (blocks n' - blocks n) + data_blocks fs /\ freeinode s' = i + Z.of_nat (length fs) /\
    C' 1 = C 1 ++ entries i fs /\ T' 1 = T 1 /\ (forall j, 1 < j < i -> C' j = C j /\ T' j = T j) /\
    forall j, i <= j < i + Z.of_nat (length fs) -> C' j = nth_file fs i j /\ T' j = T_FILE.
Proof.
  induction fs as [|f fs IH]; intros s own C T H H2 Hi i n n' HF Hmax Hf; subst n'; cbn [length] in *.
  - exists s, own, C, T. change (Z.of_nat 0) with 0. rewrite Z.mul_0_r, !Z.add_0_r. cbn [entries data_blocks foldr]. rewrite app_nil_r.
    split_and!; try done; try lia.
  - apply Forall_cons in HF as [[Hp Hs] HF]. cbn [data_blocks foldr] in *. fold (data_blocks fs) in *. pose proof (data_blocks_nonneg fs) as Hnn.
    pose proof (blocks_mono (n + 16) (n + 16 * Z.of_nat (S (length fs))) ltac:(lia)) as Hm.
    destruct (add_file_ok f s own C T H) as (s1 & own1 & R1 & H1 & F1 & I1); [lia|fold n; lia|done|fold n; lia|]. fold i n in F1, I1, H1.
    set (C1 := fset _ i _) in *. set (T1 := fset T i T_FILE) in *.
    assert (C1 1 = C 1 ++ dirent i (name_of f)) as E1.
    { unfold C1, fset. rewrite decide_False by lia. by rewrite decide_True. }
    assert (Z.of_nat (length (C1 1)) = n + 16) as En by (rewrite E1, length_app, dirent_length; lia).
    assert (n + 16 + 16 * Z.of_nat (length fs) = n + 16 * Z.of_nat (S (length fs))) as En' by lia.
    destruct (IH s1 own1 C1 T1 H1) as (s2 & own2 & C2 & T2 & R2 & H2' & F2 & I2 & X1 & X2 & X3 & X4); rewrite ?En, ?En'; [lia|lia|done|lia|lia|].
    rewrite En, En' in F2. rewrite I1 in *.
    exists s2, own2, C2, T2. rewrite add_files_cons by done. mstep R1. split; [exact R2|]. split; [done|]. split; [lia|]. split; [lia|].
    split; [by rewrite X1, E1, <- app_assoc|]. split; [rewrite X2; unfold T1, fset; rewrite decide_False; [done|lia]|].
    split; intros j Hj.
    + destruct (X3 j) as [-> ->]; [lia|]. unfold C1, T1, fset. by rewrite !decide_False by lia.
    + destruct (decide (j = i)) as [->|Hne].
      * destruct (X3 i) as [-> ->]; [lia|]. rewrite nth_file_head. unfold C1, T1, fset. by rewrite !decide_True.
      * rewrite nth_file_cons by lia. apply X4. lia.
Qed.

(** Before the first inode. *)
Lemma image_start s : im s = ∅ -> im_len s = 0 -> freeinode s = 1 -> freeblock s = nmeta ->
  exists s1 s', zero_sectors s = Ok None s1 /\ wsect 1 sb_bytes s1 = Ok tt s' /\ image s' (fun _ => None) (fun _ => []) (fun _ => 0) /\
    freeblock s' = nmeta /\ freeinode s' = 1.
Proof.
  intros H1 H2 H3 H4. destruct consts as (_ & _ & _ & _ & E1 & E2).
  destruct (zero_sectors_ok s H1 H2) as (s1 & R & L & I & F & V).
  destruct (wsect_ok 1 sb_bytes s1) as (s2 & W & L2 & I2 & F2 & V2); [lia|lia|].
  exists s1, s2. split; [exact R|]. split; [exact W|]. split; [|split; congruence].
  assert (forall b, b <> 1 -> view s2 b = ∅) as Vo by (intros b Hb; rewrite V2; unfold upd; rewrite decide_False; [apply V|done]).
  assert (NINODES = 200) as E3 by done. rewrite H3 in I. rewrite H4 in F. rewrite I in I2. rewrite F in F2. rewrite L in L2.
  split; rewrite ?F2, ?I2; [exact L2| |lia|lia|intros; lia|intros; discriminate| |].
  - split; [intros; discriminate|]. intros b a Hb. by rewrite Vo by lia.
  - intros b Hb _. destruct (Z.eqb_spec b 1) as [->|Hne]; [|by apply Vo]. rewrite V2. unfold upd. by rewrite decide_True.
  - intros j Hj. unfold node. pose proof (IBLOCK_range j ltac:(lia)). by rewrite Vo by lia.
Qed.

(** The block bitmap [balloc] writes. *)
Definition bitmap (n : nat) : block :=
  foldl (fun buf i => wr buf (Z.of_nat i / 8) (Z.lor (rd buf (Z.of_nat i / 8)) (Z.shiftl 1 (Z.of_nat i mod 8)))) ∅ (seq 0 n).

Lemma bitmap_bit n b : 0 <= b -> bit_of (bitmap n) b = (b <? Z.of_nat n).
Proof.
  intros Hb. induction n as [|n IH].
  { rewrite bit_of_testbit. assert (rd (bitmap 0) (b / 8) = 0) as -> by done. change (Z.of_nat 0) with 0.
    rewrite (proj2 (Z.ltb_ge b 0)) by lia. apply Z.testbit_0_l. }
  unfold bitmap. rewrite seq_S, foldl_app. cbn [foldl Nat.add]. fold (bitmap n). fold (bitmask (Z.of_nat n)). fold (set_bit (bitmap n) (Z.of_nat n)).
  rewrite bit_of_set, IH by lia. destruct (Z.eqb_spec b (Z.of_nat n)), (Z.ltb_spec b (Z.of_nat n)), (Z.ltb_spec b (Z.of_nat (S n))); done || lia.
Qed.

(** ** The whole program *)

Definition root_size (fs : list source) : Z := (16 * (2 + Z.of_nat (length fs)) / BSIZE + 1) * BSIZE.

(** The content of the file of inode [j]: the root directory is filled up
    with zeros to its rounded size. *)
Definition content (fs : list source) (j : Z) : list Z :=
  if decide (j = 1) then root_entries fs ++ replicate (Z.to_nat (root_size fs - 16 * (2 + Z.of_nat (length fs)))) 0
  else nth_file fs 2 j.

Definition needed (fs : list source) : Z := nmeta + blocks (16 * (2 + Z.of_nat (length fs))) + data_blocks fs.

(** The files have inodes and blocks, and the last block of the root
    directory is not full. *)
Record fits_all (fs : list source) : Prop := {
  ft_ino : 2 + Z.of_nat (length fs) <= NINODES;
  ft_each : Forall fits fs;
  ft_blocks : needed fs <= FSSIZE;
  ft_root : (2 + Z.of_nat (length fs)) mod 64 <> 0 }.

Lemma root_entries_length fs : Z.of_nat (length (root_entries fs)) = 16 * (2 + Z.of_nat (length fs)).
Proof. unfold root_entries. rewrite !length_app, !dirent_length, dirents_size. lia. Qed.

(** The rounding adds no block. *)
Lemma root_rounded fs : (2 + Z.of_nat (length fs)) mod 64 <> 0 ->
  0 <= root_size fs - 16 * (2 + Z.of_nat (length fs)) /\ bcount (root_size fs) = bcount (16 * (2 + Z.of_nat (length fs))).
Proof.
  intros H. unfold root_size, bcount. assert (BSIZE = 1024) as -> by done. set (n := 2 + Z.of_nat (length fs)) in *.
  assert (16 * n / 1024 = n / 64) as E by (change 1024 with (16 * 64); apply Z.div_mul_cancel_l; lia).
  pose proof (Z.div_mod n 64 ltac:(lia)). pose proof (Z.mod_pos_bound n 64 ltac:(lia)). rewrite E. split; [lia|].
  transitivity (n / 64 + 1); [symmetry|]; (apply Z.div_unique with (r := 1023) + apply Z.div_unique with (r := 16 * (n mod 64) - 1)); lia.
Qed.

Lemma cbyte_pad c n o : cbyte (c ++ replicate n 0) o = cbyte c o.
Proof.
  unfold cbyte. destruct (decide (Z.to_nat o < length c)%nat).
  - by rewrite lookup_app_l by lia.
  - rewrite lookup_app_r, (lookup_ge_None_2 c) by lia. destruct (decide (Z.to_nat o - length c < n)%nat).
    + by rewrite lookup_replicate_2.
    + by rewrite lookup_ge_None_2 by (rewrite length_replicate; lia).
Qed.

Lemma holds_pad v own inum ip c n : holds v own inum ip c ->
  bcount (Z.of_nat (length c + n)) = bcount (Z.of_nat (length c)) -> holds v own inum ip (c ++ replicate n 0).
Proof.
  intros [H1 H2] E. split; rewrite length_app, length_replicate, E; [done|]. intros o H0 Ho. rewrite cbyte_pad. by apply H2.
Qed.

Lemma append_two {A} inum a b s s' (k : M mst A) : append_pieces inum [a; b] s = Ok tt s' -> (iappend inum a;; iappend inum b;; k) s = k s'.
Proof.
  cbn [append_pieces]. unfold mbind, M_bind. destruct (iappend inum a s) as [[] s1| | |]; [|done..].
  destruct (iappend inum b s1) as [[] s2| | |]; [|done..]. by intros [= ->].
Qed.

(** The root directory with its two entries. *)
Lemma root_made s own C T d1 d2 : image s own C T -> freeinode s = 1 -> freeblock s = nmeta -> length d1 = 16%nat -> length d2 = 16%nat ->
  exists s1 s' own', ialloc T_DIR s = Ok 1 s1 /\ append_pieces 1 [d1; d2] s1 = Ok tt s' /\
    image s' own' (fset C 1 (d1 ++ d2)) (fset T 1 T_DIR) /\ freeblock s' = nmeta + blocks 32 /\ freeinode s' = 2.
Proof.
  intros H I F L1 L2. destruct (ialloc_ok s own C T T_DIR H) as (s1 & R1 & H1 & F1 & I1); [by rewrite I|done|]. rewrite I in *.
  assert (fset C 1 [] 1 = []) as E by done.
  destruct (append_pieces_ok 1 [d1; d2] s1 own _ _ H1) as (s2 & own2 & R2 & H2 & F2 & I2);
    [lia|rewrite E; cbn [concat length]; rewrite !length_app, L1, L2; done|rewrite E, F1, F; cbn [concat length]; rewrite !length_app, L1, L2; done|].
  rewrite E in F2, H2. exists s1, s2, own2. split; [done|]. split; [done|]. split; [|split; [|lia]].
  - apply (image_ext _ _ _ _ _ _ H2). intros j _. unfold fset. case_decide; [|done]. cbn [concat app]. by rewrite app_nil_r.
  - rewrite F2, F1, F. cbn [concat length]. by rewrite !length_app, L1, L2.
Qed.

Definition types (j : Z) : Z := if decide (j = 1) then T_DIR else T_FILE.

(** The rounded size of the root directory. *)
Lemma root_fixed s own C T fs : image s own C T -> 2 <= freeinode s -> C 1 = root_entries fs -> (2 + Z.of_nat (length fs)) mod 64 <> 0 ->
  root_size fs <= MAXFILE * BSIZE ->
  exists s', (din ← rinode 1; winode 1 (set_i_size (xint ((xint (i_size din) / BSIZE + 1) * BSIZE)) din)) s = Ok tt s' /\
    image s' own (fset C 1 (content fs 1)) T /\ freeblock s' = freeblock s /\ freeinode s' = freeinode s.
Proof.
  intros H Hi Ec Hm Hmax. destruct (im_files _ _ _ _ H 1 ltac:(lia)) as [F1 F2 F3 F4]. destruct (root_rounded fs Hm) as [P Eb].
  pose proof (root_entries_length fs) as El. assert (MAXFILE * BSIZE = 274432) as E4 by done. pose proof (im_fb _ _ _ _ H) as Hfb.
  rewrite (bind_ok _ _ _ _ _ (rinode_ok s 1 ltac:(done) (im_l _ _ _ _ H))), F2, Ec, El, (xint_id (16 * _)) by lia. fold (root_size fs). rewrite xint_id by lia.
  assert (content fs 1 = root_entries fs ++ replicate (Z.to_nat (root_size fs - 16 * (2 + Z.of_nat (length fs)))) 0) as Ect by done.
  assert (Z.of_nat (length (content fs 1)) = root_size fs) as Ecl by (rewrite Ect, length_app, length_replicate; lia).
  destruct (node_short (view s) 1) as (N1 & N2 & N3 & N4).
  destruct (image_winode s own C T s own 1 0 (content fs 1) (set_i_size (root_size fs) (node (view s) 1)) H)
    as (s2 & W & H2 & F & I); [lia|apply grows_refl, H|lia|lia| | |by rewrite Ecl|exact F3|exact F4|].
  - apply (holds_ext _ _ _ (node (view s) 1)); [by intros|]. rewrite Ect. apply holds_pad; [by rewrite <- Ec|]. rewrite El. replace (Z.of_nat (_ + _)) with (root_size fs) by lia. done.
  - split; [exact N1|exact N2|exact N3|exact N4|unfold uint; cbn [set_i_size i_size]; lia|]. intros k Hk. cbn [set_i_size i_addrs].
    apply (shape_uint (view s) own (freeblock s) 1 (node (view s) 1) _ k (im_spare _ _ _ _ H) ltac:(lia) (ho_shape _ _ _ _ _ F1) Hk).
  - exists s2. split; [exact W|]. split; [done|]. split; [lia|done].
Qed.

Lemma mkfs_image fs : fits_all fs ->
  exists s' s1 own, mkfs (args fs) mst0 = Ok tt s' /\ image s1 own (content fs) types /\
    freeinode s1 = 2 + Z.of_nat (length fs) /\ freeblock s1 = needed fs /\ freeblock s' = needed fs /\ im_len s' = FSSIZE /\
    forall y, view s' y = upd (view s1) 45 (bitmap (Z.to_nat (needed fs))) y.
Proof.
  intros [A1 A2 A3 A4]. destruct consts as (HM & _ & _ & HB & E1 & E2). assert (NINODES = 200) as E3 by done. set (n := Z.of_nat (length fs)) in *.
  destruct (image_start (set_freeblock nmeta mst0)) as (s1 & s2 & R1 & R2 & H2 & F2 & I2); [done..|].
  destruct (root_made s2 _ _ _ (dirent 1 [46]) (dirent 1 [46; 46]) H2 I2 F2) as (s3 & s4 & own4 & R3 & R4 & H4 & F4 & I4); [done..|].
  set (C4 := fset _ 1 _) in H4. set (T4 := fset _ 1 _) in H4. assert (Z.of_nat (length (C4 1)) = 32) as L4 by done.
  assert (16 * (2 + n) = 32 + 16 * n) as En by lia. unfold needed in *. fold n in A3 |- *. rewrite En in *.
  destruct (add_files_ok fs s4 own4 C4 T4 H4) as (s5 & own5 & C5 & T5 & R5 & H5 & F5 & I5 & X1 & X2 & X3 & X4);
    rewrite ?L4, ?I4, ?F4; fold n; [lia|lia|done|lia|lia|].
  rewrite L4, F4 in F5. rewrite I4 in *. fold n in F5, I5, X4.
  destruct (root_fixed s5 own5 C5 T5 fs H5) as (s6 & R6 & H6 & F6 & I6); [lia|exact X1|done| |].
  { unfold root_size. fold n. rewrite HM, HB. pose proof (Z.div_le_upper_bound (16 * (2 + n)) 1024 4 ltac:(lia) ltac:(lia)). lia. }
  destruct (wsect_ok 45 (bitmap (Z.to_nat (freeblock s6))) s6) as (s7 & R7 & L7 & I7 & F7 & V7); [rewrite (im_l _ _ _ _ H6); lia|rewrite (im_l _ _ _ _ H6); lia|].
  assert (freeblock s6 = nmeta + blocks (32 + 16 * n) + data_blocks fs) as F6' by lia.
  exists s7, s6, own5. split_and!; [|apply (image_ext _ _ _ _ _ _ H6)|lia|lia|lia|by rewrite L7, (im_l _ _ _ _ H6)|by rewrite <- F6'].
  - unfold mkfs. rewrite modify_bind. mstep R1. mstep R2. mstep R3. change (1 =? ROOTINO) with true. cbn [negb].
    rewrite (append_two _ _ _ _ _ _ R4). mstep R5.
    transitivity (((din ← rinode 1; winode 1 (set_i_size (xint ((xint (i_size din) / BSIZE + 1) * BSIZE)) din));; b ← gets freeblock; balloc b) s5);
      [by rewrite bind_bind|].
    mstep R6. rewrite gets_bind. unfold balloc. rewrite (proj2 (Z.ltb_lt (freeblock s6) (BSIZE * 8))) by lia. exact R7.
  - intros j Hj. rewrite I6, I5 in Hj. unfold fset, types. destruct (decide (j = 1)) as [->|Hne]; [split; [done|by rewrite X2]|].
    destruct (X4 j) as [-> ->]; [lia|]. unfold content. by rewrite decide_False.
Qed.

(** ** The image under the kernel *)

Section kernel.
Context (t : tx) (own : owner) (fb : Z).
Hypothesis Hheld : t_held t = ∅.
Hypothesis Hfb : nmeta <= fb <= FSSIZE.
Hypothesis Hown : forall b k, own b = Some k -> nmeta <= b < fb.
Hypothesis Hused : forall b, 0 <= b < FSSIZE -> used (t_view t) sb b = (b <? fb).
Abbreviation home := (log_home 2 30).

Lemma mk_bblock b : 0 <= b < FSSIZE -> BBLOCK b sb = 45.
Proof. intros Hb. unfold BBLOCK. rewrite Z.div_small; [done|]. change BPB with 8192. destruct consts as (_ & _ & _ & _ & _ & E). lia. Qed.

Lemma mk_home x : 32 <= x < FSSIZE -> home x.
Proof. destruct consts as (_ & _ & _ & _ & _ & E). intros Hx. split; [lia|]. unfold in_log. lia. Qed.

Lemma mk_blk x : 32 <= x < fb -> x <> 45 -> blk_ok home sb t x.
Proof.
  intros Hx Hn. destruct consts as (_ & _ & _ & _ & _ & E). assert (sb_size sb = 2000) as Es by done. split.
  - lia.
  - apply mk_home. lia.
  - intros i. by rewrite Hheld.
  - rewrite Hused by lia. apply Z.ltb_lt. lia.
  - intros (b & Hb & Eb). rewrite Es in Hb. rewrite mk_bblock in Eb; lia.
Qed.

Lemma mk_alloc : alloc_ok home sb t.
Proof.
  destruct consts as (_ & _ & _ & _ & E1 & E). assert (sb_size sb = 2000) as Es by done. split; [by vm_compute| |]; intros b Hb; rewrite Es in Hb.
  - rewrite mk_bblock by lia. split; [apply mk_home; lia|]. intros i. by rewrite Hheld.
  - rewrite Hused by lia. intros Hu%Z.ltb_ge. split; [apply mk_home; lia|]. split; [intros i; by rewrite Hheld|]. split; [lia|].
    intros x Hx. rewrite Es in Hx. rewrite mk_bblock by lia. lia.
Qed.

Context (ip : inode) (c : list Z) (j : Z).
Hypothesis Hj : 1 <= j < 208.
Hypothesis Hdev : i_dev ip = ROOTDEV.
Hypothesis Hinum : i_inum ip = j.
Hypothesis Hh : holds (t_view t) own j ip c.

Lemma mk_fblock bn : 0 <= bn < MAXFILE -> fblock (t_view t) ip bn <> 0 -> own (fblock (t_view t) ip bn) = Some (j, bn).
Proof.
  intros Hbn Hn. pose proof (sh_blocks _ _ _ _ _ (ho_shape _ _ _ _ _ Hh) bn Hbn) as H.
  destruct (bn <? bcount (Z.of_nat (length c))); [done|contradiction].
Qed.

Lemma mk_ind : ind ip <> 0 -> own (ind ip) = Some (j, -1).
Proof. intros Hn. pose proof (sh_ind _ _ _ _ _ (ho_shape _ _ _ _ _ Hh)) as H. destruct (_ <? _); [done|contradiction]. Qed.

Lemma mk_inode_ok : inode_ok home sb t ip.
Proof.
  destruct consts as (HM & HD & _ & _ & E1 & E). pose proof (IBLOCK_range j ltac:(lia)) as HI.
  assert (forall b k, own b = Some k -> blk_ok home sb t b) as Hb.
  { intros b k Hb%Hown. apply mk_blk; lia. }
  split; [done| |intros Hi; by eapply Hb, mk_ind| |].
  - intros bn Hbn Hn. pose proof (mk_fblock bn Hbn Hn) as Ho. split; [by eapply Hb|]. intros Ei. rewrite Ei in Ho, Hn.
    rewrite mk_ind in Ho by done. injection Ho. lia.
  - intros bn bn' Hbn Hbn' Hn Eq. pose proof (mk_fblock bn Hbn Hn) as Ho. rewrite Eq in Ho, Hn.
    rewrite (mk_fblock bn' Hbn' Hn) in Ho. congruence.
  - rewrite Hinum. split; [apply mk_blk; lia|]. split.
    + intros Ei. assert (ind ip <> 0) as Hn by lia. apply mk_ind, Hown in Hn. lia.
    + intros bn Hbn Ei. assert (fblock (t_view t) ip bn <> 0) as Hn by lia. apply (mk_fblock bn Hbn), Hown in Hn. lia.
Qed.

Lemma mk_bytes o : 0 <= o < Z.of_nat (length c) -> fblock (t_view t) ip (o / BSIZE) <> 0 /\ fbyte (t_view t) ip o = cbyte c o.
Proof.
  intros Ho. destruct consts as (HM & HD & _ & HB & E1 & E). pose proof (ho_shape _ _ _ _ _ Hh) as [S1 S2 _].
  assert (0 <= o / BSIZE < bcount (Z.of_nat (length c))) as Hk.
  { unfold bcount. split; [apply Z.div_pos; lia|]. apply Z.div_lt_upper_bound; [lia|].
    pose proof (Z.div_mod (Z.of_nat (length c) + BSIZE - 1) BSIZE ltac:(lia)). pose proof (Z.mod_pos_bound (Z.of_nat (length c) + BSIZE - 1) BSIZE ltac:(lia)). lia. }
  specialize (S2 (o / BSIZE) ltac:(lia)). rewrite (proj2 (Z.ltb_lt _ _)) in S2 by lia. apply Hown in S2. split; [lia|].
  unfold fbyte. rewrite (proj2 (Z.eqb_neq _ _)) by lia. apply Hh; lia.
Qed.

Lemma mk_full : i_size ip = Z.of_nat (length c) -> full t ip.
Proof.
  intros Es. destruct consts as (HM & HD & _ & HB & E1 & E). split; rewrite Es; [|intros o Ho; by apply mk_bytes].
  pose proof (sh_n _ _ _ _ _ (ho_shape _ _ _ _ _ Hh)) as [_ Hn]. unfold bcount in Hn.
  pose proof (Z.div_mod (Z.of_nat (length c) + BSIZE - 1) BSIZE ltac:(lia)). pose proof (Z.mod_pos_bound (Z.of_nat (length c) + BSIZE - 1) BSIZE ltac:(lia)). nia.
Qed.
End kernel.

Lemma mkfs_made fs : fits_all fs ->
  exists s own, mkfs (args fs) mst0 = Ok tt s /\ im_len s = FSSIZE /\ freeblock s = needed fs /\ nmeta <= needed fs <= FSSIZE /\
    (forall b k, own b = Some k -> nmeta <= b < needed fs) /\
    (forall b, 0 <= b < 32 -> view s b = if b =? 1 then sb_bytes else ∅) /\
    (forall b, 0 <= b < FSSIZE -> used (view s) sb b = (b <? needed fs)) /\
    (forall j, 2 + Z.of_nat (length fs) <= j < 208 -> i_type (node (view s) j) = 0) /\
    forall j, 1 <= j < 2 + Z.of_nat (length fs) -> file_is (view s) own j (content fs j) (types j).
Proof.
  intros H. destruct (mkfs_image fs H) as (s & s1 & own & R & Him & I & F & F' & L & V). destruct consts as (_ & _ & _ & _ & E1 & E2).
  pose proof (im_fb _ _ _ _ Him) as Hfb. rewrite F in Hfb. assert (forall b k, own b = Some k -> nmeta <= b < needed fs) as Hown.
  { intros b k Hb. rewrite <- F. by apply (sp_own _ _ _ (im_spare _ _ _ _ Him) b k). }
  assert (forall b, b <> 45 -> view s b = view s1 b) as Vo by (intros b Hb; rewrite V; unfold upd; by rewrite decide_False).
  assert (NINODES = 200) as E3 by done. pose proof (im_ino _ _ _ _ Him) as Hino. rewrite I in Hino.
  assert (forall j, 1 <= j < 208 -> node (view s) j = node (view s1) j) as Hn.
  { intros j Hj. unfold node. pose proof (IBLOCK_range j ltac:(lia)). by rewrite Vo by lia. }
  exists s, own. split_and!; [done..|lia|lia|done| | | |].
  - intros b Hb. rewrite Vo by lia. apply Him; lia.
  - intros b Hb. unfold used. rewrite mk_bblock, V by lia. unfold upd. rewrite decide_True by done.
    rewrite Z.mod_small by (change BPB with 8192; lia). rewrite bitmap_bit by lia. by rewrite Z2Nat.id by lia.
  - intros j Hj. rewrite Hn by lia. apply Him. lia.
  - intros j Hj. destruct (im_files _ _ _ _ Him j ltac:(lia)) as [X1 X2 X3 X4]. split; rewrite ?Hn by lia; [|done..].
    apply (holds_frame _ _ _ _ _ _ _ X1). intros b k Hb. split; [|done]. apply Hown in Hb. apply Vo. lia.
Qed.

(** C9: the image mkfs makes.  For files that have a name without a slash, at
    most the size of the largest file, inodes and blocks, the program ends
    and the image has all its sectors, the superblock, an empty log, and
    marks exactly the blocks it gave out; inode 1 is the root directory with
    the entries, inode [2 + k] the [k]th file with its bytes, each with one
    link, and every other inode is free; and no two places of files share a
    block. *)
Theorem mkfs_correct fs : fits_all fs ->
  exists s, mkfs (args fs) mst0 = Ok tt s /\ im_len s = FSSIZE /\
    view s 1 = sb_bytes /\ (forall b, 2 <= b < 2 + nlog -> view s b = ∅) /\
    (forall b, 0 <= b < FSSIZE -> used (view s) sb b = (b <? needed fs)) /\
    (forall j, 1 <= j < 2 + Z.of_nat (length fs) -> let ip := node (view s) j in
       i_type ip = types j /\ i_nlink ip = 1 /\ i_size ip = Z.of_nat (length (content fs j)) /\
       forall o, 0 <= o < i_size ip -> fbyte (view s) ip o = cbyte (content fs j) o) /\
    (forall j, 2 + Z.of_nat (length fs) <= j < 208 -> i_type (node (view s) j) = 0) /\
    (forall j j' bn bn', 1 <= j < 2 + Z.of_nat (length fs) -> 1 <= j' < 2 + Z.of_nat (length fs) ->
       0 <= bn < MAXFILE -> 0 <= bn' < MAXFILE -> let b := fblock (view s) (node (view s) j) bn in
       b <> 0 -> b = fblock (view s) (node (view s) j') bn' -> nmeta <= b < needed fs /\ j = j' /\ bn = bn').
Proof.
  intros H. destruct (mkfs_made fs H) as (s & own & R & L & F & Hfb & Hown & Hlow & Hu & Hfree & Hfile).
  exists s. split; [done|]. split; [done|]. split; [rewrite Hlow, Z.eqb_refl by lia; reflexivity|]. split; [|split; [exact Hu|split; [|split; [exact Hfree|]]]].
  - intros b Hb. assert (nlog = 30) as E by done. rewrite Hlow by lia. by rewrite (proj2 (Z.eqb_neq b 1)) by lia.
  - intros j Hj ip. destruct (Hfile j Hj) as [X1 X2 X3 X4]. split; [exact X3|]. split; [exact X4|]. split; [exact X2|]. intros o Ho.
    eapply (mk_bytes (Tx (view s) ∅ ∅ []) own (needed fs) Hown ip (content fs j) j); [exact X1|]. unfold ip in *. lia.
  - intros j j' bn bn' Hj Hj' Hbn Hbn' b Hn Eb. destruct (Hfile j Hj) as [X1 _ _ _]. destruct (Hfile j' Hj') as [X2 _ _ _].
    pose proof (mk_fblock (Tx (view s) ∅ ∅ []) own _ _ _ X1 bn Hbn Hn) as O1.
    pose proof (mk_fblock (Tx (view s) ∅ ∅ []) own _ _ _ X2 bn' Hbn') as O2. cbn [t_view] in O1, O2. fold b in O1. rewrite <- Eb in O2.
    specialize (O2 Hn). split; [by eapply Hown|]. rewrite O2 in O1. split; congruence.
Qed.

Lemma sb_read : Superblock (ld32 sb_bytes 0) (ld32 sb_bytes 4) (ld32 sb_bytes 8) (ld32 sb_bytes 12)
  (ld32 sb_bytes 16) (ld32 sb_bytes 20) (ld32 sb_bytes 24) (ld32 sb_bytes 28) = sb.
Proof. vm_compute. reflexivity. Qed.

(** [ilock] and [readi] of an inode of the image. *)
Lemma made_read v own fb c ty (k : fst lst) t i j dst off n :
  nmeta <= fb <= FSSIZE -> (forall b x, own b = Some x -> nmeta <= b < fb) -> (forall b, 0 <= b < FSSIZE -> used v sb b = (b <? fb)) ->
  1 <= j < 208 -> file_is v own j c ty -> ty <> 0 ->
  at_tx (log_tx 2 30 1) k t -> settled t -> t_held t = ∅ -> t_log t = [] -> (forall x, log_home 2 30 x -> t_view t x = v x) -> f_sb k = sb ->
  i_inum (geti i k) = j -> i_dev (geti i k) = ROOTDEV -> 1 <= i_ref (geti i k) -> i_valid (geti i k) = false -> i_lock (geti i k) = sl_free ->
  0 <= off -> 0 <= n -> off + n < 4294967296 ->
  let r := Z.max 0 (Z.min n (Z.of_nat (length c) - off)) in
  exists k', (ilock i;; readi i false dst off n) k = Ok r k' /\ at_tx (log_tx 2 30 1) k' t /\ i_type (geti i k') = ty /\
    forall a, dst <= a < dst + r -> rd (k_mem (f_k k')) a = cbyte c (off + (a - dst)).
Proof.
  intros Hfb Hown Hu Hj [X1 X2 X3 X4] Hty Ht Hd Hheld Hlog Hv Esb Ein Edev Href Hval Hlk Hoff Hn Hov r.
  destruct consts as (_ & _ & _ & _ & E1 & E2). pose proof (log_laws 2 30 1 ltac:(done)) as LL. pose proof (IBLOCK_range j ltac:(lia)) as HI.
  assert (room t 1) as Hroom by (unfold room; rewrite Hheld, Hlog; vm_compute; lia).
  pose proof (ilock_load (log_home 2 30) (Z.to_nat (Z.min (30 - 1) 29)) (log_tx 2 30 1) k t i Ht Hd Hroom) as Hl. cbn zeta in Hl.
  rewrite Ein, Esb, Hv in Hl by (apply mk_home; lia). set (ip := set_i_valid true _) in Hl.
  assert (i_type ip = i_type (node v j)) as Et by reflexivity. rewrite Et, X3, (proj2 (Z.eqb_neq _ _) Hty) in Hl.
  destruct Hl as (k1 & R1 & Ht1 & Eg & Esb1 & _); [done..|intros x; by rewrite Hheld|].
  assert (holds (t_view t) own j ip c) as Hh.
  { apply (holds_ext _ _ _ (node v j)); [by intros|]. apply (holds_frame _ _ _ _ _ _ _ X1). intros b x Hb. split; [|done].
    apply Hown in Hb. apply Hv, mk_home. lia. }
  assert (forall b, 0 <= b < FSSIZE -> used (t_view t) sb b = (b <? fb)) as Hu'.
  { intros b Hb. rewrite <- Hu by done. unfold used. rewrite mk_bblock by lia. by rewrite Hv by (apply mk_home; lia). }
  assert (i_size ip = Z.of_nat (length c)) as Es by exact X2. mstep R1.
  destruct (readi_spec (log_home 2 30) _ (log_tx 2 30 1) k1 t i dst off n Ht1 Hd) as (l & m' & R2 & Ht2 & Hb); [| |done|done|done|done|].
  - rewrite Eg, Esb1. by apply (mk_inode_ok t own fb) with (c := c) (j := j).
  - rewrite Eg. by apply (mk_full t own fb) with (c := c) (j := j).
  - rewrite Eg, Es in R2, Hb. fold r in R2, Hb. eexists. split; [exact R2|]. split; [exact Ht2|]. split.
    + change (geti i (with_mem m' (set_f_l l k1))) with (geti i k1). by rewrite Eg.
    + intros a Ha. cbn [with_mem set_f_k set_k_mem f_k k_mem]. rewrite Hb, inr_true by lia.
      apply (mk_bytes t own fb Hown ip c j Hh). lia.
Qed.

(** C10: the kernel reads the files off the image.  In a transaction that has
    nothing changed on the image mkfs made, with the superblock that is on
    it, [ilock] of an entry for inode [j] followed by [readi] puts into
    memory exactly the bytes of the [j]th file. *)
Theorem mkfs_then_read fs : fits_all fs ->
  exists s, mkfs (args fs) mst0 = Ok tt s /\ hdr_n (im s !!! 2) = 0 /\
  forall (k : fst lst) t i j dst off n,
    at_tx (log_tx 2 30 1) k t -> settled t -> t_held t = ∅ -> t_log t = [] ->
    (forall x, log_home 2 30 x -> t_view t x = im s !!! x) ->
    (let d := view s 1 in f_sb k = Superblock (ld32 d 0) (ld32 d 4) (ld32 d 8) (ld32 d 12) (ld32 d 16) (ld32 d 20) (ld32 d 24) (ld32 d 28)) ->
    1 <= j < 2 + Z.of_nat (length fs) -> i_inum (geti i k) = j -> i_dev (geti i k) = ROOTDEV ->
    1 <= i_ref (geti i k) -> i_valid (geti i k) = false -> i_lock (geti i k) = sl_free ->
    0 <= off -> 0 <= n -> off + n < 4294967296 ->
    let r := Z.max 0 (Z.min n (Z.of_nat (length (content fs j)) - off)) in
    exists k', (ilock i;; readi i false dst off n) k = Ok r k' /\ at_tx (log_tx 2 30 1) k' t /\
      i_type (geti i k') = types j /\
      forall a, dst <= a < dst + r -> rd (k_mem (f_k k')) a = cbyte (content fs j) (off + (a - dst)).
Proof.
  intros H. destruct (mkfs_made fs H) as (s & own & R & L & F & Hfb & Hown & Hlow & Hu & _ & Hfile). pose proof (ft_ino _ H) as Hi.
  assert (NINODES = 200) as E3 by done. exists s. split; [exact R|]. assert (forall x, im s !!! x = view s x) as Ev by reflexivity.
  split; [rewrite Ev, (Hlow 2) by lia; reflexivity|]. cbn zeta. rewrite (Hlow 1) by lia. change (1 =? 1) with true. cbn iota. rewrite sb_read.
  intros k t i j dst off n Ht Hd Hheld Hlog Hv Esb Hj. intros.
  eapply (made_read (view s) own (needed fs)); try eassumption; [lia|apply Hfile; lia|].
  unfold types. by destruct (decide (j = 1)).
Qed.

(** [user/_hi] with the bytes "hi!" in two reads. *)
Definition ex_files : list source := [([117; 115; 101; 114; 47; 95; 104; 105], [[104; 105]; [33]])].

Lemma ex_fits : fits_all ex_files.
Proof. split; [by vm_compute|repeat constructor; by vm_compute|by vm_compute|by vm_compute]. Qed.

Lemma mkfs_correct_witness : exists s, mkfs (args ex_files) mst0 = Ok tt s /\ used (view s) sb 47 = true /\ used (view s) sb 48 = false /\
  i_size (node (view s) 2) = 3 /\ fbyte (view s) (node (view s) 2) 2 = 33.
Proof.
  destruct consts as (_ & _ & _ & _ & _ & E). assert (Z.of_nat (length ex_files) = 1) as El by reflexivity.
  destruct (mkfs_correct ex_files ex_fits) as (s & R & _ & _ & _ & Hu & Hf & _). exists s. split; [exact R|].
  split; [rewrite Hu by lia; reflexivity|]. split; [rewrite Hu by lia; reflexivity|].
  destruct (Hf 2) as (_ & _ & Es & Hb); [lia|]. change (Z.of_nat (length (content ex_files 2))) with 3 in Es.
  split; [exact Es|]. exact (Hb 2 ltac:(lia)).
Defined.

Definition ex_kernel (l : lst) : fst lst := Fst l ex_k sb false {[0%nat := Inode ROOTDEV 2 1 sl_free false 0 0 0 0 0 ∅]} 0 0%nat 1 [] [].

Lemma mkfs_then_read_witness : exists s l k', mkfs (args ex_files) mst0 = Ok tt s /\
  (ilock 0;; readi 0 false 5000 1 10) (ex_kernel l) = Ok 2 k' /\ rd (k_mem (f_k k')) 5001 = 33.
Proof.
  assert (Z.of_nat (length ex_files) = 1) as El by reflexivity.
  destruct (mkfs_then_read ex_files ex_fits) as (s & R & H2 & K). destruct (boot_tx (im s) H2) as (l & t & Hl & Hh & Hd & Hlog & Hv).
  destruct (mkfs_made ex_files ex_fits) as (s' & own & R' & _ & _ & _ & _ & V1 & _). rewrite R in R'. injection R' as <-.
  specialize (V1 1 ltac:(lia)). change (1 =? 1) with true in V1. cbn iota in V1.
  exists s, l. edestruct (K (ex_kernel l) t 0%nat 2 5000 1 10) as (k' & Rk & _ & _ & Hb);
    [exact Hl|exact Hd|exact Hh|exact Hlog|exact Hv|cbn zeta; rewrite V1; symmetry; exact sb_read|lia|reflexivity|reflexivity
    |by apply Z.leb_le|reflexivity|reflexivity|lia|lia|lia|].
  exists k'. split; [exact R|]. split; [exact Rk|]. apply Hb.
  change (Z.of_nat (length (content ex_files 2))) with 3. lia.
Defined.
