(* ===== verification/MkfsZig.v ===== *)
(** The step of the build that makes the file system image,
    src/build/MakeFilesystemStep.zig: the program of mkfs.c again, and what
    the build runs.

    The state is that of Mkfs.v.  An error, a failed assertion and a failed
    safety check (the build runs with them) end the step, the outcome
    [Panic].  The theorem is that the step writes the image that mkfs.c
    writes.  [readVarInt] of a number's own bytes is the number, on a
    little-endian host.  [Dirent] is taken to have its fields in the order in
    which they are declared. *)

From S2P Require Import Prelude Mem Sleeplock Strings Kalloc Vm Bio DiskLog Log LogTx BlockLayer Fs FsSpec FileSpec Dinode FileIO FsProps Mkfs MkfsProps.

Module Zig.

(** Arithmetic that is checked. *)
Definition add_u32 (a b : Z) : F Z := if a + b <? 4294967296 then mret (a + b) else panic "integer overflow".
Definition as_u16 (a : Z) : F Z := if a <? 65536 then mret a else panic "integer cast truncated bits".

Definition wsect (sec : Z) (buf : block) : F unit :=
  if negb (sec * BSIZE <? 2 ^ 64) then panic "integer overflow"
  else modify (fun s => set_im (<[sec := buf]> (im s)) (Z.max (im_len s) (sec + 1)) s).

Definition rsect (sec : Z) : F block :=
  if negb (sec * BSIZE <? 2 ^ 64) then panic "integer overflow"
  else
    n ← gets im_len;
    if sec <? n then gets (fun s => default ∅ (im s !! sec)) else panic "assert".

Definition winode (inum : Z) (ip : inode) : F unit :=
  let bn := IBLOCK inum sb in
  buf ← rsect bn;
  wsect bn (put_dinode buf (dino inum) ip).

Definition rinode (inum : Z) : F inode :=
  let bn := IBLOCK inum sb in
  buf ← rsect bn;
  mret (get_dinode buf (dino inum) inhabitant).

(** [defer freeinode += 1] *)
Definition ialloc (type : Z) : F Z :=
  inum ← gets freeinode;
  winode inum (set_i_disk type 0 0 1 0 no_addrs inhabitant);;
  next ← add_u32 inum 1;
  modify (set_freeinode next);;
  mret inum.

Definition balloc (used : Z) : F unit :=
  if negb (used <? BSIZE * 8) then panic "assert"
  else
    let buf := foldl (fun buf i => wr buf (Z.of_nat i / 8) (Z.lor (rd buf (Z.of_nat i / 8)) (Z.shiftl 1 (Z.of_nat i mod 8)))) ∅ (seq 0 (Z.to_nat used)) in
    wsect (sb_bmapstart sb) buf.

(** [defer freeblock += 1], with what is done before it. *)
Definition with_block {A} (f : Z -> F A) : F A :=
  fblk ← gets freeblock;
  r ← f fblk;
  next ← add_u32 fblk 1;
  modify (set_freeblock next);;
  mret r.

Definition file_block (din : inode) (fbn : Z) : F (inode * Z) :=
  if fbn <? NDIRECT then
    din ← (if i_addrs din !!! fbn =? 0 then with_block (fun fblk => mret (set_i_addr fbn fblk din)) else mret din);
    mret (din, i_addrs din !!! fbn)
  else
    din ← (if i_addrs din !!! NDIRECT =? 0 then with_block (fun fblk => mret (set_i_addr NDIRECT fblk din)) else mret din);
    let num := i_addrs din !!! NDIRECT in
    indirect ← rsect num;
    indirect ← (if ld32 indirect (4 * (fbn - NDIRECT)) =? 0 then
                  with_block (fun fblk =>
                    let indirect := st32 indirect (4 * (fbn - NDIRECT)) fblk in
                    wsect num indirect;;
                    mret indirect)
                else mret indirect);
    mret (din, ld32 indirect (4 * (fbn - NDIRECT))).

Fixpoint iappend_loop (fuel : nat) (din : inode) (off : Z) (data : list Z) : F (inode * Z) :=
  match data with
  | [] => mret (din, off)
  | _ =>
      match fuel with
      | O => out_of_fuel
      | S fuel =>
          let fbn := off / BSIZE in
          if negb (fbn <? MAXFILE) then panic "assert"
          else
            '(din, x) ← file_block din fbn;
            let n1 := Z.min (Z.of_nat (length data)) ((fbn + 1) * BSIZE - off) in
            buf ← rsect x;
            wsect x (bcopy (take (Z.to_nat n1) data) buf (off - fbn * BSIZE));;
            off ← add_u32 off n1;
            iappend_loop fuel din off (drop (Z.to_nat n1) data)
      end
  end.

Definition iappend (inum : Z) (data : list Z) : F unit :=
  din ← rinode inum;
  '(din, off) ← iappend_loop (length data) din (i_size din) data;
  winode inum (set_i_size off din).

(** [std.fs.path.basename]: without trailing slashes, what follows the last
    one. *)
Fixpoint skip_slashes (l : list Z) : list Z := match l with 47 :: l => skip_slashes l | _ => l end.
Fixpoint until_slash (l : list Z) : list Z := match l with [] => [] | b :: l => if b =? 47 then [] else b :: until_slash l end.
Definition basename (path : list Z) : list Z := rev (until_slash (skip_slashes (rev path))).

(** The entry: [@memcpy(de.name[0..shortname.len], shortname)] needs the name
    to have room. *)
Definition dirent (inum : Z) (name : list Z) : F (list Z) :=
  if (length name <=? 14)%nat
  then mret ([u8 inum; u8 (inum / 256)] ++ name ++ replicate (14 - length name) 0)
  else panic "index out of bounds".

Fixpoint append_pieces (inum : Z) (pieces : list (list Z)) : F unit :=
  match pieces with
  | [] => mret tt
  | buf :: pieces => iappend inum buf;; append_pieces inum pieces
  end.

Fixpoint add_files (rootino : Z) (paths : list (list Z * option (list (list Z)))) : F unit :=
  match paths with
  | [] => mret tt
  | (path, content) :: paths =>
      let shortname := basename path in
      match content with
      | None => panic "open"
      | Some pieces =>
          match shortname with
          | [] => panic "index out of bounds"
          | b :: rest =>
              let shortname := if b =? 95 then rest else shortname in
              i ← ialloc 2;
              inum ← as_u16 i;
              de ← dirent inum shortname;
              iappend rootino de;;
              append_pieces inum pieces;;
              add_files rootino paths
          end
      end
  end.

Definition README : list Z := [82; 69; 65; 68; 77; 69; 46; 109; 100].

(** The file [README.md] and the programs. *)
Definition make (readme : option (list (list Z))) (artifacts : list (list Z * option (list (list Z)))) : F unit :=
  modify (set_freeblock nmeta);;
  for_loop (Z.to_nat FSSIZE) 0 (fun i => wsect i ∅;; mret (None (A := unit)));;
  wsect 1 sb_bytes;;
  i ← ialloc 1;
  rootino ← as_u16 i;
  if negb (rootino =? ROOTINO) then panic "assert"
  else
    de ← dirent rootino [46];
    iappend rootino de;;
    de ← dirent rootino [46; 46];
    iappend rootino de;;
    add_files rootino ((README, readme) :: artifacts);;
    din ← rinode rootino;
    let off := (i_size din / BSIZE + 1) * BSIZE in
    winode rootino (set_i_size off din);;
    b ← gets freeblock;
    balloc b.
End Zig.

(** ** The same image *)

Lemma bind_ext {S A B} (m m' : M S A) (f g : A -> M S B) s :
  m s = m' s -> (forall a s', m' s = Ok a s' -> f a s' = g a s') -> (m ≫= f) s = (m' ≫= g) s.
Proof. intros E H. unfold mbind, M_bind. rewrite E. destruct (m' s); [by apply H|done..]. Qed.

Lemma zig_wsect x d s : 0 <= x < 4194304 -> Zig.wsect x d s = wsect x d s.
Proof.
  intros H. unfold Zig.wsect, wsect. rewrite sector_id by done. assert (BSIZE = 1024) as -> by done.
  by rewrite (proj2 (Z.ltb_lt _ _)) by lia.
Qed.

Lemma zig_rsect x s : 0 <= x < im_len s -> im_len s <= 4194304 -> Zig.rsect x s = rsect x s.
Proof.
  intros H H1. unfold Zig.rsect, rsect. assert (BSIZE = 1024) as -> by done. rewrite (proj2 (Z.ltb_lt (x * 1024) _)) by lia. cbn [negb].
  rewrite !gets_bind, sector_id by lia. by rewrite (proj2 (Z.ltb_lt _ _)) by lia.
Qed.

Lemma zig_winode inum ip s : 0 <= inum < 208 -> im_len s = FSSIZE -> Zig.winode inum ip s = winode inum ip s.
Proof.
  intros Hi Hl. pose proof (IBLOCK_range inum Hi). destruct consts as (_ & _ & _ & _ & _ & HF).
  apply bind_ext; [apply zig_rsect; lia|]. intros buf s' _. apply zig_wsect. lia.
Qed.

Lemma zig_rinode inum s : 0 <= inum < 208 -> im_len s = FSSIZE -> Zig.rinode inum s = rinode inum s.
Proof.
  intros Hi Hl. pose proof (IBLOCK_range inum Hi). destruct consts as (_ & _ & _ & _ & _ & HF).
  apply bind_ext; [apply zig_rsect; lia|done].
Qed.

Lemma zig_ialloc type s : 0 <= freeinode s < 208 -> im_len s = FSSIZE -> 0 <= type < 32768 -> Zig.ialloc type s = ialloc type s.
Proof.
  intros Hi Hl Ht. pose proof (IBLOCK_range (freeinode s) Hi). destruct consts as (_ & _ & _ & _ & _ & HF).
  assert (new_dinode type = set_i_disk type 0 0 1 0 no_addrs inhabitant) as E.
  { unfold new_dinode. rewrite xshort_u16, u16_small by lia. done. }
  assert (forall s, im_len s = FSSIZE -> forall i ip, 0 <= IBLOCK i sb < FSSIZE -> winode i ip s =
    wsect (IBLOCK i sb) (put_dinode (view s (IBLOCK i sb)) (dino i) ip) s) as Hw.
  { intros s1 L i ip Hr. unfold winode. by rewrite (bind_ok _ _ _ _ _ (rsect_ok (IBLOCK i sb) s1 ltac:(lia) ltac:(lia))). }
  unfold Zig.ialloc, ialloc. rewrite !gets_bind, modify_bind, <- E.
  erewrite (bind_ok (Zig.winode _ _)); [|rewrite zig_winode, Hw by (done || lia); reflexivity].
  erewrite (bind_ok (winode _ _)); [|rewrite Hw by (done || lia); reflexivity].
  unfold Zig.add_u32. rewrite (proj2 (Z.ltb_lt _ _)) by lia. rewrite ret_bind, modify_bind, u32_small by lia. done.
Qed.

Definition room_left (s : mst) : Prop := nmeta <= freeblock s < FSSIZE.

Lemma zig_take k din s : uint (i_addrs din !!! k) -> (i_addrs din !!! k = 0 -> room_left s) ->
  (if i_addrs din !!! k =? 0 then Zig.with_block (fun fblk => mret (set_i_addr k fblk din)) else mret din) s =
  (if xint (i_addrs din !!! k) =? 0 then b ← take_block; mret (set_i_addr k (xint b) din) else mret din) s.
Proof.
  intros Hu Hr. destruct consts as (_ & _ & _ & _ & E1 & HF). rewrite (xint_id _ Hu). destruct (Z.eqb_spec (i_addrs din !!! k) 0) as [E|E]; [|done].
  destruct (Hr E) as [H1 H2]. destruct (take_block_ok s H2 H1) as [Ht Ex]. rewrite (bind_ok _ _ _ _ _ Ht), Ex.
  unfold Zig.with_block. rewrite gets_bind, ret_bind. unfold Zig.add_u32. rewrite (proj2 (Z.ltb_lt _ _)) by lia. by rewrite ret_bind, modify_bind.
Qed.

Lemma zig_entry din o s : let x := i_addrs din !!! NDIRECT in 0 <= x < FSSIZE -> im_len s = FSSIZE -> (ld32 (view s x) o = 0 -> room_left s) ->
  (indirect ← Zig.rsect x;
   indirect ← (if ld32 indirect o =? 0 then Zig.with_block (fun fblk => let indirect := st32 indirect o fblk in Zig.wsect x indirect;; mret indirect) else mret indirect);
   mret (din, ld32 indirect o)) s =
  (indirect ← rsect (xint x);
   indirect ← (if ld32 indirect o =? 0 then b ← take_block; let indirect := st32 indirect o (xint b) in wsect (xint x) indirect;; mret indirect else mret indirect);
   mret (din, xint (ld32 indirect o))) s.
Proof.
  intros x Hx Hl Hr. destruct consts as (_ & _ & _ & _ & E1 & HF). rewrite xint_id by lia.
  rewrite (bind_ok (Zig.rsect x) _ _ (view s x) s) by (rewrite zig_rsect by lia; apply rsect_ok; lia).
  rewrite (bind_ok (rsect x) _ _ (view s x) s) by (apply rsect_ok; lia).
  apply bind_ext; [|intros a s' _; pose proof (ld32_range a o); by rewrite xint_id by lia].
  destruct (Z.eqb_spec (ld32 (view s x) o) 0) as [E|E]; [|done]. destruct (Hr E) as [H1 H2]. destruct (take_block_ok s H2 H1) as [Ht Ex].
  rewrite (bind_ok _ _ _ _ _ Ht), Ex. unfold Zig.with_block. rewrite gets_bind. cbv zeta. rewrite !bind_bind.
  erewrite (bind_ok (Zig.wsect x _)); [|rewrite zig_wsect by lia; reflexivity]. rewrite ret_bind. unfold Zig.add_u32.
  rewrite (proj2 (Z.ltb_lt _ _)) by lia. by rewrite ret_bind, modify_bind.
Qed.

(** The block of the end of the file, as [end_block] has it. *)
Lemma zig_file_block inum s own din c : spare (view s) own (freeblock s) -> im_len s = FSSIZE -> nmeta <= freeblock s ->
  holds (view s) own inum din c -> let n := Z.of_nat (length c) in n / BSIZE < MAXFILE -> freeblock s + end_cost n <= FSSIZE ->
  Zig.file_block din (n / BSIZE) s = file_block din (n / BSIZE) s.
Proof.
  intros Hs Hl Hm [H _] n Hmax Hf. fold n in H. assert (0 <= n / BSIZE) as Hn0 by (apply Z.div_pos; [lia|done]). destruct consts as (HM & HD & _ & _ & E1 & HF).
  assert (0 <= end_cost n) as Hec by (unfold end_cost, cost; clear; repeat case_match; lia).
  assert (forall k, 0 <= k < 13 -> uint (i_addrs din !!! k)) as Hu by (intros k Hk; eapply shape_uint; [exact Hs| |exact H|done]; lia).
  assert (freeblock s <= FSSIZE) as Hle by lia. rewrite (bcount_end n) in H by lia. unfold end_cost in Hf. set (f := n / BSIZE) in *.
  assert (fblock (view s) din f = 0 -> freeblock s + cost f <= FSSIZE /\ shape (view s) own inum din f) as Hz.
  { intros Ez. destruct (Z.eqb_spec (n mod BSIZE) 0) as [E|E]; [done|]. pose proof (sh_blocks _ _ _ _ _ H f ltac:(lia)) as Hb.
    rewrite (proj2 (Z.ltb_lt f (f + 1))) in Hb by lia. apply (addr_range _ _ _ _ _ Hs ltac:(lia)) in Hb as [Hb _]. lia. }
  assert (0 < cost f) as Hc by (unfold cost; destruct (f =? NDIRECT); lia).
  unfold Zig.file_block, file_block. destruct (Z.ltb_spec f NDIRECT) as [Hd|Hd].
  - assert (fblock (view s) din f = i_addrs din !!! f) as Ef by (unfold fblock; by rewrite (proj2 (Z.ltb_lt f NDIRECT)) by lia).
    apply bind_ext; [apply zig_take; [apply Hu; lia|]; intros Ez; rewrite <- Ef in Ez; apply Hz in Ez; split; lia|].
    intros din' s' R. enough (uint (i_addrs din' !!! f)) as Hx by (by rewrite (xint_id _ Hx)).
    rewrite xint_id in R by (apply Hu; lia). destruct (Z.eqb_spec (i_addrs din !!! f) 0) as [E|E]; [|injection R as <- <-; apply Hu; lia].
    unfold take_block in R. rewrite bind_bind, gets_bind, bind_bind, modify_bind, ret_bind in R. injection R as <- <-.
    cbn [set_i_addr i_addrs]. rewrite lookup_total_insert_eq, xint_u32. apply u32_range.
  - assert (ind din = 0 -> fblock (view s) din f = 0) as Ef.
    { intros Ei. unfold fblock. by rewrite (proj2 (Z.ltb_ge f NDIRECT)), Ei by lia. }
    apply bind_ext; [apply zig_take; [apply Hu; lia|]; intros Ez; apply Ef, Hz in Ez; split; lia|].
    intros din' s' R. enough (0 <= ind din' < FSSIZE /\ im_len s' = FSSIZE /\ (ld32 (view s' (ind din')) (4 * (f - NDIRECT)) = 0 -> room_left s'))
      as (X1 & X2 & X3) by (by apply (zig_entry din' (4 * (f - NDIRECT)) s')).
    destruct (Z.eq_dec (ind din) 0) as [Ei|Ei].
    + destruct (Hz (Ef Ei)) as [Hc' S'].
      destruct (list_block s own inum din f Hs Hl Hm S') as (s1 & din1 & own1 & R1 & G1 & V1 & Hi1 & _ & _); [lia|lia|].
      rewrite R1 in R. injection R as <- <-. pose proof (gr_fb _ _ _ _ _ _ G1) as Hfb.
      pose proof (addr_range _ _ _ _ _ (gr_spare _ _ _ _ _ _ G1) ltac:(lia) Hi1) as [Hr _].
      split; [lia|]. split; [by rewrite (gr_len _ _ _ _ _ _ G1)|]. intros _. split; lia.
    + rewrite xint_id in R by (apply Hu; lia). fold (ind din) in R. rewrite (proj2 (Z.eqb_neq (ind din) 0)) in R by done. injection R as <- <-.
      pose proof (sh_ind _ _ _ _ _ H) as Hi. destruct (NDIRECT <? _); [|done]. apply (addr_range _ _ _ _ _ Hs ltac:(lia)) in Hi as [Hi _].
      split; [lia|]. split; [done|]. intros Ez. assert (fblock (view s) din f = 0) as E0.
      { unfold fblock. by rewrite (proj2 (Z.ltb_ge f NDIRECT)), (proj2 (Z.eqb_neq (ind din) 0)) by lia. }
      apply Hz in E0. split; lia.
Qed.

Lemma zig_loop inum fuel : forall s own din c p, (length p <= fuel)%nat ->
  spare (view s) own (freeblock s) -> im_len s = FSSIZE -> nmeta <= freeblock s -> holds (view s) own inum din c ->
  let n := Z.of_nat (length c) in let n' := n + Z.of_nat (length p) in
  n' <= MAXFILE * BSIZE -> freeblock s + (blocks n' - blocks n) <= FSSIZE ->
  Zig.iappend_loop fuel din n p s = iappend_loop fuel din n p s.
Proof.
  induction fuel as [|fuel IH]; intros s own din c p Hp Hs Hl Hm H n n' Hmax Hf; [by destruct p|].
  destruct (decide (p = [])) as [->|Hne]; [done|].
  destruct (round_range n p ltac:(lia) Hne) as (Hn1 & _ & _). assert (MAXFILE * BSIZE = 274432) as EM by done.
  pose proof (end_cost_blocks n p ltac:(lia) Hne) as Hec. pose proof (blocks_mono (n + round_bytes n p) n' ltac:(unfold n'; lia)) as Hmono.
  assert (n / BSIZE < MAXFILE) as Hfbn by (apply Z.div_lt_upper_bound; [done|unfold n' in Hmax; lia]).
  destruct (append_round inum s own din c p Hs Hl Hm H Hne Hfbn ltac:(fold n; lia)) as (s1 & din1 & own1 & x & s0 & Hx & L0 & R1 & R2 & R3 & G & H1 & A & EA).
  fold n in R1, R3, G, H1. set (n1 := round_bytes n p) in *. pose proof (gr_fb _ _ _ _ _ _ G) as Hfb. destruct consts as (_ & _ & _ & _ & _ & HF).
  assert (Z.of_nat (length (c ++ take (Z.to_nat n1) p)) = n + n1) as El by (rewrite length_app, length_take; lia).
  assert (Z.of_nat (length (drop (Z.to_nat n1) p)) = Z.of_nat (length p) - n1) as Ed by (rewrite length_drop; lia).
  assert (0 <= end_cost n) as Hec0 by (unfold end_cost, cost; clear; repeat case_match; lia).
  pose proof (IH s1 own1 din1 (c ++ take (Z.to_nat n1) p) (drop (Z.to_nat n1) p)) as IH'. cbn zeta in IH'. rewrite El, Ed in IH'.
  replace (n + n1 + (Z.of_nat (length p) - n1)) with n' in IH' by (unfold n'; lia).
  assert (Zig.file_block din (n / BSIZE) s = Ok (din1, x) s0) as Z1 by (rewrite <- R1; eapply zig_file_block; try eassumption; fold n; lia).
  rewrite iappend_loop_cons by done. destruct p as [|b p']; [done|]. cbn [Zig.iappend_loop]. set (p := b :: p') in *.
  rewrite (proj2 (Z.ltb_lt _ _) Hfbn). cbn [negb]. rewrite (bind_ok _ _ _ _ _ R1), (bind_ok _ _ _ _ _ Z1). fold (round_bytes n p). fold n1.
  rewrite (bind_ok _ _ _ _ _ R2), (bind_ok _ _ _ _ _ R3). rewrite (bind_ok _ _ s0 (view s0 x) s0) by (rewrite zig_rsect by lia; exact R2).
  rewrite (bind_ok _ _ s0 tt s1) by (rewrite zig_wsect by lia; exact R3). unfold Zig.add_u32. rewrite (proj2 (Z.ltb_lt (n + n1) _)) by lia.
  rewrite ret_bind. apply IH'; [lia|apply G|by rewrite (gr_len _ _ _ _ _ _ G)|lia|done|lia|lia].
Qed.

(** Under the conditions of [iappend_ok]. *)
Lemma zig_iappend s own C T inum p : image s own C T -> 1 <= inum < freeinode s ->
  let n := Z.of_nat (length (C inum)) in let n' := n + Z.of_nat (length p) in
  n' <= MAXFILE * BSIZE -> freeblock s + (blocks n' - blocks n) <= FSSIZE -> Zig.iappend inum p s = iappend inum p s.
Proof.
  intros H Hi n n' Hmax Hf. destruct (im_files _ _ _ _ H inum Hi) as [F1 F2 F3 F4]. pose proof (im_ino _ _ _ _ H) as Hino. pose proof (im_fb _ _ _ _ H) as Hfb.
  assert (NINODES = 200) as E3 by done. assert (MAXFILE * BSIZE = 274432) as E4 by done.
  unfold Zig.iappend, iappend. pose proof (rinode_ok s inum ltac:(lia) (im_l _ _ _ _ H)) as R. rewrite (bind_ok (rinode inum) _ _ _ _ R).
  rewrite (bind_ok (Zig.rinode inum) _ _ (node (view s) inum) s) by (rewrite zig_rinode; [exact R|lia|apply H]). rewrite F2, xint_id by lia. fold n.
  apply bind_ext; [eapply zig_loop; [done|apply H|apply H|lia|exact F1|done|done]|].
  destruct (iappend_loop_ok inum (length p) s own (node (view s) inum) (C inum) p) as (s1 & din & own1 & R1 & G & _);
    try done; [apply H|apply H|lia|]. fold n n' in R1, G. intros [din' off] s' E. rewrite R1 in E. injection E as <- <- <-.
  rewrite xint_id by lia. apply zig_winode; [lia|]. by rewrite (gr_len _ _ _ _ _ _ G), (im_l _ _ _ _ H).
Qed.

Lemma zig_pieces inum ps : forall s own C T, image s own C T -> 1 <= inum < freeinode s ->
  let n := Z.of_nat (length (C inum)) in let n' := n + Z.of_nat (length (concat ps)) in
  n' <= MAXFILE * BSIZE -> freeblock s + (blocks n' - blocks n) <= FSSIZE -> Zig.append_pieces inum ps s = append_pieces inum ps s.
Proof.
  induction ps as [|p ps IH]; intros s own C T H Hi n n' Hmax Hf; subst n'; cbn [concat] in *; [done|].
  rewrite length_app in *. set (n1 := n + Z.of_nat (length p)).
  pose proof (blocks_mono n1 (n + Z.of_nat (length p + length (concat ps))) ltac:(lia)) as Hm.
  destruct (iappend_ok s own C T inum p H Hi) as (s1 & own1 & R1 & H1 & F1 & I1); [fold n n1; lia|fold n n1; lia|]. fold n n1 in F1.
  cbn [append_pieces Zig.append_pieces]. apply bind_ext; [eapply zig_iappend; try eassumption; fold n n1; lia|].
  intros a s' R. rewrite R1 in R. injection R as <- <-. set (C1 := fset C inum (C inum ++ p)) in *.
  assert (Z.of_nat (length (C1 inum)) = n1) as En by (unfold C1, fset; rewrite decide_True, length_app by done; lia).
  assert (n1 + Z.of_nat (length (concat ps)) = n + Z.of_nat (length p + length (concat ps))) as Es by lia.
  eapply (IH s1 own1 C1 T H1); rewrite ?En, ?Es; lia.
Qed.

(** ** Names *)

Lemma until_slash_plain l : existsb (Z.eqb 47) (Zig.until_slash l) = false.
Proof.
  induction l as [|b l IH]; [done|]. cbn [Zig.until_slash]. destruct (Z.eqb_spec b 47) as [->|Hne]; [done|]. cbn [existsb].
  rewrite IH, orb_false_r. apply Z.eqb_neq. lia.
Qed.

Lemma existsb_rev {A} (f : A -> bool) l : existsb f (rev l) = existsb f l.
Proof. induction l as [|a l IH]; [done|]. cbn [rev existsb]. rewrite existsb_app, IH. cbn [existsb]. rewrite orb_false_r. apply orb_comm. Qed.

Lemma basename_plain path : existsb (Z.eqb 47) (Zig.basename path) = false.
Proof. unfold Zig.basename. rewrite existsb_rev. apply until_slash_plain. Qed.

Lemma skip_user_plain l : existsb (Z.eqb 47) l = false -> skip_user l = l.
Proof.
  intros H. unfold skip_user. case_decide as E; [|done]. exfalso.
  assert (existsb (Z.eqb 47) (take 5 l ++ drop 5 l) = false) as H' by (by rewrite take_drop). rewrite E, existsb_app in H'. done.
Qed.

(** The file of mkfs.c for a path. *)
Definition named (z : source) : source := (Zig.basename z.1, z.2).

Definition good (z : source) : Prop := Zig.basename z.1 <> [] /\ (length (name_of (named z)) <= 14)%nat.

Lemma named_plain z : plain (named z) /\ name_of (named z) = skip_underscore (Zig.basename z.1).
Proof.
  unfold plain, name_of. change ((named z).1) with (Zig.basename z.1). pose proof (basename_plain z.1) as H. by rewrite skip_user_plain.
Qed.

Lemma zig_dirent inum name s : 0 <= inum < 65536 -> (length name <= 14)%nat -> Zig.dirent inum name s = Ok (dirent inum name) s.
Proof.
  intros Hi Hl. unfold Zig.dirent, dirent. rewrite (proj2 (Nat.leb_le _ _) Hl), xshort_u16, u16_small by lia. by rewrite take_ge by lia.
Qed.

Lemma zig_add_file z s own C T : good z -> image s own C T -> 2 <= freeinode s < NINODES ->
  let f := named z in let n := Z.of_nat (length (C 1)) in
  n + 16 <= MAXFILE * BSIZE -> size_of f <= MAXFILE * BSIZE ->
  freeblock s + (blocks (n + 16) - blocks n) + blocks (size_of f) <= FSSIZE ->
  (i ← Zig.ialloc 2; inum ← Zig.as_u16 i; de ← Zig.dirent inum (name_of f); Zig.iappend 1 de;; Zig.append_pieces inum z.2) s =
  (inum ← ialloc T_FILE; iappend 1 (dirent inum (name_of f));; append_pieces inum f.2) s.
Proof.
  intros [_ Hg] H Hi f n Hmax Hsz Hf. pose proof (blocks_nonneg (size_of f) ltac:(unfold size_of; lia)) as Hnn. assert (NINODES = 200) as E3 by done.
  set (i := freeinode s) in *. apply bind_ext; [apply zig_ialloc; [fold i; lia|apply H|done]|].
  destruct (ialloc_ok s own C T T_FILE H ltac:(lia) ltac:(done)) as (s1 & R1 & H1 & F1 & I1). fold i in R1, H1, I1.
  intros j s' R. rewrite R1 in R. injection R as <- <-. unfold Zig.as_u16. rewrite (proj2 (Z.ltb_lt i 65536)) by lia.
  rewrite ret_bind, (bind_ok _ _ _ _ _ (zig_dirent i (name_of f) s1 ltac:(lia) Hg)).
  set (C1 := fset C i []) in *. assert (C1 1 = C 1) as E1 by (unfold C1, fset; rewrite decide_False; [done|lia]).
  assert (Z.of_nat (length (C1 1)) = n) as En by (by rewrite E1).
  destruct (iappend_ok s1 own _ _ 1 (dirent i (name_of f)) H1) as (s2 & own2 & R2 & H2 & F2 & I2);
    rewrite ?En, ?dirent_length; change (Z.of_nat 16) with 16; [lia|lia|lia|].
  rewrite En, dirent_length in F2. change (Z.of_nat 16) with 16 in F2.
  apply bind_ext; [eapply zig_iappend; [exact H1|lia|..]; rewrite En, dirent_length; change (Z.of_nat 16) with 16; lia|].
  intros a s' R. rewrite R2 in R. injection R as <- <-. set (C2 := fset C1 1 _) in *. assert (C2 i = []) as E2.
  { unfold C2, fset. rewrite decide_False by lia. unfold C1, fset. by rewrite decide_True. }
  eapply (zig_pieces i f.2 s2 own2 C2 _ H2); [lia| |]; rewrite E2; cbn [length]; fold (size_of f); change (Z.of_nat 0 + size_of f) with (size_of f).
  - exact Hsz.
  - change (blocks (Z.of_nat 0)) with 0. lia.
Qed.

Lemma zig_add_files zs : forall s own C T, image s own C T -> 2 <= freeinode s -> freeinode s + Z.of_nat (length zs) <= NINODES ->
  let fs := map named zs in let n := Z.of_nat (length (C 1)) in let n' := n + 16 * Z.of_nat (length zs) in
  Forall good zs -> Forall (fun z => size_of z <= MAXFILE * BSIZE) zs -> n' <= MAXFILE * BSIZE ->
  freeblock s + (blocks n' - blocks n) + data_blocks fs <= FSSIZE ->
  Zig.add_files 1 (args zs) s = add_files 1 (args fs) s.
Proof.
  induction zs as [|z zs IH]; intros s own C T H H2 Hi fs n n' HG HF Hmax Hf; [done|]. subst n' fs. cbn [length map] in *.
  apply Forall_cons in HG as [Hg HG]. apply Forall_cons in HF as [Hs HF]. set (f := named z) in *. change (size_of z) with (size_of f) in Hs.
  cbn [data_blocks foldr] in Hf. fold (data_blocks (map named zs)) in Hf. pose proof (data_blocks_nonneg (map named zs)) as Hnn.
  pose proof (blocks_mono (n + 16) (n + 16 * Z.of_nat (S (length zs))) ltac:(lia)) as Hm.
  destruct (add_file_ok f s own C T H) as (s1 & own1 & R1 & H1 & F1 & I1); [lia|fold n; lia|done|fold n; lia|]. fold n in F1.
  set (C1 := fset _ (freeinode s) _) in *. assert (Z.of_nat (length (C1 1)) = n + 16) as En.
  { unfold C1, fset. rewrite decide_False by lia. rewrite decide_True, length_app, dirent_length by done. lia. }
  assert (n + 16 + 16 * Z.of_nat (length zs) = n + 16 * Z.of_nat (S (length zs))) as En' by lia.
  pose proof (zig_add_file z s own C T Hg H ltac:(lia)) as Hz. cbn zeta in Hz. fold n f in Hz. rewrite R1 in Hz. specialize (Hz ltac:(lia) Hs ltac:(lia)).
  rewrite add_files_cons by (apply named_plain). rewrite (bind_ok _ _ _ _ _ R1).
  rewrite <- (IH s1 own1 C1 _ H1); [|lia|lia|done|done|rewrite En; lia|rewrite En, En'; lia].
  cbn [args map Zig.add_files]. fold (args zs). destruct Hg as [Hne _]. pose proof (proj2 (named_plain z)) as Hname. fold f in Hname.
  destruct (Zig.basename z.1) as [|b rest]; [done|].
  replace (if b =? 95 then rest else b :: rest) with (name_of f) by (rewrite Hname; unfold skip_underscore; by repeat case_match).
  transitivity (((i ← Zig.ialloc 2; inum ← Zig.as_u16 i; de ← Zig.dirent inum (name_of f); Zig.iappend 1 de;; Zig.append_pieces inum z.2);; Zig.add_files 1 (args zs)) s);
    [|by rewrite (bind_ok _ _ _ _ _ Hz)].
  rewrite bind_bind. apply bind_ext; [done|]. intros i s' _. rewrite bind_bind. apply bind_ext; [done|]. intros j s2 _.
  rewrite bind_bind. apply bind_ext; [done|]. intros de s3 _. rewrite bind_bind. done.
Qed.

Lemma for_loop_ext {S R} (f g : Z -> M S (option R)) n : forall i, (forall j s, i <= j < i + Z.of_nat n -> f j s = g j s) ->
  forall s, for_loop n i f s = for_loop n i g s.
Proof.
  induction n as [|n IH]; intros i H s; [done|]. cbn [for_loop]. apply bind_ext; [apply H; lia|]. intros [r|] s' _; [done|].
  apply IH. intros j s1 Hj. apply H. lia.
Qed.

Lemma zig_zero s : for_loop (Z.to_nat FSSIZE) 0 (fun i => Zig.wsect i ∅;; mret (None (A := unit))) s = zero_sectors s.
Proof.
  apply for_loop_ext. intros j s' Hj. rewrite Z2Nat.id in Hj by done. destruct consts as (_ & _ & _ & _ & _ & HF).
  apply bind_ext; [apply zig_wsect; lia|done].
Qed.

Lemma zig_root {A} s s' (k : M mst A) : Zig.append_pieces 1 [dirent 1 [46]; dirent 1 [46; 46]] s = Ok tt s' ->
  (de ← Zig.dirent 1 [46]; Zig.iappend 1 de;; de ← Zig.dirent 1 [46; 46]; Zig.iappend 1 de;; k) s = k s'.
Proof.
  cbn [Zig.append_pieces]. intros H. rewrite (bind_ok _ _ _ _ _ (zig_dirent 1 [46] s ltac:(done) ltac:(cbn; lia))).
  revert H. unfold mbind, M_bind. destruct (Zig.iappend 1 (dirent 1 [46]) s) as [[] s1| | |]; [|done..].
  rewrite (zig_dirent 1 [46; 46] s1 ltac:(done) ltac:(cbn; lia)). destruct (Zig.iappend 1 (dirent 1 [46; 46]) s1) as [[] s2| | |]; [|done..].
  by intros [= ->].
Qed.

(** The end of the step: the size of the root directory and the bitmap. *)
Lemma zig_finish s own C T : image s own C T -> 2 <= freeinode s -> 0 <= (Z.of_nat (length (C 1)) / BSIZE + 1) * BSIZE < 4294967296 ->
  (din ← Zig.rinode 1; Zig.winode 1 (set_i_size ((i_size din / BSIZE + 1) * BSIZE) din);; b ← gets freeblock; Zig.balloc b) s =
  (din ← rinode 1; winode 1 (set_i_size (xint ((xint (i_size din) / BSIZE + 1) * BSIZE)) din);; b ← gets freeblock; balloc b) s.
Proof.
  intros H Hi Hsz. destruct (im_files _ _ _ _ H 1 ltac:(lia)) as [F1 F2 F3 F4]. destruct consts as (_ & _ & _ & HB & _ & HF).
  pose proof (rinode_ok s 1 ltac:(done) (im_l _ _ _ _ H)) as R. rewrite (bind_ok _ _ _ _ _ R).
  rewrite (bind_ok (Zig.rinode 1) _ _ (node (view s) 1) s) by (rewrite zig_rinode; [exact R|done|apply H]).
  pose proof (Z.mul_div_le (Z.of_nat (length (C 1))) 1024 ltac:(lia)). pose proof (Z.mod_pos_bound (Z.of_nat (length (C 1))) 1024 ltac:(lia)).
  pose proof (Z.div_mod (Z.of_nat (length (C 1))) 1024 ltac:(lia)).
  rewrite F2, (xint_id (Z.of_nat _)), xint_id by (rewrite HB in *; lia).
  apply bind_ext; [apply zig_winode; [done|apply H]|]. intros a s' _. rewrite !gets_bind. unfold Zig.balloc, balloc.
  destruct (negb _); [done|]. by apply zig_wsect.
Qed.

(** C24: the build step writes the image of mkfs.c.  For files that fit and
    whose names fit a directory entry, the step ends and leaves exactly the
    sectors and counters that mkfs.c leaves for the same files, of which
    [mkfs_correct] says what they hold. *)
Theorem make_same_image readme zs : let all := (Zig.README, readme) :: zs in
  fits_all (map named all) -> Forall good all ->
  exists s, Zig.make (Some readme) (args zs) mst0 = Ok tt s /\ mkfs (args (map named all)) mst0 = Ok tt s.
Proof.
  intros all Hfit HG. enough (Zig.make (Some readme) (args zs) mst0 = mkfs (args (map named all)) mst0) as E.
  { destruct (mkfs_image _ Hfit) as (s & _ & _ & Rc & _). exists s. split; [rewrite E|]; exact Rc. }
  destruct Hfit as [A1 A2 A3 A4]. rewrite length_map in A1, A4. destruct consts as (HM & _ & _ & HB & E1 & E2). assert (NINODES = 200) as E3 by done.
  set (n := Z.of_nat (length all)) in *. assert (Z.of_nat (length (map named all)) = n) as Ln by (unfold n; by rewrite length_map).
  destruct (image_start (set_freeblock nmeta mst0)) as (s1 & s2 & R1 & R2 & H2 & F2 & I2); [done..|].
  destruct (root_made s2 _ _ _ (dirent 1 [46]) (dirent 1 [46; 46]) H2 I2 F2) as (s3 & s4 & own4 & R3 & R4 & H4 & F4 & I4); [done..|].
  destruct (ialloc_ok s2 _ _ _ T_DIR H2) as (s3' & R3' & H3 & F3 & I3); [by rewrite I2|done|]. rewrite I2 in R3', H3, I3. rewrite R3 in R3'. injection R3' as <-.
  set (C4 := fset _ 1 _) in H4. assert (Z.of_nat (length (C4 1)) = 32) as L4 by done.
  assert (16 * (2 + n) = 32 + 16 * n) as En by lia. unfold needed in A3. rewrite Ln, En in A3.
  destruct (add_files_ok (map named all) s4 own4 C4 _ H4) as (s5 & own5 & C5 & T5 & R5 & H5 & F5 & I5 & X1 & _);
    rewrite ?L4, ?I4, ?F4, ?Ln; [lia|lia|done|lia|lia|].
  assert (Zig.add_files 1 (args all) s4 = Ok tt s5) as Z5.
  { rewrite <- R5. eapply (zig_add_files all s4 own4 C4 _ H4); rewrite ?L4, ?I4, ?F4; fold n; [lia|lia|done| |lia|lia].
    apply (proj1 (Forall_map named fits all)) in A2. eapply Forall_impl; [exact A2|]. by intros z [_ Hz]. }
  assert (Zig.append_pieces 1 [dirent 1 [46]; dirent 1 [46; 46]] s3 = Ok tt s4) as Z4.
  { rewrite <- R4. eapply (zig_pieces 1 _ s3 _ _ _ H3); [lia|done|]. by rewrite F3, F2. }
  unfold Zig.make, mkfs. rewrite !modify_bind. apply bind_ext; [apply zig_zero|]. intros r s' E. rewrite R1 in E. injection E as <- <-.
  apply bind_ext; [by apply zig_wsect|]. intros r2 s' E. rewrite R2 in E. injection E as _ <-.
  apply bind_ext; [apply zig_ialloc; [by rewrite I2|apply H2|done]|]. intros r3 s' E. rewrite R3 in E. injection E as <- <-.
  change (Zig.as_u16 1) with (mret 1 : M mst Z). rewrite ret_bind. change (1 =? ROOTINO) with true. cbn [negb].
  rewrite (zig_root _ _ _ Z4), (append_two _ _ _ _ _ _ R4). change ((Zig.README, Some readme) :: args zs) with (args all).
  rewrite (bind_ok _ _ _ _ _ Z5), (bind_ok _ _ _ _ _ R5). apply (zig_finish s5 own5 C5 T5 H5); [lia|].
  rewrite X1, length_app, dirents_size, length_map. replace (Z.of_nat (length (C4 1) + 16 * length all)) with (32 + 16 * n) by lia.
  rewrite HB. pose proof (Z.div_pos (32 + 16 * n) 1024 ltac:(lia) ltac:(lia)). pose proof (Z.div_le_upper_bound (32 + 16 * n) 1024 4 ltac:(lia) ltac:(lia)). lia.
Qed.

Lemma make_same_image_witness : exists s, Zig.make (Some [[104; 105]]) (args [([47; 98; 47; 95; 97], [[1; 2]; [3]])]) mst0 = Ok tt s /\
  mkfs (args [(Zig.README, [[104; 105]]); ([95; 97], [[1; 2]; [3]])]) mst0 = Ok tt s.
Proof.
  apply (make_same_image [[104; 105]] [([47; 98; 47; 95; 97], [[1; 2]; [3]])]).
  - split; [by vm_compute|repeat constructor; by vm_compute|by vm_compute|by vm_compute].
  - repeat constructor; first [by vm_compute|vm_compute; lia].
Defined.
