(* ===== verification/Pipe.v ===== *)
(** Pipes: src/src/kernel/pipe.c.

    The state is one pipe with what its operations use of the calling
    process: the kernel's memory, the page table, and the killed flag that
    [killed] returns.  [pi->data] is an object of its own, since the page of a
    pipe belongs to the pipe.

    A call that goes to sleep gives the CPU away with the loop variable [i]
    kept on its stack: the operations return [Blocked i] there, with the lock
    released as [sleep] does, and [pipewrite_from] and [piperead] are what the
    process runs when it wakes up. *)

From S2P Require Import Prelude Mem Sleeplock Strings Kalloc Vm VmSpec CopySpec VmProps.

Definition PIPESIZE : Z := 512.

Record pipe := Pipe {
  p_lock : bool; p_data : mem; p_nread : Z; p_nwrite : Z; p_readopen : bool; p_writeopen : bool }.

Definition set_p_lock v p := Pipe v (p_data p) (p_nread p) (p_nwrite p) (p_readopen p) (p_writeopen p).
Definition set_p_data v p := Pipe (p_lock p) v (p_nread p) (p_nwrite p) (p_readopen p) (p_writeopen p).
Definition set_p_nread v p := Pipe (p_lock p) (p_data p) v (p_nwrite p) (p_readopen p) (p_writeopen p).
Definition set_p_nwrite v p := Pipe (p_lock p) (p_data p) (p_nread p) v (p_readopen p) (p_writeopen p).
Definition set_p_readopen v p := Pipe (p_lock p) (p_data p) (p_nread p) (p_nwrite p) v (p_writeopen p).
Definition set_p_writeopen v p := Pipe (p_lock p) (p_data p) (p_nread p) (p_nwrite p) (p_readopen p) v.

Record pst := Pst { ps_p : pipe; ps_k : kst; ps_pt : Z; ps_killed : bool; ps_woken : list chan }.

Definition set_ps_p v s := Pst v (ps_k s) (ps_pt s) (ps_killed s) (ps_woken s).
Definition set_ps_k v s := Pst (ps_p s) v (ps_pt s) (ps_killed s) (ps_woken s).

#[export] Instance pst_wakeup : Wakeup pst :=
  fun ch => modify (fun s => Pst (ps_p s) (ps_k s) (ps_pt s) (ps_killed s) (ch :: ps_woken s)).

Definition pmod (f : pipe -> pipe) : M pst unit := modify (fun s => set_ps_p (f (ps_p s)) s).
Definition p_acquire : M pst unit := zoom ps_p set_ps_p (acquire p_lock set_p_lock).
Definition p_release : M pst unit := zoom ps_p set_ps_p (release p_lock set_p_lock).
Definition pkop {A} (c : M kst A) : M pst A := zoom ps_k set_ps_k c.

(** How a call ends: with a return value, or asleep with loop variable [i]. *)
Inductive io := Done (r : Z) | Blocked (i : Z).

Section pipe.
Context (kend : Z).

(** The channels [&pi->nread] and [&pi->nwrite] of the pipe at [pi]. *)
Definition nread_chan (pi : Z) : chan := Chan "pipe.nread" pi.
Definition nwrite_chan (pi : Z) : chan := Chan "pipe.nwrite" pi.

(** The part of [pipealloc] that sets up the pipe. *)
Definition pipe_init : pipe := Pipe false ∅ 0 0 true true.

Definition pipeclose (pi : Z) (writable : bool) : M pst unit :=
  p_acquire;;
  (if writable then pmod (set_p_writeopen false);; wakeup (nread_chan pi)
   else pmod (set_p_readopen false);; wakeup (nwrite_chan pi));;
  p ← gets ps_p;
  if negb (p_readopen p) && negb (p_writeopen p) then
    p_release;;
    pkop (kfree kend pi)
  else p_release.

Definition pipewrite_end (pi i : Z) : M pst io :=
  wakeup (nread_chan pi);;
  p_release;;
  mret (Done i).

(** Every round copies at least one byte, so [n] rounds are enough. *)
Fixpoint pipewrite_loop (fuel : nat) (pi addr n i : Z) : M pst io :=
  match fuel with
  | O => if i <? n then out_of_fuel else pipewrite_end pi i
  | S f =>
      if i <? n then
        p ← gets ps_p;
        killed ← gets ps_killed;
        if negb (p_readopen p) || killed then
          p_release;;
          mret (Done (-1))
        else if p_nwrite p =? u32 (p_nread p + PIPESIZE) then
          wakeup (nread_chan pi);;
          p_release;;
          mret (Blocked i)
        else
          let avail_space := i32 (u32 (PIPESIZE - u32 (p_nwrite p - p_nread p))) in
          let n_to_write := Z.min avail_space (n - i) in
          let write_pos := p_nwrite p mod PIPESIZE in
          let bytes_until_end := PIPESIZE - write_pos in
          let chunked_n_to_write := Z.min bytes_until_end n_to_write in
          pt ← gets ps_pt;
          '(r, d) ← pkop (copyin_obj pt (p_data p) write_pos (addr + i) chunked_n_to_write);
          pmod (set_p_data d);;
          if r =? -1 then pipewrite_end pi i
          else
            pmod (fun p => set_p_nwrite (u32 (p_nwrite p + chunked_n_to_write)) p);;
            pipewrite_loop f pi addr n (i + chunked_n_to_write)
      else pipewrite_end pi i
  end.

Definition pipewrite_from (pi addr n i : Z) : M pst io :=
  p_acquire;;
  pipewrite_loop (Z.to_nat (n - i)) pi addr n i.

Definition pipewrite (pi addr n : Z) : M pst io := pipewrite_from pi addr n 0.

Definition piperead_end (pi i : Z) : M pst io :=
  wakeup (nwrite_chan pi);;
  p_release;;
  mret (Done i).

Fixpoint piperead_loop (fuel : nat) (pi addr n i : Z) : M pst io :=
  match fuel with
  | O => if i <? n then out_of_fuel else piperead_end pi i
  | S f =>
      if i <? n then
        p ← gets ps_p;
        let remaining := i32 (u32 (p_nwrite p - p_nread p)) in
        if remaining =? 0 then piperead_end pi i
        else
          let n_to_read := Z.min remaining (n - i) in
          let read_pos := p_nread p mod PIPESIZE in
          let bytes_until_end := PIPESIZE - read_pos in
          let chunked_n_to_read := Z.min n_to_read bytes_until_end in
          pt ← gets ps_pt;
          r ← pkop (copyout_obj pt (addr + i) (p_data p) read_pos chunked_n_to_read);
          if r =? -1 then piperead_end pi i
          else
            pmod (fun p => set_p_nread (u32 (p_nread p + chunked_n_to_read)) p);;
            piperead_loop f pi addr n (i + chunked_n_to_read)
      else piperead_end pi i
  end.

(** Before the copy the call may sleep; it starts over when it wakes up. *)
Definition piperead (pi addr n : Z) : M pst io :=
  p_acquire;;
  p ← gets ps_p;
  if (p_nread p =? p_nwrite p) && p_writeopen p then
    killed ← gets ps_killed;
    if (killed : bool) then p_release;; mret (Done (-1))
    else p_release;; mret (Blocked 0)
  else piperead_loop (Z.to_nat n) pi addr n 0.
End pipe.

(** ** The pipe as a queue *)

(** The bytes between the two counters. *)
Definition plen (p : pipe) : Z := u32 (p_nwrite p - p_nread p).
Definition queue (p : pipe) : list Z :=
  (fun j : nat => rd (p_data p) ((p_nread p + Z.of_nat j) mod PIPESIZE)) <$> seq 0 (Z.to_nat (plen p)).

(** The bytes the process has at [addr]. *)
Definition ubyte (m : mem) (root va : Z) : Z :=
  match utrans m root va with Some a => rd m a | None => 0 end.
Definition ubytes (m : mem) (root addr k : Z) : list Z :=
  (fun j : nat => ubyte m root (addr + Z.of_nat j)) <$> seq 0 (Z.to_nat k).

Record pipe_ok (p : pipe) : Prop := {
  po_lock : p_lock p = false;
  po_nread : 0 <= p_nread p < 4294967296;
  po_nwrite : 0 <= p_nwrite p < 4294967296;
  po_len : plen p <= PIPESIZE }.

Lemma u32_pipesize x : u32 x mod PIPESIZE = x mod PIPESIZE.
Proof.
  unfold u32, wrap, PIPESIZE. apply Z.mod_mod_divide. by exists 8388608.
Qed.

Lemma nwrite_mod p : p_nwrite p mod PIPESIZE = (p_nread p + plen p) mod PIPESIZE.
Proof.
  unfold plen. rewrite <- (Zplus_mod_idemp_r (u32 _)), u32_pipesize, Zplus_mod_idemp_r. f_equal. lia.
Qed.

Lemma plen_range p : 0 <= plen p < 4294967296.
Proof. apply u32_range. Qed.

(** Two positions of the ring less than a turn apart are different. *)
Lemma ring_pos a i j : 0 <= i < PIPESIZE -> 0 <= j < PIPESIZE ->
  (a + i) mod PIPESIZE = (a + j) mod PIPESIZE -> i = j.
Proof.
  intros Hi Hj E. assert (PIPESIZE = 512) as HP by done. rewrite HP in *.
  assert (((a + i) - (a + j)) mod 512 = 0) as H.
  { rewrite Zminus_mod, E, Z.sub_diag. done. }
  apply Z.mod_divide in H as [k Hk]; [|lia]. lia.
Qed.

(** [c] bytes from position [pos] on, without a turn. *)
Lemma ring_chunk a c j : 0 <= j < c -> c <= PIPESIZE - a mod PIPESIZE -> (a + j) mod PIPESIZE = a mod PIPESIZE + j.
Proof.
  intros Hj Hc. assert (PIPESIZE = 512) as HP by done. rewrite HP in *.
  pose proof (Z.mod_pos_bound a 512). rewrite <- Zplus_mod_idemp_l. apply Z.mod_small. lia.
Qed.

Lemma plen_write p c : 0 <= c <= PIPESIZE - plen p ->
  plen (set_p_nwrite (u32 (p_nwrite p + c)) p) = plen p + c.
Proof.
  intros Hc. pose proof (plen_range p). assert (PIPESIZE = 512) as HP by done. unfold plen at 1. simpl.
  unfold u32, wrap. rewrite Zminus_mod_idemp_l.
  replace (p_nwrite p + c - p_nread p) with (p_nwrite p - p_nread p + c) by lia.
  rewrite <- Zplus_mod_idemp_l. change ((p_nwrite p - p_nread p) mod 2 ^ 32) with (plen p).
  apply Z.mod_small. change (2 ^ 32) with 4294967296. lia.
Qed.

Lemma plen_read p c : 0 <= c <= plen p ->
  plen (set_p_nread (u32 (p_nread p + c)) p) = plen p - c.
Proof.
  intros Hc. pose proof (plen_range p). unfold plen at 1. simpl. unfold u32, wrap. rewrite Zminus_mod_idemp_r.
  replace (p_nwrite p - (p_nread p + c)) with (p_nwrite p - p_nread p - c) by lia.
  rewrite <- Zminus_mod_idemp_l. change ((p_nwrite p - p_nread p) mod 2 ^ 32) with (plen p).
  apply Z.mod_small. change (2 ^ 32) with 4294967296. lia.
Qed.

(** Changing the free part of the ring does not change the queue. *)
Lemma queue_keep p d c :
  0 <= c <= PIPESIZE - plen p -> c <= PIPESIZE - p_nwrite p mod PIPESIZE ->
  (forall x, inr x (p_nwrite p mod PIPESIZE) c = false -> rd d x = rd (p_data p) x) ->
  queue (set_p_data d p) = queue p.
Proof.
  intros Hc Hend Hout. pose proof (plen_range p). assert (PIPESIZE = 512) as HP by done. unfold queue.
  apply list_fmap_ext. intros k j Hj. change (plen (set_p_data d p)) with (plen p) in Hj.
  apply lookup_seq in Hj as [-> Hk]. apply Hout.
  destruct (inr_spec ((p_nread p + Z.of_nat (0 + k)) mod PIPESIZE) (p_nwrite p mod PIPESIZE) c) as [Hr|]; [|done].
  exfalso. set (x := (p_nread p + Z.of_nat (0 + k)) mod PIPESIZE) in *.
  pose proof (ring_chunk (p_nread p + plen p) c (x - p_nwrite p mod PIPESIZE)) as E.
  rewrite <- nwrite_mod in E. specialize (E ltac:(lia) Hend).
  replace (p_nwrite p mod PIPESIZE + (x - p_nwrite p mod PIPESIZE)) with x in E by lia.
  unfold x at 2 in E. rewrite <- Z.add_assoc in E. apply ring_pos in E; lia.
Qed.

(** A chunk copied behind the last byte: its bytes go to the end of the
    queue. *)
Lemma queue_write p d c (sv : Z -> Z) :
  0 <= c <= PIPESIZE - plen p -> c <= PIPESIZE - p_nwrite p mod PIPESIZE ->
  (forall i, 0 <= i < c -> rd d (p_nwrite p mod PIPESIZE + i) = sv i) ->
  (forall x, inr x (p_nwrite p mod PIPESIZE) c = false -> rd d x = rd (p_data p) x) ->
  queue (set_p_nwrite (u32 (p_nwrite p + c)) (set_p_data d p)) =
    queue p ++ ((fun j : nat => sv (Z.of_nat j)) <$> seq 0 (Z.to_nat c)).
Proof.
  intros Hc Hend Hin Hout. pose proof (plen_range p). assert (PIPESIZE = 512) as HP by done.
  pose proof (plen_write p c Hc) as Hlen. unfold queue.
  change (plen (set_p_nwrite (u32 (p_nwrite p + c)) (set_p_data d p)))
    with (plen (set_p_nwrite (u32 (p_nwrite p + c)) p)). rewrite Hlen. simpl p_data. simpl p_nread.
  rewrite Z2Nat.inj_add, seq_app, fmap_app by lia. f_equal.
  - apply (queue_keep p d c); [lia|done|done].
  - simpl. rewrite <- (Nat.add_0_r (Z.to_nat (plen p))) at 1. rewrite <- fmap_add_seq, <- list_fmap_compose.
    apply list_fmap_ext. intros k j Hj. apply lookup_seq in Hj as [-> Hk]. simpl.
    rewrite <- Hin by lia. f_equal. rewrite nwrite_mod, <- ring_chunk with (c := c) by (rewrite <- ?nwrite_mod; lia).
    f_equal. lia.
Qed.

(** A chunk taken from the front. *)
Lemma queue_read p c :
  0 <= c <= plen p -> c <= PIPESIZE - p_nread p mod PIPESIZE ->
  queue p = ((fun j : nat => rd (p_data p) (p_nread p mod PIPESIZE + Z.of_nat j)) <$> seq 0 (Z.to_nat c)) ++
    queue (set_p_nread (u32 (p_nread p + c)) p).
Proof.
  intros Hc Hend. pose proof (plen_read p c Hc) as Hlen. unfold queue at 2. rewrite Hlen. simpl p_data. simpl p_nread.
  unfold queue. replace (Z.to_nat (plen p)) with (Z.to_nat c + Z.to_nat (plen p - c))%nat by lia.
  rewrite seq_app, fmap_app. f_equal.
  - apply list_fmap_ext. intros k j Hj. apply lookup_seq in Hj as [-> Hk]. f_equal. apply ring_chunk with (c := c); lia.
  - simpl. rewrite <- (Nat.add_0_r (Z.to_nat c)) at 1. rewrite <- fmap_add_seq, <- list_fmap_compose.
    apply list_fmap_ext. intros k j Hj. apply lookup_seq in Hj as [-> Hk]. simpl. f_equal.
    rewrite <- (Zplus_mod_idemp_l (u32 _)), u32_pipesize, Zplus_mod_idemp_l. f_equal. lia.
Qed.

Lemma ubytes_app m root a x y :
  0 <= x -> 0 <= y -> ubytes m root a (x + y) = ubytes m root a x ++ ubytes m root (a + x) y.
Proof.
  intros Hx Hy. unfold ubytes. rewrite Z2Nat.inj_add, seq_app, fmap_app by done. f_equal. simpl.
  rewrite <- (Nat.add_0_r (Z.to_nat x)) at 1. rewrite <- fmap_add_seq, <- list_fmap_compose.
  apply list_fmap_ext. intros k j Hj. apply lookup_seq in Hj as [-> _]. simpl. f_equal. lia.
Qed.

Lemma ubytes_0 m root a : ubytes m root a 0 = [].
Proof. done. Qed.

Lemma length_queue p : Z.of_nat (length (queue p)) = plen p.
Proof. unfold queue. rewrite length_fmap, length_seq. pose proof (plen_range p). lia. Qed.

(** The pipe is full, or empty, exactly when the code's tests say so. *)
Lemma pipe_full p : pipe_ok p -> (p_nwrite p =? u32 (p_nread p + PIPESIZE)) = (plen p =? PIPESIZE).
Proof.
  intros [_ Hr Hw _]. unfold plen, u32, wrap. change (2 ^ 32) with 4294967296. assert (PIPESIZE = 512) as -> by done.
  apply eq_true_iff_eq. rewrite !Z.eqb_eq. Z.div_mod_to_equations. lia.
Qed.

Lemma pipe_empty p : pipe_ok p -> (p_nread p =? p_nwrite p) = (plen p =? 0).
Proof.
  intros [_ Hr Hw _]. unfold plen, u32, wrap. change (2 ^ 32) with 4294967296.
  apply eq_true_iff_eq. rewrite !Z.eqb_eq. Z.div_mod_to_equations. lia.
Qed.

(** Inside the critical section. *)
Definition critical (p : pipe) : Prop := p_lock p = true /\ pipe_ok (set_p_lock false p).

Lemma pmod_bind {A} f (k : unit -> M pst A) s : (pmod f ≫= k) s = k tt (set_ps_p (f (ps_p s)) s).
Proof. done. Qed.

Lemma p_release_bind {A} (k : unit -> M pst A) s :
  critical (ps_p s) -> (p_release ≫= k) s = k tt (set_ps_p (set_p_lock false (ps_p s)) s).
Proof. intros [H _]. unfold p_release, zoom, release, mbind, M_bind. by rewrite H. Qed.

(** What a run of [pipewrite] that started at [i] did: [w] bytes went into the
    pipe, and [res] says how it ended. *)
Record wrote_pipe (pages : layout) (s : pst) (addr n i w : Z) (res : io) (s' : pst) : Prop := {
  wp_ok : pipe_ok (ps_p s');
  wp_k : ps_k s' = ps_k s;
  wp_proc : ps_pt s' = ps_pt s /\ ps_killed s' = ps_killed s;
  wp_open : p_readopen (ps_p s') = p_readopen (ps_p s) /\ p_writeopen (ps_p s') = p_writeopen (ps_p s);
  wp_w : 0 <= w <= Z.max 0 (n - i);
  wp_queue : queue (ps_p s') = queue (ps_p s) ++ ubytes (k_mem (ps_k s)) (ps_pt s) (addr + i) w;
  wp_res :
    (res = Done (i + w) /\ (n <= i + w \/ exists k, w <= k < n - i /\ utrans (k_mem (ps_k s)) (ps_pt s) (addr + i + k) = None)) \/
    (res = Done (-1) /\ i < n /\ w = 0 /\ (p_readopen (ps_p s) = false \/ ps_killed s = true)) \/
    (res = Blocked (i + w) /\ i + w < n /\ plen (ps_p s') = PIPESIZE) }.

Lemma pipewrite_end_spec pages s pi addr n i :
  critical (ps_p s) -> 0 <= i ->
  n <= i \/ (exists k, 0 <= k < n - i /\ utrans (k_mem (ps_k s)) (ps_pt s) (addr + i + k) = None) ->
  exists s', pipewrite_end pi i s = Ok (Done i) s' /\ wrote_pipe pages s addr n i 0 (Done i) s'.
Proof.
  intros Hc Hi Hend. unfold pipewrite_end. eexists. split.
  { unfold wakeup, pst_wakeup. rewrite modify_bind, p_release_bind by exact Hc. done. }
  split; try done; [apply Hc|lia|by rewrite ubytes_0, app_nil_r|]. left. rewrite Z.add_0_r. by split.
Qed.

Lemma pipewrite_loop_spec pages pi addr n fuel : forall s i,
  critical (ps_p s) -> user_ok (k_mem (ps_k s)) pages (ps_pt s) -> 0 <= addr -> 0 <= i ->
  (Z.to_nat (n - i) <= fuel)%nat -> n < 2147483648 ->
  exists res w s', pipewrite_loop fuel pi addr n i s = Ok res s' /\ wrote_pipe pages s addr n i w res s'.
Proof.
  induction fuel as [|fuel IH]; intros s i Hc Hu Ha Hi Hf Hn; cbn [pipewrite_loop].
  { destruct (Z.ltb_spec i n); [lia|].
    destruct (pipewrite_end_spec pages s pi addr n i Hc Hi) as (s' & H1 & H2); [left; lia|]. by exists (Done i), 0, s'. }
  destruct (Z.ltb_spec i n) as [Hlt|].
  2: { destruct (pipewrite_end_spec pages s pi addr n i Hc Hi) as (s' & H1 & H2); [left; lia|]. by exists (Done i), 0, s'. }
  rewrite !gets_bind. pose proof Hc as [Hlk Hok]. set (p := ps_p s) in *.
  destruct (negb (p_readopen p) || ps_killed s) eqn:Eg.
  { eexists (Done (-1)), 0, _. rewrite p_release_bind by exact Hc. split; [done|].
    split; try done; [lia|by rewrite ubytes_0, app_nil_r|]. right; left.
    split; [done|]. split; [done|]. split; [done|]. fold p. destruct (p_readopen p); [right|left]; done. }
  apply orb_false_iff in Eg as [Eg1 Eg2].
  pose proof (pipe_full _ Hok) as Ef. change (p_nwrite p =? u32 (p_nread p + PIPESIZE)) with
    (p_nwrite (set_p_lock false p) =? u32 (p_nread (set_p_lock false p) + PIPESIZE)). rewrite Ef.
  change (plen (set_p_lock false p)) with (plen p). pose proof (plen_range p) as Hpl.
  destruct (Z.eqb_spec (plen p) PIPESIZE) as [Efull|Hnf].
  { eexists (Blocked i), 0, _. unfold wakeup, pst_wakeup.
    rewrite modify_bind, p_release_bind by exact Hc. split; [done|].
    split; try done; [lia|by rewrite ubytes_0, app_nil_r|]. right; right. rewrite Z.add_0_r. by split. }
  pose proof (po_len _ Hok) as Hle. change (plen (set_p_lock false p)) with (plen p) in Hle.
  assert (PIPESIZE = 512) as HP by done.
  change (u32 (p_nwrite p - p_nread p)) with (plen p).
  pose proof (Z.mod_pos_bound (p_nwrite p) PIPESIZE ltac:(lia)) as Hmod.
  rewrite (u32_small (PIPESIZE - plen p)), (i32_small (PIPESIZE - plen p)) by lia. cbv zeta.
  set (c := Z.min (PIPESIZE - p_nwrite p mod PIPESIZE) (Z.min (PIPESIZE - plen p) (n - i))).
  assert (0 < c /\ c <= n - i /\ c <= PIPESIZE - plen p /\ c <= PIPESIZE - p_nwrite p mod PIPESIZE) as (Hc1 & Hc2 & Hc3 & Hc4) by lia.
  rewrite gets_bind.
  destruct (copyin_obj_loop_spec pages (ps_pt s) (Z.to_nat c) (ps_k s) (p_data p) (p_nwrite p mod PIPESIZE) (addr + i) c)
    as (r & k & d & Hrun & Hk & Hin & Hout & Hmap & Hr); [done|lia|lia|lia|].
  assert (pkop (copyin_obj (ps_pt s) (p_data p) (p_nwrite p mod PIPESIZE) (addr + i) c) s = Ok (r, d) s) as H1.
  { unfold pkop, zoom, copyin_obj. rewrite Hrun. by destruct s. }
  mstep H1. cbv beta iota. rewrite pmod_bind. set (s1 := set_ps_p (set_p_data d (ps_p s)) s).
  assert (Hext : forall x, inr x (p_nwrite p mod PIPESIZE) c = false -> rd d x = rd (p_data p) x).
  { intros x Hx. apply Hout. destruct (inr_spec x (p_nwrite p mod PIPESIZE) c), (inr_spec x (p_nwrite p mod PIPESIZE) k); try done. lia. }
  destruct Hr as [[-> ->]|(-> & Hkc & Hnone)]; cbn [Z.eqb].
  - rewrite pmod_bind. set (s2 := set_ps_p _ s1).
    pose proof (plen_write (set_p_lock false p) c ltac:(split; [lia|exact Hc3])) as Hlen2.
    destruct (IH s2 (i + c)) as (res & w & s' & Hrun' & W); try done; try lia.
    { split; [exact Hlk|]. split; try done; try apply Hok; try apply u32_range.
      etrans; [apply Z.eq_le_incl; exact Hlen2|]. change (plen (set_p_lock false p)) with (plen p). lia. }
    exists res, (c + w), s'. split; [exact Hrun'|]. destruct W as [W1 W2 W3 W4 W5 W6 W7]. split; try done; try lia.
    + rewrite W6. change (ps_p s2) with (set_p_nwrite (u32 (p_nwrite p + c)) (set_p_data d p)).
      rewrite (queue_write p d c (fun j => ubyte (k_mem (ps_k s)) (ps_pt s) (addr + i + j))); try done; try lia.
      * rewrite <- app_assoc. f_equal. rewrite ubytes_app by lia. f_equal. by rewrite Z.add_assoc.
      * intros j Hj. unfold ubyte. destruct (Hmap j Hj) as [x Hx]. rewrite Hx. by apply Hin.
    + destruct W7 as [(-> & Hd)|[(_ & _ & _ & Hbad)|(-> & Hb & Hfl)]].
      * left. split; [f_equal; lia|]. destruct Hd as [|(j & Hj & Hn')]; [left; lia|right].
        exists (c + j). split; [lia|]. rewrite <- Hn'. simpl. f_equal. lia.
      * exfalso. simpl in Hbad. fold p in Hbad. destruct Hbad as [Hb|Hb]; [by rewrite Hb in Eg1|congruence].
      * right; right. split; [f_equal; lia|]. split; [lia|done].
  - destruct (pipewrite_end_spec pages s1 pi addr n i) as (s' & H2 & W);
      [by split; [|destruct Hok; split]|done|right; exists k; split; [lia|done]|].
    exists (Done i), 0, s'. split; [exact H2|]. destruct W as [W1 W2 W3 W4 W5 W6 W7]. split; try done.
    + rewrite W6. rewrite !ubytes_0, !app_nil_r. apply (queue_keep p d c); [lia|done|done].
Qed.

(** Byte [j] of a queue. *)
Definition qbyte (q : list Z) (j : Z) : Z := default 0 (q !! Z.to_nat j).

Lemma qbyte_queue p j :
  0 <= j < plen p -> qbyte (queue p) j = rd (p_data p) ((p_nread p + j) mod PIPESIZE).
Proof.
  intros Hj. unfold qbyte, queue. rewrite list_lookup_fmap, lookup_seq_lt by lia. simpl. do 2 f_equal. lia.
Qed.

Lemma qbyte_drop q c j : 0 <= c -> 0 <= j -> qbyte (drop (Z.to_nat c) q) j = qbyte q (c + j).
Proof. intros. unfold qbyte. rewrite lookup_drop. do 2 f_equal. lia. Qed.

Lemma queue_read_drop p c :
  0 <= c <= plen p -> c <= PIPESIZE - p_nread p mod PIPESIZE ->
  queue (set_p_nread (u32 (p_nread p + c)) p) = drop (Z.to_nat c) (queue p).
Proof.
  intros Hc Hend. rewrite (queue_read p c Hc Hend). symmetry. apply drop_app_length'.
  by rewrite length_fmap, length_seq.
Qed.

Lemma ustored_ext root m m' dst k sv sv' :
  (forall i, 0 <= i < k -> sv i = sv' i) -> ustored root m m' dst k sv -> ustored root m m' dst k sv'.
Proof. intros H [H1 H2]. split; [|done]. intros i a Hi Ha. rewrite <- H by done. by apply H1. Qed.

(** What a run of [piperead] did: [w] bytes left the pipe, and user memory has
    them; when the copy fails in the middle of a chunk, [e] bytes more were
    stored that stay in the pipe. *)
Record read_pipe (pages : layout) (s : pst) (addr n i w : Z) (s' : pst) : Prop := {
  rp_ok : pipe_ok (ps_p s');
  rp_proc : ps_pt s' = ps_pt s /\ ps_killed s' = ps_killed s;
  rp_open : p_readopen (ps_p s') = p_readopen (ps_p s) /\ p_writeopen (ps_p s') = p_writeopen (ps_p s);
  rp_w : 0 <= w <= Z.max 0 (n - i);
  rp_queue : queue (ps_p s') = drop (Z.to_nat w) (queue (ps_p s)) /\ w <= plen (ps_p s);
  rp_map : forall j, 0 <= j < w -> is_Some (utrans (k_mem (ps_k s)) (ps_pt s) (addr + i + j));
  rp_mem : exists e, 0 <= e /\ ps_k s' = set_k_mem (k_mem (ps_k s')) (ps_k s) /\
    ustored (ps_pt s) (k_mem (ps_k s)) (k_mem (ps_k s')) (addr + i) (w + e) (qbyte (queue (ps_p s))) /\
    (e = 0 \/ exists k, w <= k < n - i /\ utrans (k_mem (ps_k s)) (ps_pt s) (addr + i + k) = None);
  rp_end : n <= i + w \/ plen (ps_p s') = 0 \/
    exists k, w <= k < n - i /\ utrans (k_mem (ps_k s)) (ps_pt s) (addr + i + k) = None }.

Lemma ustored_0 root m dst sv : ustored root m m dst 0 sv.
Proof. split; [lia|done]. Qed.

Lemma piperead_end_run s pi i :
  critical (ps_p s) -> piperead_end pi i s =
    Ok (Done i) (Pst (set_p_lock false (ps_p s)) (ps_k s) (ps_pt s) (ps_killed s) (nwrite_chan pi :: ps_woken s)).
Proof. intros Hc. unfold piperead_end, wakeup, pst_wakeup. by rewrite modify_bind, p_release_bind by exact Hc. Qed.

Lemma piperead_end_spec pages s pi addr n i :
  critical (ps_p s) -> n <= i \/ plen (ps_p s) = 0 ->
  exists s', piperead_end pi i s = Ok (Done i) s' /\ read_pipe pages s addr n i 0 s'.
Proof.
  intros Hc Hend. eexists. split; [by apply piperead_end_run|]. pose proof (plen_range (ps_p s)).
  split; try done; [apply Hc|lia|split; [done|lia]|lia| |].
  - exists 0. split; [done|]. split; [by destruct s as [? []]|]. split; [apply ustored_0|by left].
  - rewrite Z.add_0_r. simpl. tauto.
Qed.

Lemma piperead_loop_spec pages pi addr n fuel : forall s i,
  critical (ps_p s) -> user_ok (k_mem (ps_k s)) pages (ps_pt s) -> 0 <= addr -> 0 <= i ->
  (Z.to_nat (n - i) <= fuel)%nat ->
  exists w s', piperead_loop fuel pi addr n i s = Ok (Done (i + w)) s' /\ read_pipe pages s addr n i w s'.
Proof.
  assert (forall s i, critical (ps_p s) -> n <= i \/ plen (ps_p s) = 0 ->
    exists w s', piperead_end pi i s = Ok (Done (i + w)) s' /\ read_pipe pages s addr n i w s') as Hstop.
  { intros s i Hc Hend. destruct (piperead_end_spec pages s pi addr n i Hc Hend) as (s' & H1 & H2).
    exists 0, s'. by rewrite Z.add_0_r. }
  induction fuel as [|fuel IH]; intros s i Hc Hu Ha Hi Hf; cbn [piperead_loop].
  { destruct (Z.ltb_spec i n); [lia|]. apply Hstop; [done|lia]. }
  destruct (Z.ltb_spec i n) as [Hlt|]; [|apply Hstop; [done|lia]].
  rewrite gets_bind. pose proof Hc as [Hlk Hok]. set (p := ps_p s) in *.
  change (u32 (p_nwrite p - p_nread p)) with (plen p).
  pose proof (po_len _ Hok) as Hle. change (plen (set_p_lock false p)) with (plen p) in Hle.
  pose proof (plen_range p) as Hpl. assert (PIPESIZE = 512) as HP by done. cbv zeta.
  rewrite (i32_small (plen p)) by lia. destruct (Z.eqb_spec (plen p) 0) as [Ez|Hnz]; [apply Hstop; [done|by right]|].
  pose proof (Z.mod_pos_bound (p_nread p) PIPESIZE ltac:(lia)) as Hmod.
  set (c := Z.min (Z.min (plen p) (n - i)) (PIPESIZE - p_nread p mod PIPESIZE)).
  assert (0 < c /\ c <= n - i /\ c <= plen p /\ c <= PIPESIZE - p_nread p mod PIPESIZE) as (Hc1 & Hc2 & Hc3 & Hc4) by lia.
  assert (Hq : forall j, 0 <= j < c -> rd (p_data p) (p_nread p mod PIPESIZE + j) = qbyte (queue p) j).
  { intros j Hj. rewrite qbyte_queue, (ring_chunk _ c) by lia. done. }
  rewrite gets_bind.
  destruct (copyout_obj_spec (ps_pt s) pages (ps_k s) (addr + i) (p_data p) (p_nread p mod PIPESIZE) c Hu)
    as (r & k & m1 & Hrun & Hst & Hk & Hr); [lia|lia|].
  set (s1 := set_ps_k (set_k_mem m1 (ps_k s)) s).
  assert (pkop (copyout_obj (ps_pt s) (addr + i) (p_data p) (p_nread p mod PIPESIZE) c) s = Ok r s1) as H1
    by (unfold pkop, zoom; by rewrite Hrun).
  mstep H1. destruct (ustored_frame _ _ _ _ _ _ _ Hu Hst) as [Hu1 Ht1].
  destruct Hr as [(-> & -> & Hmap)|(-> & Hkc & Hnone & _)]; cbn [Z.eqb Z.opp].
  - rewrite pmod_bind. set (s2 := set_ps_p _ s1).
    pose proof (plen_read (set_p_lock false p) c ltac:(split; [lia|exact Hc3])) as Hlen2.
    pose proof (queue_read_drop p c ltac:(lia) Hc4) as Hqd.
    destruct (IH s2 (i + c)) as (w & s' & Hrun' & W); try done; try lia.
    { split; [exact Hlk|]. split; try done; try apply Hok; try apply u32_range.
      etrans; [apply Z.eq_le_incl; exact Hlen2|]. change (plen (set_p_lock false p)) with (plen p). lia. }
    exists (c + w), s'. rewrite Z.add_assoc. split; [exact Hrun'|].
    destruct W as [W1 W2 W3 W4 [W5 W6] W7 (e & He & Ek & Hst2 & Hf2) W8].
    change (queue (ps_p s2)) with (queue (set_p_nread (u32 (p_nread p + c)) p)) in W5, Hst2. rewrite Hqd in W5, Hst2.
    split; try done; try lia.
    + split; [rewrite W5, drop_drop; f_equal; lia|].
      change (plen (ps_p s2)) with (plen (set_p_nread (u32 (p_nread p + c)) p)) in W6. fold p. rewrite plen_read in W6 by lia. lia.
    + intros j Hj. destruct (decide (j < c)); [apply Hmap; lia|].
      specialize (W7 (j - c) ltac:(lia)). simpl in W7. rewrite Ht1 in W7.
      by replace (addr + i + j) with (addr + (i + c) + (j - c)) by lia.
    + exists e. split; [done|]. split; [by rewrite Ek|]. split.
      2: { destruct Hf2 as [|(j & Hj & Hn')]; [by left|right]. exists (c + j). split; [lia|].
           rewrite Ht1 in Hn'. rewrite <- Hn'. f_equal. lia. }
      rewrite <- Z.add_assoc. eapply (ustored_app _ pages _ m1); [exact Hu|lia|lia| |].
      * eapply ustored_ext; [exact Hq|done].
      * rewrite Z.add_assoc in Hst2. eapply ustored_ext; [|exact Hst2]. intros j Hj. apply qbyte_drop; lia.
    + destruct W8 as [|[|(j & Hj & Hn')]]; [left; lia|by right; left|right; right]. exists (c + j). split; [lia|].
      rewrite Ht1 in Hn'. rewrite <- Hn'. f_equal. lia.
  - exists 0. eexists. rewrite Z.add_0_r. split; [by apply piperead_end_run|].
    assert (exists k, 0 <= k < n - i /\ utrans (k_mem (ps_k s)) (ps_pt s) (addr + i + k) = None) as Hno
      by (exists k; split; [lia|done]).
    split; try done; [lia|split; [done|exact (proj1 Hpl)]|lia| |by right; right].
    exists k. split; [done|]. split; [done|]. split; [|by right]. eapply ustored_ext; [|exact Hst].
    intros j Hj. apply Hq. lia.
Qed.

(** ** Any number of processes at the two ends

    A step is one run of an operation by some process, with its own memory
    and page table, from the moment it takes the lock to its return or to the
    moment it goes to sleep. *)

(** The bytes a run that started at [i] moved. *)
Definition moved (i : Z) (res : io) : Z :=
  match res with Done r => if r <? 0 then 0 else r - i | Blocked j => j - i end.

Inductive pstep : pipe -> list Z -> list Z -> pipe -> Prop :=
| step_write pages s pi addr n i res s' :
    user_ok (k_mem (ps_k s)) pages (ps_pt s) -> 0 <= addr -> 0 <= i -> n < 2147483648 ->
    pipewrite_from pi addr n i s = Ok res s' ->
    pstep (ps_p s) (ubytes (k_mem (ps_k s)) (ps_pt s) (addr + i) (moved i res)) [] (ps_p s')
| step_read pages s pi addr n res s' :
    user_ok (k_mem (ps_k s)) pages (ps_pt s) -> 0 <= addr ->
    piperead pi addr n s = Ok res s' ->
    pstep (ps_p s) [] (ubytes (k_mem (ps_k s')) (ps_pt s') addr (moved 0 res)) (ps_p s').

(** [psteps p ins outs p']: [ins] and [outs] are the bytes that went in and
    came out. *)
Inductive psteps : pipe -> list Z -> list Z -> pipe -> Prop :=
| psteps_refl p : psteps p [] [] p
| psteps_step p bs cs p1 ins outs p' :
    pstep p bs cs p1 -> psteps p1 ins outs p' -> psteps p (bs ++ ins) (cs ++ outs) p'.

Lemma p_acquire_bind {A} (k : unit -> M pst A) s :
  p_lock (ps_p s) = false -> (p_acquire ≫= k) s = k tt (set_ps_p (set_p_lock true (ps_p s)) s).
Proof. intros H. unfold p_acquire, zoom, acquire, mbind, M_bind. by rewrite H. Qed.

Lemma relock_pipe p : p_lock p = false -> set_p_lock false (set_p_lock true p) = p.
Proof. destruct p. simpl. by intros ->. Qed.

Lemma lock_critical p : pipe_ok p -> critical (set_p_lock true p).
Proof. intros [H1 H2 H3 H4]. split; [done|]. by split. Qed.

(** One run of [pipewrite]. *)
Lemma pipewrite_from_spec pages s pi addr n i :
  pipe_ok (ps_p s) -> user_ok (k_mem (ps_k s)) pages (ps_pt s) -> 0 <= addr -> 0 <= i -> n < 2147483648 ->
  exists res w s', pipewrite_from pi addr n i s = Ok res s' /\ w = moved i res /\
    wrote_pipe pages s addr n i w res s'.
Proof.
  intros Hok Hu Ha Hi Hn. unfold pipewrite_from. rewrite p_acquire_bind by apply Hok. set (s0 := set_ps_p _ s).
  destruct (pipewrite_loop_spec pages pi addr n (Z.to_nat (n - i)) s0 i) as (res & w & s' & Hrun & W); try done.
  { by apply lock_critical. }
  exists res, w, s'. split; [exact Hrun|]. pose proof (wp_w _ _ _ _ _ _ _ _ W) as Hw. split.
  - destruct (wp_res _ _ _ _ _ _ _ _ W) as [[-> _]|[(-> & _ & -> & _)|(-> & _)]]; simpl; try lia.
    destruct (Z.ltb_spec (i + w) 0); lia.
  - by destruct W.
Qed.

(** One run of [piperead]. *)
Lemma piperead_spec pages s pi addr n :
  pipe_ok (ps_p s) -> user_ok (k_mem (ps_k s)) pages (ps_pt s) -> 0 <= addr ->
  exists res s', piperead pi addr n s = Ok res s' /\ pipe_ok (ps_p s') /\
    ps_pt s' = ps_pt s /\ 0 <= moved 0 res <= Z.max 0 n /\
    queue (ps_p s) = ubytes (k_mem (ps_k s')) (ps_pt s) addr (moved 0 res) ++ queue (ps_p s').
Proof.
  intros Hok Hu Ha. unfold piperead. rewrite p_acquire_bind by apply Hok. rewrite gets_bind.
  set (s0 := set_ps_p _ s). pose proof (lock_critical _ Hok) as Hc.
  assert (set_p_lock false (ps_p s0) = ps_p s) as E0 by (apply relock_pipe, Hok).
  destruct ((p_nread (ps_p s0) =? p_nwrite (ps_p s0)) && p_writeopen (ps_p s0)).
  { rewrite gets_bind. destruct (ps_killed s0); rewrite p_release_bind by exact Hc; rewrite E0;
      eexists _, _; (split; [done|]); simpl; (split; [done|]); (split; [done|]); (split; [lia|]); done. }
  destruct (piperead_loop_spec pages pi addr n (Z.to_nat n) s0 0) as (w & s' & Hrun & W); try done; try lia.
  rewrite Z.add_0_l in Hrun. exists (Done w), s'. split; [exact Hrun|].
  destruct W as [W1 [W2 _] W3 W4 [W5 W6] W7 (e & He & Ek & Hst & _) W8]. rewrite Z.add_0_r in *.
  assert (moved 0 (Done w) = w) as -> by (simpl; destruct (Z.ltb_spec w 0); lia).
  split; [done|]. split; [done|]. split; [lia|].
  change (queue (ps_p s0)) with (queue (ps_p s)) in *. change (plen (ps_p s0)) with (plen (ps_p s)) in *.
  change (ps_pt s0) with (ps_pt s) in *. change (ps_k s0) with (ps_k s) in *.
  rewrite W5, <- (take_drop (Z.to_nat w) (queue (ps_p s))) at 1. f_equal.
  destruct (ustored_frame _ _ _ _ _ _ _ Hu Hst) as [_ Ht]. destruct Hst as [Hs _].
  pose proof (length_queue (ps_p s)) as Hlen.
  apply list_eq_same_length with (n := Z.to_nat w).
  { unfold ubytes. by rewrite length_fmap, length_seq. }
  { rewrite length_take. lia. }
  intros j x y Hj Hx Hy. rewrite lookup_take_lt in Hx by done.
  unfold ubytes in Hy. rewrite list_lookup_fmap, lookup_seq_lt in Hy by done. simpl in Hy. injection Hy as <-.
  unfold ubyte. rewrite Ht. destruct (W7 (Z.of_nat j) ltac:(lia)) as [a Hb]. rewrite Hb.
  rewrite (Hs (Z.of_nat j) a) by (done || lia). unfold qbyte. by rewrite Nat2Z.id, Hx.
Qed.

(** C7: a pipe is a bounded first-in first-out channel.  Whatever the number of
    readers and writers and however their runs follow each other, blocked and
    resumed ones included, the bytes that came out followed by the bytes in
    the pipe are the bytes that were in it followed by the bytes that went
    in, and there are never more than PIPESIZE in it; also when the 32-bit
    counters wrap around. *)
Theorem pipe_fifo p ins outs p' :
  pipe_ok p -> psteps p ins outs p' ->
  pipe_ok p' /\ queue p ++ ins = outs ++ queue p' /\ (length (queue p') <= 512)%nat.
Proof.
  intros Hok H. assert (pipe_ok p' /\ queue p ++ ins = outs ++ queue p') as [Hok' E].
  { induction H as [p|p bs cs p1 ins outs p' Hs _ IH]; [by rewrite app_nil_r|].
    destruct Hs as [pages s pi addr n i res s' Hu Ha Hi Hn Hrun|pages s pi addr n res s' Hu Ha Hrun].
    - destruct (pipewrite_from_spec pages s pi addr n i) as (res1 & w & s1 & Hrun1 & -> & W); try done.
      rewrite Hrun in Hrun1. injection Hrun1 as <- <-. destruct IH as [Hok1 E1]; [apply W|]. split; [done|].
      rewrite (wp_queue _ _ _ _ _ _ _ _ W) in E1. by rewrite app_assoc.
    - destruct (piperead_spec pages s pi addr n) as (res1 & s1 & Hrun1 & Hok1 & Ept & _ & Eq); try done.
      rewrite Hrun in Hrun1. injection Hrun1 as <- <-. destruct (IH Hok1) as [Hok2 E2]. split; [done|].
      rewrite Eq, Ept. simpl. by rewrite <- !app_assoc, E2. }
  split; [done|]. split; [done|]. pose proof (length_queue p'). pose proof (po_len _ Hok') as Hl. unfold PIPESIZE in Hl. lia.
Qed.

(** a run of [pipewrite] from byte [i] on returns: with all [n] bytes in
    the pipe; with fewer when the process has no byte at the next address;
    with -1 when the reader is gone or the process was killed; or it sleeps,
    and then only because the pipe is full.  In every case the bytes up to the
    one it stopped at are at the end of the queue, in order, the process's
    memory is untouched, and the pipe is consistent and unlocked. *)
Theorem pipewrite_correct pages s pi addr n i :
  pipe_ok (ps_p s) -> user_ok (k_mem (ps_k s)) pages (ps_pt s) -> 0 <= addr -> 0 <= i -> n < 2147483648 ->
  exists res s', pipewrite_from pi addr n i s = Ok res s' /\
    wrote_pipe pages s addr n i (moved i res) res s'.
Proof.
  intros Hok Hu Ha Hi Hn. destruct (pipewrite_from_spec pages s pi addr n i) as (res & w & s' & Hrun & -> & W); try done.
  by exists res, s'.
Qed.

Lemma pipe_init_ok : pipe_ok pipe_init.
Proof. split; done. Qed.

Lemma pipe_fifo_witness :
  exists ins outs p', psteps pipe_init ins outs p' /\ ins = outs ++ queue p'.
Proof.
  destruct example_space as (k & pages & root & pa & Hu & _). set (s := Pst pipe_init k root false []).
  destruct (pipewrite_from_spec pages s 0 0 600 0) as (res & w & s1 & Hrun & _ & W); [apply pipe_init_ok|exact Hu|lia|lia|lia|].
  destruct W as [W1 W2 [W3 _] _ _ _ _].
  destruct (piperead_spec pages s1 0 100 20) as (res2 & s2 & Hrun2 & _); [done|by rewrite W2, W3|lia|].
  pose proof (step_write pages s 0 0 600 0 res s1 Hu ltac:(lia) ltac:(lia) ltac:(lia) Hrun) as Hw.
  pose proof (step_read pages s1 0 100 20 res2 s2 ltac:(by rewrite W2, W3) ltac:(lia) Hrun2) as Hr.
  pose proof (psteps_step _ _ _ _ _ _ _ Hw (psteps_step _ _ _ _ _ _ _ Hr (psteps_refl _))) as Hsteps.
  eexists _, _, (ps_p s2). split; [exact Hsteps|]. exact (proj1 (proj2 (pipe_fifo _ _ _ _ pipe_init_ok Hsteps))).
Defined.

Lemma pipewrite_correct_witness :
  exists k root res s', pipewrite_from 0 0 3 0 (Pst pipe_init k root false []) = Ok res s' /\ pipe_ok (ps_p s').
Proof.
  destruct example_space as (k & pages & root & pa & Hu & _).
  destruct (pipewrite_correct pages (Pst pipe_init k root false []) 0 0 3 0) as (res & s' & Hrun & W);
    [apply pipe_init_ok|exact Hu|lia|lia|lia|]. exists k, root, res, s'. split; [exact Hrun|apply W].
Defined.
