(* ===== verification/Kernel.v ===== *)
(** The state of the kernel above the file system: open files
    (src/src/kernel/file.c), pipes, ring buffers (src/src/kernel/ringbuf.zig)
    and the process table (src/src/kernel/proc.c, proc.h), as one CPU sees it
    that runs process [cur].

    A pointer to an entry of a static array is its index; the null pointer is
    [None].  The pages a structure hangs from (trap frame, page table, pipe)
    keep their addresses.  [kn_cpu] is the CPU's [struct cpu] and interrupt
    switch of Spinlock.v; the locks inside the file system, the pipes and the
    allocator are taken and given back inside one operation of theirs and do
    not show in [noff].

    A thread that leaves the CPU has outcome [Sleep], with its process state
    set and its [p->lock] held, as it enters the scheduler. *)

From S2P Require Import Prelude Ring Spinlock Mem Sleeplock Strings Kalloc Vm Bio BlockLayer Fs Pipe.

Definition NOFILE : Z := 16.
Definition NFILE : Z := 100.
Definition NDEV : Z := 10.
Definition MAXARG : Z := 32.

(** ** Open files *)

Inductive ftype := FD_NONE | FD_PIPE | FD_INODE | FD_DEVICE.

Record file := File {
  fl_type : ftype; fl_ref : Z; fl_readable : bool; fl_writable : bool;
  fl_pipe : Z; fl_ip : nat; fl_off : Z; fl_major : Z }.

#[export] Instance file_inhabited : Inhabited file := populate (File FD_NONE 0 false false 0 0 0 0).

Definition set_fl_type v f := File v (fl_ref f) (fl_readable f) (fl_writable f) (fl_pipe f) (fl_ip f) (fl_off f) (fl_major f).
Definition set_fl_ref v f := File (fl_type f) v (fl_readable f) (fl_writable f) (fl_pipe f) (fl_ip f) (fl_off f) (fl_major f).
Definition set_fl_mode r w f := File (fl_type f) (fl_ref f) r w (fl_pipe f) (fl_ip f) (fl_off f) (fl_major f).
Definition set_fl_pipe v f := File (fl_type f) (fl_ref f) (fl_readable f) (fl_writable f) v (fl_ip f) (fl_off f) (fl_major f).
Definition set_fl_ip v f := File (fl_type f) (fl_ref f) (fl_readable f) (fl_writable f) (fl_pipe f) v (fl_off f) (fl_major f).
Definition set_fl_off v f := File (fl_type f) (fl_ref f) (fl_readable f) (fl_writable f) (fl_pipe f) (fl_ip f) v (fl_major f).
Definition set_fl_major v f := File (fl_type f) (fl_ref f) (fl_readable f) (fl_writable f) (fl_pipe f) (fl_ip f) (fl_off f) v.

(** ** Ring buffers *)

Record owner := Owner { ow_proc : option nat; ow_vbuf : option Z; ow_vbook : option Z }.
Definition no_owner : owner := Owner None None None.

Record ringbuf := Ringbuf {
  rb_refcount : Z; rb_owner0 : owner; rb_owner1 : owner; rb_name : list Z;
  rb_pages : list (option Z); rb_book : option Z }.

(** [.{}] *)
Definition rb_empty : ringbuf := Ringbuf 0 no_owner no_owner [] (replicate 16 None) None.
#[export] Instance ringbuf_inhabited : Inhabited ringbuf := populate rb_empty.

(** ** Processes *)

Inductive procstate := UNUSED | USED | SLEEPING | RUNNABLE | RUNNING | ZOMBIE.

#[export] Instance procstate_eq_dec : EqDecision procstate.
Proof. solve_decision. Defined.

Record proc := Proc {
  pr_lock : bool; pr_state : procstate; pr_chan : option chan; pr_killed : bool; pr_xstate : Z; pr_pid : Z;
  pr_parent : option nat; pr_kstack : Z; pr_sz : Z; pr_pagetable : Z; pr_top : Z; pr_trapframe : Z;
  pr_context : Z * Z; pr_ofile : gmap Z nat; pr_cwd : option nat; pr_name : mem; pr_rings : Z }.

#[export] Instance proc_inhabited : Inhabited proc :=
  populate (Proc false UNUSED None false 0 0 None 0 0 0 0 0 (0, 0) ∅ None ∅ 0).

Definition set_pr_lock v p := Proc v (pr_state p) (pr_chan p) (pr_killed p) (pr_xstate p) (pr_pid p) (pr_parent p) (pr_kstack p) (pr_sz p) (pr_pagetable p) (pr_top p) (pr_trapframe p) (pr_context p) (pr_ofile p) (pr_cwd p) (pr_name p) (pr_rings p).
Definition set_pr_state v p := Proc (pr_lock p) v (pr_chan p) (pr_killed p) (pr_xstate p) (pr_pid p) (pr_parent p) (pr_kstack p) (pr_sz p) (pr_pagetable p) (pr_top p) (pr_trapframe p) (pr_context p) (pr_ofile p) (pr_cwd p) (pr_name p) (pr_rings p).
Definition set_pr_chan v p := Proc (pr_lock p) (pr_state p) v (pr_killed p) (pr_xstate p) (pr_pid p) (pr_parent p) (pr_kstack p) (pr_sz p) (pr_pagetable p) (pr_top p) (pr_trapframe p) (pr_context p) (pr_ofile p) (pr_cwd p) (pr_name p) (pr_rings p).
Definition set_pr_killed v p := Proc (pr_lock p) (pr_state p) (pr_chan p) v (pr_xstate p) (pr_pid p) (pr_parent p) (pr_kstack p) (pr_sz p) (pr_pagetable p) (pr_top p) (pr_trapframe p) (pr_context p) (pr_ofile p) (pr_cwd p) (pr_name p) (pr_rings p).
Definition set_pr_xstate v p := Proc (pr_lock p) (pr_state p) (pr_chan p) (pr_killed p) v (pr_pid p) (pr_parent p) (pr_kstack p) (pr_sz p) (pr_pagetable p) (pr_top p) (pr_trapframe p) (pr_context p) (pr_ofile p) (pr_cwd p) (pr_name p) (pr_rings p).
Definition set_pr_pid v p := Proc (pr_lock p) (pr_state p) (pr_chan p) (pr_killed p) (pr_xstate p) v (pr_parent p) (pr_kstack p) (pr_sz p) (pr_pagetable p) (pr_top p) (pr_trapframe p) (pr_context p) (pr_ofile p) (pr_cwd p) (pr_name p) (pr_rings p).
Definition set_pr_parent v p := Proc (pr_lock p) (pr_state p) (pr_chan p) (pr_killed p) (pr_xstate p) (pr_pid p) v (pr_kstack p) (pr_sz p) (pr_pagetable p) (pr_top p) (pr_trapframe p) (pr_context p) (pr_ofile p) (pr_cwd p) (pr_name p) (pr_rings p).
Definition set_pr_kstack v p := Proc (pr_lock p) (pr_state p) (pr_chan p) (pr_killed p) (pr_xstate p) (pr_pid p) (pr_parent p) v (pr_sz p) (pr_pagetable p) (pr_top p) (pr_trapframe p) (pr_context p) (pr_ofile p) (pr_cwd p) (pr_name p) (pr_rings p).
Definition set_pr_sz v p := Proc (pr_lock p) (pr_state p) (pr_chan p) (pr_killed p) (pr_xstate p) (pr_pid p) (pr_parent p) (pr_kstack p) v (pr_pagetable p) (pr_top p) (pr_trapframe p) (pr_context p) (pr_ofile p) (pr_cwd p) (pr_name p) (pr_rings p).
Definition set_pr_pagetable v p := Proc (pr_lock p) (pr_state p) (pr_chan p) (pr_killed p) (pr_xstate p) (pr_pid p) (pr_parent p) (pr_kstack p) (pr_sz p) v (pr_top p) (pr_trapframe p) (pr_context p) (pr_ofile p) (pr_cwd p) (pr_name p) (pr_rings p).
Definition set_pr_top v p := Proc (pr_lock p) (pr_state p) (pr_chan p) (pr_killed p) (pr_xstate p) (pr_pid p) (pr_parent p) (pr_kstack p) (pr_sz p) (pr_pagetable p) v (pr_trapframe p) (pr_context p) (pr_ofile p) (pr_cwd p) (pr_name p) (pr_rings p).
Definition set_pr_trapframe v p := Proc (pr_lock p) (pr_state p) (pr_chan p) (pr_killed p) (pr_xstate p) (pr_pid p) (pr_parent p) (pr_kstack p) (pr_sz p) (pr_pagetable p) (pr_top p) v (pr_context p) (pr_ofile p) (pr_cwd p) (pr_name p) (pr_rings p).
Definition set_pr_context v p := Proc (pr_lock p) (pr_state p) (pr_chan p) (pr_killed p) (pr_xstate p) (pr_pid p) (pr_parent p) (pr_kstack p) (pr_sz p) (pr_pagetable p) (pr_top p) (pr_trapframe p) v (pr_ofile p) (pr_cwd p) (pr_name p) (pr_rings p).
Definition set_pr_ofile v p := Proc (pr_lock p) (pr_state p) (pr_chan p) (pr_killed p) (pr_xstate p) (pr_pid p) (pr_parent p) (pr_kstack p) (pr_sz p) (pr_pagetable p) (pr_top p) (pr_trapframe p) (pr_context p) v (pr_cwd p) (pr_name p) (pr_rings p).
Definition set_pr_cwd v p := Proc (pr_lock p) (pr_state p) (pr_chan p) (pr_killed p) (pr_xstate p) (pr_pid p) (pr_parent p) (pr_kstack p) (pr_sz p) (pr_pagetable p) (pr_top p) (pr_trapframe p) (pr_context p) (pr_ofile p) v (pr_name p) (pr_rings p).
Definition set_pr_name v p := Proc (pr_lock p) (pr_state p) (pr_chan p) (pr_killed p) (pr_xstate p) (pr_pid p) (pr_parent p) (pr_kstack p) (pr_sz p) (pr_pagetable p) (pr_top p) (pr_trapframe p) (pr_context p) (pr_ofile p) (pr_cwd p) v (pr_rings p).
Definition set_pr_rings v p := Proc (pr_lock p) (pr_state p) (pr_chan p) (pr_killed p) (pr_xstate p) (pr_pid p) (pr_parent p) (pr_kstack p) (pr_sz p) (pr_pagetable p) (pr_top p) (pr_trapframe p) (pr_context p) (pr_ofile p) (pr_cwd p) (pr_name p) v.

(** ** The kernel *)

(** The registers of the CPU that trap handling uses, [sstatus] apart, which
    is in [cpu]. *)
Record csr := Csr { r_sepc : Z; r_scause : Z; r_stval : Z; r_stvec : Z; r_satp : Z; r_tp : Z; r_sip : Z }.

Definition w_sepc v c := Csr v (r_scause c) (r_stval c) (r_stvec c) (r_satp c) (r_tp c) (r_sip c).
Definition w_stvec v c := Csr (r_sepc c) (r_scause c) (r_stval c) v (r_satp c) (r_tp c) (r_sip c).
Definition w_sip v c := Csr (r_sepc c) (r_scause c) (r_stval c) (r_stvec c) (r_satp c) (r_tp c) v.

Record kern (L : Type) := Kern {
  kn_fs : fst L; kn_cpu : cpu; kn_csr : csr; kn_cur : option nat;
  kn_ft_lock : bool; kn_file : gmap nat file; kn_pipe : gmap Z pipe;
  kn_rb_lock : bool; kn_rings : gmap nat ringbuf;
  kn_proc : gmap nat proc; kn_nextpid : Z; kn_pid_lock : bool; kn_wait_lock : bool; kn_initproc : option nat;
  kn_first : bool; kn_ticks : Z; kn_ticks_lock : bool }.
Arguments Kern {L}. Arguments kn_fs {L}. Arguments kn_cpu {L}. Arguments kn_csr {L}. Arguments kn_cur {L}. Arguments kn_ft_lock {L}. Arguments kn_file {L}. Arguments kn_pipe {L}. Arguments kn_rb_lock {L}. Arguments kn_rings {L}. Arguments kn_proc {L}. Arguments kn_nextpid {L}. Arguments kn_pid_lock {L}. Arguments kn_wait_lock {L}. Arguments kn_initproc {L}. Arguments kn_first {L}. Arguments kn_ticks {L}. Arguments kn_ticks_lock {L}.

Section state.
Context {L : Type}.

Definition set_kn_fs v (s : kern L) : kern L := Kern v (kn_cpu s) (kn_csr s) (kn_cur s) (kn_ft_lock s) (kn_file s) (kn_pipe s) (kn_rb_lock s) (kn_rings s) (kn_proc s) (kn_nextpid s) (kn_pid_lock s) (kn_wait_lock s) (kn_initproc s) (kn_first s) (kn_ticks s) (kn_ticks_lock s).
Definition set_kn_cpu v (s : kern L) : kern L := Kern (kn_fs s) v (kn_csr s) (kn_cur s) (kn_ft_lock s) (kn_file s) (kn_pipe s) (kn_rb_lock s) (kn_rings s) (kn_proc s) (kn_nextpid s) (kn_pid_lock s) (kn_wait_lock s) (kn_initproc s) (kn_first s) (kn_ticks s) (kn_ticks_lock s).
Definition set_kn_csr v (s : kern L) : kern L := Kern (kn_fs s) (kn_cpu s) v (kn_cur s) (kn_ft_lock s) (kn_file s) (kn_pipe s) (kn_rb_lock s) (kn_rings s) (kn_proc s) (kn_nextpid s) (kn_pid_lock s) (kn_wait_lock s) (kn_initproc s) (kn_first s) (kn_ticks s) (kn_ticks_lock s).
Definition set_kn_cur v (s : kern L) : kern L := Kern (kn_fs s) (kn_cpu s) (kn_csr s) v (kn_ft_lock s) (kn_file s) (kn_pipe s) (kn_rb_lock s) (kn_rings s) (kn_proc s) (kn_nextpid s) (kn_pid_lock s) (kn_wait_lock s) (kn_initproc s) (kn_first s) (kn_ticks s) (kn_ticks_lock s).
Definition set_kn_ft_lock v (s : kern L) : kern L := Kern (kn_fs s) (kn_cpu s) (kn_csr s) (kn_cur s) v (kn_file s) (kn_pipe s) (kn_rb_lock s) (kn_rings s) (kn_proc s) (kn_nextpid s) (kn_pid_lock s) (kn_wait_lock s) (kn_initproc s) (kn_first s) (kn_ticks s) (kn_ticks_lock s).
Definition set_kn_file v (s : kern L) : kern L := Kern (kn_fs s) (kn_cpu s) (kn_csr s) (kn_cur s) (kn_ft_lock s) v (kn_pipe s) (kn_rb_lock s) (kn_rings s) (kn_proc s) (kn_nextpid s) (kn_pid_lock s) (kn_wait_lock s) (kn_initproc s) (kn_first s) (kn_ticks s) (kn_ticks_lock s).
Definition set_kn_pipe v (s : kern L) : kern L := Kern (kn_fs s) (kn_cpu s) (kn_csr s) (kn_cur s) (kn_ft_lock s) (kn_file s) v (kn_rb_lock s) (kn_rings s) (kn_proc s) (kn_nextpid s) (kn_pid_lock s) (kn_wait_lock s) (kn_initproc s) (kn_first s) (kn_ticks s) (kn_ticks_lock s).
Definition set_kn_rb_lock v (s : kern L) : kern L := Kern (kn_fs s) (kn_cpu s) (kn_csr s) (kn_cur s) (kn_ft_lock s) (kn_file s) (kn_pipe s) v (kn_rings s) (kn_proc s) (kn_nextpid s) (kn_pid_lock s) (kn_wait_lock s) (kn_initproc s) (kn_first s) (kn_ticks s) (kn_ticks_lock s).
Definition set_kn_rings v (s : kern L) : kern L := Kern (kn_fs s) (kn_cpu s) (kn_csr s) (kn_cur s) (kn_ft_lock s) (kn_file s) (kn_pipe s) (kn_rb_lock s) v (kn_proc s) (kn_nextpid s) (kn_pid_lock s) (kn_wait_lock s) (kn_initproc s) (kn_first s) (kn_ticks s) (kn_ticks_lock s).
Definition set_kn_proc v (s : kern L) : kern L := Kern (kn_fs s) (kn_cpu s) (kn_csr s) (kn_cur s) (kn_ft_lock s) (kn_file s) (kn_pipe s) (kn_rb_lock s) (kn_rings s) v (kn_nextpid s) (kn_pid_lock s) (kn_wait_lock s) (kn_initproc s) (kn_first s) (kn_ticks s) (kn_ticks_lock s).
Definition set_kn_nextpid v (s : kern L) : kern L := Kern (kn_fs s) (kn_cpu s) (kn_csr s) (kn_cur s) (kn_ft_lock s) (kn_file s) (kn_pipe s) (kn_rb_lock s) (kn_rings s) (kn_proc s) v (kn_pid_lock s) (kn_wait_lock s) (kn_initproc s) (kn_first s) (kn_ticks s) (kn_ticks_lock s).
Definition set_kn_pid_lock v (s : kern L) : kern L := Kern (kn_fs s) (kn_cpu s) (kn_csr s) (kn_cur s) (kn_ft_lock s) (kn_file s) (kn_pipe s) (kn_rb_lock s) (kn_rings s) (kn_proc s) (kn_nextpid s) v (kn_wait_lock s) (kn_initproc s) (kn_first s) (kn_ticks s) (kn_ticks_lock s).
Definition set_kn_wait_lock v (s : kern L) : kern L := Kern (kn_fs s) (kn_cpu s) (kn_csr s) (kn_cur s) (kn_ft_lock s) (kn_file s) (kn_pipe s) (kn_rb_lock s) (kn_rings s) (kn_proc s) (kn_nextpid s) (kn_pid_lock s) v (kn_initproc s) (kn_first s) (kn_ticks s) (kn_ticks_lock s).
Definition set_kn_initproc v (s : kern L) : kern L := Kern (kn_fs s) (kn_cpu s) (kn_csr s) (kn_cur s) (kn_ft_lock s) (kn_file s) (kn_pipe s) (kn_rb_lock s) (kn_rings s) (kn_proc s) (kn_nextpid s) (kn_pid_lock s) (kn_wait_lock s) v (kn_first s) (kn_ticks s) (kn_ticks_lock s).
Definition set_kn_first v (s : kern L) : kern L := Kern (kn_fs s) (kn_cpu s) (kn_csr s) (kn_cur s) (kn_ft_lock s) (kn_file s) (kn_pipe s) (kn_rb_lock s) (kn_rings s) (kn_proc s) (kn_nextpid s) (kn_pid_lock s) (kn_wait_lock s) (kn_initproc s) v (kn_ticks s) (kn_ticks_lock s).
Definition set_kn_ticks v (s : kern L) : kern L := Kern (kn_fs s) (kn_cpu s) (kn_csr s) (kn_cur s) (kn_ft_lock s) (kn_file s) (kn_pipe s) (kn_rb_lock s) (kn_rings s) (kn_proc s) (kn_nextpid s) (kn_pid_lock s) (kn_wait_lock s) (kn_initproc s) (kn_first s) v (kn_ticks_lock s).
Definition set_kn_ticks_lock v (s : kern L) : kern L := Kern (kn_fs s) (kn_cpu s) (kn_csr s) (kn_cur s) (kn_ft_lock s) (kn_file s) (kn_pipe s) (kn_rb_lock s) (kn_rings s) (kn_proc s) (kn_nextpid s) (kn_pid_lock s) (kn_wait_lock s) (kn_initproc s) (kn_first s) (kn_ticks s) v.
End state.

Section kernel.
Context {L : Type} `{BlockLayer L}.
Abbreviation K := (M (kern L)).

(** *** Locks and the CPU *)

(** The code of Spinlock.v that uses nothing but this CPU. *)
Definition cpu_op {A} (c : M machine A) : K A :=
  zoom (fun s => Machine (fun _ => kn_cpu s) (fun _ => Lk false None))
       (fun m s => set_kn_cpu (m_cpu m 0%nat) s) c.

Definition kacquire (get : kern L -> bool) (set : bool -> kern L -> kern L) : K unit :=
  cpu_op (push_off 0);;
  acquire get set.

Definition krelease (get : kern L -> bool) (set : bool -> kern L -> kern L) : K unit :=
  release get set;;
  cpu_op (pop_off 0).

Definition getp (i : nat) (s : kern L) : proc := kn_proc s !!! i.
Definition updp (i : nat) (f : proc -> proc) (s : kern L) : kern L :=
  set_kn_proc (<[i := f (getp i s)]> (kn_proc s)) s.
Definition getfile (f : nat) (s : kern L) : file := kn_file s !!! f.
Definition updfile (f : nat) (g : file -> file) (s : kern L) : kern L :=
  set_kn_file (<[f := g (getfile f s)]> (kn_file s)) s.
Definition getring (r : nat) (s : kern L) : ringbuf := kn_rings s !!! r.
Definition updring (r : nat) (g : ringbuf -> ringbuf) (s : kern L) : kern L :=
  set_kn_rings (<[r := g (getring r s)]> (kn_rings s)) s.

Definition p_locked (i : nat) (s : kern L) : bool := pr_lock (getp i s).
Definition set_p_locked (i : nat) (v : bool) (s : kern L) : kern L := updp i (set_pr_lock v) s.
Definition plock (i : nat) : K unit := kacquire (p_locked i) (set_p_locked i).
Definition punlock (i : nat) : K unit := krelease (p_locked i) (set_p_locked i).
Definition pmodify (i : nat) (f : proc -> proc) : K unit := modify (updp i f).

Definition myproc : K (option nat) :=
  cpu_op (push_off 0);;
  p ← gets kn_cur;
  cpu_op (pop_off 0);;
  mret p.

(** [myproc()] where the code goes on to use a field of the result.  The
    kernel has nothing mapped at address zero: the access traps. *)
Definition curproc : K nat :=
  p ← myproc;
  match p with Some i => mret i | None => panic "kerneltrap" end.

(** *** Sleeping and waking up *)

(** The switch to the scheduler's context. *)
Definition swtch_chan : chan := Chan "swtch" 0.

Definition sched {A} : K A :=
  p ← curproc;
  held ← gets (p_locked p);
  if negb held then panic "sched p->lock"
  else
    c ← gets kn_cpu;
    if negb (c_noff c =? 1) then panic "sched locks"
    else
      st ← gets (fun s => pr_state (getp p s));
      if bool_decide (st = RUNNING) then panic "sched running"
      else
        i ← cpu_op (intr_get 0);
        if (i : bool) then panic "sched interruptible"
        else fun s => Sleep swtch_chan s.

(** [sleep] once it holds [p->lock] and has released [lk]. *)
Definition sleep_on {A} (p : nat) (ch : chan) : K A :=
  pmodify p (set_pr_chan (Some ch));;
  pmodify p (set_pr_state SLEEPING);;
  sched.

Definition sleep (ch : chan) (get : kern L -> bool) (set : bool -> kern L -> kern L) : K unit :=
  p ← curproc;
  plock p;;
  krelease get set;;
  sleep_on p ch.

(** The rest of [sleep], when the scheduler has come back. *)
Definition sleep_resume (get : kern L -> bool) (set : bool -> kern L -> kern L) : K unit :=
  p ← curproc;
  pmodify p (set_pr_chan None);;
  punlock p;;
  kacquire get set.

Definition NPROCn : nat := Z.to_nat NPROC.

#[export] Instance kern_wakeup : Wakeup (kern L) := fun ch =>
  for_loop NPROCn 0 (fun k =>
    let i := Z.to_nat k in
    me ← myproc;
    when (negb (bool_decide (me = Some i)))
      (plock i;;
       p ← gets (getp i);
       when (bool_decide (pr_state p = SLEEPING) && bool_decide (pr_chan p = Some ch))
         (pmodify i (set_pr_state RUNNABLE));;
       punlock i);;
    mret (@None unit));;
  mret tt.

Definition yield : K unit :=
  p ← curproc;
  plock p;;
  pmodify p (set_pr_state RUNNABLE);;
  sched.

(** The rest of [yield]. *)
Definition yield_resume : K unit :=
  p ← curproc;
  punlock p.

Definition setkilled (i : nat) : K unit :=
  plock i;;
  pmodify i (set_pr_killed true);;
  punlock i.

Definition killed (i : nat) : K bool :=
  plock i;;
  k ← gets (fun s => pr_killed (getp i s));
  punlock i;;
  mret k.

(** *** Calls into the other components *)

(** The wakeups a component asked for, oldest first. *)
Fixpoint wakeups (l : list chan) : K unit :=
  match l with
  | [] => mret tt
  | ch :: l => wakeups l;; wakeup ch
  end.

(** Run [m] of the file system in the current process.  A call that sleeps
    has released its lock; the process goes to sleep on the same channel. *)
Definition fop {A} (m : M (fst L) A) : K A := fun s =>
  let p := from_option (fun i => getp i s) inhabitant (kn_cur s) in
  let f := kn_fs s in
  let f0 := Fst (f_l f) (f_k f) (f_sb f) (f_it_lock f) (f_inode f)
                (pr_pagetable p) (default 0%nat (pr_cwd p)) (pr_pid p) (f_out f) [] in
  match m f0 with
  | Ok a f' => (wakeups (f_woken f');; mret a) (set_kn_fs (set_f_woken [] f') s)
  | Panic msg => Panic msg
  | Sleep ch f' =>
      (wakeups (f_woken f');;
       q ← curproc;
       plock q;;
       sleep_on q ch) (set_kn_fs (set_f_woken [] f') s)
  | Fuel => Fuel
  end.

Definition mem_op {A} (m : M kst A) : K A := fop (kop m).
Definition begin_op : K unit := fop (lop op_begin).
Definition end_op : K unit := fop (lop op_end).

(** Run [m] on the pipe at [pi].  [killed(pr)] inside it reads a flag that
    nobody changes in between.  The operations of Pipe.v return [Blocked]
    where they sleep; none has outcome [Sleep]. *)
Definition pipe_op {A} (pi : Z) (m : M pst A) : K A := fun s =>
  let p := from_option (fun i => getp i s) inhabitant (kn_cur s) in
  let x := Pst (default pipe_init (kn_pipe s !! pi)) (f_k (kn_fs s)) (pr_pagetable p) (pr_killed p) [] in
  match m x with
  | Ok a x' => (wakeups (ps_woken x');; mret a)
                 (set_kn_fs (set_f_k (ps_k x') (kn_fs s)) (set_kn_pipe (<[pi := ps_p x']> (kn_pipe s)) s))
  | Panic msg => Panic msg
  | Sleep ch x' => Sleep ch (set_kn_pipe (<[pi := ps_p x']> (kn_pipe s)) s)
  | Fuel => Fuel
  end.
(** A pipe operation that blocked has released the pipe: the process goes to
    sleep on [ch]. *)
Definition io_sleep (ch : chan) (r : io) : K Z :=
  match r with
  | Done r => mret r
  | Blocked _ =>
      p ← curproc;
      plock p;;
      sleep_on p ch
  end.
End kernel.
