(* ===== verification/KernelSpec.v ===== *)
(** Lemmas on the kernel's locks and on sleeping and waking up. *)

From S2P Require Import Prelude Ring Spinlock Mem Sleeplock Strings Kalloc Vm Bio BlockLayer Fs Pipe Kernel.

(** ** The CPU *)

Definition c_intr (c : cpu) : bool := negb (Z.land (c_sstatus c) SSTATUS_SIE =? 0).

(** A CPU that holds a lock has its interrupts off. *)
Definition cpu_ok (c : cpu) : Prop := 0 <= c_noff c /\ (c_noff c <> 0 -> c_intr c = false).

(** The CPU inside one more lock, and after a lock is given back: only
    [intena] can have changed. *)
Definition pushed (c : cpu) : cpu :=
  Cpu (c_noff c + 1) (if c_noff c =? 0 then c_intr c else c_intena c)
      (Z.land (c_sstatus c) (Z.lnot SSTATUS_SIE)).
Definition settle (c : cpu) : cpu :=
  Cpu (c_noff c) (if c_noff c =? 0 then c_intr c else c_intena c) (c_sstatus c).

Lemma c_intr_testbit c : c_intr c = Z.testbit (c_sstatus c) 1.
Proof. apply (land_pow2_testbit _ 1). lia. Qed.

Lemma pushed_intr c : c_intr (pushed c) = false.
Proof.
  rewrite c_intr_testbit. cbn [pushed c_sstatus]. rewrite Z.land_spec, Z.lnot_spec by lia.
  by rewrite andb_false_r.
Qed.

Lemma settle_ok c : cpu_ok c -> cpu_ok (settle c).
Proof. done. Qed.
Lemma pushed_ok c : cpu_ok c -> cpu_ok (pushed c).
Proof. intros [H _]. split; [simpl; lia|]. intros _. apply pushed_intr. Qed.
Lemma settle_settle c : settle (settle c) = settle c.
Proof. unfold settle, c_intr. simpl. by destruct (c_noff c =? 0). Qed.
Lemma pushed_settle c : pushed (settle c) = pushed c.
Proof. unfold settle, pushed, c_intr. simpl. by destruct (c_noff c =? 0). Qed.

(** Clearing the bit and setting it again. *)
Lemma sie_restore x : Z.testbit x 1 = true -> Z.lor (Z.land x (Z.lnot SSTATUS_SIE)) SSTATUS_SIE = x.
Proof.
  intros H. apply Z.bits_inj'. intros k Hk. change SSTATUS_SIE with (2 ^ 1).
  rewrite Z.lor_spec, Z.land_spec, Z.lnot_spec by done.
  destruct (Z.eq_dec k 1) as [->|]; [by rewrite H, Z.pow2_bits_true|].
  rewrite Z.pow2_bits_false by done. simpl. by rewrite andb_true_r, orb_false_r.
Qed.
Lemma sie_clear x : Z.testbit x 1 = false -> Z.land x (Z.lnot SSTATUS_SIE) = x.
Proof.
  intros H. apply Z.bits_inj'. intros k Hk. change SSTATUS_SIE with (2 ^ 1).
  rewrite Z.land_spec, Z.lnot_spec by done.
  destruct (Z.eq_dec k 1) as [->|]; [by rewrite H|].
  rewrite Z.pow2_bits_false by done. simpl. by rewrite andb_true_r.
Qed.

Create HintDb kernel.
#[export] Hint Resolve settle_ok pushed_ok pushed_intr : kernel.
Create Rewrite HintDb kernel.
#[export] Hint Rewrite settle_settle pushed_settle : kernel.

Section spec.
Context {L : Type} `{BlockLayer L}.
Abbreviation K := (M (kern L)).

Lemma push_off_ok (s : kern L) :
  cpu_op (push_off 0) s = Ok tt (set_kn_cpu (pushed (kn_cpu s)) s).
Proof.
  unfold cpu_op, zoom, push_off, intr_get, intr_off, updc, gets, modify, mbind, M_bind, when, pushed, c_intr.
  repeat (cbn [m_cpu m_lk c_noff c_intena c_sstatus]; rewrite ?fupd_eq).
  destruct (Z.eqb_spec (c_noff (kn_cpu s)) 0) as [E|E];
    repeat (cbn [m_cpu m_lk c_noff c_intena c_sstatus]; rewrite ?fupd_eq); reflexivity.
Qed.

Lemma pop_off_ok (c : cpu) (s : kern L) :
  cpu_ok c -> kn_cpu s = pushed c -> cpu_op (pop_off 0) s = Ok tt (set_kn_cpu (settle c) s).
Proof.
  intros [Hn Hi] Hc. unfold cpu_op, zoom, pop_off, intr_get, gets, mbind, M_bind. cbn [m_cpu]. rewrite Hc.
  fold (c_intr (pushed c)). rewrite pushed_intr. cbn [m_cpu].
  assert ((c_noff (pushed c) <? 1) = false) as -> by (apply Z.ltb_ge; cbn [pushed c_noff]; lia).
  unfold updc, modify, when.
  repeat (cbn [m_cpu m_lk c_noff c_intena c_sstatus pushed]; rewrite ?fupd_eq).
  unfold settle. replace (c_noff c + 1 - 1) with (c_noff c) by lia.
  rewrite !c_intr_testbit in *. destruct (Z.eqb_spec (c_noff c) 0) as [E|E]; cbn [andb].
  - destruct (Z.testbit (c_sstatus c) 1) eqn:Eb; unfold intr_on, updc, modify;
      repeat (cbn [m_cpu m_lk c_noff c_intena c_sstatus]; rewrite ?fupd_eq).
    + by rewrite sie_restore.
    + unfold mret, M_ret. cbn [m_cpu]. by rewrite fupd_eq, sie_clear.
  - unfold mret, M_ret. cbn [m_cpu]. by rewrite fupd_eq, sie_clear by auto.
Qed.

Lemma intr_on_ok (s : kern L) :
  c_noff (kn_cpu s) = 0 -> exists c, cpu_op (intr_on 0) s = Ok tt (set_kn_cpu c s) /\ cpu_ok c /\ c_noff c = 0.
Proof.
  intros Hn. unfold cpu_op, zoom, intr_on, updc, modify. cbn [m_cpu m_lk]. rewrite fupd_eq.
  eexists. split; [done|]. unfold cpu_ok. cbn [c_noff]. rewrite Hn. done.
Qed.

(** ** Locks *)

Lemma kacquire_ok get set (s : kern L) :
  get (set_kn_cpu (pushed (kn_cpu s)) s) = false ->
  kacquire get set s = Ok tt (set true (set_kn_cpu (pushed (kn_cpu s)) s)).
Proof. intros Hg. unfold kacquire. mstep (push_off_ok s). unfold acquire. by rewrite Hg. Qed.

Lemma kacquire_held get set (s : kern L) :
  get (set_kn_cpu (pushed (kn_cpu s)) s) = true -> kacquire get set s = Panic "acquire".
Proof. intros Hg. unfold kacquire. mstep (push_off_ok s). unfold acquire. by rewrite Hg. Qed.

Lemma krelease_ok get set (c : cpu) (s : kern L) :
  cpu_ok c -> get s = true -> kn_cpu (set false s) = pushed c ->
  krelease get set s = Ok tt (set_kn_cpu (settle c) (set false s)).
Proof.
  intros Hc Hg He. unfold krelease.
  assert (release get set s = Ok tt (set false s)) as Hr by (unfold release; by rewrite Hg).
  mstep Hr. by apply pop_off_ok.
Qed.

Lemma myproc_ok (s : kern L) :
  cpu_ok (kn_cpu s) -> myproc s = Ok (kn_cur s) (set_kn_cpu (settle (kn_cpu s)) s).
Proof.
  intros Hc. unfold myproc. mstep (push_off_ok s). rewrite gets_bind.
  mstep (pop_off_ok (kn_cpu s) (set_kn_cpu (pushed (kn_cpu s)) s) Hc eq_refl). done.
Qed.

Lemma curproc_ok (s : kern L) p :
  cpu_ok (kn_cpu s) -> kn_cur s = Some p -> curproc s = Ok p (set_kn_cpu (settle (kn_cpu s)) s).
Proof. intros Hc Hp. unfold curproc. mstep (myproc_ok s Hc). by rewrite Hp. Qed.

(** *** The lock of a process *)

Lemma getp_updp i j f (s : kern L) : getp i (updp j f s) = if decide (i = j) then f (getp j s) else getp i s.
Proof.
  unfold getp, updp. simpl. destruct (decide (i = j)) as [->|].
  - by rewrite lookup_total_insert_eq.
  - by rewrite lookup_total_insert_ne.
Qed.
Lemma getp_updp_eq i f (s : kern L) : getp i (updp i f s) = f (getp i s).
Proof. rewrite getp_updp. by rewrite decide_True. Qed.
Lemma getp_updp_ne i j f (s : kern L) : i <> j -> getp i (updp j f s) = getp i s.
Proof. intros. rewrite getp_updp. by rewrite decide_False. Qed.

Lemma plock_ok i (s : kern L) :
  pr_lock (getp i s) = false -> plock i s = Ok tt (updp i (set_pr_lock true) (set_kn_cpu (pushed (kn_cpu s)) s)).
Proof. intros Hl. unfold plock. by rewrite kacquire_ok. Qed.

Lemma punlock_ok i c (s : kern L) :
  cpu_ok c -> kn_cpu s = pushed c -> pr_lock (getp i s) = true ->
  punlock i s = Ok tt (set_kn_cpu (settle c) (updp i (set_pr_lock false) s)).
Proof. intros. unfold punlock. by erewrite krelease_ok. Qed.

(** Run [f] on a process whose lock is free, under its lock. *)
Lemma with_plock {A} i (f : proc -> proc) (k : unit -> K A) (s : kern L) :
  cpu_ok (kn_cpu s) -> pr_lock (getp i s) = false -> (forall q, pr_lock (f q) = pr_lock q) ->
  (plock i;; pmodify i f;; punlock i ≫= k) s =
  k tt (set_kn_cpu (settle (kn_cpu s)) (updp i (set_pr_lock false) (updp i f (updp i (set_pr_lock true) s)))).
Proof.
  intros Hc Hl Hf. mstep (plock_ok i s Hl). unfold pmodify. rewrite modify_bind.
  erewrite bind_ok; [|apply punlock_ok; [exact Hc|done|]]; [done|].
  rewrite getp_updp_eq, Hf, getp_updp_eq. done.
Qed.

(** *** [wakeup] *)

Definition sleeps_on (ch : chan) (p : proc) : bool :=
  bool_decide (pr_state p = SLEEPING) && bool_decide (pr_chan p = Some ch).

(** What [wakeup ch], called by process [me], makes of process [i]. *)
Definition woken_up (ch : chan) (me : option nat) (i : nat) (p : proc) : proc :=
  if negb (bool_decide (me = Some i)) && sleeps_on ch p then set_pr_state RUNNABLE p else p.

(** The state with another process table and another CPU. *)
Definition with_procs (P : gmap nat proc) (c : cpu) (s : kern L) : kern L := set_kn_cpu c (set_kn_proc P s).

Lemma updp_with i f P c (s : kern L) : updp i f (with_procs P c s) = with_procs (<[i := f (P !!! i)]> P) c s.
Proof. done. Qed.
Lemma cpu_with c' P c (s : kern L) : set_kn_cpu c' (with_procs P c s) = with_procs P c' s.
Proof. done. Qed.
Lemma getp_with i P c (s : kern L) : getp i (with_procs P c s) = P !!! i.
Proof. done. Qed.
Lemma kn_cpu_with P c (s : kern L) : kn_cpu (with_procs P c s) = c.
Proof. done. Qed.
Lemma with_with P c P' c' (s : kern L) : with_procs P c (with_procs P' c' s) = with_procs P c s.
Proof. done. Qed.
Lemma kn_cur_with P c (s : kern L) : kn_cur (with_procs P c s) = kn_cur s.
Proof. done. Qed.
Lemma lookup_procs i j (f : proc) (P : gmap nat proc) : <[i := f]> P !!! j = if decide (j = i) then f else P !!! j.
Proof.
  destruct (decide (j = i)) as [->|]; [by rewrite lookup_total_insert_eq|by rewrite lookup_total_insert_ne].
Qed.

Lemma unlock_lock p : pr_lock p = false -> set_pr_lock false (set_pr_lock true p) = p.
Proof. destruct p; simpl. by intros ->. Qed.
Lemma unlock_lock_state p v :
  pr_lock p = false -> set_pr_lock false (set_pr_state v (set_pr_lock true p)) = set_pr_state v p.
Proof. destruct p; simpl. by intros ->. Qed.

(** One round: process [i] is looked at under its lock. *)
Lemma wakeup_body ch i P c (s : kern L) :
  cpu_ok c -> (kn_cur s <> Some i -> pr_lock (P !!! i) = false) ->
  exists P',
    (me ← myproc;
     when (negb (bool_decide (me = Some i)))
       (plock i;;
        p ← gets (getp i);
        when (sleeps_on ch p) (pmodify i (set_pr_state RUNNABLE));;
        punlock i);;
     mret (@None unit)) (with_procs P c s) = Ok None (with_procs P' (settle c) s) /\
    forall j, P' !!! j = if decide (j = i) then woken_up ch (kn_cur s) i (P !!! i) else P !!! j.
Proof.
  intros Hc Hl. mstep (myproc_ok (with_procs P c s) Hc). simpl kn_cur. unfold woken_up.
  destruct (decide (kn_cur s = Some i)) as [Em|Em].
  { rewrite (bool_decide_eq_true_2 _ Em). exists P. split; [done|]. simpl. intros j. by case_decide; subst. }
  rewrite (bool_decide_eq_false_2 _ Em). specialize (Hl Em). cbn [negb andb when].
  rewrite bind_bind. change (set_kn_cpu _ _) with (with_procs P (settle c) s).
  erewrite bind_ok; [|by apply plock_ok]. rewrite bind_bind, gets_bind, getp_updp_eq, bind_bind.
  change (sleeps_on ch (set_pr_lock true _)) with (sleeps_on ch (P !!! i)).
  change (getp i (set_kn_cpu _ _)) with (P !!! i).
  destruct (sleeps_on ch (P !!! i)); cbn [when].
  - unfold pmodify. rewrite modify_bind.
    erewrite bind_ok; [|apply (punlock_ok i c); [done|apply pushed_settle|by rewrite !getp_updp_eq]].
    eexists (kn_proc _). split; [reflexivity|]. intros j.
    change (kn_proc ?x !!! j) with (getp j x). rewrite !getp_updp. case_decide as E; [|done].
    subst j. rewrite !decide_True by done. by apply unlock_lock_state.
  - rewrite ret_bind. erewrite bind_ok; [|apply (punlock_ok i c); [done|apply pushed_settle|by rewrite !getp_updp_eq]].
    eexists (kn_proc _). split; [reflexivity|]. intros j.
    change (kn_proc ?x !!! j) with (getp j x). rewrite !getp_updp. case_decide as E; [|done].
    subst j. rewrite decide_True by done. by apply unlock_lock.
Qed.

Lemma wakeup_ok ch (s : kern L) :
  cpu_ok (kn_cpu s) -> (forall i, (i < NPROCn)%nat -> kn_cur s <> Some i -> pr_lock (getp i s) = false) ->
  exists P, wakeup ch s = Ok tt (with_procs P (settle (kn_cpu s)) s) /\
    forall i, P !!! i = if decide (i < NPROCn)%nat then woken_up ch (kn_cur s) i (getp i s) else getp i s.
Proof.
  intros Hc Hl. unfold wakeup, kern_wakeup.
  set (I := fun (k : Z) (s1 : kern L) => exists c1 P, s1 = with_procs P c1 s /\ cpu_ok c1 /\
    settle c1 = settle (kn_cpu s) /\ (0 < k -> c1 = settle (kn_cpu s)) /\
    forall i, P !!! i = if decide (Z.of_nat i < k) then woken_up ch (kn_cur s) i (getp i s) else getp i s).
  destruct (for_loop_inv I (fun k : Z => let i := Z.to_nat k in
     me ← myproc;
     when (negb (bool_decide (me = Some i)))
       (plock i;; p ← gets (getp i);
        when (sleeps_on ch p) (pmodify i (set_pr_state RUNNABLE));; punlock i);;
     mret (@None unit)) NPROCn 0 s) as (s' & Hrun & HI).
  - exists (kn_cpu s), (kn_proc s). split; [by destruct s|]. split; [done|]. split; [done|]. split; [lia|].
    intros i. rewrite decide_False by lia. done.
  - intros j s1 Hj (c1 & P & -> & Hc1 & Hs1 & _ & HP).
    destruct (wakeup_body ch (Z.to_nat j) P c1 s Hc1) as (P' & Hb & HP').
    { intros Hne. rewrite HP, decide_False by lia. apply Hl; [lia|done]. }
    exists (with_procs P' (settle c1) s). split; [exact Hb|].
    exists (settle c1), P'. rewrite Hs1. split; [done|]. split; [rewrite <- Hs1; by apply settle_ok|].
    split; [apply settle_settle|]. split; [done|]. intros i. rewrite HP'.
    destruct (decide (i = Z.to_nat j)) as [->|Hne].
    + rewrite HP, decide_False, decide_True by lia. done.
    + rewrite HP. destruct (decide (Z.of_nat i < j)), (decide (Z.of_nat i < j + 1)); done || lia.
  - destruct HI as (c1 & P & -> & _ & _ & Hc1 & HP). rewrite Hc1 in Hrun by done.
    exists P. split.
    + erewrite bind_ok; [|exact Hrun]. done.
    + intros i. rewrite HP. destruct (decide (i < NPROCn)%nat), (decide (Z.of_nat i < 0 + Z.of_nat NPROCn)); done || lia.
Qed.

(** *** Calls into the file system and the memory *)

(** The file system's view of the current process is filled in by a call. *)
Definition entered (s : kern L) : kern L :=
  let p := from_option (fun i => getp i s) inhabitant (kn_cur s) in
  let f := kn_fs s in
  set_kn_fs (Fst (f_l f) (f_k f) (f_sb f) (f_it_lock f) (f_inode f)
                 (pr_pagetable p) (default 0%nat (pr_cwd p)) (pr_pid p) (f_out f) []) s.

Lemma fop_look {A} (m : M (fst L) A) a s :
  (forall f, m f = Ok (a (f_k f)) f) -> fop m s = Ok (a (f_k (kn_fs s))) (entered s).
Proof. intros Hm. unfold fop. by rewrite Hm. Qed.


(** Physical memory and the allocator, and the state with another one. *)
Definition memory (s : kern L) : kst := f_k (kn_fs s).
Definition with_k (k : kst) (s : kern L) : kern L := set_kn_fs (set_f_k k (kn_fs (entered s))) s.

Lemma mem_op_ok {A} (m : M kst A) a k s : m (memory s) = Ok a k -> mem_op m s = Ok a (with_k k s).
Proof.
  intros Hm. unfold mem_op, fop, kop, zoom. cbn [f_k]. fold (memory s). by rewrite Hm.
Qed.
Lemma mem_op_panic {A} (m : M kst A) msg s : m (memory s) = Panic msg -> mem_op m s = Panic msg.
Proof. intros Hm. unfold mem_op, fop, kop, zoom. cbn [f_k]. fold (memory s). by rewrite Hm. Qed.
Lemma memory_with k s : memory (with_k k s) = k.
Proof. done. Qed.
Lemma getp_with_k i k s : getp i (with_k k s) = getp i s.
Proof. done. Qed.
Lemma getring_with_k i k s : getring i (with_k k s) = getring i s.
Proof. done. Qed.
End spec.

#[export] Hint Rewrite @updp_with @cpu_with @getp_with @kn_cpu_with @with_with @kn_cur_with : kernel.
