(* ===== verification/File.v ===== *)
(** Open files: src/src/kernel/file.c, with [pipealloc] of
    src/src/kernel/pipe.c.

    A [struct file*] is an index into [ftable.file].  The functions behind
    [devsw] are parameters: each entry is set by a driver or null. *)

From S2P Require Import Prelude Ring Spinlock Mem Sleeplock Strings Kalloc Vm Bio Log BlockLayer Fs Pipe Kernel.

Section file.
Context {L : Type} `{BlockLayer L}.
Abbreviation K := (M (kern L)).
Context (kend : Z).

(** [devsw[major].read] and [.write], with the flag for a user address. *)
Context (dev_read dev_write : Z -> option (bool -> Z -> Z -> K Z)).

(** What the stack holds where [filestat] puts its [struct stat]. *)
Context (st0 : mem).

Definition ft_acquire : K unit := kacquire kn_ft_lock set_kn_ft_lock.
Definition ft_release : K unit := krelease kn_ft_lock set_kn_ft_lock.

Definition fileinit : K unit := modify (set_kn_ft_lock false).

Definition filealloc : K (option nat) :=
  ft_acquire;;
  r ← for_loop (Z.to_nat NFILE) 0 (fun k =>
    let f := Z.to_nat k in
    x ← gets (getfile f);
    if fl_ref x =? 0 then
      modify (updfile f (set_fl_ref 1));;
      ft_release;;
      mret (Some f)
    else mret None);
  match r with
  | Some f => mret (Some f)
  | None => ft_release;; mret None
  end.

Definition filedup (f : nat) : K nat :=
  ft_acquire;;
  x ← gets (getfile f);
  if fl_ref x <? 1 then panic "filedup"
  else
    modify (updfile f (set_fl_ref (fl_ref x + 1)));;
    ft_release;;
    mret f.

Definition fileclose (f : nat) : K unit :=
  ft_acquire;;
  x ← gets (getfile f);
  if fl_ref x <? 1 then panic "fileclose"
  else
    modify (updfile f (set_fl_ref (fl_ref x - 1)));;
    if fl_ref x - 1 >? 0 then ft_release
    else
      ff ← gets (getfile f);
      modify (updfile f (set_fl_ref 0));;
      modify (updfile f (set_fl_type FD_NONE));;
      ft_release;;
      match fl_type ff with
      | FD_PIPE => pipe_op (fl_pipe ff) (pipeclose kend (fl_pipe ff) (fl_writable ff))
      | FD_INODE | FD_DEVICE =>
          begin_op;;
          fop (iput (fl_ip ff));;
          end_op
      | FD_NONE => mret tt
      end.

(** The fields of [struct stat] at their offsets. *)
Definition stat_bytes (st : Z * Z * Z * Z * Z) : mem :=
  let '(dev, ino, type, nlink, size) := st in
  st64 (st16 (st16 (st32 (st32 st0 0 dev) 4 ino) 8 type) 10 nlink) 16 size.

Definition STAT_SIZE : Z := 24.

Definition filestat (f : nat) (addr : Z) : K Z :=
  p ← curproc;
  x ← gets (getfile f);
  match fl_type x with
  | FD_INODE | FD_DEVICE =>
      fop (ilock (fl_ip x));;
      st ← fop (stati (fl_ip x));
      fop (iunlock (fl_ip x));;
      pt ← gets (fun s => pr_pagetable (getp p s));
      r ← mem_op (copyout_obj pt addr (stat_bytes st) 0 STAT_SIZE);
      mret (if r <? 0 then -1 else 0)
  | _ => mret (-1)
  end.

Definition fileread (f : nat) (addr n : Z) : K Z :=
  x ← gets (getfile f);
  if negb (fl_readable x) then mret (-1)
  else
    match fl_type x with
    | FD_PIPE =>
        r ← pipe_op (fl_pipe x) (piperead (fl_pipe x) addr n);
        io_sleep (nread_chan (fl_pipe x)) r
    | FD_DEVICE =>
        if (fl_major x <? 0) || (fl_major x >=? NDEV) then mret (-1)
        else
          match dev_read (fl_major x) with
          | None => mret (-1)
          | Some read => read true addr n
          end
    | FD_INODE =>
        fop (ilock (fl_ip x));;
        off ← gets (fun s => fl_off (getfile f s));
        r ← fop (readi (fl_ip x) true addr off (u32 n));
        when (r >? 0) (modify (updfile f (fun x => set_fl_off (u32 (fl_off x + r)) x)));;
        fop (iunlock (fl_ip x));;
        mret r
    | FD_NONE => panic "fileread"
    end.

Definition MAXWRITE : Z := (MAXOPBLOCKS - 1 - 1 - 2) / 2 * BSIZE.

(** A round that goes on has written at least one byte, so [n] rounds are
    enough.  The result is [i]. *)
Fixpoint filewrite_loop (fuel : nat) (f : nat) (ip : nat) (addr n i : Z) : K Z :=
  match fuel with
  | O => if i <? n then out_of_fuel else mret i
  | S fuel =>
      if i <? n then
        let n1 := Z.min (n - i) MAXWRITE in
        begin_op;;
        fop (ilock ip);;
        off ← gets (fun s => fl_off (getfile f s));
        r ← fop (writei ip true (u64 (addr + i)) off n1);
        when (r >? 0) (modify (updfile f (fun x => set_fl_off (u32 (fl_off x + r)) x)));;
        fop (iunlock ip);;
        end_op;;
        if negb (r =? n1) then mret i
        else filewrite_loop fuel f ip addr n (i + r)
      else mret i
  end.

Definition filewrite (f : nat) (addr n : Z) : K Z :=
  x ← gets (getfile f);
  if negb (fl_writable x) then mret (-1)
  else
    match fl_type x with
    | FD_PIPE =>
        r ← pipe_op (fl_pipe x) (pipewrite (fl_pipe x) addr n);
        io_sleep (nwrite_chan (fl_pipe x)) r
    | FD_DEVICE =>
        if (fl_major x <? 0) || (fl_major x >=? NDEV) then mret (-1)
        else
          match dev_write (fl_major x) with
          | None => mret (-1)
          | Some write => write true addr n
          end
    | FD_INODE =>
        i ← filewrite_loop (Z.to_nat n) f (fl_ip x) addr n 0;
        mret (if i =? n then n else -1)
    | FD_NONE => panic "filewrite"
    end.

(** The code at [bad]. *)
Definition pipealloc_bad (f0 f1 : option nat) : K (option (nat * nat)) :=
  match f0 with Some f => fileclose f | None => mret tt end;;
  match f1 with Some f => fileclose f | None => mret tt end;;
  mret None.

(** [*f0] and [*f1], or none for the result -1. *)
Definition pipealloc : K (option (nat * nat)) :=
  f0 ← filealloc;
  match f0 with
  | None => pipealloc_bad None None
  | Some f =>
      f1 ← filealloc;
      match f1 with
      | None => pipealloc_bad f0 None
      | Some g =>
          pi ← mem_op kalloc;
          if pi =? 0 then pipealloc_bad f0 f1
          else
            modify (fun s => set_kn_pipe (<[pi := pipe_init]> (kn_pipe s)) s);;
            modify (updfile f (fun x => set_fl_pipe pi (set_fl_mode true false (set_fl_type FD_PIPE x))));;
            modify (updfile g (fun x => set_fl_pipe pi (set_fl_mode false true (set_fl_type FD_PIPE x))));;
            mret (Some (f, g))
      end
  end.
End file.
