(* ===== verification/Ringbuf.v ===== *)
(** Shared ring buffers: src/src/kernel/ringbuf.zig.

    A ring buffer is sixteen pages of memory and a page of bookkeeping that
    up to two processes have mapped.  A pointer to a ring buffer is its index
    in [ringbufs]; a name is the bytes before its NUL.  [kalloc.allocPage] and
    [freePage] are [kalloc] and [kfree] of Kalloc.v.  The kernel is built in a
    mode without run-time checks, so machine integers wrap around. *)

From S2P Require Import Prelude Ring Spinlock Mem Sleeplock Strings Kalloc Vm Bio BlockLayer Fs Pipe Kernel.

Definition RINGBUF_SIZE : nat := 16.
Definition MAX_NAME_LEN : Z := 16.
Definition MAX_RINGBUFS : nat := 10.

(** [RingbufError]. *)
Inductive rberr :=
  | AlreadyActive | AlreadyIsOwner | AlreadyTwoOwners | NoOriginalOwner | BadNameLength
  | OutOfMemory | NoFreeRingbuf | MapPagesFailed | CopyOutFailed | CopyInFailed
  | NoAddrGiven | NameNotFound | NotOwner | BadAddr | AlreadyInactive.

Inductive rbop := rb_open | rb_close.

Definition set_rb_refcount v r := Ringbuf v (rb_owner0 r) (rb_owner1 r) (rb_name r) (rb_pages r) (rb_book r).
Definition set_rb_name v r := Ringbuf (rb_refcount r) (rb_owner0 r) (rb_owner1 r) v (rb_pages r) (rb_book r).
Definition set_rb_pages v r := Ringbuf (rb_refcount r) (rb_owner0 r) (rb_owner1 r) (rb_name r) v (rb_book r).
Definition set_rb_book v r := Ringbuf (rb_refcount r) (rb_owner0 r) (rb_owner1 r) (rb_name r) (rb_pages r) v.

(** [owners[0]] ([false]) and [owners[1]]. *)
Definition rb_owner (k : bool) (r : ringbuf) : owner := if k then rb_owner1 r else rb_owner0 r.
Definition set_rb_owner (k : bool) (o : owner) (r : ringbuf) : ringbuf :=
  if k then Ringbuf (rb_refcount r) (rb_owner0 r) o (rb_name r) (rb_pages r) (rb_book r)
  else Ringbuf (rb_refcount r) o (rb_owner1 r) (rb_name r) (rb_pages r) (rb_book r).

Section ringbuf.
Context {L : Type} `{BlockLayer L}.
Abbreviation K := (M (kern L)).
Context (kend : Z).

Definition rb_acquire : K unit := kacquire kn_rb_lock set_kn_rb_lock.
Definition rb_release : K unit := krelease kn_rb_lock set_kn_rb_lock.

Definition rb_init : K unit := modify (set_kn_rb_lock false).

(** Allocate pages until [n] are there or memory runs out. *)
Fixpoint alloc_pages (n : nat) : K (list Z) :=
  match n with
  | O => mret []
  | S n =>
      pg ← mem_op kalloc;
      if pg =? 0 then mret []
      else l ← alloc_pages n; mret (pg :: l)
  end.

Fixpoint free_pages (l : list Z) : K unit :=
  match l with
  | [] => mret tt
  | pg :: l => mem_op (kfree kend pg);; free_pages l
  end.

(** [book_p.* = .{}]. *)
Definition clear_book (pg : Z) : K unit := mem_op (kstore pg 0;; kstore (pg + 8) 0).

Definition rb_activate (r : nat) (name : list Z) : K (option rberr) :=
  x ← gets (getring r);
  if rb_refcount x >? 0 then mret (Some AlreadyActive)
  else if (Z.of_nat (length name) >? MAX_NAME_LEN) || (Z.of_nat (length name) =? 0) then mret (Some BadNameLength)
  else
    modify (updring r (set_rb_name name));;
    pages ← alloc_pages RINGBUF_SIZE;
    modify (updring r (fun x => set_rb_pages (map Some pages ++ drop (length pages) (rb_pages x)) x));;
    book ← mem_op kalloc;
    modify (updring r (set_rb_book (if book =? 0 then None else Some book)));;
    if (length pages <? RINGBUF_SIZE)%nat || (book =? 0) then
      (if book =? 0 then mret tt
       else mem_op (kfree kend book);; modify (updring r (set_rb_book None)));;
      free_pages pages;;
      modify (updring r (fun x => set_rb_pages (replicate (length pages) None ++ drop (length pages) (rb_pages x)) x));;
      mret (Some OutOfMemory)
    else
      clear_book book;;
      mret None.

Definition is_some_owner (r : ringbuf) : bool :=
  bool_decide (is_Some (ow_proc (rb_owner0 r))) || bool_decide (is_Some (ow_proc (rb_owner1 r))).

Definition rb_deactivate (r : nat) : K unit :=
  x ← gets (getring r);
  free_pages (omap id (rb_pages x));;
  modify (updring r (set_rb_pages (replicate RINGBUF_SIZE None)));;
  match rb_book x with
  | None => panic "deactivate: book page is already null"
  | Some book =>
      clear_book book;;
      mem_op (kfree kend book);;
      x ← gets (getring r);
      if is_some_owner x then panic "ringbuf has owners"
      else modify (updring r (fun _ => rb_empty))
  end.

(** The slot of [owners] that names [proc]. *)
Definition owner_slot (x : ringbuf) (proc : nat) : option bool :=
  if bool_decide (ow_proc (rb_owner0 x) = Some proc) then Some false
  else if bool_decide (ow_proc (rb_owner1 x) = Some proc) then Some true
  else None.

Definition disownIfOwned (r : nat) (proc : nat) : K unit :=
  x ← gets (getring r);
  match owner_slot x proc with
  | None => mret tt
  | Some k =>
      let o := rb_owner k x in
      pt ← gets (fun s => pr_pagetable (getp proc s));
      modify (updring r (set_rb_owner k (Owner None (ow_vbuf o) (ow_vbook o))));;
      match ow_vbuf o with
      | None => panic "disowning a ringbuf without a vbuf"
      | Some vbuf =>
          mem_op (uvmunmap kend pt vbuf (2 * Z.of_nat RINGBUF_SIZE) false);;
          modify (updring r (set_rb_owner k (Owner None None (ow_vbook o))));;
          match ow_vbook o with
          | None => panic "disowning a ringbuf without a vbook"
          | Some vbook =>
              mem_op (uvmunmap kend pt vbook 1 false);;
              modify (updring r (fun x => set_rb_refcount (u32 (rb_refcount x - 1)) x));;
              pmodify proc (fun p => set_pr_rings (u64 (pr_rings p - 1)) p);;
              x ← gets (getring r);
              if rb_refcount x =? 0 then rb_deactivate r else mret tt
          end
      end
  end.

Definition findFreeRingbuf : K (option nat) :=
  for_loop MAX_RINGBUFS 0 (fun k =>
    x ← gets (getring (Z.to_nat k));
    mret (if rb_refcount x =? 0 then Some (Z.to_nat k) else None)).

Definition findRingbufByName (name : list Z) : K (option nat) :=
  for_loop MAX_RINGBUFS 0 (fun k =>
    x ← gets (getring (Z.to_nat k));
    mret (if rb_refcount x =? 0 then None
          else if bool_decide (name = rb_name x) then Some (Z.to_nat k) else None)).

(** The ring buffer and the slot of [open]. *)
Definition rb_find_or_activate (name : list Z) (proc : nat) : K (nat * bool + rberr) :=
  found ← findRingbufByName name;
  match found with
  | Some r =>
      x ← gets (getring r);
      if rb_refcount x =? 0 then panic "inactive ringbuf found by name"
      else if bool_decide (is_Some (owner_slot x proc)) then mret (Datatypes.inr AlreadyIsOwner)
      else
        match ow_proc (rb_owner0 x), ow_proc (rb_owner1 x) with
        | None, None => panic "orphaned ringbuf found by name"
        | Some _, Some _ => mret (Datatypes.inr AlreadyTwoOwners)
        | _, None => mret (Datatypes.inl (r, true))
        | None, Some _ => mret (Datatypes.inl (r, false))
        end
  | None =>
      free ← findFreeRingbuf;
      match free with
      | None => mret (Datatypes.inr NoFreeRingbuf)
      | Some r =>
          e ← rb_activate r name;
          match e with
          | Some e => mret (Datatypes.inr e)
          | None =>
              x ← gets (getring r);
              if is_some_owner x then panic "free ringbuf should not have any owners"
              else mret (Datatypes.inl (r, false))
          end
      end
  end.

Definition RB_PERM : Z := Z.lor (Z.lor PTE_R PTE_W) PTE_U.

(** Map the page at the top of the free part of the address space. *)
Definition map_top (proc : nat) (pg : Z) : K (option rberr) :=
  p ← gets (getp proc);
  r ← mem_op (mappages (pr_pagetable p) (pr_top p) PGSIZE pg RB_PERM);
  if r <? 0 then mret (Some MapPagesFailed)
  else
    pmodify proc (fun p => set_pr_top (u64 (pr_top p - PGSIZE)) p);;
    mret None.

Fixpoint map_all (proc : nat) (pages : list (option Z)) : K (option rberr) :=
  match pages with
  | [] => mret None
  | None :: _ => panic "buf page is null"
  | Some pg :: l =>
      e ← map_top proc pg;
      match e with Some e => mret (Some e) | None => map_all proc l end
  end.

(** The two copies of the buffer, the book page under them, and the copy of
    the address to the caller. *)
Definition rb_map (r : nat) (k : bool) (proc : nat) (addr_va : Z) : K (option rberr) :=
  x ← gets (getring r);
  e ← map_all proc (rb_pages x ++ rb_pages x);
  match e with
  | Some e => mret (Some e)
  | None =>
      match rb_book x with
      | None => panic "book page is null"
      | Some book =>
          e ← map_top proc book;
          match e with
          | Some e => mret (Some e)
          | None =>
              p ← gets (getp proc);
              let book_vaddr := u64 (pr_top p + 1 * PGSIZE) in
              let ringbuf_loc := u64 (pr_top p + 2 * PGSIZE) in
              modify (updring r (fun x => set_rb_owner k
                (Owner (ow_proc (rb_owner k x)) (Some ringbuf_loc) (Some book_vaddr)) x));;
              c ← mem_op (copyout_obj (pr_pagetable p) addr_va (st64 ∅ 0 ringbuf_loc) 0 8);
              if c <? 0 then mret (Some CopyOutFailed)
              else
                pmodify proc (fun p => set_pr_top (u64 (pr_top p - PGSIZE)) p);;
                mret None
          end
      end
  end.

Definition set_owner_proc (k : bool) (v : option nat) (x : ringbuf) : ringbuf :=
  set_rb_owner k (Owner v (ow_vbuf (rb_owner k x)) (ow_vbook (rb_owner k x))) x.

Definition ringbuf_open (name : list Z) (proc : nat) (addr_va : Z) : K (option rberr) :=
  f ← rb_find_or_activate name proc;
  match f with
  | Datatypes.inr e => mret (Some e)
  | Datatypes.inl (r, k) =>
      modify (updring r (set_owner_proc k (Some proc)));;
      pmodify proc (fun p => set_pr_rings (u64 (pr_rings p + 1)) p);;
      modify (updring r (fun x => set_rb_refcount (u32 (rb_refcount x + 1)) x));;
      e ← rb_map r k proc addr_va;
      match e with
      | None => mret None
      | Some e =>
          modify (updring r (set_owner_proc k None));;
          modify (updring r (fun x => set_rb_refcount (u32 (rb_refcount x - 1)) x));;
          rb_deactivate r;;
          mret (Some e)
      end
  end.

Definition ringbuf_close (name : list Z) (proc : nat) (addr_va : Z) : K (option rberr) :=
  p ← gets (getp proc);
  '(c, m) ← mem_op (copyin_obj (pr_pagetable p) (st64 ∅ 0 0) 0 addr_va 8);
  if c <? 0 then mret (Some CopyInFailed)
  else
    let ringbuf_vaddr := ld64 m 0 in
    found ← findRingbufByName name;
    match found with
    | None => mret (Some NameNotFound)
    | Some r =>
        if ringbuf_vaddr =? 0 then mret (Some NoAddrGiven)
        else
          x ← gets (getring r);
          match owner_slot x proc with
          | None => mret (Some NotOwner)
          | Some k =>
              if negb (default 0 (ow_vbuf (rb_owner k x)) =? ringbuf_vaddr) then mret (Some BadAddr)
              else if negb (default 0 (ow_vbook (rb_owner k x)) =? u64 (ringbuf_vaddr - PGSIZE)) then mret (Some BadAddr)
              else if rb_refcount x =? 0 then mret (Some AlreadyInactive)
              else if bool_decide (rb_book x = None) then panic "book page is null"
              else
                disownIfOwned r proc;;
                p ← gets (getp proc);
                when (pr_top p =? u64 (ringbuf_vaddr - 3 * PGSIZE))
                  (pmodify proc (fun p =>
                     set_pr_top (u64 (pr_top p + (1 + 1 + 2 * Z.of_nat RINGBUF_SIZE) * PGSIZE)) p));;
                mret None
          end
    end.

(** [fn ringbuf]: the lock is released on every way out. *)
Definition ringbuf_op (name : list Z) (op : rbop) (addr_va : Z) : K (option rberr) :=
  rb_acquire;;
  e ← (if (Z.of_nat (length name) >? MAX_NAME_LEN) || (Z.of_nat (length name) =? 0) then mret (Some BadNameLength)
       else
         p ← myproc;
         match p with
         | None => panic "myproc is null"
         | Some proc =>
             match op with
             | rb_open => ringbuf_open name proc addr_va
             | rb_close => ringbuf_close name proc addr_va
             end
         end);
  rb_release;;
  mret e.

Definition ringbuf_disown_all (proc : nat) : K unit :=
  rb_acquire;;
  for_loop MAX_RINGBUFS 0 (fun k => disownIfOwned (Z.to_nat k) proc;; mret (@None unit));;
  rb_release.
End ringbuf.
