(* ===== verification/Proc.v ===== *)
(** Processes: src/src/kernel/proc.c.

    [myproc], [sched], [sleep], [wakeup], [yield], [killed] and [setkilled]
    are in Kernel.v, [either_copyout] and [either_copyin] in Fs.v,
    [proc_mapstacks] in Vm.v.

    A trap frame is the memory of its page, its fields at the offsets that
    proc.h gives.  The code that runs when the scheduler switches to a process
    ([swtch.S] and the process's own kernel thread), [usertrapret] of trap.c
    and the address of [forkret] are parameters. *)

From S2P Require Import Prelude Ring Spinlock Mem Sleeplock Strings Kalloc Vm Bio Log BlockLayer Fs Pipe Kernel File Ringbuf.

(** [struct trapframe]. *)
Definition TF_KSATP : Z := 0.
Definition TF_KSP : Z := 8.
Definition TF_KTRAP : Z := 16.
Definition TF_EPC : Z := 24.
Definition TF_KHARTID : Z := 32.
Definition TF_SP : Z := 48.
Definition TF_A (n : Z) : Z := 112 + 8 * n.
Definition TF_SIZE : Z := 288.

(** A string constant or an array of bytes of the kernel. *)
Definition bytes_mem (l : list Z) : mem := list_to_map (zip (Z.of_nat <$> seq 0 (length l)) l).

Definition initcode : list Z :=
  [0x17; 0x05; 0x00; 0x00; 0x13; 0x05; 0x45; 0x02;
   0x97; 0x05; 0x00; 0x00; 0x93; 0x85; 0x35; 0x02;
   0x93; 0x08; 0x70; 0x00; 0x73; 0x00; 0x00; 0x00;
   0x93; 0x08; 0x20; 0x00; 0x73; 0x00; 0x00; 0x00;
   0xef; 0xf0; 0x9f; 0xff; 0x2f; 0x69; 0x6e; 0x69;
   0x74; 0x00; 0x00; 0x24; 0x00; 0x00; 0x00; 0x00;
   0x00; 0x00; 0x00; 0x00].

(** "initcode". *)
Definition initcode_name : list Z := [105; 110; 105; 116; 99; 111; 100; 101; 0].

Section proc.
Context {L : Type} `{BlockLayer L}.
Abbreviation K := (M (kern L)).
Context (kend trampoline forkret_addr : Z).
(** The local [struct dirent] of [dirlookup] and the local [name] of [namei],
    and the string "/". *)
Context (de nm slash : Z).

Definition proc_chan (p : option nat) : chan :=
  match p with Some i => Chan "proc" (Z.of_nat i) | None => Chan "null" 0 end.

Definition procinit : K unit :=
  modify (set_kn_pid_lock false);;
  modify (set_kn_wait_lock false);;
  for_loop NPROCn 0 (fun k =>
    pmodify (Z.to_nat k) (fun p =>
      set_pr_top (TRAPFRAME - 2 * PGSIZE) (set_pr_kstack (KSTACK k) (set_pr_state UNUSED (set_pr_lock false p))));;
    mret (@None unit));;
  mret tt.

Definition allocpid : K Z :=
  kacquire kn_pid_lock set_kn_pid_lock;;
  pid ← gets kn_nextpid;
  modify (set_kn_nextpid (pid + 1));;
  krelease kn_pid_lock set_kn_pid_lock;;
  mret pid.

(** [trapframe] is [p->trapframe]. *)
Definition proc_pagetable (trapframe : Z) : M kst Z :=
  pagetable ← uvmcreate;
  if pagetable =? 0 then mret 0
  else
    r ← mappages pagetable TRAMPOLINE PGSIZE trampoline (Z.lor PTE_R PTE_X);
    if r <? 0 then
      uvmfree kend pagetable 0;;
      mret 0
    else
      r ← mappages pagetable TRAPFRAME PGSIZE trapframe (Z.lor PTE_R PTE_W);
      if r <? 0 then
        uvmunmap kend pagetable TRAMPOLINE 1 false;;
        uvmfree kend pagetable 0;;
        mret 0
      else mret pagetable.

Definition proc_freepagetable (pagetable sz : Z) : M kst unit :=
  uvmunmap kend pagetable TRAMPOLINE 1 false;;
  uvmunmap kend pagetable TRAPFRAME 1 false;;
  uvmfree kend pagetable sz.

(** The fields [freeproc] resets after it has freed what hangs from them. *)
Definition cleared (p : proc) : proc :=
  Proc (pr_lock p) UNUSED None false 0 0 None (pr_kstack p) 0 0 (TRAPFRAME - 2 * PGSIZE) 0
       (pr_context p) (pr_ofile p) (pr_cwd p) (wr (pr_name p) 0 0) 0.

Definition freeproc (i : nat) : K unit :=
  p ← gets (getp i);
  when (pr_rings p >? 0) (ringbuf_disown_all kend i);;
  when (negb (pr_trapframe p =? 0)) (mem_op (kfree kend (pr_trapframe p)));;
  pmodify i (set_pr_trapframe 0);;
  p ← gets (getp i);
  when (negb (pr_pagetable p =? 0)) (mem_op (proc_freepagetable (pr_pagetable p) (pr_sz p)));;
  pmodify i cleared.

(** [allocproc] from [found]. *)
Definition allocproc_found (i : nat) : K (option nat) :=
  pid ← allocpid;
  pmodify i (set_pr_pid pid);;
  pmodify i (set_pr_state USED);;
  tf ← mem_op kalloc;
  pmodify i (set_pr_trapframe tf);;
  if tf =? 0 then
    freeproc i;;
    punlock i;;
    mret None
  else
    pt ← mem_op (proc_pagetable tf);
    pmodify i (set_pr_pagetable pt);;
    if pt =? 0 then
      freeproc i;;
      punlock i;;
      mret None
    else
      pmodify i (fun p => set_pr_context (forkret_addr, u64 (pr_kstack p + PGSIZE)) p);;
      mret (Some i).

Definition allocproc : K (option nat) :=
  r ← for_loop NPROCn 0 (fun k =>
    let i := Z.to_nat k in
    plock i;;
    p ← gets (getp i);
    if bool_decide (pr_state p = UNUSED) then
      r ← allocproc_found i;
      mret (Some r)
    else
      punlock i;;
      mret None);
  mret (default None r).

Definition set_tf (tf off v : Z) : K unit :=
  mem_op (modify (fun k => set_k_mem (st64 (k_mem k) (tf + off) v) k)).
Definition get_tf (tf off : Z) : K Z := mem_op (gets (fun k => ld64 (k_mem k) (tf + off))).

Definition userinit : K unit :=
  r ← allocproc;
  modify (set_kn_initproc r);;
  match r with
  | None => panic "kerneltrap"
  | Some i =>
      p ← gets (getp i);
      mem_op (uvmfirst (pr_pagetable p) (bytes_mem initcode) 0 (Z.of_nat (length initcode)));;
      pmodify i (set_pr_sz PGSIZE);;
      set_tf (pr_trapframe p) TF_EPC 0;;
      set_tf (pr_trapframe p) TF_SP PGSIZE;;
      pmodify i (fun p => set_pr_name (KString.safestrcpy (pr_name p) 0 (bytes_mem initcode_name) 0 16) p);;
      cwd ← fop (namei de nm slash);
      pmodify i (set_pr_cwd cwd);;
      pmodify i (set_pr_state RUNNABLE);;
      punlock i
  end.

Definition growproc (n : Z) : K Z :=
  i ← curproc;
  p ← gets (getp i);
  if n >? 0 then
    sz ← mem_op (uvmalloc kend (pr_pagetable p) (pr_sz p) (u64 (pr_sz p + n)) PTE_W);
    if sz =? 0 then mret (-1)
    else pmodify i (set_pr_sz sz);; mret 0
  else if n <? 0 then
    sz ← mem_op (uvmdealloc kend (pr_pagetable p) (pr_sz p) (u64 (pr_sz p + n)));
    pmodify i (set_pr_sz sz);;
    mret 0
  else
    pmodify i (set_pr_sz (pr_sz p));;
    mret 0.

(** The open files and the current directory of the child [np]. *)
Definition fork_files (i np : nat) : K unit :=
  for_loop (Z.to_nat NOFILE) 0 (fun fd =>
    p ← gets (getp i);
    match pr_ofile p !! fd with
    | None => mret (@None unit)
    | Some f =>
        g ← filedup f;
        pmodify np (fun q => set_pr_ofile (<[fd := g]> (pr_ofile q)) q);;
        mret None
    end);;
  mret tt.

Definition fork : K Z :=
  i ← curproc;
  r ← allocproc;
  match r with
  | None => mret (-1)
  | Some np =>
      p ← gets (getp i);
      q ← gets (getp np);
      c ← mem_op (uvmcopy kend (pr_pagetable p) (pr_pagetable q) (pr_sz p));
      if c <? 0 then
        freeproc np;;
        punlock np;;
        mret (-1)
      else
        pmodify np (set_pr_sz (pr_sz p));;
        mem_op (modify (fun k => set_k_mem
          (mcopy (Z.to_nat TF_SIZE) (k_mem k) (pr_trapframe q) (k_mem k) (pr_trapframe p)) k));;
        set_tf (pr_trapframe q) (TF_A 0) 0;;
        fork_files i np;;
        cwd ← fop (idup (default 0%nat (pr_cwd p)));
        pmodify np (set_pr_cwd (Some cwd));;
        pmodify np (fun q => set_pr_name (KString.safestrcpy (pr_name q) 0 (pr_name p) 0 16) q);;
        pid ← gets (fun s => pr_pid (getp np s));
        punlock np;;
        kacquire kn_wait_lock set_kn_wait_lock;;
        pmodify np (set_pr_parent (Some i));;
        krelease kn_wait_lock set_kn_wait_lock;;
        plock np;;
        pmodify np (set_pr_state RUNNABLE);;
        punlock np;;
        mret pid
  end.

Definition reparent (i : nat) : K unit :=
  for_loop NPROCn 0 (fun k =>
    pp ← gets (getp (Z.to_nat k));
    when (bool_decide (pr_parent pp = Some i))
      (init ← gets kn_initproc;
       pmodify (Z.to_nat k) (set_pr_parent init);;
       wakeup (proc_chan init));;
    mret (@None unit));;
  mret tt.

(** Close all open files. *)
Definition exit_files (i : nat) : K unit :=
  for_loop (Z.to_nat NOFILE) 0 (fun fd =>
    p ← gets (getp i);
    match pr_ofile p !! fd with
    | None => mret (@None unit)
    | Some f =>
        fileclose kend f;;
        pmodify i (fun p => set_pr_ofile (delete fd (pr_ofile p)) p);;
        mret None
    end);;
  mret tt.

(** The part of [exit] that runs with [wait_lock] held. *)
Definition exit_zombie (i : nat) (status : Z) : K unit :=
  kacquire kn_wait_lock set_kn_wait_lock;;
  reparent i;;
  p ← gets (getp i);
  wakeup (proc_chan (pr_parent p));;
  plock i;;
  pmodify i (set_pr_xstate status);;
  pmodify i (set_pr_state ZOMBIE);;
  krelease kn_wait_lock set_kn_wait_lock;;
  sched.

Definition exit (status : Z) : K unit :=
  i ← curproc;
  init ← gets kn_initproc;
  if bool_decide (init = Some i) then panic "init exiting"
  else
    exit_files i;;
    begin_op;;
    p ← gets (getp i);
    fop (iput (default 0%nat (pr_cwd p)));;
    end_op;;
    pmodify i (set_pr_cwd None);;
    exit_zombie i status;;
    panic "zombie exit".

(** One scan of the process table: the result to return, or whether there
    are children. *)
Definition wait_scan (i : nat) (addr : Z) : K (option Z) :=
  for_loop NPROCn 0 (fun k =>
    let c := Z.to_nat k in
    pp ← gets (getp c);
    if bool_decide (pr_parent pp = Some i) then
      plock c;;
      pp ← gets (getp c);
      if bool_decide (pr_state pp = ZOMBIE) then
        pt ← gets (fun s => pr_pagetable (getp i s));
        r ← (if addr =? 0 then mret 0
             else mem_op (copyout_obj pt addr (st32 ∅ 0 (pr_xstate pp)) 0 4));
        if r <? 0 then
          punlock c;;
          krelease kn_wait_lock set_kn_wait_lock;;
          mret (Some (-1))
        else
          freeproc c;;
          punlock c;;
          krelease kn_wait_lock set_kn_wait_lock;;
          mret (Some (pr_pid pp))
      else
        punlock c;;
        mret None
    else mret None).

Definition havekids (i : nat) (s : kern L) : bool :=
  existsb (fun c => bool_decide (pr_parent (getp c s) = Some i)) (seq 0 NPROCn).

(** One round of the loop of [wait]: it returns or goes to sleep, and a
    process that wakes up runs [sleep_resume] and the next round. *)
Definition wait_round (i : nat) (addr : Z) : K Z :=
  r ← wait_scan i addr;
  match r with
  | Some r => mret r
  | None =>
      kids ← gets (havekids i);
      if negb kids then
        krelease kn_wait_lock set_kn_wait_lock;;
        mret (-1)
      else
        k ← killed i;
        if (k : bool) then
          krelease kn_wait_lock set_kn_wait_lock;;
          mret (-1)
        else
          Kernel.sleep (proc_chan (Some i)) kn_wait_lock set_kn_wait_lock;;
          mret 0
  end.

Definition wait (addr : Z) : K Z :=
  i ← curproc;
  kacquire kn_wait_lock set_kn_wait_lock;;
  wait_round i addr.

Definition wait_resume (i : nat) (addr : Z) : K Z :=
  sleep_resume kn_wait_lock set_kn_wait_lock;;
  wait_round i addr.

Definition kill (pid : Z) : K Z :=
  r ← for_loop NPROCn 0 (fun k =>
    let i := Z.to_nat k in
    plock i;;
    p ← gets (getp i);
    if pr_pid p =? pid then
      pmodify i (set_pr_killed true);;
      when (bool_decide (pr_state p = SLEEPING)) (pmodify i (set_pr_state RUNNABLE));;
      punlock i;;
      mret (Some 0)
    else
      punlock i;;
      mret None);
  mret (default (-1) r).

(** ** The scheduler *)

(** [swtch i] runs process [i] until it switches back. *)
Context (swtch : nat -> K unit).

Definition schedule (i : nat) : K unit :=
  plock i;;
  p ← gets (getp i);
  when (bool_decide (pr_state p = RUNNABLE))
    (pmodify i (set_pr_state RUNNING);;
     modify (set_kn_cur (Some i));;
     swtch i;;
     modify (set_kn_cur None));;
  punlock i.

(** One round of the endless loop. *)
Definition scheduler_round : K unit :=
  cpu_op (intr_on 0);;
  for_loop NPROCn 0 (fun k => schedule (Z.to_nat k);; mret (@None unit));;
  mret tt.

Fixpoint scheduler_rounds (n : nat) : K unit :=
  match n with
  | O => out_of_fuel
  | S n => scheduler_round;; scheduler_rounds n
  end.

Definition scheduler (n : nat) : K unit :=
  modify (set_kn_cur None);;
  scheduler_rounds n.

Definition forkret (usertrapret : K unit) : K unit :=
  i ← curproc;
  punlock i;;
  first ← gets kn_first;
  (if (first : bool) then
     modify (set_kn_first false);;
     fop (fsinit ROOTDEV)
   else mret tt);;
  usertrapret.
End proc.
