(* ===== verification/Args.v ===== *)
(** The arguments of system calls: the first part of src/src/kernel/syscall.c. *)

From S2P Require Import Prelude Ring Spinlock Mem Sleeplock Strings Kalloc Vm Bio Log BlockLayer Fs Pipe Kernel File Ringbuf Proc.

Section args.
Context {L : Type} `{BlockLayer L}.
Abbreviation K := (M (kern L)).

(** [*ip], or none for the result -1. *)
Definition fetchaddr (addr : Z) : K (option Z) :=
  i ← curproc;
  p ← gets (getp i);
  if (addr >=? pr_sz p) || (u64 (addr + 8) >? pr_sz p) then mret None
  else
    '(r, m) ← mem_op (copyin_obj (pr_pagetable p) ∅ 0 addr 8);
    mret (if negb (r =? 0) then None else Some (ld64 m 0)).

Definition fetchstr (addr buf max : Z) : K Z :=
  i ← curproc;
  p ← gets (getp i);
  r ← mem_op (copyinstr (pr_pagetable p) buf addr max);
  if r <? 0 then mret (-1)
  else
    m ← mem_op (gets k_mem);
    match KString.strlen (Z.to_nat max) m buf with
    | Some n => mret n
    | None => out_of_fuel
    end.

Definition argraw (n : Z) : K Z :=
  i ← curproc;
  p ← gets (getp i);
  if (0 <=? n) && (n <=? 5) then get_tf (pr_trapframe p) (TF_A n)
  else panic "argraw".

Definition argint (n : Z) : K Z := x ← argraw n; mret (i32 x).
Definition argaddr (n : Z) : K Z := argraw n.
Definition argstr (n buf max : Z) : K Z := addr ← argaddr n; fetchstr addr buf max.
End args.
