(* ===== verification/Sysfile.v ===== *)
(** System calls on files: src/src/kernel/sysfile.c.

    The local arrays and structures of a call are addresses of kernel
    memory. *)

From S2P Require Import Prelude Ring Spinlock Mem Sleeplock Strings Kalloc Vm Bio Log BlockLayer Fs Pipe Kernel File Ringbuf Proc Args.

Definition O_RDONLY : Z := 0x000.
Definition O_WRONLY : Z := 0x001.
Definition O_RDWR : Z := 0x002.
Definition O_CREATE : Z := 0x200.
Definition O_TRUNC : Z := 0x400.

Section sysfile.
Context {L : Type} `{BlockLayer L}.
Abbreviation K := (M (kern L)).
Context (kend : Z).
Context (dev_read dev_write : Z -> option (bool -> Z -> Z -> K Z)) (st0 : mem).
(** The locals of [dirlookup] and [namei]; of the calls: [name], [path],
    [old], [new] and the [de] of [isdirempty] and [sys_unlink]; the strings
    "." and "..". *)
Context (de nm name path old new de' dot dotdot : Z).

Definition argfd (n : Z) : K (option (Z * nat)) :=
  fd ← argint n;
  if (fd <? 0) || (fd >=? NOFILE) then mret None
  else
    i ← curproc;
    p ← gets (getp i);
    mret (match pr_ofile p !! fd with Some f => Some (fd, f) | None => None end).

Definition fdalloc (f : nat) : K Z :=
  i ← curproc;
  r ← for_loop (Z.to_nat NOFILE) 0 (fun fd =>
    p ← gets (getp i);
    match pr_ofile p !! fd with
    | None =>
        pmodify i (fun p => set_pr_ofile (<[fd := f]> (pr_ofile p)) p);;
        mret (Some fd)
    | Some _ => mret None
    end);
  mret (default (-1) r).

Definition sys_dup : K Z :=
  a ← argfd 0;
  match a with
  | None => mret (-1)
  | Some (_, f) =>
      fd ← fdalloc f;
      if fd <? 0 then mret (-1)
      else
        filedup f;;
        mret fd
  end.

Definition sys_read : K Z :=
  p ← argaddr 1;
  n ← argint 2;
  a ← argfd 0;
  match a with
  | None => mret (-1)
  | Some (_, f) => fileread dev_read f p n
  end.

Definition sys_write : K Z :=
  p ← argaddr 1;
  n ← argint 2;
  a ← argfd 0;
  match a with
  | None => mret (-1)
  | Some (_, f) => filewrite dev_write f p n
  end.

Definition clear_fd (fd : Z) : K unit :=
  i ← curproc;
  pmodify i (fun p => set_pr_ofile (delete fd (pr_ofile p)) p).

Definition sys_close : K Z :=
  a ← argfd 0;
  match a with
  | None => mret (-1)
  | Some (fd, f) =>
      clear_fd fd;;
      fileclose kend f;;
      mret 0
  end.

Definition sys_fstat : K Z :=
  st ← argaddr 1;
  a ← argfd 0;
  match a with
  | None => mret (-1)
  | Some (_, f) => filestat st0 f st
  end.

(** [ip->nlink += d; iupdate(ip)], the field a short. *)
Definition add_nlink (i : nat) (d : Z) : K unit :=
  fop (modify (updi i (fun x => set_i_nlink (i16 (i_nlink x + d)) x));; iupdate i).

(** The code at [bad] of [sys_link]. *)
Definition link_bad (ip : nat) : K Z :=
  fop (ilock ip);;
  add_nlink ip (-1);;
  fop (iunlockput ip);;
  end_op;;
  mret (-1).

Definition sys_link : K Z :=
  r ← argstr 0 old (Z.of_nat MAXPATH);
  if r <? 0 then mret (-1)
  else
    r ← argstr 1 new (Z.of_nat MAXPATH);
    if r <? 0 then mret (-1)
    else
      begin_op;;
      o ← fop (namei de nm old);
      match o with
      | None => end_op;; mret (-1)
      | Some ip =>
          fop (ilock ip);;
          x ← fop (gets (geti ip));
          if i_type x =? T_DIR then
            fop (iunlockput ip);;
            end_op;;
            mret (-1)
          else
            add_nlink ip 1;;
            fop (iunlock ip);;
            d ← fop (nameiparent de new name);
            match d with
            | None => link_bad ip
            | Some dp =>
                fop (ilock dp);;
                y ← fop (gets (geti dp));
                x ← fop (gets (geti ip));
                r ← (if negb (i_dev y =? i_dev x) then mret (-1)
                     else fop (dirlink de dp name (i_inum x)));
                if r <? 0 then
                  fop (iunlockput dp);;
                  link_bad ip
                else
                  fop (iunlockput dp);;
                  fop (iput ip);;
                  end_op;;
                  mret 0
            end
      end.

Definition isdirempty (dp : nat) : M (fst L) bool :=
  x ← gets (geti dp);
  r ← for_loop (Z.to_nat ((i_size x - 2 * DESIZE + DESIZE - 1) / DESIZE)) 0 (fun k =>
    r ← readi dp false de' (2 * DESIZE + k * DESIZE) DESIZE;
    if negb (r =? DESIZE) then panic "isdirempty: readi"
    else
      m ← kop (gets k_mem);
      mret (if negb (ld16 m de' =? 0) then Some false else None));
  mret (default true r).

(** The code at [bad] of [sys_unlink]. *)
Definition unlink_bad (dp : nat) : K Z :=
  fop (iunlockput dp);;
  end_op;;
  mret (-1).

(** [sys_unlink] once [dp] is locked and [ip], with its entry at [off], is
    found. *)
Definition unlink_entry (dp ip : nat) (off : Z) : K Z :=
  fop (ilock ip);;
  x ← fop (gets (geti ip));
  if i_nlink x <? 1 then panic "unlink: nlink < 1"
  else
    empty ← (if i_type x =? T_DIR then fop (isdirempty ip) else mret true);
    if negb empty then
      fop (iunlockput ip);;
      unlink_bad dp
    else
      mem_op (kmemset de' 0 DESIZE);;
      r ← fop (writei dp false de' off DESIZE);
      if negb (r =? DESIZE) then panic "unlink: writei"
      else
        (if i_type x =? T_DIR then add_nlink dp (-1) else mret tt);;
        fop (iunlockput dp);;
        add_nlink ip (-1);;
        fop (iunlockput ip);;
        end_op;;
        mret 0.

Definition sys_unlink : K Z :=
  r ← argstr 0 path (Z.of_nat MAXPATH);
  if r <? 0 then mret (-1)
  else
    begin_op;;
    d ← fop (nameiparent de path name);
    match d with
    | None => end_op;; mret (-1)
    | Some dp =>
        fop (ilock dp);;
        m ← mem_op (gets k_mem);
        if (namecmp m name dot =? 0) || (namecmp m name dotdot =? 0) then unlink_bad dp
        else
          o ← fop (dirlookup de dp name);
          match o with
          | None => unlink_bad dp
          | Some (ip, off) => unlink_entry dp ip off
          end
    end.

(** The code at [fail] of [create]. *)
Definition create_fail (ip dp : nat) : K (option nat) :=
  fop (modify (updi ip (set_i_nlink 0));; iupdate ip);;
  fop (iunlockput ip);;
  fop (iunlockput dp);;
  mret None.

(** [create] once [ip] is allocated. *)
Definition create_new (ip dp : nat) (type major minor : Z) : K (option nat) :=
  fop (ilock ip);;
  fop (modify (updi ip (fun x => set_i_nlink 1 (set_i_devno major minor x)));; iupdate ip);;
  inum ← fop (gets (fun s => i_inum (geti ip s)));
  r ← (if type =? T_DIR then
         r ← fop (dirlink de ip dot inum);
         if r <? 0 then mret (-1)
         else
           pinum ← fop (gets (fun s => i_inum (geti dp s)));
           fop (dirlink de ip dotdot pinum)
       else mret 0);
  if r <? 0 then create_fail ip dp
  else
    r ← fop (dirlink de dp name inum);
    if r <? 0 then create_fail ip dp
    else
      (if type =? T_DIR then add_nlink dp 1 else mret tt);;
      fop (iunlockput dp);;
      mret (Some ip).

Definition create (type major minor : Z) : K (option nat) :=
  d ← fop (nameiparent de path name);
  match d with
  | None => mret None
  | Some dp =>
      fop (ilock dp);;
      o ← fop (dirlookup de dp name);
      match o with
      | Some (ip, _) =>
          fop (iunlockput dp);;
          fop (ilock ip);;
          x ← fop (gets (geti ip));
          if (type =? T_FILE) && ((i_type x =? T_FILE) || (i_type x =? T_DEVICE)) then mret (Some ip)
          else
            fop (iunlockput ip);;
            mret None
      | None =>
          y ← fop (gets (geti dp));
          n ← fop (ialloc (i_dev y) type);
          match n with
          | None => fop (iunlockput dp);; mret None
          | Some ip => create_new ip dp type major minor
          end
      end
  end.

(** The inode [sys_open] works on, locked. *)
Definition open_inode (omode : Z) : K (option nat) :=
  if has omode O_CREATE then create T_FILE 0 0
  else
    o ← fop (namei de nm path);
    match o with
    | None => mret None
    | Some ip =>
        fop (ilock ip);;
        x ← fop (gets (geti ip));
        if (i_type x =? T_DIR) && negb (omode =? O_RDONLY) then
          fop (iunlockput ip);;
          mret None
        else mret (Some ip)
    end.

(** A file and a descriptor; on failure the file is given back. *)
Definition open_file : K (option (nat * Z)) :=
  f ← filealloc;
  match f with
  | None => mret None
  | Some f =>
      fd ← fdalloc f;
      if fd <? 0 then
        fileclose kend f;;
        mret None
      else mret (Some (f, fd))
  end.

Definition sys_open : K Z :=
  omode ← argint 1;
  n ← argstr 0 path (Z.of_nat MAXPATH);
  if n <? 0 then mret (-1)
  else
    begin_op;;
    o ← open_inode omode;
    match o with
    | None => end_op;; mret (-1)
    | Some ip =>
        x ← fop (gets (geti ip));
        if (i_type x =? T_DEVICE) && ((i_major x <? 0) || (i_major x >=? NDEV)) then
          fop (iunlockput ip);;
          end_op;;
          mret (-1)
        else
          o ← open_file;
          match o with
          | None =>
              fop (iunlockput ip);;
              end_op;;
              mret (-1)
          | Some (f, fd) =>
              modify (updfile f (fun g =>
                set_fl_mode (negb (has omode O_WRONLY)) (has omode O_WRONLY || has omode O_RDWR)
                  (set_fl_ip ip
                    (if i_type x =? T_DEVICE then set_fl_major (i_major x) (set_fl_type FD_DEVICE g)
                     else set_fl_off 0 (set_fl_type FD_INODE g)))));;
              (if has omode O_TRUNC && (i_type x =? T_FILE) then fop (itrunc ip) else mret tt);;
              fop (iunlock ip);;
              end_op;;
              mret fd
          end
    end.

Definition sys_mkdir : K Z :=
  begin_op;;
  r ← argstr 0 path (Z.of_nat MAXPATH);
  o ← (if r <? 0 then mret None else create T_DIR 0 0);
  match o with
  | None => end_op;; mret (-1)
  | Some ip =>
      fop (iunlockput ip);;
      end_op;;
      mret 0
  end.

Definition sys_mknod : K Z :=
  begin_op;;
  major ← argint 1;
  minor ← argint 2;
  r ← argstr 0 path (Z.of_nat MAXPATH);
  o ← (if r <? 0 then mret None else create T_DEVICE (i16 major) (i16 minor));
  match o with
  | None => end_op;; mret (-1)
  | Some ip =>
      fop (iunlockput ip);;
      end_op;;
      mret 0
  end.

Definition sys_chdir : K Z :=
  i ← curproc;
  begin_op;;
  r ← argstr 0 path (Z.of_nat MAXPATH);
  o ← (if r <? 0 then mret None else fop (namei de nm path));
  match o with
  | None => end_op;; mret (-1)
  | Some ip =>
      fop (ilock ip);;
      x ← fop (gets (geti ip));
      if negb (i_type x =? T_DIR) then
        fop (iunlockput ip);;
        end_op;;
        mret (-1)
      else
        fop (iunlock ip);;
        p ← gets (getp i);
        fop (iput (default 0%nat (pr_cwd p)));;
        end_op;;
        pmodify i (set_pr_cwd (Some ip));;
        mret 0
  end.

(** The failures after [pipealloc]. *)
Definition pipe_fail (fds : list Z) (rf wf : nat) : K Z :=
  i ← curproc;
  pmodify i (fun p => set_pr_ofile (foldr delete (pr_ofile p) fds) p);;
  fileclose kend rf;;
  fileclose kend wf;;
  mret (-1).

Definition sys_pipe : K Z :=
  i ← curproc;
  fdarray ← argaddr 0;
  r ← pipealloc kend;
  match r with
  | None => mret (-1)
  | Some (rf, wf) =>
      fd0 ← fdalloc rf;
      if fd0 <? 0 then pipe_fail [] rf wf
      else
        fd1 ← fdalloc wf;
        if fd1 <? 0 then pipe_fail [fd0] rf wf
        else
          p ← gets (getp i);
          r ← mem_op (copyout_obj (pr_pagetable p) fdarray (st32 ∅ 0 fd0) 0 4);
          r ← (if r <? 0 then mret r
               else mem_op (copyout_obj (pr_pagetable p) (u64 (fdarray + 4)) (st32 ∅ 0 fd1) 0 4));
          if r <? 0 then pipe_fail [fd0; fd1] rf wf
          else mret 0
  end.
End sysfile.
