(* ===== verification/ProcProps.v ===== *)
(** Properties of processes: what [sleep], [wakeup], [sched], [kill], [exit],
    [wait] and the scheduler do to the process table. *)

From S2P Require Import Prelude Ring Spinlock Mem Sleeplock Strings Kalloc Vm Bio Log BlockLayer Fs Pipe Kernel KernelSpec File Ringbuf Proc.

(** A spinlock that is a field of the kernel state of its own. *)
Class KLock {L} (get : kern L -> bool) (set : bool -> kern L -> kern L) : Prop := {
  kl_get v s : get (set v s) = v;
  kl_get_cpu c s : get (set_kn_cpu c s) = get s;
  kl_get_proc P s : get (set_kn_proc P s) = get s;
  kl_set_cpu v c s : set v (set_kn_cpu c s) = set_kn_cpu c (set v s);
  kl_set_proc v P s : set v (set_kn_proc P s) = set_kn_proc P (set v s);
  kl_proc v s : kn_proc (set v s) = kn_proc s;
  kl_cpu v s : kn_cpu (set v s) = kn_cpu s;
  kl_cur v s : kn_cur (set v s) = kn_cur s;
  kl_init v s : kn_initproc (set v s) = kn_initproc s }.

#[export] Instance wait_klock L : KLock (L := L) kn_wait_lock set_kn_wait_lock.
Proof. by split. Qed.
#[export] Instance ticks_klock L : KLock (L := L) kn_ticks_lock set_kn_ticks_lock.
Proof. by split. Qed.
#[export] Instance ft_klock L : KLock (L := L) kn_ft_lock set_kn_ft_lock.
Proof. by split. Qed.
#[export] Instance pid_klock L : KLock (L := L) kn_pid_lock set_kn_pid_lock.
Proof. by split. Qed.
#[export] Instance rb_klock L : KLock (L := L) kn_rb_lock set_kn_rb_lock.
Proof. by split. Qed.

Lemma settle_pushed c : cpu_ok c -> settle (pushed c) = pushed c.
Proof.
  intros [Hn _]. unfold settle. assert ((c_noff (pushed c) =? 0) = false) as -> by (apply Z.eqb_neq; simpl; lia).
  done.
Qed.

Lemma cpu_eta {L} c (s : kern L) : kn_cpu s = c -> set_kn_cpu c s = s.
Proof. by destruct s; simpl; intros <-. Qed.

Section procs.
Context {L : Type} `{BlockLayer L}.
Abbreviation K := (M (kern L)).

(** ** Sleeping *)

(** [sched] called with the lock of the current process, no other, and a
    state other than [RUNNING]. *)
Lemma sched_ok {A} p c (s : kern L) :
  cpu_ok c -> c_noff c = 0 -> kn_cpu s = pushed c -> kn_cur s = Some p ->
  pr_lock (getp p s) = true -> pr_state (getp p s) <> RUNNING ->
  sched (A := A) s = Sleep swtch_chan s.
Proof.
  intros Hc Hn Es Hcur Hl Hst. unfold sched.
  assert (cpu_ok (kn_cpu s)) as Hcs by (rewrite Es; by apply pushed_ok).
  assert (set_kn_cpu (settle (kn_cpu s)) s = s) as Eset by (apply cpu_eta; by rewrite Es, settle_pushed).
  assert (curproc s = Ok p s) as Hcp by (rewrite (curproc_ok s p Hcs Hcur); by rewrite Eset).
  mstep Hcp. rewrite gets_bind. unfold p_locked at 1. rewrite Hl. cbn [negb].
  rewrite gets_bind, Es. assert ((c_noff (pushed c) =? 1) = true) as -> by (apply Z.eqb_eq; simpl; lia). cbn [negb].
  rewrite gets_bind. rewrite bool_decide_eq_false_2 by done.
  assert (cpu_op (intr_get 0) s = Ok false (set_kn_cpu (kn_cpu s) s)) as Hi.
  { unfold cpu_op, zoom, intr_get, gets. cbn [m_cpu]. fold (c_intr (kn_cpu s)). rewrite Es at 1. by rewrite pushed_intr. }
  mstep Hi. by rewrite cpu_eta.
Qed.

(** [sleep] from a thread whose only lock is [get]. *)
Lemma sleep_ok get set `{!KLock get set} ch p c (s : kern L) :
  cpu_ok c -> c_noff c = 0 -> kn_cpu s = pushed c -> kn_cur s = Some p ->
  get s = true -> pr_lock (getp p s) = false ->
  exists P, Kernel.sleep ch get set s = Sleep swtch_chan (set_kn_proc P (set false s)) /\
    forall i, P !!! i = if decide (i = p)
                        then set_pr_state SLEEPING (set_pr_chan (Some ch) (set_pr_lock true (getp p s)))
                        else getp i s.
Proof.
  intros Hc Hn Es Hcur Hg Hl. unfold Kernel.sleep.
  assert (cpu_ok (kn_cpu s)) as Hcs by (rewrite Es; by apply pushed_ok).
  assert (set_kn_cpu (settle (kn_cpu s)) s = s) as Eset by (apply cpu_eta; by rewrite Es, settle_pushed).
  assert (curproc s = Ok p s) as Hcp by (rewrite (curproc_ok s p Hcs Hcur); by rewrite Eset).
  mstep Hcp. mstep (plock_ok p s Hl).
  set (s1 := updp p (set_pr_lock true) (set_kn_cpu (pushed (kn_cpu s)) s)).
  assert (get s1 = true) as Hg1 by (unfold s1, updp; by rewrite kl_get_proc, kl_get_cpu).
  assert (kn_cpu (set false s1) = pushed (kn_cpu s)) as Hc1 by by rewrite kl_cpu.
  mstep (krelease_ok get set (kn_cpu s) s1 Hcs Hg1 Hc1).
  unfold sleep_on, pmodify. rewrite !modify_bind.
  set (s2 := updp p (set_pr_state SLEEPING) _).
  assert (forall i, getp i s2 = if decide (i = p)
            then set_pr_state SLEEPING (set_pr_chan (Some ch) (set_pr_lock true (getp p s))) else getp i s) as Hp.
  { intros i. unfold s2. rewrite !getp_updp.
    assert (forall j, getp j (set_kn_cpu (settle (kn_cpu s)) (set false s1)) = getp j s1) as E
      by (intros; unfold getp; simpl; by rewrite kl_proc).
    rewrite !E. unfold s1. rewrite !getp_updp. by repeat case_decide. }
  exists (kn_proc s2). split; [|exact Hp].
  assert (s2 = set_kn_proc (kn_proc s2) (set false s)) as E2.
  { assert (set_kn_cpu (settle (kn_cpu s)) (set false s1) = set_kn_proc (kn_proc s1) (set false s)) as E1.
    { unfold s1 at 1, updp. rewrite kl_set_proc, kl_set_cpu.
      trans (set_kn_cpu (settle (kn_cpu s)) (set_kn_proc (kn_proc s1) (set false s))); [done|].
      apply cpu_eta. simpl. by rewrite kl_cpu, Es, settle_pushed. }
    unfold s2. by rewrite E1. }
  rewrite (sched_ok p c s2); [by rewrite <- E2|done|done| | | |].
  - rewrite E2. simpl. by rewrite kl_cpu.
  - rewrite E2. simpl. by rewrite kl_cur.
  - by rewrite Hp, decide_True.
  - by rewrite Hp, decide_True.
Qed.

(** ** Killing *)

(** [kill]'s change to its victim. *)
Definition struck (p : proc) : proc :=
  let p := set_pr_killed true p in
  if bool_decide (pr_state p = SLEEPING) then set_pr_state RUNNABLE p else p.

(** Every process lock free. *)
Definition unlocked (s : kern L) : Prop := forall i, (i < NPROCn)%nat -> pr_lock (getp i s) = false.

(** A state that differs from [s] in nothing but [intena] and in how the
    process table is stored. *)
Definition like (s s1 : kern L) : Prop :=
  exists P c, s1 = with_procs P c s /\ cpu_ok c /\ settle c = settle (kn_cpu s) /\ forall i, P !!! i = getp i s.

Lemma like_refl s : cpu_ok (kn_cpu s) -> like s s.
Proof. intros Hc. exists (kn_proc s), (kn_cpu s). by destruct s. Qed.

Lemma like_getp s s1 i : like s s1 -> getp i s1 = getp i s.
Proof. intros (P & c & -> & _ & _ & HP). apply HP. Qed.

Lemma like_cpu s s1 : like s s1 -> cpu_ok (kn_cpu s1) /\ settle (kn_cpu s1) = settle (kn_cpu s).
Proof. by intros (P & c & -> & Hc & Hs & _). Qed.

(** A look at process [i] under its lock. *)
Lemma look_ok s s1 i :
  like s s1 -> pr_lock (getp i s) = false ->
  exists s2, (plock i;; punlock i) s1 = Ok tt s2 /\ like s s2 /\ kn_cpu s2 = settle (kn_cpu s).
Proof.
  intros (P & c & -> & Hc & Hs & HP) Hl.
  erewrite bind_ok; [|apply plock_ok; by rewrite <- HP in Hl].
  erewrite punlock_ok; [|exact Hc|done|by rewrite getp_updp_eq].
  eexists. split; [done|]. split; [|done].
  eexists (kn_proc _), (settle c). split; [reflexivity|]. split; [done|]. split; [by rewrite settle_settle|].
  intros j. change (kn_proc ?x !!! j) with (getp j x). rewrite !getp_updp.
  case_decide as E; [|apply HP]. subst j. rewrite decide_True by done.
  etrans; [apply unlock_lock|apply HP]. by rewrite <- HP in Hl.
Qed.

Lemma kill_found pid i s s1 :
  like s s1 -> pr_lock (getp i s) = false -> pr_pid (getp i s) = pid ->
  exists P, (plock i;;
    p ← gets (getp i);
    if pr_pid p =? pid then
      pmodify i (set_pr_killed true);;
      when (bool_decide (pr_state p = SLEEPING)) (pmodify i (set_pr_state RUNNABLE));;
      punlock i;;
      mret (Some 0)
    else
      punlock i;;
      mret None) s1 = Ok (Some 0) (with_procs P (settle (kn_cpu s)) s) /\
    forall j, P !!! j = if decide (j = i) then struck (getp i s) else getp j s.
Proof.
  intros (P & c & -> & Hc & Hs & HP) Hl Hpid. rewrite <- HP in Hl, Hpid.
  erewrite bind_ok; [|by apply plock_ok]. rewrite gets_bind. autorewrite with kernel. rewrite lookup_total_insert_eq.
  change (pr_pid (set_pr_lock true ?x)) with (pr_pid x). change (pr_state (set_pr_lock true ?x)) with (pr_state x).
  rewrite Hpid, Z.eqb_refl. unfold pmodify. rewrite modify_bind. autorewrite with kernel.
  rewrite lookup_total_insert_eq, insert_insert_eq.
  assert (forall q, pr_lock q = true ->
    exists s2, (punlock i;; mret (Some 0)) (with_procs (<[i := q]> P) (pushed c) s) = Ok (Some 0) s2 /\
      s2 = with_procs (<[i := set_pr_lock false q]> P) (settle (kn_cpu s)) s) as Hend.
  { intros q Hq. eexists. split; [|reflexivity].
    erewrite bind_ok; [|apply (punlock_ok i c); [done|done|by autorewrite with kernel; rewrite lookup_total_insert_eq]].
    autorewrite with kernel. by rewrite lookup_total_insert_eq, insert_insert_eq, Hs. }
  unfold struck. rewrite <- HP. change (pr_state (set_pr_killed true ?x)) with (pr_state x).
  destruct (bool_decide (pr_state (P !!! i) = SLEEPING)) eqn:Eb; cbn [when]; rewrite ?modify_bind, ?ret_bind;
    autorewrite with kernel; rewrite ?lookup_total_insert_eq, ?insert_insert_eq;
    (edestruct Hend as (s2 & Hrun & ->); [|eexists; split; [exact Hrun|]]; [done|]);
    intros j; rewrite lookup_procs; (destruct (decide (j = i)) as [->|]; [|apply HP]);
    clear -Hl; destruct (P !!! i); simpl in *; by subst.
Qed.

(** [kill(pid)] strikes the first process of the table with that pid: it
    is marked killed, made runnable if it sleeps, and 0 is returned; no other
    process changes.  When no process has the pid the result is -1 and nothing
    changes. *)
Theorem kill_correct pid s :
  cpu_ok (kn_cpu s) -> unlocked s ->
  (exists i P, (i < NPROCn)%nat /\ pr_pid (getp i s) = pid /\
     (forall j, (j < i)%nat -> pr_pid (getp j s) <> pid) /\
     kill pid s = Ok 0 (with_procs P (settle (kn_cpu s)) s) /\
     forall j, P !!! j = if decide (j = i) then struck (getp i s) else getp j s) \/
  (forall i, (i < NPROCn)%nat -> pr_pid (getp i s) <> pid) /\
  exists s', kill pid s = Ok (-1) s' /\ like s s'.
Proof.
  intros Hc Hl. unfold kill.
  match goal with |- context [for_loop NPROCn 0 ?b] => set (body := b) end.
  destruct (for_loop_find (fun j => pr_pid (getp (Z.to_nat j) s) =? pid) (like s) body NPROCn 0 s)
    as [(s' & Hrun & Hlk & Hall)|(j & s1 & Hj & Hlk & Hpj & Hall & Hfin)].
  - by apply like_refl.
  - intros j s1 Hj Hlk Hp. destruct (look_ok s s1 (Z.to_nat j) Hlk) as (s2 & H2 & Hlk2 & _); [apply Hl; lia|].
    exists s2. split; [|done]. apply bind_Ok_inv in H2 as ([] & t & Ha & Hb). unfold body. mstep Ha.
    rewrite gets_bind. assert (pr_pid (getp (Z.to_nat j) t) = pr_pid (getp (Z.to_nat j) s)) as E.
    { destruct Hlk as (P & c & -> & Hcc & _ & HP). rewrite plock_ok in Ha by (rewrite getp_with, HP; apply Hl; lia).
      injection Ha as <-. rewrite getp_updp_eq. simpl. f_equal. apply HP. }
    rewrite E, Hp. by mstep Hb.
  - right. split.
    + intros i Hi E. specialize (Hall (Z.of_nat i)). rewrite Nat2Z.id, E, Z.eqb_refl in Hall. discriminate Hall. lia.
    + exists s'. split; [|done]. by mstep Hrun.
  - left. apply Z.eqb_eq in Hpj.
    destruct (kill_found pid (Z.to_nat j) s s1 Hlk) as (P & Hb & HP); [apply Hl; lia|done|].
    exists (Z.to_nat j), P. split; [lia|]. split; [done|]. split.
    + intros k Hk E. specialize (Hall (Z.of_nat k)). rewrite Nat2Z.id, E, Z.eqb_refl in Hall. discriminate Hall. lia.
    + split; [|done]. by mstep (Hfin _ _ Hb).
Qed.

(** ** No lost wakeup *)


(** ** Exiting *)

(** The children of [i] go to [init]. *)
Definition adopt (init : option nat) (i : nat) (p : proc) : proc :=
  if bool_decide (pr_parent p = Some i) then set_pr_parent init p else p.

(** Whether one of the first [n] processes is a child of [i]. *)
Definition child_below (i : nat) (s : kern L) (n : nat) : bool :=
  existsb (fun k => bool_decide (pr_parent (getp k s) = Some i)) (seq 0 n).

(** What [reparent(i)] has made of process [k] after [n] rounds. *)
Definition reparented (i n k : nat) (s : kern L) : proc :=
  let p := if decide (k < n)%nat then adopt (kn_initproc s) i (getp k s) else getp k s in
  if child_below i s n then woken_up (proc_chan (kn_initproc s)) (kn_cur s) k p else p.

Lemma child_below_S i s n :
  child_below i s (S n) = child_below i s n || bool_decide (pr_parent (getp n s) = Some i).
Proof. unfold child_below. rewrite seq_S, existsb_app. simpl. by rewrite orb_false_r. Qed.

Lemma woken_up_idem ch me k p : woken_up ch me k (woken_up ch me k p) = woken_up ch me k p.
Proof.
  unfold woken_up. destruct (negb _ && sleeps_on ch p) eqn:E; [|by rewrite E].
  by destruct (negb _ && sleeps_on ch (set_pr_state RUNNABLE p)).
Qed.
Lemma woken_up_parent ch me k v p : woken_up ch me k (set_pr_parent v p) = set_pr_parent v (woken_up ch me k p).
Proof. unfold woken_up. change (sleeps_on ch (set_pr_parent v p)) with (sleeps_on ch p). by destruct (_ && _). Qed.
Lemma woken_up_lock ch me k p : pr_lock (woken_up ch me k p) = pr_lock p.
Proof. unfold woken_up. by destruct (_ && _). Qed.
Lemma woken_up_parent_of ch me k p : pr_parent (woken_up ch me k p) = pr_parent p.
Proof. unfold woken_up. by destruct (_ && _). Qed.
Lemma reparented_lock i n k s : pr_lock (reparented i n k s) = pr_lock (getp k s).
Proof.
  unfold reparented, adopt. destruct (child_below i s n); rewrite ?woken_up_lock;
    destruct (decide _); try done; by destruct (bool_decide _).
Qed.

Lemma reparent_ok i (s : kern L) :
  cpu_ok (kn_cpu s) -> settle (kn_cpu s) = kn_cpu s ->
  (forall k, (k < NPROCn)%nat -> kn_cur s <> Some k -> pr_lock (getp k s) = false) ->
  exists P, reparent i s = Ok tt (with_procs P (kn_cpu s) s) /\
    forall k, (k < NPROCn)%nat -> P !!! k = reparented i NPROCn k s.
Proof.
  intros Hc Hset Hl. unfold reparent.
  set (I := fun (j : Z) (s1 : kern L) => exists P, s1 = with_procs P (kn_cpu s) s /\
    forall k, (k < NPROCn)%nat -> P !!! k = reparented i (Z.to_nat j) k s).
  match goal with |- context [for_loop NPROCn 0 ?b] =>
    destruct (for_loop_inv I b NPROCn 0 s) as (s' & Hrun & (P & -> & HP)) end.
  - exists (kn_proc s). split; [by destruct s|]. intros k Hk. unfold reparented. by rewrite decide_False by lia.
  - intros j s1 Hj (P & -> & HP). set (n := Z.to_nat j). replace (Z.to_nat (j + 1)) with (S n) in * by lia.
    rewrite gets_bind, getp_with. fold n in HP |- *.
    assert (pr_parent (P !!! n) = pr_parent (getp n s)) as Epar.
    { rewrite HP by lia. unfold reparented. rewrite decide_False by lia.
      destruct (child_below i s n); [apply woken_up_parent_of|done]. }
    rewrite Epar. destruct (bool_decide (pr_parent (getp n s) = Some i)) eqn:Eb; cbn [when].
    + rewrite bind_bind, gets_bind. unfold pmodify. rewrite bind_bind, modify_bind. autorewrite with kernel.
      change (kn_initproc (with_procs _ _ s)) with (kn_initproc s).
      set (s1 := with_procs (<[n := _]> P) (kn_cpu s) s).
      assert (forall k, (k < NPROCn)%nat -> getp k s1 = if decide (k = n)
         then set_pr_parent (kn_initproc s) (P !!! n) else P !!! k) as H1 by (intros; apply lookup_procs).
      destruct (wakeup_ok (proc_chan (kn_initproc s)) s1 Hc) as (P2 & Hw & HP2).
      { intros k Hk Hne. rewrite H1 by done. specialize (Hl k Hk Hne).
        destruct (decide (k = n)) as [->|]; simpl; rewrite HP, reparented_lock by lia; done. }
      mstep Hw. eexists. split; [done|]. exists P2. split; [by change (kn_cpu s1) with (kn_cpu s); rewrite Hset|].
      intros k Hk. rewrite HP2, decide_True, H1 by done. change (kn_cur s1) with (kn_cur s).
      unfold reparented. replace (Z.to_nat (j + 1)) with (S n) by lia. rewrite child_below_S, Eb, orb_true_r.
      destruct (decide (k = n)) as [->|Hne].
      * rewrite decide_True, HP by lia. unfold reparented. rewrite decide_False by lia. unfold adopt. rewrite Eb.
        destruct (child_below i s n); [|done]. by rewrite <- woken_up_parent, woken_up_idem.
      * rewrite HP by done. unfold reparented.
        destruct (decide (k < n)%nat), (decide (k < S n)%nat); try lia;
          destruct (child_below i s n); by rewrite ?woken_up_idem.
    + eexists. split; [done|]. exists P. split; [done|]. intros k Hk. rewrite HP by done.
      unfold reparented. replace (Z.to_nat (j + 1)) with (S n) by lia. rewrite child_below_S, Eb, orb_false_r.
      destruct (decide (k = n)) as [->|Hne].
      * rewrite decide_False, decide_True by lia. unfold adopt. by rewrite Eb.
      * destruct (decide (k < n)%nat), (decide (k < S n)%nat); done || lia.
  - exists P. split; [by mstep Hrun|]. intros k Hk. rewrite HP by done. done.
Qed.

(** The exiting process as it enters the scheduler. *)
Definition zombie (status : Z) (p : proc) : proc :=
  set_pr_state ZOMBIE (set_pr_xstate status (set_pr_lock true p)).

Lemma exit_zombie_ok i status s :
  cpu_ok (kn_cpu s) -> c_noff (kn_cpu s) = 0 -> kn_cur s = Some i -> (i < NPROCn)%nat ->
  kn_wait_lock s = false -> unlocked s -> pr_parent (getp i s) <> Some i ->
  exists P, exit_zombie i status s = Sleep swtch_chan (with_procs P (pushed (kn_cpu s)) s) /\
    P !!! i = zombie status (getp i s) /\
    forall k, (k < NPROCn)%nat -> k <> i ->
      P !!! k = woken_up (proc_chan (pr_parent (getp i s))) (Some i) k (reparented i NPROCn k s).
Proof.
  intros Hc Hn Hcur Hi Hw Hl Hpar. unfold exit_zombie.
  assert (cpu_ok (pushed (kn_cpu s))) as Hcp by by apply pushed_ok.
  mstep (kacquire_ok kn_wait_lock set_kn_wait_lock s Hw).
  set (t := set_kn_wait_lock true s). set (c := kn_cpu s) in *.
  change (set_kn_wait_lock true (set_kn_cpu (pushed c) s)) with (with_procs (kn_proc s) (pushed c) t).
  destruct (reparent_ok i (with_procs (kn_proc s) (pushed c) t)) as (P1 & H1 & HP1);
    [done|by apply settle_pushed|by intros; apply Hl|].
  mstep H1. clear H1. change (reparented i NPROCn ?k (with_procs _ _ t)) with (reparented i NPROCn k s) in HP1.
  rewrite gets_bind. autorewrite with kernel.
  assert (reparented i NPROCn i s = getp i s) as Eself.
  { unfold reparented, adopt, woken_up. rewrite decide_True by done.
    rewrite (bool_decide_eq_false_2 _ Hpar), Hcur, (bool_decide_eq_true_2 (Some i = Some i)) by done.
    by destruct (child_below i s NPROCn). }
  rewrite HP1, Eself by done.
  destruct (wakeup_ok (proc_chan (pr_parent (getp i s))) (with_procs P1 (pushed c) t)) as (P2 & H2 & HP2); [done| |].
  { intros k Hk _. rewrite getp_with, HP1, reparented_lock by done. by apply Hl. }
  mstep H2. clear H2. autorewrite with kernel. rewrite settle_pushed by done.
  change (kn_cur (with_procs P1 (pushed c) t)) with (kn_cur s) in HP2. rewrite Hcur in HP2.
  assert (P2 !!! i = getp i s) as E2.
  { rewrite HP2, decide_True, getp_with, HP1, Eself by done. unfold woken_up.
    by rewrite (bool_decide_eq_true_2 (Some i = Some i)). }
  erewrite bind_ok; [|apply plock_ok; rewrite getp_with, E2; by apply Hl].
  unfold pmodify. rewrite !modify_bind. autorewrite with kernel.
  rewrite !lookup_total_insert_eq, !insert_insert_eq, E2.
  set (P3 := <[i := _]> P2).
  assert (forall k, P3 !!! k = if decide (k = i) then zombie status (getp i s) else P2 !!! k) as H3 by (intros k; apply lookup_procs).
  clearbody P3.
  mstep (krelease_ok kn_wait_lock set_kn_wait_lock (pushed c) (with_procs P3 (pushed (pushed c)) t) Hcp eq_refl eq_refl).
  rewrite settle_pushed by done.
  assert (set_kn_cpu (pushed c) (set_kn_wait_lock false (with_procs P3 (pushed (pushed c)) t)) = with_procs P3 (pushed c) s)
    as -> by (unfold with_procs, t; clear -Hw; destruct s; simpl in *; by subst).
  exists P3. split.
  - apply (sched_ok i c); [done|done|done|done| |]; by rewrite getp_with, H3, decide_True.
  - split; [by rewrite H3, decide_True|].
    intros k Hk Hne. by rewrite H3, decide_False, HP2, decide_True, getp_with, HP1.
Qed.

Lemma reparented_parent i n k s :
  pr_parent (reparented i n k s) =
  if decide (k < n)%nat then pr_parent (adopt (kn_initproc s) i (getp k s)) else pr_parent (getp k s).
Proof. unfold reparented. destruct (child_below i s n); rewrite ?woken_up_parent_of; by destruct (decide _). Qed.

Lemma reparented_sleeper i n k ch s :
  sleeps_on ch (getp k s) = true ->
  pr_state (reparented i n k s) = RUNNABLE \/ sleeps_on ch (reparented i n k s) = true.
Proof.
  intros Hs. unfold reparented.
  assert (sleeps_on ch (if decide (k < n)%nat then adopt (kn_initproc s) i (getp k s) else getp k s) = true) as Hp.
  { destruct (decide (k < n)%nat); [|done]. unfold adopt. by destruct (bool_decide _). }
  destruct (child_below i s n); [|by right]. unfold woken_up.
  destruct (_ && _); [by left|by right].
Qed.

(** C21: a process that exits becomes a zombie with its exit status and
    enters the scheduler holding no lock but its own; its children are handed
    to init, and its parent, if it is asleep in [wait], becomes runnable. *)
Theorem exit_correct i status s :
  cpu_ok (kn_cpu s) -> c_noff (kn_cpu s) = 0 -> kn_cur s = Some i -> (i < NPROCn)%nat ->
  kn_wait_lock s = false -> unlocked s -> pr_parent (getp i s) <> Some i ->
  exists s', exit_zombie i status s = Sleep swtch_chan s' /\ kn_wait_lock s' = false /\ c_noff (kn_cpu s') = 1 /\
    getp i s' = zombie status (getp i s) /\
    (forall k, (k < NPROCn)%nat -> k <> i ->
       pr_lock (getp k s') = false /\
       pr_parent (getp k s') = if decide (pr_parent (getp k s) = Some i) then kn_initproc s else pr_parent (getp k s)) /\
    forall q, (q < NPROCn)%nat -> pr_parent (getp i s) = Some q -> sleeps_on (proc_chan (Some q)) (getp q s) = true ->
      pr_state (getp q s') = RUNNABLE.
Proof.
  intros Hc Hn Hcur Hi Hw Hl Hpar. destruct (exit_zombie_ok i status s) as (P & Hrun & HPi & HPk); try done.
  eexists. split; [exact Hrun|]. split; [done|]. split; [simpl; lia|]. split; [exact HPi|]. split.
  - intros k Hk Hne. rewrite getp_with, HPk by done. split; [rewrite woken_up_lock, reparented_lock; by apply Hl|].
    rewrite woken_up_parent_of, reparented_parent, decide_True by done. unfold adopt.
    destruct (decide _) as [E|E]; [by rewrite bool_decide_eq_true_2|by rewrite bool_decide_eq_false_2].
  - intros q Hq Eq Hs. assert (q <> i) as Hne by congruence. rewrite getp_with, HPk, Eq by done.
    unfold woken_up. rewrite (bool_decide_eq_false_2 (Some i = Some q)) by congruence.
    destruct (reparented_sleeper i NPROCn q _ s Hs) as [E|E]; [by destruct (_ && _)|by rewrite E].
Qed.

(** ** The scheduler *)

(** What the scheduler relies on in the threads it switches to: a thread
    comes back with its own process lock and no other, and takes no other
    process out of the state [RUNNABLE]. *)
Definition thread_ok (swtch : nat -> K unit) : Prop := forall j c s,
  cpu_ok c -> c_noff c = 0 -> kn_cpu s = pushed c -> kn_cur s = Some j ->
  pr_lock (getp j s) = true -> pr_state (getp j s) = RUNNING ->
  (forall k, (k < NPROCn)%nat -> k <> j -> pr_lock (getp k s) = false) ->
  exists s' c', swtch j s = Ok tt s' /\ kn_cpu s' = pushed c' /\ cpu_ok c' /\ c_noff c' = 0 /\
    pr_lock (getp j s') = true /\
    (forall k, (k < NPROCn)%nat -> k <> j -> pr_lock (getp k s') = false) /\
    forall k, (k < NPROCn)%nat -> k <> j -> pr_state (getp k s) = RUNNABLE -> pr_state (getp k s') = RUNNABLE.

(** Between two processes: no lock held, and [i] waits for its turn. *)
Definition waiting (i : nat) (s : kern L) : Prop :=
  cpu_ok (kn_cpu s) /\ c_noff (kn_cpu s) = 0 /\ unlocked s /\ pr_state (getp i s) = RUNNABLE.

Lemma schedule_keeps swtch i j s :
  thread_ok swtch -> (j < NPROCn)%nat -> (i < NPROCn)%nat -> j <> i -> waiting i s ->
  exists s', schedule swtch j s = Ok tt s' /\ waiting i s'.
Proof.
  intros Hsw Hj Hi Hne (Hc & Hn & Hl & Hst). unfold schedule.
  mstep (plock_ok j s (Hl j Hj)). rewrite gets_bind, getp_updp_eq. set (s1 := updp j _ _).
  change (pr_state (set_pr_lock true ?x)) with (pr_state x).
  change (getp j (set_kn_cpu _ s)) with (getp j s).
  assert (forall k, getp k s1 = if decide (k = j) then set_pr_lock true (getp j s) else getp k s) as H1
    by (intros; etrans; [apply getp_updp|done]).
  destruct (bool_decide (pr_state (getp j s) = RUNNABLE)) eqn:Eb; cbn [when].
  - unfold pmodify. rewrite bind_bind, modify_bind, bind_bind, modify_bind.
    set (s2 := set_kn_cur (Some j) _).
    assert (forall k, getp k s2 = if decide (k = j) then set_pr_state RUNNING (set_pr_lock true (getp j s)) else getp k s) as H2.
    { intros k. change (getp k s2) with (getp k (updp j (set_pr_state RUNNING) s1)). rewrite getp_updp, !H1.
      destruct (decide (k = j)); [by rewrite decide_True|done]. }
    assert (kn_cpu s2 = pushed (kn_cpu s)) as Ec by done. assert (kn_cur s2 = Some j) as Ecur by done. clearbody s2.
    destruct (Hsw j (kn_cpu s) s2) as (s3 & c3 & H3 & Ec3 & Hc3 & Hn3 & Hl3 & Hlo & Hrun); try done.
    { by rewrite H2, decide_True. } { by rewrite H2, decide_True. }
    { intros k Hk Hkj. rewrite H2, decide_False by done. by apply Hl. }
    rewrite bind_bind. mstep H3. rewrite modify_bind. rewrite (punlock_ok j c3) by done. eexists. split; [done|].
    split; [done|]. split; [done|]. split.
    + intros k Hk. change (pr_lock (getp k (updp j (set_pr_lock false) s3)) = false). rewrite getp_updp.
      destruct (decide (k = j)); [done|by apply Hlo].
    + change (pr_state (getp i (updp j (set_pr_lock false) s3)) = RUNNABLE). rewrite getp_updp_ne by done.
      apply Hrun; [done|done|]. by rewrite H2, decide_False.
  - rewrite ret_bind. assert (kn_cpu s1 = pushed (kn_cpu s)) as Ec by done. clearbody s1.
    rewrite (punlock_ok j (kn_cpu s)); [|done|done|by rewrite H1, decide_True]. eexists. split; [done|].
    split; [done|]. split; [done|]. split.
    + intros k Hk. change (pr_lock (getp k (updp j (set_pr_lock false) s1)) = false). rewrite getp_updp.
      destruct (decide (k = j)); [done|]. rewrite H1, decide_False by done. by apply Hl.
    + change (pr_state (getp i (updp j (set_pr_lock false) s1)) = RUNNABLE). rewrite getp_updp_ne, H1, decide_False by done. done.
Qed.

(** Dispatching [i] is observed with a thread that stops the machine. *)
Definition observe (i : nat) (msg : string) (swtch : nat -> K unit) (j : nat) : K unit :=
  if decide (j = i) then panic msg else swtch j.

Lemma schedule_observed i msg swtch s :
  (i < NPROCn)%nat -> waiting i s -> schedule (observe i msg swtch) i s = Panic msg.
Proof.
  intros Hi (Hc & Hn & Hl & Hst). unfold schedule. mstep (plock_ok i s (Hl i Hi)).
  rewrite gets_bind, getp_updp_eq. change (pr_state (set_pr_lock true ?x)) with (pr_state x).
  change (getp i (set_kn_cpu _ s)) with (getp i s). rewrite bool_decide_eq_true_2 by done. cbn [when].
  unfold pmodify. rewrite bind_bind, modify_bind, bind_bind, modify_bind, bind_bind.
  apply bind_panic. unfold observe. by rewrite decide_True.
Qed.

Lemma schedule_others i msg swtch j : j <> i -> schedule (observe i msg swtch) j = schedule swtch j.
Proof. intros Hne. unfold schedule, observe. by rewrite decide_False. Qed.

(** C23: the scheduler is fair: a runnable process is switched to in the
    next round of the scheduler, whatever the other threads do, as long as
    each of them comes back. *)
Theorem scheduler_fair swtch i msg s :
  thread_ok swtch -> (i < NPROCn)%nat -> waiting i s ->
  scheduler_round (observe i msg swtch) s = Panic msg.
Proof.
  intros Hsw Hi (Hc & Hn & Hl & Hst). unfold scheduler_round.
  destruct (intr_on_ok s Hn) as (c & Hon & Hc' & Hn'). mstep Hon.
  match goal with |- context [for_loop NPROCn 0 ?b] => set (body := b) end.
  destruct (for_loop_prefix (fun _ => waiting i) body NPROCn i 0 (set_kn_cpu c s)) as (s' & Hrun & Hw); [lia|done| |].
  - intros j s1 Hj Hw. destruct (schedule_keeps swtch i (Z.to_nat j) s1) as (s2 & H2 & Hw2); try done; try lia.
    exists s2. split; [|done]. unfold body. rewrite schedule_others by lia. by mstep H2.
  - apply bind_panic. rewrite Hrun. replace (NPROCn - i)%nat with (S (NPROCn - i - 1)) by lia. cbn [for_loop].
    apply bind_panic. unfold body. apply bind_panic. replace (Z.to_nat (0 + Z.of_nat i)) with i by lia.
    by apply schedule_observed.
Qed.

(** ** Waiting *)

Definition child (i k : nat) (s : kern L) : bool := bool_decide (pr_parent (getp k s) = Some i).
Definition zombie_child (i k : nat) (s : kern L) : bool := child i k s && bool_decide (pr_state (getp k s) = ZOMBIE).

Context (kend : Z).

(** A round of the scan over a process that is no zombie child. *)
Definition scan_body (i : nat) (addr : Z) (k : Z) : K (option Z) :=
  let c := Z.to_nat k in
  pp ← gets (getp c);
  if bool_decide (pr_parent pp = Some i) then
    plock c;;
    pp ← gets (getp c);
    if bool_decide (pr_state pp = ZOMBIE) then
      pt ← gets (fun s => pr_pagetable (getp i s));
      r ← (if addr =? 0 then mret 0
           else mem_op (copyout_obj pt addr (st32 ∅ 0 (pr_xstate pp)) 0 4));
      if r <? 0 then
        punlock c;;
        krelease kn_wait_lock set_kn_wait_lock;;
        mret (Some (-1))
      else
        freeproc kend c;;
        punlock c;;
        krelease kn_wait_lock set_kn_wait_lock;;
        mret (Some (pr_pid pp))
    else
      punlock c;;
      mret None
  else mret None.

Lemma scan_skip i addr k s s1 :
  like s s1 -> pr_lock (getp (Z.to_nat k) s) = false -> zombie_child i (Z.to_nat k) s = false ->
  exists s2, scan_body i addr k s1 = Ok None s2 /\ like s s2.
Proof.
  intros Hlk Hl Hz. unfold scan_body. set (c := Z.to_nat k) in *. rewrite gets_bind, (like_getp _ _ c Hlk).
  unfold zombie_child, child in Hz. destruct (bool_decide (pr_parent (getp c s) = Some i)); [|by exists s1].
  simpl in Hz. destruct (look_ok s s1 c Hlk Hl) as (s2 & H2 & Hlk2 & _).
  apply bind_Ok_inv in H2 as ([] & t & Ha & Hb). exists s2. split; [|done]. mstep Ha. rewrite gets_bind.
  assert (pr_state (getp c t) = pr_state (getp c s)) as ->.
  { rewrite plock_ok in Ha by (by rewrite (like_getp _ _ c Hlk)). injection Ha as <-. rewrite getp_updp_eq.
    change (pr_state (getp c s1) = pr_state (getp c s)). by rewrite (like_getp _ _ c Hlk). }
  rewrite Hz. by mstep Hb.
Qed.

Lemma like_pushed c s s1 : kn_cpu s = pushed c -> cpu_ok c -> like s s1 -> kn_cpu s1 = pushed c.
Proof.
  intros Es Hc (P & c1 & -> & _ & Hs & _). simpl. rewrite Es, settle_pushed in Hs by done. rewrite <- Hs.
  assert (c_noff c1 = c_noff c + 1) as E by (change (c_noff c1) with (c_noff (settle c1)); by rewrite Hs).
  destruct Hc as [Hn0 _]. unfold settle. rewrite (proj2 (Z.eqb_neq _ _)) by lia. by destruct c1.
Qed.

Lemma like_waitlock s s1 : like s s1 -> kn_wait_lock s1 = kn_wait_lock s.
Proof. by intros (P & c & -> & _). Qed.

(** The first zombie child is freed, under its lock. *)
Lemma scan_reap i k c s s1 s2 :
  like s s1 -> kn_cpu s = pushed c -> cpu_ok c -> pr_lock (getp (Z.to_nat k) s) = false ->
  zombie_child i (Z.to_nat k) s = true -> freeproc kend (Z.to_nat k) (updp (Z.to_nat k) (set_pr_lock true)
    (set_kn_cpu (pushed (kn_cpu s1)) s1)) = Ok tt s2 ->
  kn_cpu s2 = pushed (pushed c) -> pr_lock (getp (Z.to_nat k) s2) = true -> kn_wait_lock s2 = true ->
  scan_body i 0 k s1 = Ok (Some (pr_pid (getp (Z.to_nat k) s)))
    (set_kn_cpu (settle c) (set_kn_wait_lock false (updp (Z.to_nat k) (set_pr_lock false) s2))).
Proof.
  intros Hlk Es Hc Hl Hz Hf Hc2 Hl2 Hw2. unfold scan_body. set (j := Z.to_nat k) in *.
  apply andb_true_iff in Hz as [Hz1 Hz2]. unfold child in Hz1. rewrite gets_bind, (like_getp _ _ j Hlk), Hz1.
  mstep (plock_ok j s1 ltac:(by rewrite (like_getp _ _ j Hlk))). rewrite gets_bind, getp_updp_eq.
  change (getp j (set_kn_cpu _ s1)) with (getp j s1). rewrite (like_getp _ _ j Hlk).
  change (pr_state (set_pr_lock true ?x)) with (pr_state x). change (pr_pid (set_pr_lock true ?x)) with (pr_pid x).
  rewrite Hz2, gets_bind. cbn [Z.eqb]. rewrite ret_bind. cbn [Z.ltb Z.compare]. mstep Hf.
  mstep (punlock_ok j (pushed c) s2 (pushed_ok _ Hc) Hc2 Hl2). rewrite settle_pushed by done.
  erewrite bind_ok; [|apply (krelease_ok kn_wait_lock set_kn_wait_lock c); done]. done.
Qed.

Lemma killed_ok i s s1 :
  like s s1 -> pr_lock (getp i s) = false ->
  exists s2, killed i s1 = Ok (pr_killed (getp i s)) s2 /\ like s s2.
Proof.
  intros Hlk Hl. destruct (look_ok s s1 i Hlk Hl) as (s2 & H2 & Hlk2 & _). exists s2. split; [|done].
  apply bind_Ok_inv in H2 as ([] & t & Ha & Hb). unfold killed. mstep Ha. rewrite gets_bind. mstep Hb.
  rewrite plock_ok in Ha by (by rewrite (like_getp _ _ i Hlk)). injection Ha as <-. rewrite getp_updp_eq.
  change (pr_killed (set_pr_lock true ?x)) with (pr_killed x). change (getp i (set_kn_cpu _ s1)) with (getp i s1).
  by rewrite (like_getp _ _ i Hlk).
Qed.

Lemma havekids_like i s s1 : like s s1 -> havekids i s1 = havekids i s.
Proof.
  intros Hlk. unfold havekids. induction (seq 0 NPROCn) as [|k l IH]; [done|]. simpl.
  by rewrite (like_getp _ _ k Hlk), IH.
Qed.

(** Giving back [wait_lock] undoes its acquisition. *)
Lemma wait_release s s1 :
  cpu_ok (kn_cpu s) -> kn_wait_lock s = false ->
  like (set_kn_wait_lock true (set_kn_cpu (pushed (kn_cpu s)) s)) s1 ->
  exists s2, krelease kn_wait_lock set_kn_wait_lock s1 = Ok tt s2 /\ like s s2.
Proof.
  intros Hc Hw Hlk. assert (kn_cpu s1 = pushed (kn_cpu s)) as E by (eapply like_pushed; [|done|exact Hlk]; done).
  assert (kn_wait_lock s1 = true) as Hw1 by by rewrite (like_waitlock _ _ Hlk).
  rewrite (krelease_ok kn_wait_lock set_kn_wait_lock (kn_cpu s) s1) by done. eexists. split; [done|].
  destruct Hlk as (P & c & -> & _ & _ & HP). exists P, (settle (kn_cpu s)).
  split; [unfold with_procs; destruct s; simpl in *; by subst|]. split; [done|]. split; [apply settle_settle|]. exact HP.
Qed.

End procs.

(** ** A kernel with four processes

    Process 0 is init, asleep in [wait]; 1 its child, a parent itself and
    running; 2 a child of 1, asleep; 3 a child of 1, runnable. *)

Definition ex_lst0 : lst := Lst (Bio false ∅ ∅ [] 0 []) (Logst false 2 30 0 false 1 0 ∅).
Definition ex_fst0 : fst lst :=
  Fst ex_lst0 (Kst ∅ false 0) (Superblock 0 0 0 0 0 0 0 0) false ∅ 0 0%nat 0 [] [].
Definition ex_proc (st : procstate) (ch : option chan) (pid : Z) (parent : option nat) : proc :=
  Proc false st ch false 0 pid parent 0 0 0 0 0 (0, 0) ∅ None ∅ 0.
Definition ex_cpu : cpu := Cpu 0 true 2.
Definition ex_procs : gmap nat proc :=
  {[ 0%nat := ex_proc SLEEPING (Some (proc_chan (Some 0%nat))) 1 None;
     1%nat := ex_proc RUNNING None 2 (Some 0%nat);
     2%nat := ex_proc SLEEPING (Some (Chan "pipe.nread" 8192)) 3 (Some 1%nat);
     3%nat := ex_proc RUNNABLE None 4 (Some 1%nat) ]}.
Definition ex_kern (cur : option nat) (c : cpu) (wait_lock : bool) : kern lst :=
  Kern ex_fst0 c (Csr 0 0 0 0 0 0 0) cur false ∅ ∅ false ∅ ex_procs 5 false wait_lock (Some 0%nat) false 0 false.

Lemma unlocked_check {L} (s : kern L) :
  forallb (fun i => negb (pr_lock (getp i s))) (seq 0 NPROCn) = true -> unlocked s.
Proof.
  intros Hf i Hi. rewrite forallb_forall in Hf. apply negb_true_iff, Hf, in_seq. lia.
Qed.
Lemma ex_unlocked cur c w : unlocked (ex_kern cur c w).
Proof. apply unlocked_check. vm_compute. reflexivity. Qed.
Lemma ex_cpu_ok : cpu_ok ex_cpu.
Proof. split; [done|]. by intros []. Qed.

Lemma kill_correct_witness :
  exists s', kill 3 (ex_kern (Some 1%nat) ex_cpu false) = Ok 0 s' /\ pr_state (getp 2 s') = RUNNABLE.
Proof.
  destruct (kill_correct 3 (ex_kern (Some 1%nat) ex_cpu false)) as [(i & P & Hi & Hp & Hlt & Hk & HP)|[Hno _]].
  - exact ex_cpu_ok.
  - apply ex_unlocked.
  - assert (i = 2%nat) as ->.
    { destruct (Nat.lt_trichotomy i 2) as [Hl|[E|Hg]]; [|done|].
      - destruct i as [|[|i]]; [vm_compute in Hp; discriminate|vm_compute in Hp; discriminate|lia].
      - destruct (Hlt 2%nat Hg). vm_compute. reflexivity. }
    eexists. split; [exact Hk|]. rewrite getp_with, HP. vm_compute. reflexivity.
  - destruct (Hno 2%nat); vm_compute; [lia|reflexivity].
Defined.


Lemma exit_correct_witness :
  exists s', exit_zombie 1 7 (ex_kern (Some 1%nat) ex_cpu false) = Sleep swtch_chan s' /\
    pr_state (getp 0 s') = RUNNABLE /\ pr_parent (getp 2 s') = Some 0%nat.
Proof.
  destruct (exit_correct 1 7 (ex_kern (Some 1%nat) ex_cpu false)) as (s' & H1 & _ & _ & _ & Hk & Hq).
  1: exact ex_cpu_ok. 1,2: reflexivity. 1: vm_compute; lia. 1: reflexivity. 1: apply ex_unlocked. 1: discriminate.
  exists s'. split; [exact H1|]. split.
  - apply Hq; [vm_compute; lia|reflexivity|reflexivity].
  - destruct (Hk 2%nat) as [_ ->]; [vm_compute; lia|discriminate|]. reflexivity.
Defined.

(** A thread that sleeps at once. *)
Definition ex_swtch (j : nat) : M (kern lst) unit := pmodify j (set_pr_state SLEEPING).

Lemma ex_thread_ok : thread_ok ex_swtch.
Proof.
  intros j c s Hc Hn Es Ecur Hl Hst Hoth. eexists _, c. split; [reflexivity|]. split; [exact Es|].
  split; [exact Hc|]. split; [exact Hn|]. split; [rewrite getp_updp_eq; exact Hl|]. split.
  - intros k Hk Hne. rewrite getp_updp_ne by done. by apply Hoth.
  - intros k Hk Hne Hr. by rewrite getp_updp_ne.
Qed.

Lemma scheduler_fair_witness :
  scheduler_round (observe 3 "three" ex_swtch) (ex_kern None ex_cpu false) = Panic "three".
Proof.
  apply (scheduler_fair ex_swtch 3 "three"); [exact ex_thread_ok|vm_compute; lia|].
  split; [exact ex_cpu_ok|]. split; [reflexivity|]. split; [apply ex_unlocked|reflexivity].
Defined.

