(* ===== verification/FileProps.v ===== *)
(** Properties of open files and descriptors: the reference counts of
    [filealloc], [filedup] and [fileclose], and the descriptor table. *)

From S2P Require Import Prelude Ring Spinlock Mem Sleeplock Strings Kalloc Vm Bio Log BlockLayer Fs Pipe Kernel KernelSpec File Ringbuf Proc ProcProps Args Sysfile.

Section files.
Context {L : Type} `{BlockLayer L}.
Abbreviation K := (M (kern L)).
Context (kend : Z).

(** The state with another file table, after a call that took a lock. *)
Definition with_files (F : gmap nat file) (s : kern L) : kern L :=
  set_kn_cpu (settle (kn_cpu s)) (set_kn_file F s).

(** Inside the lock of the table. *)
Definition ft_locked (s : kern L) : kern L := set_kn_ft_lock true (set_kn_cpu (pushed (kn_cpu s)) s).

Lemma ft_acquire_ok s : kn_ft_lock s = false -> ft_acquire s = Ok tt (ft_locked s).
Proof. intros Hl. exact (kacquire_ok kn_ft_lock set_kn_ft_lock s Hl). Qed.

Lemma ft_release_ok F s :
  cpu_ok (kn_cpu s) -> kn_ft_lock s = false ->
  ft_release (set_kn_file F (ft_locked s)) = Ok tt (with_files F s).
Proof.
  intros Hc Hl. unfold ft_release.
  rewrite (krelease_ok kn_ft_lock set_kn_ft_lock (kn_cpu s) (set_kn_file F (ft_locked s)) Hc eq_refl eq_refl).
  f_equal. unfold with_files, ft_locked. destruct s; simpl in *; by subst.
Qed.

Lemma updfile_locked f g F s :
  updfile f g (set_kn_file F (ft_locked s)) = set_kn_file (<[f := g (F !!! f)]> F) (ft_locked s).
Proof. done. Qed.

Lemma ft_locked_eta s : ft_locked s = set_kn_file (kn_file s) (ft_locked s).
Proof. done. Qed.

(** [filealloc] returns the first entry of the table without references
    and gives it one; when every entry has references the result is null and
    the table is unchanged. *)
Theorem filealloc_correct s :
  cpu_ok (kn_cpu s) -> kn_ft_lock s = false ->
  (exists f, (f < Z.to_nat NFILE)%nat /\ fl_ref (getfile f s) = 0 /\
     (forall g, (g < f)%nat -> fl_ref (getfile g s) <> 0) /\
     filealloc s = Ok (Some f) (with_files (<[f := set_fl_ref 1 (getfile f s)]> (kn_file s)) s)) \/
  (forall f, (f < Z.to_nat NFILE)%nat -> fl_ref (getfile f s) <> 0) /\
  filealloc s = Ok None (with_files (kn_file s) s).
Proof.
  intros Hc Hl. unfold filealloc. mstep (ft_acquire_ok s Hl).
  match goal with |- context [for_loop _ 0 ?b] => set (body := b) end.
  destruct (for_loop_find (fun j => fl_ref (getfile (Z.to_nat j) s) =? 0) (fun t => t = ft_locked s) body (Z.to_nat NFILE) 0 (ft_locked s))
    as [(s' & Hrun & -> & Hall)|(j & s1 & Hj & -> & Hf & Hall & Hfin)]; [done| | |].
  - intros j s1 Hj -> Hf. exists (ft_locked s). split; [|done]. unfold body. rewrite gets_bind.
    change (getfile ?k (ft_locked s)) with (getfile k s). by rewrite Hf.
  - right. split.
    + intros f Hf E. specialize (Hall (Z.of_nat f)). rewrite Nat2Z.id, E in Hall. discriminate Hall. lia.
    + mstep Hrun. rewrite ft_locked_eta. by mstep (ft_release_ok (kn_file s) s Hc Hl).
  - left. exists (Z.to_nat j). split; [lia|]. split; [by apply Z.eqb_eq|]. split.
    + intros g Hg E. specialize (Hall (Z.of_nat g)). rewrite Nat2Z.id, E in Hall. discriminate Hall. lia.
    + set (F := <[Z.to_nat j := set_fl_ref 1 (getfile (Z.to_nat j) s)]> (kn_file s)).
      assert (body j (ft_locked s) = Ok (Some (Z.to_nat j)) (with_files F s)) as Hb; [|by mstep (Hfin _ _ Hb)].
      unfold body. rewrite gets_bind. change (getfile ?k (ft_locked s)) with (getfile k s).
      rewrite Hf, modify_bind, ft_locked_eta, updfile_locked. by mstep (ft_release_ok F s Hc Hl).
Qed.

Lemma filedup_ok f s :
  cpu_ok (kn_cpu s) -> kn_ft_lock s = false -> 1 <= fl_ref (getfile f s) ->
  filedup f s = Ok f (with_files (<[f := set_fl_ref (fl_ref (getfile f s) + 1) (getfile f s)]> (kn_file s)) s).
Proof.
  intros Hc Hl Hr. unfold filedup. mstep (ft_acquire_ok s Hl). rewrite gets_bind.
  change (getfile f (ft_locked s)) with (getfile f s). destruct (Z.ltb_spec (fl_ref (getfile f s)) 1); [lia|].
  rewrite modify_bind, ft_locked_eta, updfile_locked.
  by mstep (ft_release_ok (<[f := set_fl_ref (fl_ref (getfile f s) + 1) (getfile f s)]> (kn_file s)) s Hc Hl).
Qed.

(** What [fileclose] does once the last reference is gone. *)
Definition close_object (x : file) : K unit :=
  match fl_type x with
  | FD_PIPE => pipe_op (fl_pipe x) (pipeclose kend (fl_pipe x) (fl_writable x))
  | FD_INODE | FD_DEVICE => begin_op;; fop (iput (fl_ip x));; end_op
  | FD_NONE => mret tt
  end.

(** [fileclose] panics on a file without references, takes one of several
    references away, and with the last one frees the entry before it closes
    what the file stands for, with the table's lock given back. *)
Theorem fileclose_correct f s :
  cpu_ok (kn_cpu s) -> kn_ft_lock s = false ->
  let x := getfile f s in
  (fl_ref x < 1 -> fileclose kend f s = Panic "fileclose") /\
  (1 < fl_ref x -> fileclose kend f s = Ok tt (with_files (<[f := set_fl_ref (fl_ref x - 1) x]> (kn_file s)) s)) /\
  (fl_ref x = 1 -> fileclose kend f s =
     close_object x (with_files (<[f := set_fl_type FD_NONE (set_fl_ref 0 x)]> (kn_file s)) s)).
Proof.
  intros Hc Hl x. unfold fileclose. rewrite !(bind_ok _ _ _ _ _ (ft_acquire_ok s Hl)). rewrite !gets_bind.
  change (getfile f (ft_locked s)) with x. split; [|split]; intros Hr.
  - by rewrite (proj2 (Z.ltb_lt _ _) Hr).
  - rewrite (proj2 (Z.ltb_ge _ _)) by lia. rewrite modify_bind, ft_locked_eta, updfile_locked.
    rewrite (proj2 (Z.gtb_lt _ _)) by lia. by rewrite (ft_release_ok _ s Hc Hl).
  - rewrite (proj2 (Z.ltb_ge _ _)) by lia. rewrite modify_bind, ft_locked_eta, updfile_locked.
    rewrite Hr. change (1 - 1 >? 0) with false. cbv iota. rewrite gets_bind.
    rewrite !modify_bind, !updfile_locked, !lookup_total_insert_eq, !insert_insert_eq.
    erewrite bind_ok; [|by apply ft_release_ok]. unfold getfile. cbn [kn_file set_kn_file]. rewrite lookup_total_insert_eq.
    change (kn_file s !!! f) with x. unfold close_object. by destruct x.
Qed.

(** ** Descriptors *)

(** The state after a call that only looks at the process and its memory. *)
Definition quiet (s : kern L) : kern L := entered (set_kn_cpu (settle (kn_cpu s)) s).

Lemma quiet_curproc i s : cpu_ok (kn_cpu s) -> kn_cur s = Some i -> curproc (quiet s) = Ok i (quiet s).
Proof.
  intros Hc Hi. rewrite (curproc_ok (quiet s) i); [|done|done]. f_equal. apply cpu_eta. simpl. by rewrite settle_settle.
Qed.

Lemma quiet_quiet i s : kn_cur s = Some i -> quiet (quiet s) = quiet s.
Proof.
  intros Hi. unfold quiet at 1. rewrite (cpu_eta (settle (kn_cpu (quiet s))) (quiet s)) by (simpl; by rewrite settle_settle).
  unfold quiet, entered. destruct s; simpl in *; by subst.
Qed.

(** The [n]-th argument register of process [i]. *)
Definition arg_reg (i : nat) (n : Z) (s : kern L) : Z :=
  ld64 (k_mem (f_k (kn_fs s))) (pr_trapframe (getp i s) + TF_A n).

Lemma argint_ok i n s :
  cpu_ok (kn_cpu s) -> kn_cur s = Some i -> 0 <= n <= 5 -> argint n s = Ok (i32 (arg_reg i n s)) (quiet s).
Proof.
  intros Hc Hi Hn. unfold argint, argraw. rewrite bind_bind. mstep (curproc_ok s i Hc Hi).
  rewrite bind_bind, gets_bind. rewrite (proj2 (Z.leb_le 0 n)), (proj2 (Z.leb_le n 5)) by lia. cbn [andb].
  unfold get_tf, mem_op.
  erewrite bind_ok; [|apply (fop_look _ (fun k => ld64 (k_mem k) (pr_trapframe (getp i s) + TF_A n)))]; [done|].
  by intros [].
Qed.

(** [argfd] of the first argument. *)
Lemma argfd_ok i s :
  cpu_ok (kn_cpu s) -> kn_cur s = Some i ->
  let fd := i32 (arg_reg i 0 s) in
  argfd 0 s = Ok (if (fd <? 0) || (fd >=? NOFILE) then None
                  else (fun f => (fd, f)) <$> pr_ofile (getp i s) !! fd) (quiet s).
Proof.
  intros Hc Hi fd. unfold argfd. mstep (argint_ok i 0 s Hc Hi ltac:(lia)). fold fd.
  destruct ((fd <? 0) || (fd >=? NOFILE)); [done|]. mstep (quiet_curproc i s Hc Hi). rewrite gets_bind.
  change (getp i (quiet s)) with (getp i s). by destruct (pr_ofile (getp i s) !! fd).
Qed.

Definition fd_used (i : nat) (s : kern L) (k : Z) : bool := bool_decide (is_Some (pr_ofile (getp i s) !! k)).

(** Give descriptor [n] of process [i] to [f]. *)
Definition with_fd (i : nat) (n : Z) (f : nat) (s : kern L) : kern L :=
  updp i (fun p => set_pr_ofile (<[n := f]> (pr_ofile p)) p) s.

Lemma fdalloc_ok i f s :
  cpu_ok (kn_cpu s) -> kn_cur s = Some i ->
  (exists n, 0 <= n < NOFILE /\ fd_used i s n = false /\ (forall k, 0 <= k < n -> fd_used i s k = true) /\
     fdalloc f (quiet s) = Ok n (with_fd i n f (quiet s))) \/
  (forall k, 0 <= k < NOFILE -> fd_used i s k = true) /\ fdalloc f (quiet s) = Ok (-1) (quiet s).
Proof.
  intros Hc Hi. unfold fdalloc. rewrite (bind_ok _ _ _ _ _ (quiet_curproc i s Hc Hi)).
  match goal with |- context [for_loop _ 0 ?b] => set (body := b) end.
  assert (forall k, body k (quiet s) = if fd_used i s k then Ok None (quiet s)
            else Ok (Some k) (with_fd i k f (quiet s))) as Hb.
  { intros k. unfold body, fd_used. rewrite gets_bind. change (getp i (quiet s)) with (getp i s).
    destruct (pr_ofile (getp i s) !! k) eqn:E.
    - by rewrite bool_decide_eq_true_2.
    - rewrite bool_decide_eq_false_2 by (intros [? ?]; discriminate). done. }
  destruct (for_loop_find (fun k => negb (fd_used i s k)) (fun t => t = quiet s) body (Z.to_nat NOFILE) 0 (quiet s))
    as [(s' & Hrun & -> & Hall)|(j & s1 & Hj & -> & Hf & Hall & Hfin)]; [done| | |].
  - intros j s1 Hj -> Hf. exists (quiet s). rewrite Hb. apply negb_false_iff in Hf. by rewrite Hf.
  - right. split; [|by mstep Hrun]. intros k Hk. apply negb_false_iff, Hall. exact Hk.
  - left. exists j. split; [exact Hj|]. apply negb_true_iff in Hf. split; [done|]. split.
    + intros k Hk. apply negb_false_iff, Hall. lia.
    + specialize (Hb j). rewrite Hf in Hb. by mstep (Hfin _ _ Hb).
Qed.

(** [dup]: a number that is no open descriptor, or a full descriptor
    table, gives -1 and changes nothing; otherwise the result is the smallest
    free descriptor, it refers to the same open file, and the file has one
    reference more. *)
Theorem sys_dup_correct i s :
  cpu_ok (kn_cpu s) -> kn_cur s = Some i -> kn_ft_lock s = false ->
  let fd := i32 (arg_reg i 0 s) in
  ((fd < 0 \/ NOFILE <= fd \/ pr_ofile (getp i s) !! fd = None) -> sys_dup s = Ok (-1) (quiet s)) /\
  forall f, 0 <= fd < NOFILE -> pr_ofile (getp i s) !! fd = Some f ->
    ((forall k, 0 <= k < NOFILE -> fd_used i s k = true) -> sys_dup s = Ok (-1) (quiet s)) /\
    (forall n, 0 <= n < NOFILE -> fd_used i s n = false -> (forall k, 0 <= k < n -> fd_used i s k = true) ->
      1 <= fl_ref (getfile f s) ->
      sys_dup s = Ok n (with_files (<[f := set_fl_ref (fl_ref (getfile f s) + 1) (getfile f s)]> (kn_file s))
                                   (with_fd i n f (quiet s)))).
Proof.
  intros Hc Hi Hl fd. pose proof (argfd_ok i s Hc Hi) as Ha. cbv zeta in Ha. fold fd in Ha.
  unfold sys_dup. rewrite !(bind_ok _ _ _ _ _ Ha). split.
  - intros Hbad. destruct (Z.ltb_spec fd 0); [done|]. destruct (Z.geb_spec fd NOFILE); [done|]. cbn [orb].
    destruct Hbad as [|[|Hn]]; [lia|lia|]. by rewrite Hn.
  - intros f Hfd Hof. destruct (Z.ltb_spec fd 0); [lia|]. destruct (Z.geb_spec fd NOFILE); [lia|]. cbn [orb].
    rewrite Hof. cbn [fmap option_fmap option_map].
    destruct (fdalloc_ok i f s Hc Hi) as [(n & Hn & Hfree & Hlow & Hal)|[Hfull Hal]]; split.
    + intros Hfull. rewrite Hfull in Hfree by done. discriminate.
    + intros n' Hn' Hfree' Hlow' Hr.
      assert (n' = n) as ->.
      { destruct (Z.lt_trichotomy n n') as [Hlt|[->|Hlt]]; [|done|].
        - rewrite Hlow' in Hfree by lia. discriminate.
        - rewrite Hlow in Hfree' by lia. discriminate. }
      mstep Hal. destruct (Z.ltb_spec n 0); [lia|]. by mstep (filedup_ok f (with_fd i n f (quiet s)) Hc Hl Hr).
    + intros _. by mstep Hal.
    + intros n Hn Hfree. rewrite Hfull in Hfree by done. discriminate.
Qed.
End files.

(** ** A process with one open file *)

Definition ex_file : file := File FD_NONE 1 true false 0 0 0 0.
Definition ex_files : kern lst :=
  updp 1 (set_pr_ofile {[0 := 5%nat]}) (set_kn_file {[5%nat := ex_file]} (ex_kern (Some 1%nat) ex_cpu false)).

Lemma filealloc_correct_witness : exists f s', filealloc ex_files = Ok (Some f) s' /\ (f < 5)%nat.
Proof.
  destruct (filealloc_correct ex_files ex_cpu_ok eq_refl) as [(f & Hf & H0 & Hlow & Hrun)|[Hno _]].
  - eexists f, _. split; [exact Hrun|]. destruct (Nat.lt_ge_cases f 5) as [|Hge]; [done|].
    destruct (Hlow 4%nat); [lia|reflexivity].
  - destruct (Hno 4%nat); [vm_compute; lia|reflexivity].
Defined.

Lemma fileclose_correct_witness : exists s', fileclose 0 5 ex_files = Ok tt s' /\ fl_ref (getfile 5 s') = 0.
Proof.
  destruct (fileclose_correct 0 5 ex_files ex_cpu_ok eq_refl) as (_ & _ & Hlast).
  eexists. split; [rewrite Hlast by reflexivity; reflexivity|]. reflexivity.
Defined.

Lemma sys_dup_correct_witness : exists s', sys_dup ex_files = Ok 1 s' /\ fl_ref (getfile 5 s') = 2.
Proof.
  destruct (sys_dup_correct 1 ex_files ex_cpu_ok eq_refl eq_refl) as [_ Hok].
  destruct (Hok 5%nat) as [_ Hdup]; [vm_compute; split; [discriminate|reflexivity]|reflexivity|].
  eexists. split.
  - apply (Hdup 1).
    + vm_compute. split; [discriminate|reflexivity].
    + reflexivity.
    + intros k Hk. assert (k = 0) as -> by lia. reflexivity.
    + vm_compute. discriminate.
  - vm_compute. reflexivity.
Defined.
