(* ===== verification/Exec.v ===== *)
(** Loading a program: src/src/kernel/exec.c, and [sys_exec] of
    src/src/kernel/sysfile.c.

    The locals [elf] and [ph] are addresses of kernel memory; [argv] is the
    list of its entries up to the null pointer. *)

From S2P Require Import Prelude Ring Spinlock Mem Sleeplock Strings Kalloc Vm Bio Log BlockLayer Fs Pipe Kernel File Ringbuf Proc Args.

Definition ELF_MAGIC : Z := 0x464C457F.
Definition ELF_PROG_LOAD : Z := 1.
Definition ELFHDR_SIZE : Z := 64.
Definition PROGHDR_SIZE : Z := 56.

Definition flags2perm (flags : Z) : Z :=
  let perm := if has flags 1 then PTE_X else 0 in
  if has flags 2 then Z.lor perm PTE_W else perm.

Section exec.
Context {L : Type} `{BlockLayer L}.
Abbreviation K := (M (kern L)).
Context (kend trampoline : Z).
Context (de nm elf ph path : Z).

Definition loadseg (pagetable va : Z) (ip : nat) (offset sz : Z) : K Z :=
  r ← for_loop (Z.to_nat ((sz + PGSIZE - 1) / PGSIZE)) 0 (fun k =>
    let i := k * PGSIZE in
    pa ← mem_op (walkaddr pagetable (u64 (va + i)));
    if pa =? 0 then panic "loadseg: address should exist"
    else
      let n := if sz - i <? PGSIZE then sz - i else PGSIZE in
      r ← fop (readi ip false pa (u32 (offset + i)) n);
      mret (if negb (r =? n) then Some (-1) else None));
  mret (default 0 r).

(** The code at [bad], with the page table and [ip] where they are set. *)
Definition exec_bad (pagetable sz : Z) (ip : option nat) : K Z :=
  when (negb (pagetable =? 0)) (mem_op (proc_freepagetable kend pagetable sz));;
  match ip with
  | Some ip => fop (iunlockput ip);; end_op
  | None => mret tt
  end;;
  mret (-1).

(** The loop over the program headers: whether it ran to the end, and [sz]. *)
Fixpoint load_segments (n : nat) (off pagetable : Z) (ip : nat) (sz : Z) : K (bool * Z) :=
  match n with
  | O => mret (true, sz)
  | S n =>
      r ← fop (readi ip false ph (u32 off) PROGHDR_SIZE);
      if negb (r =? PROGHDR_SIZE) then mret (false, sz)
      else
        m ← mem_op (gets k_mem);
        let next := i32 (off + PROGHDR_SIZE) in
        let vaddr := ld64 m (ph + 16) in
        let filesz := ld64 m (ph + 32) in
        let memsz := ld64 m (ph + 40) in
        if negb (ld32 m ph =? ELF_PROG_LOAD) then load_segments n next pagetable ip sz
        else if memsz <? filesz then mret (false, sz)
        else if u64 (vaddr + memsz) <? vaddr then mret (false, sz)
        else if negb (vaddr mod PGSIZE =? 0) then mret (false, sz)
        else
          sz1 ← mem_op (uvmalloc kend pagetable sz (u64 (vaddr + memsz)) (flags2perm (ld32 m (ph + 4))));
          if sz1 =? 0 then mret (false, sz)
          else
            r ← loadseg pagetable vaddr ip (u32 (ld64 m (ph + 8))) (u32 filesz);
            if r <? 0 then mret (false, sz1)
            else load_segments n next pagetable ip sz1
  end.

(** Push the argument strings: the new [sp] and the entries of [ustack]. *)
Fixpoint push_args (pagetable stackbase sp : Z) (argv : list Z) (argc : Z) : K (option (Z * list Z)) :=
  match argv with
  | [] => mret (Some (sp, []))
  | arg :: argv =>
      if argc >=? MAXARG then mret None
      else
        m ← mem_op (gets k_mem);
        match KString.strlen (Z.to_nat PGSIZE) m arg with
        | None => out_of_fuel
        | Some len =>
            let sp := u64 (sp - (len + 1)) in
            let sp := sp - sp mod 16 in
            if sp <? stackbase then mret None
            else
              r ← mem_op (copyout pagetable sp arg (len + 1));
              if r <? 0 then mret None
              else
                o ← push_args pagetable stackbase sp argv (argc + 1);
                mret (match o with Some (sp', l) => Some (sp', sp :: l) | None => None end)
        end
  end.

(** An array of 64-bit words. *)
Fixpoint words_mem (a : Z) (l : list Z) : mem :=
  match l with
  | [] => ∅
  | w :: l => st64 (words_mem (a + 8) l) a w
  end.

(** [for(last=s=path; *s; s++) if( *s == '/') last = s+1;] *)
Fixpoint last_elem (fuel : nat) (m : mem) (s last : Z) : option Z :=
  match fuel with
  | O => None
  | S f =>
      if rd m s =? 0 then Some last
      else last_elem f m (s + 1) (if rd m s =? 47 then s + 1 else last)
  end.

(** The last part of [exec]: nothing can fail any more. *)
Definition exec_commit (i : nat) (pagetable sz oldsz sp argc : Z) : K Z :=
  p ← gets (getp i);
  set_tf (pr_trapframe p) (TF_A 1) sp;;
  m ← mem_op (gets k_mem);
  match last_elem (S MAXPATH) m path path with
  | None => out_of_fuel
  | Some last =>
      pmodify i (fun p => set_pr_name (KString.safestrcpy (pr_name p) 0 m last 16) p);;
      pmodify i (fun p => set_pr_sz sz (set_pr_pagetable pagetable p));;
      set_tf (pr_trapframe p) TF_EPC (ld64 m (elf + 24));;
      set_tf (pr_trapframe p) TF_SP sp;;
      mem_op (proc_freepagetable kend (pr_pagetable p) oldsz);;
      mret argc
  end.

(** [exec] once the program is loaded. *)
Definition exec_stack (i : nat) (pagetable sz : Z) (argv : list Z) : K Z :=
  oldsz ← gets (fun s => pr_sz (getp i s));
  let sz := PGROUNDUP sz in
  sz1 ← mem_op (uvmalloc kend pagetable sz (u64 (sz + 2 * PGSIZE)) PTE_W);
  if sz1 =? 0 then exec_bad pagetable sz None
  else
    mem_op (uvmclear pagetable (u64 (sz1 - 2 * PGSIZE)));;
    let stackbase := u64 (sz1 - PGSIZE) in
    o ← push_args pagetable stackbase sz1 argv 0;
    match o with
    | None => exec_bad pagetable sz1 None
    | Some (sp, ustack) =>
        let argc := Z.of_nat (length argv) in
        let sp := u64 (sp - (argc + 1) * 8) in
        let sp := sp - sp mod 16 in
        if sp <? stackbase then exec_bad pagetable sz1 None
        else
          r ← mem_op (copyout_obj pagetable sp (words_mem 0 (ustack ++ [0])) 0 ((argc + 1) * 8));
          if r <? 0 then exec_bad pagetable sz1 None
          else exec_commit i pagetable sz1 oldsz sp argc
    end.

Definition exec (argv : list Z) : K Z :=
  i ← curproc;
  begin_op;;
  o ← fop (namei de nm path);
  match o with
  | None => end_op;; mret (-1)
  | Some ip =>
      fop (ilock ip);;
      r ← fop (readi ip false elf 0 ELFHDR_SIZE);
      if negb (r =? ELFHDR_SIZE) then exec_bad 0 0 (Some ip)
      else
        m ← mem_op (gets k_mem);
        if negb (ld32 m elf =? ELF_MAGIC) then exec_bad 0 0 (Some ip)
        else
          tf ← gets (fun s => pr_trapframe (getp i s));
          pagetable ← mem_op (proc_pagetable kend trampoline tf);
          if pagetable =? 0 then exec_bad 0 0 (Some ip)
          else
            '(ok, sz) ← load_segments (Z.to_nat (ld16 m (elf + 56))) (i32 (ld64 m (elf + 32))) pagetable ip 0;
            if negb ok then exec_bad pagetable sz (Some ip)
            else
              fop (iunlockput ip);;
              end_op;;
              exec_stack i pagetable sz argv
  end.

(** ** The system call *)

Fixpoint free_args (argv : list Z) : K unit :=
  match argv with
  | [] => mret tt
  | a :: argv => mem_op (kfree kend a);; free_args argv
  end.

(** Fetch the arguments from [uargv] on; [n] slots of [argv] are left.  The
    result is the pages and whether the null pointer was reached. *)
Fixpoint fetch_args (n : nat) (uargv : Z) : K (bool * list Z) :=
  match n with
  | O => mret (false, [])
  | S n =>
      u ← fetchaddr uargv;
      match u with
      | None => mret (false, [])
      | Some uarg =>
          if uarg =? 0 then mret (true, [])
          else
            a ← mem_op kalloc;
            if a =? 0 then mret (false, [])
            else
              r ← fetchstr uarg a PGSIZE;
              if r <? 0 then mret (false, [a])
              else
                '(ok, l) ← fetch_args n (u64 (uargv + 8));
                mret (ok, a :: l)
      end
  end.

Definition sys_exec : K Z :=
  uargv ← argaddr 1;
  r ← argstr 0 path (Z.of_nat MAXPATH);
  if r <? 0 then mret (-1)
  else
    '(ok, argv) ← fetch_args (Z.to_nat MAXARG) uargv;
    if (ok : bool) then
      ret ← exec argv;
      free_args argv;;
      mret ret
    else
      free_args argv;;
      mret (-1).
End exec.
