(* ===== verification/Keeps.v ===== *)
(** What a call leaves alone.

    [keeps g m]: whenever [m] returns, the part [g] of the kernel state is as
    before.  The rules follow the structure of the code, so that one call of
    [keep] shows it for a whole system call. *)

From S2P Require Import Prelude Ring Spinlock Mem Sleeplock Strings Kalloc Vm Bio Log BlockLayer Fs Pipe Kernel File Ringbuf Proc Args Sysfile Exec.

Section keeps.
Context {L X : Type}.
Abbreviation K := (M (kern L)).
Context (g : kern L -> X).

(** On the results that satisfy [R]. *)
Definition keeps_on {A} (R : A -> Prop) (m : K A) : Prop :=
  forall s a s', m s = Ok a s' -> R a -> g s' = g s.
Definition keeps {A} (m : K A) : Prop := keeps_on (fun _ => True) m.

Lemma keeps_weaken {A} (R : A -> Prop) (m : K A) : keeps m -> keeps_on R m.
Proof. intros Hm s a s' E _. by apply (Hm s a s' E). Qed.

Lemma keeps_bind {A B} (R : B -> Prop) (m : K A) (k : A -> K B) :
  keeps m -> (forall a, keeps_on R (k a)) -> keeps_on R (m ≫= k).
Proof.
  intros Hm Hk s b s' E HR. apply bind_Ok_inv in E as (a & s1 & E1 & E2).
  rewrite (Hk a s1 b s' E2 HR). by apply (Hm s a s1 E1).
Qed.

Lemma keeps_ret {A} (R : A -> Prop) (a : A) : keeps_on R (mret a).
Proof. intros s b s' E _. by injection E as <- <-. Qed.
Lemma keeps_gets {A} (R : A -> Prop) (f : kern L -> A) : keeps_on R (gets f).
Proof. intros s b s' E _. by injection E as <- <-. Qed.
Lemma keeps_panic {A} (R : A -> Prop) msg : keeps_on R (panic (A := A) msg).
Proof. intros s b s' E. discriminate. Qed.
Lemma keeps_fuel {A} (R : A -> Prop) : keeps_on R (out_of_fuel (A := A)).
Proof. intros s b s' E. discriminate. Qed.
Lemma keeps_modify (R : unit -> Prop) (f : kern L -> kern L) : (forall s, g (f s) = g s) -> keeps_on R (modify f).
Proof. intros Hf s b s' E _. injection E as <- <-. apply Hf. Qed.
Lemma keeps_if {A} (R : A -> Prop) (b : bool) (m n : K A) : keeps_on R m -> keeps_on R n -> keeps_on R (if b then m else n).
Proof. by destruct b. Qed.
Lemma keeps_when (R : unit -> Prop) (b : bool) (m : K unit) : keeps_on R m -> keeps_on R (when b m).
Proof. destruct b; [done|]. intros _. apply keeps_ret. Qed.
Lemma keeps_sleeping {A} (R : A -> Prop) ch : keeps_on R (fun s => Sleep (A := A) ch s).
Proof. intros s b s' E. discriminate. Qed.

Lemma keeps_for {A} (R : option A -> Prop) n i (body : Z -> K (option A)) :
  (forall j, keeps (body j)) -> keeps_on R (for_loop n i body).
Proof.
  intros Hb. apply keeps_weaken. revert i. induction n as [|n IH]; intros i; cbn [for_loop]; [apply keeps_ret|].
  apply keeps_bind; [apply Hb|]. intros [a|]; [apply keeps_ret|apply IH].
Qed.
End keeps.

(** Solve the goals the rules leave: the leaves that are in the database. *)
Create HintDb keeps.
Ltac keep1 :=
  match goal with
  | |- forall _, _ => intros
  | |- keeps _ _ => unfold keeps
  | |- keeps_on _ _ (mbind _ _) => apply keeps_bind
  | |- keeps_on _ _ (mret _) => apply keeps_ret
  | |- keeps_on _ _ (gets _) => apply keeps_gets
  | |- keeps_on _ _ (panic _) => apply keeps_panic
  | |- keeps_on _ _ out_of_fuel => apply keeps_fuel
  | |- keeps_on _ _ (when _ _) => apply keeps_when
  | |- keeps_on _ _ (for_loop _ _ _) => apply keeps_for
  | |- keeps_on _ _ (let _ := _ in _) => cbv zeta
  | |- keeps_on _ _ (if _ then _ else _) => apply keeps_if
  | |- keeps_on _ _ (match ?x with _ => _ end) => destruct x
  | |- keeps_on _ _ _ => solve [apply keeps_weaken; eauto with keeps typeclass_instances nocore | eauto with keeps typeclass_instances nocore]
  end.
Ltac keep := repeat keep1.

(** A part of the state that has nothing to do with the CPU, the file
    system's state, locks of processes and who is asleep. *)
Class Private {L X} (g : kern L -> X) : Prop := {
  pv_cpu c s : g (set_kn_cpu c s) = g s;
  pv_fs f s : g (set_kn_fs f s) = g s;
  pv_lock i v s : g (updp i (set_pr_lock v) s) = g s;
  pv_state i v s : g (updp i (set_pr_state v) s) = g s;
  pv_chan i v s : g (updp i (set_pr_chan v) s) = g s }.

Section private.
Context {L X : Type} `{BlockLayer L} (g : kern L -> X) `{!Private g}.
Abbreviation K := (M (kern L)).

Lemma keeps_cpu_op {A} (m : M machine A) : keeps g (cpu_op (L := L) m).
Proof.
  intros s a s' E _. unfold cpu_op, zoom in E. destruct (m _); simplify_eq. apply pv_cpu.
Qed.
Lemma keeps_acquire get set : (forall v s, g (set v s) = g s) -> keeps g (acquire get set).
Proof. intros Hs s a s' E _. unfold acquire in E. destruct (get s); simplify_eq. apply Hs. Qed.
Lemma keeps_release get set : (forall v s, g (set v s) = g s) -> keeps g (release get set).
Proof. intros Hs s a s' E _. unfold release in E. destruct (get s); simplify_eq. apply Hs. Qed.
Lemma keeps_kacquire get set : (forall v s, g (set v s) = g s) -> keeps g (kacquire get set).
Proof. intros Hs. unfold kacquire. apply keeps_bind; [apply keeps_cpu_op|]. intros _. by apply keeps_acquire. Qed.
Lemma keeps_krelease get set : (forall v s, g (set v s) = g s) -> keeps g (krelease get set).
Proof. intros Hs. unfold krelease. apply keeps_bind; [by apply keeps_release|]. intros _. apply keeps_cpu_op. Qed.
Lemma keeps_plock i : keeps g (plock (L := L) i).
Proof. apply keeps_kacquire. intros. apply pv_lock. Qed.
Lemma keeps_punlock i : keeps g (punlock (L := L) i).
Proof. apply keeps_krelease. intros. apply pv_lock. Qed.
Lemma keeps_myproc : keeps g (myproc (L := L)).
Proof. unfold myproc. pose proof @keeps_cpu_op. keep; apply keeps_weaken, keeps_cpu_op. Qed.
Lemma keeps_curproc : keeps g (curproc (L := L)).
Proof. unfold curproc. apply keeps_bind; [apply keeps_myproc|]. intros [i|]; keep. Qed.

Lemma keeps_wakeup ch : keeps g (wakeup (S := kern L) ch).
Proof.
  unfold wakeup, kern_wakeup. keep; try apply keeps_weaken;
    try apply keeps_myproc; try apply keeps_plock; try apply keeps_punlock.
  apply keeps_modify. intros. apply pv_state.
Qed.
Lemma keeps_wakeups l : keeps g (wakeups (L := L) l).
Proof.
  induction l as [|ch l IH]; simpl; [apply keeps_ret|]. apply keeps_bind; [exact IH|]. intros _. apply keeps_wakeup.
Qed.
Lemma keeps_fop {A} (m : M (fst L) A) : keeps g (fop m).
Proof.
  intros s a s' E _. unfold fop in E. destruct (m _) as [b f|msg|ch f|]; try discriminate.
  - apply bind_Ok_inv in E as ([] & s1 & E1 & E2). injection E2 as <- <-.
    rewrite (keeps_wakeups _ _ _ _ E1 I). apply pv_fs.
  - exfalso. apply bind_Ok_inv in E as (? & s1 & _ & E). apply bind_Ok_inv in E as (q & s2 & _ & E).
    apply bind_Ok_inv in E as (? & s3 & _ & E). unfold sleep_on, pmodify in E. rewrite !modify_bind in E.
    unfold sched in E. apply bind_Ok_inv in E as (p & s4 & _ & E). rewrite gets_bind in E.
    destruct (negb _); [discriminate|]. rewrite gets_bind in E. destruct (negb _); [discriminate|].
    rewrite gets_bind in E. destruct (bool_decide _); [discriminate|].
    apply bind_Ok_inv in E as ([] & s5 & _ & E); discriminate.
Qed.
Lemma keeps_mem_op {A} (m : M kst A) : keeps g (mem_op (L := L) m).
Proof. apply keeps_fop. Qed.
Lemma keeps_begin_op : keeps g begin_op.
Proof. apply keeps_fop. Qed.
Lemma keeps_end_op : keeps g end_op.
Proof. apply keeps_fop. Qed.
Lemma keeps_set_tf tf off v : keeps g (set_tf (L := L) tf off v).
Proof. apply keeps_fop. Qed.
Lemma keeps_get_tf tf off : keeps g (get_tf (L := L) tf off).
Proof. apply keeps_fop. Qed.
End private.

#[export] Hint Resolve keeps_cpu_op keeps_plock keeps_punlock keeps_myproc keeps_curproc keeps_wakeup
  keeps_fop keeps_mem_op keeps_begin_op keeps_end_op keeps_set_tf keeps_get_tf : keeps.
