(* ===== verification/ExecProps.v ===== *)
(** A failed [exec] leaves the process as it was. *)

From S2P Require Import Prelude Ring Spinlock Mem Sleeplock Strings Kalloc Vm Bio Log BlockLayer Fs Pipe Kernel KernelSpec File Ringbuf Proc Args Sysfile Exec Keeps ProcProps.

Section exec_props.
Context {L : Type} `{BlockLayer L}.
Abbreviation K := (M (kern L)).

(** Everything about process [i] but its lock and whether it is asleep, and
    everything processes share outside the file system. *)
Definition image (i : nat) (s : kern L) :=
  (set_pr_lock false (set_pr_state UNUSED (set_pr_chan None (getp i s))),
   (kn_file s, kn_pipe s, kn_rings s, kn_nextpid s, kn_initproc s, kn_ticks s, kn_cur s)).

#[export] Instance image_private i : Private (image i).
Proof.
  split; intros; try done; unfold image; rewrite getp_updp; destruct (decide _) as [->|]; try done;
    destruct (getp _ s); done.
Qed.

Context (kend trampoline de nm elf ph path : Z).
Context (j : nat).
Abbreviation kept := (keeps (image j)).
Abbreviation fails := (keeps_on (image j) (fun r : Z => r = -1)).

Lemma exec_bad_keeps pt sz ip : kept (exec_bad kend pt sz ip).
Proof. unfold exec_bad. keep. Qed.

Lemma loadseg_keeps pt va ip off sz : kept (loadseg pt va ip off sz).
Proof. unfold loadseg. keep. Qed.
Hint Resolve exec_bad_keeps loadseg_keeps : keeps.

Lemma load_segments_keeps n off pt ip sz : kept (load_segments kend ph n off pt ip sz).
Proof. revert off sz. induction n as [|n IH]; intros off sz; cbn [load_segments]; keep. Qed.

Lemma push_args_keeps pt base sp argv argc : kept (push_args pt base sp argv argc).
Proof. revert sp argc. induction argv as [|a argv IH]; intros sp argc; cbn [push_args]; keep. Qed.
Hint Resolve load_segments_keeps push_args_keeps : keeps.

Lemma exec_commit_result i pt sz oldsz sp argc (s : kern L) a s' :
  exec_commit kend elf path i pt sz oldsz sp argc s = Ok a s' -> a = argc.
Proof.
  unfold exec_commit. rewrite gets_bind. intros E.
  apply bind_Ok_inv in E as (? & s1 & _ & E). apply bind_Ok_inv in E as (m & s2 & _ & E).
  destruct (last_elem _ m path path) as [last|]; [|discriminate].
  unfold pmodify in E. rewrite !modify_bind in E.
  apply bind_Ok_inv in E as (? & s3 & _ & E). apply bind_Ok_inv in E as (? & s4 & _ & E).
  apply bind_Ok_inv in E as (? & s5 & _ & E). by injection E.
Qed.

Lemma exec_stack_fails i pt sz argv : fails (exec_stack kend elf path i pt sz argv).
Proof.
  unfold exec_stack. keep. intros ? r ? E Hr. apply exec_commit_result in E. lia.
Qed.
Hint Resolve exec_stack_fails : keeps.

Lemma exec_fails argv : fails (exec kend trampoline de nm elf ph path argv).
Proof. unfold exec. keep. Qed.

Lemma free_args_keeps argv : kept (free_args kend argv).
Proof. induction argv as [|a argv IH]; cbn [free_args]; keep. Qed.

Lemma fetchaddr_keeps addr : kept (fetchaddr addr).
Proof. unfold fetchaddr. keep. Qed.
Lemma fetchstr_keeps addr buf max : kept (fetchstr addr buf max).
Proof. unfold fetchstr. keep. Qed.
Lemma argaddr_keeps n : kept (argaddr n).
Proof. unfold argaddr, argraw. keep. Qed.
Hint Resolve free_args_keeps fetchaddr_keeps fetchstr_keeps argaddr_keeps : keeps.
Lemma argstr_keeps n buf max : kept (argstr n buf max).
Proof. unfold argstr. keep. Qed.
Lemma fetch_args_keeps n uargv : kept (fetch_args n uargv).
Proof. revert uargv. induction n as [|n IH]; intros uargv; cbn [fetch_args]; keep. Qed.
Hint Resolve argstr_keeps fetch_args_keeps : keeps.

End exec_props.

