(* ===== verification/RingbufProps.v ===== *)
(** Properties of the shared ring buffers: the buffer is mapped twice in a
    row, and what a failed [open] does to the other owner. *)

From S2P Require Import Prelude Ring Spinlock Mem Sleeplock Strings Kalloc Vm VmSpec VmProps Bio Log BlockLayer Fs Pipe Kernel KernelSpec File Ringbuf Proc Args Sysfile Exec ProcProps Keeps.

(** A page of physical memory. *)
Definition phys_page (pa : Z) : Prop := pa mod PGSIZE = 0 /\ 0 <= pa /\ pa + PGSIZE <= 2 ^ 56.

Lemma PGROUNDDOWN_aligned va : va mod PGSIZE = 0 -> PGROUNDDOWN va = va.
Proof. intros Ha. apply PGROUNDDOWN_page; [done|]. unfold in_page, PGSIZE. lia. Qed.

Lemma map_count_page va : va mod PGSIZE = 0 -> map_count va PGSIZE = 1.
Proof.
  intros Ha. unfold map_count. rewrite (PGROUNDDOWN_page va (va + PGSIZE - 1)), PGROUNDDOWN_aligned; try done.
  - by rewrite Z.sub_diag.
  - unfold in_page, PGSIZE. lia.
Qed.

Lemma inr_inv a lo n : inr a lo n = true -> lo <= a < lo + n.
Proof. by destruct (inr_spec a lo n). Qed.

Section ringbuf_props.
Context {L : Type} `{BlockLayer L}.
Abbreviation K := (M (kern L)).
Context (kend : Z) (Hkend : 0 <= kend).

(** ** The double mapping *)

(** Mapping one page at the top of the free space. *)
Lemma map_top_ok proc pg root top (s : kern L) pages free :
  vm_inv kend (memory s) pages root free ->
  pr_pagetable (getp proc s) = root -> pr_top (getp proc s) = top ->
  top mod PGSIZE = 0 -> PGSIZE <= top -> top + PGSIZE <= MAXVA -> phys_page pg ->
  (forall x, inr x top PGSIZE = true -> has (pte_of (k_mem (memory s)) root x) PTE_V = false) ->
  exists e s' pages' free' (k : Z),
    map_top proc pg s = Ok e s' /\ vm_inv kend (memory s') pages' root free' /\
    (forall x, 0 <= x < MAXVA -> pte_of (k_mem (memory s')) root x =
       if inr x top (k * PGSIZE) then mk_pte pg RB_PERM else pte_of (k_mem (memory s)) root x) /\
    (forall r, getring r s' = getring r s) /\ pr_pagetable (getp proc s') = root /\
    (e = None /\ k = 1 /\ pr_top (getp proc s') = top - PGSIZE \/
     e = Some MapPagesFailed /\ k = 0 /\ free' = []).
Proof.
  intros Hinv Hroot Htop Hal Hlow Hhigh (Hpa & Hp0 & Hp1) Hfree. assert (MAXVA = 274877906944) as HM by done.
  unfold map_top. rewrite gets_bind, Hroot, Htop.
  destruct (mappages_spec kend (memory s) pages root free top PGSIZE pg RB_PERM)
    as (r & k' & pages' & free' & k & Hrun & Hinv' & _ & Hmap & Hres);
    rewrite ?map_count_page, ?PGROUNDDOWN_aligned by done; try done; try (unfold PGSIZE in *; lia).
  rewrite map_count_page in Hres by done. rewrite PGROUNDDOWN_aligned in Hmap by done.
  mstep (mem_op_ok (mappages root top PGSIZE pg RB_PERM) r k' s Hrun).
  assert (0 <= k <= 1) as Hk by lia.
  assert (forall x, 0 <= x < MAXVA -> pte_of (k_mem k') root x =
    if inr x top (k * PGSIZE) then mk_pte pg RB_PERM else pte_of (k_mem (memory s)) root x) as Hmap'.
  { intros x Hx. rewrite Hmap by done. destruct (inr x top (k * PGSIZE)) eqn:E; [|done].
    apply inr_inv in E. f_equal. rewrite (PGROUNDDOWN_page top x); [lia|done|]. unfold in_page, PGSIZE in *. lia. }
  destruct Hres as [[-> ->]|(-> & Hk1 & Hfr & _)]; cbn [Z.ltb Z.compare].
  - eexists None, _, pages', free', 1. split; [done|]. split; [done|]. split; [exact Hmap'|]. split; [done|].
    rewrite getp_updp_eq, getp_with_k. split; [done|]. left. split; [done|]. split; [done|].
    change (u64 (pr_top (getp proc s) - PGSIZE) = top - PGSIZE). rewrite Htop. apply u64_small. unfold PGSIZE in *. lia.
  - eexists _, _, pages', free', 0. split; [done|]. split; [done|].
    assert (k = 0) as -> by lia. split; [exact Hmap'|]. split; [done|]. split; [done|]. by right.
Qed.

(** Mapping the pages [l] downwards from the top of the free space. *)
Lemma map_all_ok proc root l : forall top (s : kern L) pages free,
  vm_inv kend (memory s) pages root free ->
  pr_pagetable (getp proc s) = root -> pr_top (getp proc s) = top ->
  top mod PGSIZE = 0 -> Z.of_nat (length l) * PGSIZE <= top -> top + PGSIZE <= MAXVA -> Forall phys_page l ->
  (forall x, top - (Z.of_nat (length l) - 1) * PGSIZE <= x < top + PGSIZE ->
     has (pte_of (k_mem (memory s)) root x) PTE_V = false) ->
  exists e s' pages' free',
    map_all proc (map Some l) s = Ok e s' /\ vm_inv kend (memory s') pages' root free' /\
    (forall r, getring r s' = getring r s) /\ pr_pagetable (getp proc s') = root /\
    (e = None /\ pr_top (getp proc s') = top - Z.of_nat (length l) * PGSIZE /\
       (forall i pg x, l !! i = Some pg -> inr x (top - Z.of_nat i * PGSIZE) PGSIZE = true ->
          pte_of (k_mem (memory s')) root x = mk_pte pg RB_PERM) /\
       (forall x, 0 <= x < MAXVA -> ~ top - (Z.of_nat (length l) - 1) * PGSIZE <= x < top + PGSIZE ->
          pte_of (k_mem (memory s')) root x = pte_of (k_mem (memory s)) root x) \/
     e = Some MapPagesFailed /\ free' = []).
Proof.
  assert (MAXVA = 274877906944) as HM by done. assert (PGSIZE = 4096) as HP by done.
  induction l as [|pg l IH]; intros top s pages free Hinv Hroot Htop Hal Hlow Hhigh Hphys Hfree; cbn [map_all map].
  { exists None, s, pages, free. split; [done|]. split; [done|]. split; [done|]. split; [done|]. left.
    split; [done|]. split; [rewrite Htop; simpl; lia|]. by split. }
  rewrite Forall_cons in Hphys. destruct Hphys as [Hpg Hphys]. cbn [length] in *.
  destruct (map_top_ok proc pg root top s pages free) as (e & s1 & pages1 & free1 & k & Hrun & Hinv1 & Hmap & Hr1 & Hroot1 & Hres);
    try done; try lia.
  { intros x Hx. apply inr_inv in Hx. apply Hfree. lia. }
  mstep Hrun. destruct Hres as [(-> & -> & Htop1)|(-> & -> & ->)].
  2: { exists (Some MapPagesFailed), s1, pages1, []. split; [done|]. split; [done|]. split; [done|]. split; [done|]. by right. }
  rewrite Z.mul_1_l in Hmap.
  destruct (IH (top - PGSIZE) s1 pages1 free1) as (e & s2 & pages2 & free2 & Hrun2 & Hinv2 & Hr2 & Hroot2 & Hres); try done; try lia.
  { rewrite HP in *. rewrite <- (Z.mod_add _ 1) by done. by replace (top - 4096 + 1 * 4096) with top by lia. }
  { intros x Hx. rewrite Hmap by lia. assert (inr x top PGSIZE = false) as -> by (apply inr_false; lia). apply Hfree. lia. }
  exists e, s2, pages2, free2. split; [exact Hrun2|]. split; [done|]. split; [intros r; by rewrite Hr2|]. split; [done|].
  destruct Hres as [(-> & Htop2 & Hin & Hout)|[-> ->]]; [left|by right].
  split; [done|]. split; [lia|]. split.
  - intros [|i] pg' x Hi Hx; cbn in Hi.
    + injection Hi as <-. apply inr_inv in Hx. rewrite Hout by lia. rewrite Hmap by lia.
      by assert (inr x top PGSIZE = true) as -> by (apply inr_true; lia).
    + apply (Hin i pg' x Hi). apply inr_inv in Hx. apply inr_true. lia.
  - intros x Hx Hnot. rewrite Hout by lia. rewrite Hmap by done.
    by assert (inr x top PGSIZE = false) as -> by (apply inr_false; lia).
Qed.

(** The page of the ring buffer [l] that is at the offset [o] of its two
    copies.  The pages are mapped downwards, so the last comes first. *)
Definition ring_page (l : list Z) (o : Z) : Z := nth (Z.to_nat (15 - (o / PGSIZE) mod 16)) l 0.

Lemma ring_page_mirror l o : ring_page l (o + 16 * PGSIZE) = ring_page l o.
Proof. unfold ring_page. rewrite Z.div_add by done. by rewrite <- Zplus_mod_idemp_r, Z.add_0_r. Qed.


(** ** A failed [open] *)

(** The process in the other slot of ring buffer [r]. *)
Definition other_owner (r : nat) (k : bool) (s : kern L) : option nat := ow_proc (rb_owner (negb k) (getring r s)).

#[export] Instance other_owner_private r k : Private (other_owner r k).
Proof. by split. Qed.

Lemma getring_updring r f (s : kern L) : getring r (updring r f s) = f (getring r s).
Proof. unfold getring, updring. simpl. by rewrite lookup_total_insert_eq. Qed.

Lemma map_top_keeps r k proc pg : keeps (other_owner r k) (map_top proc pg).
Proof. unfold map_top. keep. by apply keeps_modify. Qed.
Hint Resolve map_top_keeps : keeps.
Lemma map_all_keeps r k proc l : keeps (other_owner r k) (map_all proc l).
Proof. induction l as [|[pg|] l IH]; cbn [map_all]; keep. Qed.
Hint Resolve map_all_keeps : keeps.

Lemma rb_map_keeps r k proc addr : keeps (other_owner r k) (rb_map r k proc addr).
Proof.
  unfold rb_map. keep.
  - apply keeps_modify. intros s. unfold other_owner. rewrite getring_updring. by destruct k.
  - by apply keeps_modify.
Qed.

(** [kfree] returns or panics. *)
Lemma kfree_outcome pa k : (exists k', kfree kend pa k = Ok tt k') \/ exists msg, kfree kend pa k = Panic msg.
Proof.
  unfold kfree. destruct (_ || _); [right; by eexists|]. unfold kmem_acquire, kmem_release, acquire, release.
  unfold mbind, M_bind, kmemset, modify, gets. simpl. destruct (k_lock k); [right; by eexists|left; by eexists].
Qed.

Lemma free_pages_outcome l (s : kern L) :
  (exists s', free_pages kend l s = Ok tt s' /\ kn_rings s' = kn_rings s) \/ exists msg, free_pages kend l s = Panic msg.
Proof.
  revert s. induction l as [|pg l IH]; intros s; cbn [free_pages]; [left; by exists s|].
  destruct (kfree_outcome pg (memory s)) as [(k & Hk)|(msg & Hk)].
  - destruct (IH (with_k k s)) as [(s' & H1 & H2)|(msg & H1)].
    + left. exists s'. by rewrite (bind_ok _ _ _ _ _ (mem_op_ok _ _ _ _ Hk)).
    + right. exists msg. by rewrite (bind_ok _ _ _ _ _ (mem_op_ok _ _ _ _ Hk)).
  - right. exists msg. apply bind_panic. by apply mem_op_panic.
Qed.

Lemma deactivate_owned r k q s :
  other_owner r k s = Some q -> exists msg, rb_deactivate kend r s = Panic msg.
Proof.
  intros Ho. unfold rb_deactivate. rewrite gets_bind.
  destruct (free_pages_outcome (omap id (rb_pages (getring r s))) s) as [(s1 & H1 & Hr)|(msg & H1)].
  2: { exists msg. by apply bind_panic. }
  mstep H1. rewrite modify_bind. destruct (rb_book (getring r s)) as [book|]; [|by eexists].
  unfold clear_book. erewrite bind_ok; [|by apply mem_op_ok].
  set (s2 := with_k _ _). assert (getring r s2 = set_rb_pages (replicate RINGBUF_SIZE None) (getring r s)) as E2.
  { unfold s2. rewrite getring_with_k, getring_updring. unfold getring. by rewrite Hr. }
  destruct (kfree_outcome book (memory s2)) as [(k' & Hk)|(msg & Hk)].
  2: { exists msg. apply bind_panic. by apply mem_op_panic. }
  mstep (mem_op_ok _ _ _ _ Hk). rewrite gets_bind, getring_with_k, E2.
  assert (is_some_owner (set_rb_pages (replicate RINGBUF_SIZE None) (getring r s)) = true) as ->; [|by eexists].
  unfold is_some_owner, other_owner in *. simpl. apply orb_true_iff. unfold rb_owner in Ho.
  destruct k; cbn [negb] in Ho; rewrite Ho; [left|right]; by apply bool_decide_eq_true_2.
Qed.

(** When a second process opens a ring buffer and mapping it fails, the
    kernel stops: the failure path releases the ring buffer as if the caller
    had been its only owner, and panics on the owner that is left. *)
Theorem failed_open_panics name proc addr r k q e s s0 s2 :
  rb_find_or_activate kend name proc s = Ok (Datatypes.inl (r, k)) s0 ->
  other_owner r k s0 = Some q ->
  rb_map r k proc addr (updring r (fun x => set_rb_refcount (u32 (rb_refcount x + 1)) x)
    (updp proc (fun p => set_pr_rings (u64 (pr_rings p + 1)) p) (updring r (set_owner_proc k (Some proc)) s0)))
    = Ok (Some e) s2 ->
  exists msg, ringbuf_open kend name proc addr s = Panic msg.
Proof.
  intros Hf Ho Hm. unfold ringbuf_open. mstep Hf. unfold pmodify. rewrite !modify_bind. mstep Hm. rewrite !modify_bind.
  set (s3 := updring r _ _).
  assert (other_owner r k s3 = Some q) as H3.
  { unfold s3, other_owner. rewrite !getring_updring. transitivity (other_owner r k s2); [by destruct k|].
    rewrite (rb_map_keeps _ _ _ _ _ _ _ Hm I). unfold other_owner. rewrite getring_updring.
    transitivity (ow_proc (rb_owner (negb k) (getring r (updring r (set_owner_proc k (Some proc)) s0)))); [by destruct k|].
    rewrite getring_updring, <- Ho. by destruct k. }
  destruct (deactivate_owned r k q s3 H3) as (msg & Hp). exists msg. by apply bind_panic.
Qed.
End ringbuf_props.

(** ** A kernel with a ring buffer *)

Definition ex_pages : list Z := (fun i : nat => 0x81000000 + Z.of_nat i * PGSIZE) <$> seq 0 16.
Definition ex_ring : ringbuf :=
  Ringbuf 1 (Owner (Some 2%nat) (Some 0x20000) (Some 0x1f000)) no_owner [65] (map Some ex_pages) (Some 0x81010000).
Definition ex_ring_kern (k : kst) (root : Z) : kern lst :=
  let s := ex_kern (Some 1%nat) ex_cpu false in
  updp 1 (fun p => set_pr_top (40 * PGSIZE) (set_pr_pagetable root p))
    (set_kn_rings {[0%nat := ex_ring]} (set_kn_fs (set_f_k k (kn_fs s)) s)).


Lemma failed_open_panics_witness :
  exists msg, ringbuf_open 0x80000000 [65] 1 0 (ex_ring_kern (Kst ∅ false 0) 0x80001000) = Panic msg.
Proof.
  assert (exists s0, rb_find_or_activate 0x80000000 [65] 1 (ex_ring_kern (Kst ∅ false 0) 0x80001000)
            = Ok (Datatypes.inl (0%nat, true)) s0 /\ other_owner 0 true s0 = Some 2%nat /\
    exists s2, rb_map 0 true 1 0 (updring 0 (fun x => set_rb_refcount (u32 (rb_refcount x + 1)) x)
      (updp 1 (fun p => set_pr_rings (u64 (pr_rings p + 1)) p) (updring 0 (set_owner_proc true (Some 1%nat)) s0)))
      = Ok (Some MapPagesFailed) s2) as (s0 & Hf & Ho & s2 & Hm).
  { eexists. split; [vm_compute; reflexivity|]. split; [vm_compute; reflexivity|]. eexists. vm_compute. reflexivity. }
  exact (failed_open_panics 0x80000000 [65] 1 0 0 true 2 MapPagesFailed _ s0 s2 Hf Ho Hm).
Defined.

(** ** [exec] with a ring buffer open *)

Definition ring_kend : Z := PHYSTOP - 27 * PGSIZE.

(** A process with one page of memory and a fresh page table opens the ring
    buffer "A", the address going to its page, and then reaches the end of
    [exec] with the page table of the new program. *)
Definition open_then_exec : M (kern lst) Z :=
  mem_op (freerange ring_kend ring_kend PHYSTOP);;
  pt ← mem_op (proc_pagetable ring_kend 0x80000000 0x80001000);
  sz ← mem_op (uvmalloc ring_kend pt 0 PGSIZE PTE_W);
  pmodify 1 (fun p => set_pr_top (TRAPFRAME - 2 * PGSIZE)
                        (set_pr_trapframe 0x80001000 (set_pr_sz sz (set_pr_pagetable pt p))));;
  e ← ringbuf_op ring_kend [65] rb_open 0;
  match e with
  | Some _ => mret (-1)
  | None =>
      new ← mem_op (proc_pagetable ring_kend 0x80000000 0x80001000);
      exec_commit ring_kend 0x80002000 0x80003000 1 new 0 sz 0 0
  end.

