(* ===== verification/URingbuf.v ===== *)
(** The user side of ring buffers: src/src/user/ulib/uringbuf.zig.

    A process that has a ring buffer open shares two counters, the book, and
    the bytes of the buffer with another process.  An operation is a program of
    atomic accesses to them; one process writes and the other reads, and their
    accesses interleave in any order.

    How the kernel maps the buffer is a class, [MagicBuf]: offsets that are a
    buffer apart are the same byte.  What the kernel does is an instance. *)

From S2P Require Import Prelude Mem Kalloc Vm Kernel Ringbuf.

Definition BUF_CAPACITY : Z := Z.of_nat RINGBUF_SIZE * PGSIZE.

(** ** Accesses *)

(** The counters of the book. *)
Inductive counter := read_done | write_done.

Inductive prog (A : Type) :=
  | Ret (a : A)
  | Stuck
  | Load (c : counter) (k : Z -> prog A)
  | FetchAdd (c : counter) (n : Z) (k : prog A)
  | GetByte (o : Z) (k : Z -> prog A)
  | PutByte (o v : Z) (k : prog A).
Arguments Ret {A} a.
Arguments Stuck {A}.
Arguments Load {A} c k.
Arguments FetchAdd {A} c n k.
Arguments GetByte {A} o k.
Arguments PutByte {A} o v k.

Fixpoint prog_bind {A B} (f : A -> prog B) (p : prog A) : prog B :=
  match p with
  | Ret a => f a
  | Stuck => Stuck
  | Load c k => Load c (fun x => prog_bind f (k x))
  | FetchAdd c n k => FetchAdd c n (prog_bind f k)
  | GetByte o k => GetByte o (fun x => prog_bind f (k x))
  | PutByte o v k => PutByte o v (prog_bind f k)
  end.

#[local] Instance uring_ret : MRet prog := @Ret.
#[local] Instance uring_bind : MBind prog := @prog_bind.

Definition load (c : counter) : prog Z := Load c Ret.
Definition fetchAdd (c : counter) (n : Z) : prog unit := FetchAdd c n (Ret tt).

(** Additions and subtractions of unsigned numbers are checked. *)
Definition add (x y : Z) : prog Z := if x + y <? 2 ^ 64 then mret (x + y) else Stuck.
Definition sub (x y : Z) : prog Z := if y <=? x then mret (x - y) else Stuck.
Definition assert (b : bool) : prog unit := if b then mret tt else Stuck.

(** [self.buf[start ..][0 .. len]], as an offset and a length. *)
Definition slice (start len : Z) : prog (Z * Z) :=
  if (start <=? 2 * BUF_CAPACITY) && (len <=? 2 * BUF_CAPACITY - start) then mret (start, len) else Stuck.

(** ** Operations *)

Definition startRead : prog (Z * Z) :=
  r ← load read_done;
  w ← load write_done;
  len ← sub w r;
  slice (r mod BUF_CAPACITY) len.

Definition finishRead (byte_len : Z) : prog unit :=
  w ← load write_done;
  r ← load read_done;
  len ← sub w r;
  assert (len >=? byte_len);;
  fetchAdd read_done byte_len.

Definition startWrite : prog (Z * Z) :=
  r ← load read_done;
  w ← load write_done;
  used ← sub w r;
  len ← sub BUF_CAPACITY used;
  slice (w mod BUF_CAPACITY) len.

Definition finishWrite (byte_len : Z) : prog unit :=
  w ← load write_done;
  x ← add w byte_len;
  r ← load read_done;
  used ← sub x r;
  assert (used <=? BUF_CAPACITY);;
  fetchAdd write_done byte_len.

(** ** Clients

    A writer fills the front of the slice and hands it over; a reader takes
    the front of its slice and gives it back.  How many bytes, they choose by
    the length of the slice. *)
Fixpoint put_bytes (o : Z) (l : list Z) : prog unit :=
  match l with
  | [] => mret tt
  | v :: l => PutByte o v (put_bytes (o + 1) l)
  end.

Fixpoint get_bytes (o : Z) (n : nat) : prog (list Z) :=
  match n with
  | O => mret []
  | S n => GetByte o (fun v => l ← get_bytes (o + 1) n; mret (v :: l))
  end.

Definition write_round (choose : Z -> list Z) : prog (list Z) :=
  '(o, len) ← startWrite;
  let l := choose len in
  put_bytes o l;;
  finishWrite (Z.of_nat (length l));;
  mret l.

Definition read_round (choose : Z -> nat) : prog (list Z) :=
  '(o, len) ← startRead;
  l ← get_bytes o (choose len);
  finishRead (Z.of_nat (length l));;
  mret l.

(** ** Two processes *)

(** The byte at an offset of the buffer. *)
Class MagicBuf := {
  cell : Z -> Z;
  cell_mirror : forall o, 0 <= o < BUF_CAPACITY -> cell (o + BUF_CAPACITY) = cell o;
  cell_inj : forall o o', 0 <= o < BUF_CAPACITY -> 0 <= o' < BUF_CAPACITY -> cell o = cell o' -> o = o' }.

(** [writer] and [reader] are the rounds under way; [sent] and [got] are the
    bytes of the rounds that have returned. *)
Record ring := Ring {
  rd : Z;
  wd : Z;
  bytes : gmap Z Z;
  writer : option (prog (list Z));
  reader : option (prog (list Z));
  sent : list Z;
  got : list Z }.

Section steps.
Context `{MagicBuf}.

Definition counter_of (c : counter) (s : ring) : Z := match c with read_done => rd s | write_done => wd s end.
Definition add_counter (c : counter) (n : Z) (s : ring) : ring :=
  match c with
  | read_done => Ring (u64 (rd s + n)) (wd s) (bytes s) (writer s) (reader s) (sent s) (got s)
  | write_done => Ring (rd s) (u64 (wd s + n)) (bytes s) (writer s) (reader s) (sent s) (got s)
  end.
Definition byte_at (o : Z) (s : ring) : Z := default 0 (bytes s !! cell o).
Definition set_byte (o v : Z) (s : ring) : ring :=
  Ring (rd s) (wd s) (<[cell o := v]> (bytes s)) (writer s) (reader s) (sent s) (got s).

(** An access of a program. *)
Definition access (p : prog (list Z)) (s : ring) : option (prog (list Z) * ring) :=
  match p with
  | Ret _ | Stuck => None
  | Load c k => Some (k (counter_of c s), s)
  | FetchAdd c n k => Some (k, add_counter c n s)
  | GetByte o k => Some (k (byte_at o s), s)
  | PutByte o v k => Some (k, set_byte o v s)
  end.

Definition set_writer (p : option (prog (list Z))) (s : ring) : ring := Ring (rd s) (wd s) (bytes s) p (reader s) (sent s) (got s).
Definition set_reader (p : option (prog (list Z))) (s : ring) : ring := Ring (rd s) (wd s) (bytes s) (writer s) p (sent s) (got s).

Inductive rstep : ring -> ring -> Prop :=
  | rs_write_begin s choose : writer s = None -> (forall len, 0 <= len -> Z.of_nat (length (choose len)) <= len) ->
      rstep s (set_writer (Some (write_round choose)) s)
  | rs_write s p p' s' : writer s = Some p -> access p s = Some (p', s') -> rstep s (set_writer (Some p') s')
  | rs_write_end s l : writer s = Some (Ret l) ->
      rstep s (Ring (rd s) (wd s) (bytes s) None (reader s) (sent s ++ l) (got s))
  | rs_read_begin s choose : reader s = None -> (forall len, 0 <= len -> Z.of_nat (choose len) <= len) ->
      rstep s (set_reader (Some (read_round choose)) s)
  | rs_read s p p' s' : reader s = Some p -> access p s = Some (p', s') -> rstep s (set_reader (Some p') s')
  | rs_read_end s l : reader s = Some (Ret l) ->
      rstep s (Ring (rd s) (wd s) (bytes s) (writer s) None (sent s) (got s ++ l)).
End steps.

(** The kernel clears the book of a new ring buffer. *)
Definition new_ring (b : gmap Z Z) : ring := Ring 0 0 b None None [] [].

(** ** Descriptors *)

(** [name] is what is found at the pointer, which is not set at first. *)
Record urb := Urb { ub_buf : Z; ub_book : Z; ub_name : list Z; is_active : Z }.

Inductive init_error := EKernel (e : rberr) | ENoFreeRingbuf.

Abbreviation U := (M (list urb)).

(** [UserRingBuf.open] of the entry [i]; [ans] is what the kernel answers, an
    error or the address of the buffer. *)
Definition open (i : nat) (name : list Z) (ans : rberr + Z) : U (option init_error) :=
  l ← gets id;
  match l !! i with
  | None => panic "index out of bounds"
  | Some x =>
      if is_active x =? 1 then mret (Some (EKernel AlreadyActive))
      else
        match ans with
        | Datatypes.inl e => mret (Some (EKernel e))
        | Datatypes.inr buf_u =>
            if buf_u <? PGSIZE then panic "integer overflow"
            else modify (<[i := Urb buf_u (buf_u - PGSIZE) name 1]>);; mret None
        end
  end.

(** [ans] is whether the kernel closes it. *)
Definition close (i : nat) (ans : bool) : U unit :=
  l ← gets id;
  match l !! i with
  | None => panic "index out of bounds"
  | Some x =>
      if is_active x =? 0 then panic "uringbuf: already inactive"
      else if negb ans then panic "uringbuf: failed to close"
      else modify (<[i := Urb (ub_buf x) (ub_book x) (ub_name x) 0]>)
  end.

(** The loop of [init]: the entry that is returned at once, or the free entry. *)
Fixpoint find_entry (name : list Z) (i : nat) (l : list urb) : option (bool * nat) :=
  match l with
  | [] => None
  | x :: l =>
      if bool_decide (name = ub_name x) then Some (true, i)
      else if is_active x =? 0 then Some (false, i)
      else find_entry name (S i) l
  end.

Definition init (name : list Z) (ans : rberr + Z) : U (init_error + nat) :=
  l ← gets id;
  match find_entry name 0 l with
  | None => mret (Datatypes.inl ENoFreeRingbuf)
  | Some (true, i) => mret (Datatypes.inr i)
  | Some (false, i) =>
      e ← open i name ans;
      match e with
      | Some e => mret (Datatypes.inl e)
      | None => mret (Datatypes.inr i)
      end
  end.

Definition deinit (i : nat) (ans : bool) : U unit := close i ans.

Definition ringbuf_init (name : list Z) (ans : rberr + Z) : U Z :=
  r ← init name ans;
  match r with
  | Datatypes.inl _ => mret (-1)
  | Datatypes.inr i => mret (Z.of_nat i)
  end.

(** The entries of a program that has opened nothing; the bytes at their
    names are arbitrary. *)
Definition uringbufs (undefined : list Z) : list urb := replicate MAX_RINGBUFS (Urb 0 0 undefined 0).
