(* ===== verification/URingbufProps.v ===== *)
(** A ring buffer carries bytes from the process that writes to the process
    that reads: in order, once, without a race and without blocking, however
    the accesses of the two interleave.  The conditions under which a program
    of one process is right are weakest preconditions that allow for what the
    other process may do between two accesses. *)

From S2P Require Import Prelude Mem Kalloc Vm VmSpec Kernel Ringbuf RingbufProps URingbuf.

#[local] Existing Instances uring_ret uring_bind.

Abbreviation cap := BUF_CAPACITY.

Lemma cap_pos : 0 < cap.
Proof. done. Qed.

(** No two of [cap] numbers in a row are the same modulo [cap]. *)
Lemma mod_cap_inj x y : 0 <= x <= y -> y < x + cap -> x mod cap = y mod cap -> x = y.
Proof.
  intros Hx Hy E. assert ((y - x) mod cap = 0) as E' by (by rewrite Zminus_mod, E, Z.sub_diag).
  rewrite Z.mod_small in E' by lia. lia.
Qed.

Section ring.
Context `{MagicBuf}.

(** Where the byte number [j] of the stream is kept. *)
Definition home (j : Z) : Z := cell (j mod cap).

Lemma home_inj x y : 0 <= x <= y -> y < x + cap -> home x = home y -> x = y.
Proof.
  intros Hx Hy E. apply mod_cap_inj; [done|done|]. pose proof cap_pos.
  apply cell_inj; [apply Z.mod_pos_bound; lia..|done].
Qed.

(** The bytes of a slice are in a row, across the end of the buffer too. *)
Lemma cell_home a k : 0 <= a -> 0 <= k <= cap -> cell (a mod cap + k) = home (a + k) \/ k = cap.
Proof.
  intros Ha Hk. destruct (Z.eq_dec k cap) as [|Hne]; [by right|left]. unfold home. pose proof cap_pos as Hc.
  pose proof (Z.mod_pos_bound a cap Hc) as Hm. rewrite Z.add_mod, (Z.mod_small k) by lia.
  destruct (Z.lt_ge_cases (a mod cap + k) cap) as [Hs|Hl]; [by rewrite (Z.mod_small (a mod cap + k)) by lia|].
  replace (a mod cap + k) with ((a mod cap + k - cap) + cap) at 1 by lia. rewrite cell_mirror by lia.
  f_equal. apply (Z.mod_unique_pos _ _ 1); lia.
Qed.

(** The numbers from [lo] to [hi] of the stream [pub] are in the buffer. *)
Definition stored (b : gmap Z Z) (lo hi : Z) (pub : list Z) : Prop :=
  forall j v, lo <= j < hi -> pub !! Z.to_nat j = Some v -> default 0 (b !! home j) = v.

Definition len (l : list Z) : Z := Z.of_nat (length l).

(** ** The writer

    [wwp Q p lo b pub]: the writer runs [p]; [pub] is the stream handed over,
    [b] the contents of the buffer, and the reader has taken [lo] bytes at
    least. *)
Fixpoint wwp (Q : list Z -> list Z -> Prop) (p : prog (list Z)) (lo : Z) (b : gmap Z Z) (pub : list Z) : Prop :=
  match p with
  | Ret l => Q l pub
  | Stuck => 2 ^ 64 <= len pub + cap
  | Load read_done k => forall r, lo <= r <= len pub -> wwp Q (k r) r b pub
  | Load write_done k => wwp Q (k (len pub)) lo b pub
  | FetchAdd write_done n k =>
      exists l, n = len l /\ len pub + n <= lo + cap /\ len pub + n < 2 ^ 64 /\
        stored b (len pub) (len pub + n) (pub ++ l) /\ wwp Q k lo b (pub ++ l)
  | PutByte o v k =>
      (exists j, len pub <= j < lo + cap /\ cell o = home j) /\ wwp Q k lo (<[cell o := v]> b) pub
  | _ => False
  end.

(** The reader may go on. *)
Lemma wwp_later Q p lo lo' b pub : lo <= lo' <= len pub -> wwp Q p lo b pub -> wwp Q p lo' b pub.
Proof.
  revert lo lo' b pub. induction p as [a| |[] k IH|[] n k IH|o k IH|o v k IH]; intros lo lo' b pub Hlo Hp; cbn in *; try done.
  - intros r Hr. apply Hp. lia.
  - by eapply IH.
  - destruct Hp as (l & -> & H1 & H2 & H3 & H4). exists l. split_and!; try done; [lia|]. eapply IH; [|done].
    unfold len. rewrite length_app. unfold len in Hlo. lia.
  - destruct Hp as [(j & Hj & E) Hp]. split; [exists j; split; [lia|done]|]. by eapply IH.
Qed.

Lemma wwp_mono (Q Q' : list Z -> list Z -> Prop) p lo b pub : (forall l pub', Q l pub' -> Q' l pub') ->
  wwp Q p lo b pub -> wwp Q' p lo b pub.
Proof.
  intros HQ. revert lo b pub. induction p as [a| |[] k IH|[] n k IH|o k IH|o v k IH]; intros lo b pub Hp; cbn in *; auto.
  - destruct Hp as (l & -> & H1 & H2 & H3 & H4). exists l. split_and!; auto.
  - destruct Hp as [? ?]. auto.
Qed.

(** ** The reader

    [rwp Q p r pub]: the reader runs [p] and has taken [r] bytes of the stream
    [pub]. *)
Fixpoint rwp {A} (Q : A -> Z -> list Z -> Prop) (p : prog A) (r : Z) (pub : list Z) : Prop :=
  match p with
  | Ret l => Q l r pub
  | Load read_done k => rwp Q (k r) r pub
  | Load write_done k => forall l, len (pub ++ l) <= r + cap -> rwp Q (k (len (pub ++ l))) r (pub ++ l)
  | FetchAdd read_done n k => 0 <= n /\ r + n <= len pub /\ rwp Q k (r + n) pub
  | GetByte o k => exists j v, r <= j < len pub /\ cell o = home j /\ pub !! Z.to_nat j = Some v /\ rwp Q (k v) r pub
  | _ => False
  end.

Lemma rwp_bind {A B} (Q : B -> Z -> list Z -> Prop) (p : prog A) (f : A -> prog B) r pub :
  rwp (fun a => rwp Q (f a)) p r pub -> rwp Q (p ≫= f) r pub.
Proof.
  revert r pub. induction p as [a| |[] k IH|[] n k IH|o k IH|o v k IH]; intros r pub Hp; cbn in *; auto.
  - by destruct Hp as (? & ? & ?); auto.
  - by destruct Hp as (j & v & [? ?] & ? & ? & ?); exists j, v; split_and!; auto.
Qed.

(** The writer may go on. *)
Lemma rwp_later (Q : list Z -> Z -> list Z -> Prop) p r pub l : r <= len pub ->
  (forall l' r' pub' l2, r' <= len pub' -> Q l' r' pub' -> Q l' r' (pub' ++ l2)) -> rwp Q p r pub -> rwp Q p r (pub ++ l).
Proof.
  intros Hr HQ. revert r pub l Hr. induction p as [a| |[] k IH|[] n k IH|o k IH|o v k IH]; intros r pub l Hr Hp; cbn in *; try done.
  - by apply HQ.
  - by apply IH.
  - intros l2 Hl. rewrite <- app_assoc in *. by apply Hp.
  - destruct Hp as (H1 & H2 & H3). split_and!; [done|unfold len in *; rewrite length_app; lia|by apply IH].
  - destruct Hp as (j & v & Hj & E & Hv & Hp). exists j, v. split_and!; [lia|unfold len in *; rewrite length_app; lia|done| |by apply IH].
    by apply lookup_app_l_Some.
Qed.

(** ** The rounds are right *)

Lemma len_app l l' : len (l ++ l') = len l + len l'.
Proof. unfold len. rewrite length_app. lia. Qed.
Lemma len_nonneg l : 0 <= len l.
Proof. unfold len. lia. Qed.

Lemma stored_snoc b w pub v : len pub = w -> 0 <= w -> (forall lo, lo <= w -> w - lo < cap -> 0 <= lo -> stored b lo w pub ->
  stored (<[home w := v]> b) lo (w + 1) (pub ++ [v])).
Proof.
  intros Hw Hp lo Hlo Hc Hlo0 Hs j x Hj Hx. destruct (Z.eq_dec j w) as [->|Hne].
  - rewrite lookup_insert_eq. rewrite lookup_app_r in Hx by (unfold len in Hw; lia).
    replace (Z.to_nat w - length pub)%nat with 0%nat in Hx by (unfold len in Hw; lia). by injection Hx as <-.
  - assert (home w <> home j) as Hh by (intros E; apply (Hne); apply home_inj; [lia|lia|done]).
    rewrite lookup_insert_ne by done. rewrite lookup_app_l in Hx by (unfold len in Hw; lia). apply Hs; [lia|done].
Qed.

Lemma put_bytes_wwp Q (k : unit -> prog (list Z)) lo pub l : 0 <= lo <= len pub -> forall b pre,
  stored b (len pub) (len pub + len pre) (pub ++ pre) -> len pub + len pre + len l <= lo + cap ->
  (forall b', stored b' (len pub) (len pub + len (pre ++ l)) (pub ++ pre ++ l) -> wwp Q (k tt) lo b' pub) ->
  wwp Q (put_bytes (len pub mod cap + len pre) l ≫= k) lo b pub.
Proof.
  intros Hlo. induction l as [|v l IH]; intros b pre Hs Hl Hk; [apply Hk; by rewrite app_nil_r|].
  pose proof (len_nonneg pub). pose proof (len_nonneg pre). pose proof (len_nonneg l).
  change (len (v :: l)) with (Z.of_nat (S (length l))) in Hl. rewrite Nat2Z.inj_succ in Hl. fold (len l) in Hl.
  cbn. destruct (cell_home (len pub) (len pre)) as [Eh|]; [lia|lia| |lia].
  split; [exists (len pub + len pre); split; [lia|done]|].
  replace (len pub mod cap + len pre + 1) with (len pub mod cap + len (pre ++ [v])) by (rewrite len_app; unfold len; simpl; lia).
  apply IH.
  - rewrite Eh, len_app. change (len [v]) with 1. rewrite Z.add_assoc, app_assoc.
    apply stored_snoc; [by rewrite len_app|lia|lia|lia|lia|done].
  - rewrite len_app. change (len [v]) with 1. lia.
  - intros b' Hb'. rewrite <- app_assoc in Hb'. by apply Hk.
Qed.

(** The writer's round: it hands over the bytes chosen, for at least as much
    room as there was when it looked. *)
Definition gave (choose : Z -> list Z) (lo : Z) (pub l pub' : list Z) : Prop :=
  pub' = pub ++ l /\ exists n, cap - (len pub - lo) <= n /\ l = choose n.

Lemma write_round_wwp choose lo b pub : (forall n, 0 <= n -> len (choose n) <= n) -> 0 <= lo <= len pub -> len pub <= lo + cap ->
  wwp (gave choose lo pub) (write_round choose) lo b pub.
Proof.
  intros Hc Hlo Hcap. unfold write_round, startWrite. cbn. intros r Hr.
  pose proof cap_pos as Hp. pose proof (Z.mod_pos_bound (len pub) cap Hp) as Hm.
  unfold sub. rewrite (proj2 (Z.leb_le r (len pub))) by lia. cbn. rewrite (proj2 (Z.leb_le (len pub - r) cap)) by lia. cbn.
  unfold slice. rewrite (proj2 (Z.leb_le (len pub mod cap) (2 * cap))), (proj2 (Z.leb_le (cap - (len pub - r)) (2 * cap - len pub mod cap))) by lia. cbn.
  set (l := choose (cap - (len pub - r))). assert (len l <= cap - (len pub - r)) as Hl by (apply Hc; lia).
  replace (len pub mod cap) with (len pub mod cap + len []) by (unfold len; simpl; lia).
  eapply put_bytes_wwp; [lia| |unfold len at 2; simpl; lia|].
  { intros j x Hj. unfold len in Hj at 3. simpl in Hj. lia. }
  intros b' Hb'. rewrite app_nil_l in Hb'. unfold finishWrite, add. cbn. fold (len l).
  destruct (Z.ltb_spec (len pub + len l) (2 ^ 64)) as [H64|H64]; cbn; [|lia].
  intros r2 Hr2. unfold sub. rewrite (proj2 (Z.leb_le r2 (len pub + len l))) by (pose proof (len_nonneg l); lia). cbn.
  unfold assert. rewrite (proj2 (Z.leb_le (len pub + len l - r2) cap)) by lia. cbn.
  exists l. split_and!; [done|lia|done|done|]. split; [done|]. exists (cap - (len pub - r)). split; [lia|done].
Qed.

(** The reader's round: it takes the bytes next in the stream, as many as it
    chooses of those that were there when it looked. *)
Definition took (choose : Z -> nat) (r : Z) (pub : list Z) (l : list Z) (r' : Z) (pub' : list Z) : Prop :=
  r' = r + len l /\ l = take (length l) (drop (Z.to_nat r) pub') /\ pub `prefix_of` pub' /\
  exists w, len pub <= w <= len pub' /\ length l = choose (w - r).

Lemma took_later choose r pub l r' pub' l2 : 0 <= r -> r' <= len pub' -> took choose r pub l r' pub' -> took choose r pub l r' (pub' ++ l2).
Proof.
  intros Hr0 Hr' (-> & E & Hx & w & Hw & Hc). unfold len in *. split_and!; [done| |by apply prefix_app_r|exists w; rewrite len_app; unfold len; split; [lia|done]].
  rewrite drop_app_le, take_app_le by (rewrite ?length_drop; lia). done.
Qed.

Lemma get_bytes_rwp (Q : list Z -> Z -> list Z -> Prop) r pub n : 0 <= r -> len pub <= r + cap ->
  forall i, 0 <= i -> r + i + Z.of_nat n <= len pub ->
  Q (take n (drop (Z.to_nat (r + i)) pub)) r pub -> rwp Q (get_bytes (r mod cap + i) n) r pub.
Proof.
  intros Hr Hcap. revert Q. induction n as [|n IH]; intros Q i Hi Hn Hk; [done|]. cbn.
  destruct (lookup_lt_is_Some_2 pub (Z.to_nat (r + i))) as [v Hv]; [unfold len in Hn; lia|].
  exists (r + i), v. destruct (cell_home r i) as [Eh|]; [lia|lia| |lia]. split_and!; [lia|unfold len in *; lia|done|done|].
  erewrite drop_S in Hk by exact Hv. replace (S (Z.to_nat (r + i))) with (Z.to_nat (r + (i + 1))) in Hk by lia. cbn [take] in Hk.
  replace (r mod cap + i + 1) with (r mod cap + (i + 1)) by lia. apply rwp_bind, IH; [lia|lia|done].
Qed.

Lemma read_round_rwp choose r pub : (forall n, 0 <= n -> Z.of_nat (choose n) <= n) -> 0 <= r <= len pub -> len pub <= r + cap ->
  rwp (took choose r pub) (read_round choose) r pub.
Proof.
  intros Hc Hr Hcap. unfold read_round, startRead. cbn. intros l1 Hl1.
  pose proof cap_pos as Hp. pose proof (Z.mod_pos_bound r cap Hp) as Hm. pose proof (len_nonneg l1) as H1.
  assert (len pub <= len (pub ++ l1)) as Hle by (rewrite len_app; lia).
  unfold sub. rewrite (proj2 (Z.leb_le r (len (pub ++ l1)))) by lia. cbn.
  unfold slice. rewrite (proj2 (Z.leb_le (r mod cap) (2 * cap))), (proj2 (Z.leb_le (len (pub ++ l1) - r) (2 * cap - r mod cap))) by lia. cbn.
  set (n := choose (len (pub ++ l1) - r)). assert (Z.of_nat n <= len (pub ++ l1) - r) as Hn by (apply Hc; lia).
  replace (r mod cap) with (r mod cap + 0) by lia. apply rwp_bind, get_bytes_rwp; [lia|lia|lia|lia|]. rewrite Z.add_0_r.
  set (l := take n (drop (Z.to_nat r) (pub ++ l1))).
  assert (length l = n) as Ll by (unfold l; rewrite length_take, length_drop; unfold len in *; lia).
  unfold finishRead. cbn. intros l2 Hl2. pose proof (len_nonneg l2) as H2. rewrite (len_app (pub ++ l1) l2) in *.
  unfold sub. rewrite (proj2 (Z.leb_le r (len (pub ++ l1) + len l2))) by lia. cbn.
  unfold assert. fold (len l). assert (len l = Z.of_nat n) as El by (unfold len; lia).
  rewrite (proj2 (Z.geb_le (len (pub ++ l1) + len l2 - r) (len l))) by lia. cbn.
  rewrite len_app. fold (len l). split_and!; [lia|lia|]. split; [done|split; [|split]].
  - rewrite Ll, (drop_app_le (pub ++ l1)), take_app_le by (rewrite ?length_drop; unfold len in *; lia). done.
  - rewrite <- app_assoc. apply prefix_app_r. done.
  - exists (len (pub ++ l1)). rewrite (len_app (pub ++ l1)). split; [lia|]. by rewrite Ll.
Qed.

(** ** The two together *)

Lemma rwp_mono {A} (Q Q' : A -> Z -> list Z -> Prop) p r pub : (forall a r' pub', Q a r' pub' -> Q' a r' pub') ->
  rwp Q p r pub -> rwp Q' p r pub.
Proof.
  intros HQ. revert r pub. induction p as [a| |[] k IH|[] n k IH|o k IH|o v k IH]; intros r pub Hp; cbn in *; auto.
  - by destruct Hp as (? & ? & ?); auto.
  - by destruct Hp as (j & v & [? ?] & ? & ? & ?); exists j, v; split_and!; auto.
Qed.

(** [Qw] and [Qr] are what the rounds under way come to. *)
Record ring_ok (Qw : list Z -> list Z -> Prop) (Qr : list Z -> Z -> list Z -> Prop) (s : ring) (pub : list Z) : Prop := {
  ri_range : 0 <= rd s <= len pub /\ len pub <= rd s + cap /\ wd s = len pub /\ len pub < 2 ^ 64;
  ri_stored : stored (bytes s) (rd s) (len pub) pub;
  ri_writer : match writer s with None => pub = sent s | Some p => wwp Qw p (rd s) (bytes s) pub end;
  ri_reader : match reader s with None => got s = take (Z.to_nat (rd s)) pub | Some p => rwp Qr p (rd s) pub end;
  ri_sent : sent s `prefix_of` pub;
  ri_got : got s `prefix_of` pub }.

(** A round of the writer adds to what has been sent, and a round of the
    reader to what has been got. *)
Definition sends (s : ring) (l pub : list Z) : Prop := pub = sent s ++ l.
Definition gets_next (s : ring) (l : list Z) (r : Z) (pub : list Z) : Prop := got s ++ l = take (Z.to_nat r) pub.
Abbreviation ring_inv s := (ring_ok (sends s) (gets_next s) s).

Definition stays (Qr : list Z -> Z -> list Z -> Prop) : Prop :=
  forall l r pub l2, r <= len pub -> Qr l r pub -> Qr l r (pub ++ l2).

Lemma gets_next_stays s : stays (gets_next s).
Proof. intros l r pub l2 Hr. unfold gets_next. rewrite take_app_le by (unfold len in Hr; lia). done. Qed.

Lemma writer_access Qw Qr s pub p p' s' : stays Qr -> ring_ok Qw Qr s pub -> writer s = Some p -> access p s = Some (p', s') ->
  exists pub', ring_ok Qw Qr (set_writer (Some p') s') pub'.
Proof.
  intros HQ [(Hr & Hc & Hw & H64) Hs Hwr Hrd Hse Hgo] E Ha. rewrite E in Hwr.
  destruct p as [a| |[] k|[] n k|o k|o v k]; cbn in Ha; try discriminate Ha; injection Ha as <- <-; cbn in Hwr; try done.
  - exists pub. split; cbn; auto. apply Hwr. lia.
  - exists pub. split; cbn; auto. by rewrite Hw.
  - destruct Hwr as (l & -> & H1 & H2 & H3 & H4). exists (pub ++ l). pose proof (len_nonneg l).
    split; cbn; rewrite ?len_app.
    + rewrite u64_small by (rewrite Hw; lia). lia.
    + intros j v Hj Hv. destruct (Z.lt_ge_cases j (len pub)) as [Hlt|Hge]; [|apply H3; [lia|done]].
      apply Hs; [lia|]. by rewrite lookup_app_l in Hv by (unfold len in *; lia).
    + done.
    + destruct (reader s) as [q|]; [|rewrite take_app_le by (unfold len in *; lia); done].
      by apply rwp_later; [lia| |].
    + by apply prefix_app_r.
    + by apply prefix_app_r.
  - destruct Hwr as [(j & Hj & Ej) Hwr]. exists pub. split; cbn; auto. intros i x Hi Hx. rewrite Ej.
    assert (home j <> home i) as Hne by (intros Eh; assert (i = j) by (apply home_inj; [lia|lia|done]); lia).
    rewrite lookup_insert_ne by done. by apply Hs.
Qed.

Lemma reader_access Qw Qr s pub p p' s' : ring_ok Qw Qr s pub -> reader s = Some p -> access p s = Some (p', s') ->
  ring_ok Qw Qr (set_reader (Some p') s') pub.
Proof.
  intros [(Hr & Hc & Hw & H64) Hs Hwr Hrd Hse Hgo] E Ha. rewrite E in Hrd.
  destruct p as [a| |[] k|[] n k|o k|o v k]; cbn in Ha; try discriminate Ha; injection Ha as <- <-; cbn in Hrd; try done.
  - split; cbn; auto. specialize (Hrd []). rewrite app_nil_r in Hrd. rewrite Hw. apply Hrd. lia.
  - destruct Hrd as (H1 & H2 & H3). rewrite <- (u64_small (rd s + n)) in H3 by lia.
    assert (u64 (rd s + n) = rd s + n) as Eu by (apply u64_small; lia).
    split; cbn; [lia| | |done|done|done].
    + intros j v Hj. apply Hs. lia.
    + destruct (writer s) as [q|]; [|done]. eapply wwp_later; [|done]. lia.
  - destruct Hrd as (j & v & Hj & Ej & Hv & Hrd). split; cbn; auto.
    unfold byte_at. rewrite Ej. by rewrite (Hs j v) by (lia || done).
Qed.

Lemma took_all g choose r pub l r' pub' : 0 <= r <= len pub -> g = take (Z.to_nat r) pub -> took choose r pub l r' pub' ->
  g ++ l = take (Z.to_nat r') pub'.
Proof.
  intros Hr -> (-> & E & [x ->] & _). rewrite E at 1. unfold len in *.
  replace (Z.to_nat (r + Z.of_nat (length l))) with (Z.to_nat r + length l)%nat by lia.
  rewrite <- take_take_drop. f_equal. by rewrite take_app_le by lia.
Qed.

Lemma rstep_inv s s' pub : rstep s s' -> ring_inv s pub -> exists pub', ring_inv s' pub'.
Proof.
  intros Hstep Hi. pose proof Hi as [(Hr & Hc & Hw & H64) Hs Hwr Hrd Hse Hgo].
  inversion Hstep as [? choose E Hch|? p p' s1 E Ha|? l E|? choose E Hch|? p p' s1 E Ha|? l E]; subst.
  - rewrite E in Hwr. exists pub. split; cbn [set_writer rd wd bytes writer reader sent got]; auto. eapply (wwp_mono (gave choose (rd s) pub)); [|by apply write_round_wwp].
    intros l pub' [-> _]. by rewrite Hwr.
  - destruct (writer_access _ _ s pub p p' s1 (gets_next_stays s) Hi E Ha) as [pub' Hi']. exists pub'.
    by destruct p as [| |[]|[]| |]; try discriminate Ha; injection Ha as <- <-.
  - rewrite E in Hwr. cbn in Hwr. exists pub. unfold sends in *. split; cbn; auto. by rewrite Hwr.
  - rewrite E in Hrd. exists pub. split; cbn [set_reader rd wd bytes writer reader sent got]; auto. eapply (rwp_mono (took choose (rd s) pub)); [|by apply read_round_rwp].
    intros l r' pub' Ht. by eapply took_all.
  - pose proof (reader_access _ _ s pub p p' s1 Hi E Ha) as Hi'. exists pub.
    by destruct p as [| |[]|[]| |]; try discriminate Ha; injection Ha as <- <-.
  - rewrite E in Hrd. cbn in Hrd. exists pub. unfold gets_next in *. split; cbn; auto. rewrite Hrd. apply prefix_take.
Qed.

Lemma ring_reachable b s : rtc rstep (new_ring b) s -> exists pub, ring_inv s pub.
Proof.
  intros Hs. assert (ring_inv (new_ring b) []) as H0.
  { split; cbn; [pose proof cap_pos; unfold len; simpl; lia| |done..]. intros j v Hj. unfold len in Hj. simpl in Hj. lia. }
  revert H0. generalize (@nil Z). induction Hs as [|s1 s2 s3 Hs12 Hs23 IH]; intros pub H0; [by exists pub|].
  destruct (rstep_inv _ _ _ Hs12 H0) as [pub' H']. by eapply IH.
Qed.

(** C4: a ring buffer between a process that writes and a process that reads,
    in every interleaving of their accesses.  What has been read is what has
    been sent, from its beginning, in order and without a gap, as far as the
    reader has got; when both pause, the bytes in between are those in the
    buffer, no more than it holds, and a reader that looks finds them all.
    The byte one process writes is never the byte the other reads.  The
    reader's checks never fail, the writer's not before [2^64] bytes. *)
Theorem ringbuf_fifo b s : rtc rstep (new_ring b) s ->
  (writer s = None -> got s `prefix_of` sent s) /\
  (got s `prefix_of` sent s \/ sent s `prefix_of` got s) /\
  (writer s = None -> reader s = None ->
     rd s = len (got s) /\ wd s = len (sent s) /\ len (sent s) <= len (got s) + BUF_CAPACITY /\
     forall k v, 0 <= k < wd s - rd s -> sent s !! Z.to_nat (rd s + k) = Some v -> byte_at (rd s mod BUF_CAPACITY + k) s = v) /\
  (forall o v k o' k', writer s = Some (PutByte o v k) -> reader s = Some (GetByte o' k') -> cell o <> cell o') /\
  reader s <> Some Stuck /\
  (writer s = Some Stuck -> 2 ^ 64 <= wd s + BUF_CAPACITY).
Proof.
  intros Hs. destruct (ring_reachable b s Hs) as [pub [(Hr & Hc & Hw & H64) Hst Hwr Hrd Hse Hgo]].
  split_and!.
  - intros E. rewrite E in Hwr. by subst.
  - by apply (prefix_weak_total _ _ pub).
  - intros E E'. rewrite E in Hwr. rewrite E' in Hrd. subst pub.
    assert (len (got s) = rd s) as Eg by (rewrite Hrd; unfold len in *; rewrite length_take; lia).
    rewrite Eg. split_and!; [done|done|done|]. intros k v Hk Hv.
    destruct (cell_home (rd s) k) as [Eh|]; [lia|lia| |lia]. unfold byte_at. rewrite Eh. apply (Hst (rd s + k)); [lia|done].
  - intros o v k o' k' E E'. rewrite E in Hwr. rewrite E' in Hrd. cbn in Hwr, Hrd.
    destruct Hwr as [(j & Hj & Ej) _], Hrd as (j' & v' & Hj' & Ej' & _). rewrite Ej, Ej'. intros Eh.
    assert (j' = j) by (apply home_inj; [lia|lia|done]). lia.
  - intros E. by rewrite E in Hrd.
  - intros E. rewrite E in Hwr. cbn in Hwr. by rewrite Hw.
Qed.

(** ** Progress *)

Definition finished (p : prog (list Z)) : Prop := match p with Ret _ | Stuck => True | _ => False end.

(** Alone, a process comes to the end of its round, or is stuck. *)
Lemma writer_alone Qw Qr p : stays Qr -> forall s pub, ring_ok Qw Qr s pub -> writer s = Some p ->
  exists s' p' pub', rtc rstep s s' /\ ring_ok Qw Qr s' pub' /\ writer s' = Some p' /\ finished p' /\
    rd s' = rd s /\ reader s' = reader s /\ sent s' = sent s /\ got s' = got s.
Proof.
  intros HQ. induction p as [a| |c k IH|c n k IH|o k IH|o v k IH]; intros s pub Hi E.
  1,2: eexists s, _, pub; split_and!; try done; exact E.
  all: edestruct (writer_access Qw Qr s pub) as [pub1 Hi1]; [done|done|exact E|cbn; reflexivity|].
  all: edestruct IH as (s' & p' & pub' & Hr & Hi' & E' & Hf & H1 & H2 & H3 & H4); [exact Hi1|reflexivity|].
  all: assert (rd s' = rd s /\ reader s' = reader s /\ sent s' = sent s /\ got s' = got s) as Hsame;
    [|exists s', p', pub'; split_and!; try tauto; eapply rtc_l; [by eapply rs_write|exact Hr]].
  all: destruct Hi as [_ _ Hw _ _ _]; rewrite E in Hw; cbn in Hw.
  2: destruct c; [done|].
  all: cbn in *; by rewrite H1, H2, H3, H4.
Qed.

Lemma reader_alone Qw Qr p : forall s pub, ring_ok Qw Qr s pub -> reader s = Some p ->
  exists s' p', rtc rstep s s' /\ ring_ok Qw Qr s' pub /\ reader s' = Some p' /\ finished p' /\
    writer s' = writer s /\ sent s' = sent s /\ got s' = got s.
Proof.
  induction p as [a| |c k IH|c n k IH|o k IH|o v k IH]; intros s pub Hi E.
  1,2: eexists s, _; split_and!; try done; exact E.
  all: pose proof (reader_access Qw Qr s pub _ _ _ Hi E eq_refl) as Hi1.
  all: edestruct IH as (s' & p' & Hr & Hi' & E' & Hf & H2 & H3 & H4); [exact Hi1|reflexivity|].
  all: assert (writer s' = writer s /\ sent s' = sent s /\ got s' = got s) as Hsame;
    [|exists s', p'; split_and!; try tauto; eapply rtc_l; [by eapply rs_read|exact Hr]].
  all: rewrite H2, H3, H4; by try destruct c.
Qed.

Lemma write_all b s l : rtc rstep (new_ring b) s -> writer s = None -> reader s = None ->
  len (sent s) + len l <= rd s + cap -> rd s + 2 * cap < 2 ^ 64 ->
  exists s', rtc rstep s s' /\ writer s' = None /\ reader s' = None /\ sent s' = sent s ++ l /\ got s' = got s.
Proof.
  intros Hs Ew Er Hl H64. destruct (ring_reachable b s Hs) as [pub [Hrange Hst Hw Hrd Hse Hgo]]. rewrite Ew in Hw. subst pub.
  set (choose := fun n => if len l <=? n then l else []).
  assert (forall n, 0 <= n -> len (choose n) <= n) as Hch by (intros n Hn; unfold choose; destruct (Z.leb_spec (len l) n); [done|unfold len; simpl; lia]).
  destruct (writer_alone (gave choose (rd s) (sent s)) (gets_next s) (write_round choose) (gets_next_stays s)
    (set_writer (Some (write_round choose)) s) (sent s)) as (s2 & p & pub2 & Hr2 & [Hrg2 _ Hw2 _ _ _] & E2 & Hf & H1 & H2 & H3 & H4); [|done|].
  { split; cbn [set_writer rd wd bytes writer reader sent got]; try done. apply write_round_wwp; [done|lia|lia]. }
  cbn in H1, H2, H3, H4. rewrite E2 in Hw2. destruct p as [l2| | | | |]; try done.
  - destruct Hw2 as (Ep & n & Hn & ->). assert (choose n = l) as El by (unfold choose; rewrite (proj2 (Z.leb_le _ _)); [done|lia]).
    eexists. split; [eapply rtc_l; [by apply rs_write_begin|]; eapply rtc_r; [exact Hr2|by apply rs_write_end]|]. cbn.
    rewrite H2, H3, H4, El. done.
  - cbn in Hw2. lia.
Qed.

Lemma read_all b s : rtc rstep (new_ring b) s -> writer s = None -> reader s = None ->
  exists s', rtc rstep s s' /\ writer s' = None /\ reader s' = None /\ sent s' = sent s /\ got s' = sent s.
Proof.
  intros Hs Ew Er. destruct (ring_reachable b s Hs) as [pub [Hrange Hst Hw Hrd Hse Hgo]]. rewrite Ew in Hw. rewrite Er in Hrd. subst pub.
  destruct (reader_alone (sends s) (took Z.to_nat (rd s) (sent s)) (read_round Z.to_nat)
    (set_reader (Some (read_round Z.to_nat)) s) (sent s)) as (s2 & p & Hr2 & [Hrg2 _ _ Hrd2 _ _] & E2 & Hf & H1 & H2 & H3); [|done|].
  { split; cbn [set_reader rd wd bytes writer reader sent got]; try done; [by rewrite Ew|]. apply read_round_rwp; [lia|lia|lia]. }
  cbn in H1, H2, H3. rewrite E2 in Hrd2. destruct p as [l2| | | | |]; try done. cbn in Hrd2.
  assert (got s ++ l2 = take (Z.to_nat (rd s2)) (sent s)) as Eg by (eapply took_all; [|exact Hrd|exact Hrd2]; lia). destruct Hrd2 as (Er2 & _ & _ & w & Hw & El).
  eexists. split; [eapply rtc_l; [apply (rs_read_begin _ Z.to_nat); [done|intros; lia]|]; eapply rtc_r; [exact Hr2|by apply rs_read_end]|]. cbn.
  rewrite H1, H2, H3, Eg. split_and!; try done. apply take_ge. unfold len in *. lia.
Qed.

End ring.

(** ** The mapping of the kernel

    The kernel maps the pages [l] of a ring buffer as [ringbuf_mirrored] of
    RingbufProps.v says; the byte at an offset is then the one at this
    address. *)
Definition page_cell (l : list Z) (o : Z) : Z := ring_page l o + o mod PGSIZE.

Record ring_pages (l : list Z) : Prop := {
  rp_length : length l = RINGBUF_SIZE;
  rp_distinct : NoDup l;
  rp_phys : Forall phys_page l }.

Lemma ring_page_lookup l o : ring_pages l -> l !! Z.to_nat (15 - (o / PGSIZE) mod 16) = Some (ring_page l o).
Proof.
  intros [Hl _ _]. unfold ring_page, RINGBUF_SIZE in *. pose proof (Z.mod_pos_bound (o / PGSIZE) 16 ltac:(done)) as Hm.
  destruct (l !! Z.to_nat (15 - (o / PGSIZE) mod 16)) as [pg|] eqn:Ei; [|apply lookup_ge_None_1 in Ei; lia].
  f_equal. by rewrite (nth_lookup_Some _ _ _ _ Ei).
Qed.

Lemma page_cell_mirror l o : page_cell l (o + BUF_CAPACITY) = page_cell l o.
Proof.
  unfold page_cell. change BUF_CAPACITY with (16 * PGSIZE). rewrite ring_page_mirror. by rewrite Z.mod_add by done.
Qed.

Lemma page_index x : 0 <= x < BUF_CAPACITY -> 0 <= x / PGSIZE < 16.
Proof.
  intros Hx. change BUF_CAPACITY with (16 * PGSIZE) in Hx. split; [apply Z.div_pos; lia|apply Z.div_lt_upper_bound; lia].
Qed.

Lemma page_cell_inj l o o' : ring_pages l -> 0 <= o < BUF_CAPACITY -> 0 <= o' < BUF_CAPACITY ->
  page_cell l o = page_cell l o' -> o = o'.
Proof.
  intros H Ho Ho' E. unfold page_cell in E.
  pose proof (ring_page_lookup l o H) as Ep. pose proof (ring_page_lookup l o' H) as Ep'. destruct H as [_ Hnd Hph].
  pose proof (page_index o Ho). pose proof (page_index o' Ho'). rewrite (Z.mod_small (o / PGSIZE)) in Ep by done. rewrite (Z.mod_small (o' / PGSIZE)) in Ep' by done.
  rewrite Forall_forall in Hph. pose proof (Hph _ (list_elem_of_lookup_2 _ _ _ Ep)) as [Ha _].
  pose proof (Hph _ (list_elem_of_lookup_2 _ _ _ Ep')) as [Ha' _].
  pose proof (Z.mod_pos_bound o PGSIZE ltac:(done)) as Hm. pose proof (Z.mod_pos_bound o' PGSIZE ltac:(done)) as Hm'.
  assert (o mod PGSIZE = o' mod PGSIZE) as Em.
  { apply (f_equal (fun x => x mod PGSIZE)) in E. cbv beta in E.
    rewrite (Zplus_mod (ring_page l o)), (Zplus_mod (ring_page l o')), Ha, Ha', !Z.add_0_l, !Z.mod_mod in E by done. done. }
  assert (ring_page l o = ring_page l o') as Eq by lia. rewrite Eq in Ep.
  pose proof (NoDup_lookup _ _ _ _ Hnd Ep Ep') as Ei. assert (o / PGSIZE = o' / PGSIZE) as Ed by lia.
  rewrite (Z.div_mod o PGSIZE), (Z.div_mod o' PGSIZE), Ed, Em by done. done.
Qed.

Definition kernel_buf (l : list Z) (H : ring_pages l) : MagicBuf := {|
  cell := page_cell l;
  cell_mirror := fun o _ => page_cell_mirror l o;
  cell_inj := fun o o' => page_cell_inj l o o' H |}.

(** A process that has the buffer at [base] reaches that byte at [base + o]. *)
Lemma kernel_buf_address l base o : ring_pages l -> base mod PGSIZE = 0 -> 0 <= o ->
  PTE2PA (mk_pte (ring_page l o) RB_PERM) + (base + o) mod PGSIZE = page_cell l o.
Proof.
  intros H Hb Ho. pose proof (ring_page_lookup l o H) as Ep. destruct H as [_ _ Hph]. rewrite Forall_forall in Hph.
  pose proof (Hph _ (list_elem_of_lookup_2 _ _ _ Ep)) as Hp. unfold page_cell.
  rewrite (Zplus_mod base o), Hb, Z.add_0_l, Z.mod_mod by done.
  unfold mk_pte. rewrite PTE2PA_mk; [done| |by unfold RB_PERM]. destruct Hp as (? & ? & ?). split; [done|]. unfold PGSIZE in *. lia.
Qed.

(** ** Descriptors *)

(** A descriptor that has been closed is given out again: [init] looks for the
    name before it asks whether the entry is active, so that a ring buffer
    which is opened, closed and opened again is not opened, and the program
    goes on with addresses that are no longer mapped. *)
Theorem init_returns_closed undefined name buf_u ans : name <> undefined -> PGSIZE <= buf_u ->
  exists l, (i ← ringbuf_init name (Datatypes.inr buf_u); deinit (Z.to_nat i) true;; ringbuf_init name ans) (uringbufs undefined) = Ok 0 l /\
    l !! 0%nat = Some (Urb buf_u (buf_u - PGSIZE) name 0).
Proof.
  intros Hn Hb. set (rest := replicate 9 (Urb 0 0 undefined 0)).
  assert (ringbuf_init name (Datatypes.inr buf_u) (uringbufs undefined) = Ok 0 (Urb buf_u (buf_u - PGSIZE) name 1 :: rest)) as E1.
  { unfold ringbuf_init, init, open, mbind, M_bind, uringbufs. cbn. rewrite bool_decide_eq_false_2 by done. cbn.
    destruct (Z.ltb_spec buf_u PGSIZE); [lia|done]. }
  exists (Urb buf_u (buf_u - PGSIZE) name 0 :: rest). split; [|done]. mstep E1.
  assert (forall l, ringbuf_init name ans (Urb buf_u (buf_u - PGSIZE) name 0 :: l) = Ok 0 (Urb buf_u (buf_u - PGSIZE) name 0 :: l)) as E2.
  { intros l. unfold ringbuf_init, init, mbind, M_bind. cbn. by rewrite bool_decide_eq_true_2 by done. }
  apply E2.
Qed.

(** ** A ring buffer *)

Lemma ex_ring_pages : ring_pages ex_pages.
Proof.
  split; [done| |].
  - apply NoDup_fmap_2_strong; [|apply NoDup_seq]. intros i j _ _ E. unfold PGSIZE in E. lia.
  - apply Forall_forall. intros x Hx. unfold ex_pages in Hx. apply list_elem_of_fmap in Hx as (i & -> & Hi).
    apply elem_of_seq in Hi. unfold phys_page, PGSIZE. change (2 ^ 56) with 72057594037927936.
    split; [|lia]. rewrite Z.mod_add by lia. reflexivity.
Qed.

Lemma ringbuf_fifo_witness : exists s, let buf := kernel_buf ex_pages ex_ring_pages in
  rtc rstep (new_ring ∅) s /\ sent s = [7; 8] /\ got s `prefix_of` sent s.
Proof.
  set (buf := kernel_buf ex_pages ex_ring_pages).
  destruct (write_all ∅ (new_ring ∅) [7; 8]) as (s & R & Ew & Er & E & _); [done|done|done|done|done|].
  exists s. split_and!; [exact R|exact E|]. by apply (ringbuf_fifo ∅ s R).
Defined.

