(* ===== verification/Syscall.v ===== *)
(** System calls on processes, src/src/kernel/sysproc.c and [sys_ringbuf] of
    src/src/kernel/ringbuf.zig, and the table of src/src/kernel/syscall.c.

    Kernel output is the list of the format strings given to [printf]. *)

From S2P Require Import Prelude Ring Spinlock Mem Sleeplock Strings Kalloc Vm Bio Log BlockLayer Fs Pipe Kernel File Ringbuf Proc Args Sysfile Exec.

Section sysproc.
Context {L : Type} `{BlockLayer L}.
Abbreviation K := (M (kern L)).
Context (kend trampoline forkret_addr : Z).

Definition sys_exit : K Z :=
  n ← argint 0;
  exit kend n;;
  mret 0.

Definition sys_getpid : K Z :=
  i ← curproc;
  gets (fun s => pr_pid (getp i s)).

Definition sys_fork : K Z := fork kend trampoline forkret_addr.

Definition sys_wait : K Z :=
  p ← argaddr 0;
  wait kend p.

Definition sys_sbrk : K Z :=
  n ← argint 0;
  i ← curproc;
  addr ← gets (fun s => pr_sz (getp i s));
  r ← growproc kend n;
  mret (if r <? 0 then -1 else addr).

Definition ticks_chan : chan := Chan "ticks" 0.

(** The loop of [sys_sleep]: the difference and [n] are compared as unsigned
    numbers.  A process that wakes up runs [sleep_resume] and the loop again. *)
Definition sys_sleep_loop (ticks0 n : Z) : K Z :=
  ticks ← gets kn_ticks;
  if u32 (ticks - ticks0) <? u32 n then
    i ← curproc;
    k ← killed i;
    if (k : bool) then
      krelease kn_ticks_lock set_kn_ticks_lock;;
      mret (-1)
    else
      Kernel.sleep ticks_chan kn_ticks_lock set_kn_ticks_lock;;
      mret 0
  else
    krelease kn_ticks_lock set_kn_ticks_lock;;
    mret 0.

Definition sys_sleep : K Z :=
  n ← argint 0;
  kacquire kn_ticks_lock set_kn_ticks_lock;;
  ticks0 ← gets kn_ticks;
  sys_sleep_loop ticks0 n.

Definition sys_sleep_resume (ticks0 n : Z) : K Z :=
  sleep_resume kn_ticks_lock set_kn_ticks_lock;;
  sys_sleep_loop ticks0 n.

Definition sys_kill : K Z :=
  pid ← argint 0;
  kill pid.

Definition sys_uptime : K Z :=
  kacquire kn_ticks_lock set_kn_ticks_lock;;
  xticks ← gets kn_ticks;
  krelease kn_ticks_lock set_kn_ticks_lock;;
  mret xticks.

(** The local [name] of [sys_ringbuf], the number of an error, and what
    [@enumFromInt] does with a number that is no operation. *)
Context (rbname : Z) (intFromErr : rberr -> Z) (bad_op : K (option rberr)).

Definition sys_ringbuf : K Z :=
  begin_op;;
  mem_op (kmemset rbname 0 MAX_NAME_LEN);;
  r ← argstr 0 rbname MAX_NAME_LEN;
  ret ← (if r <? 0 then mret (intFromErr BadNameLength)
         else
           m ← mem_op (gets k_mem);
           let name := strn (Z.to_nat MAX_NAME_LEN) m rbname in
           open ← argint 1;
           addr ← argaddr 2;
           e ← (if open =? 1 then ringbuf_op kend name rb_open addr
                else if open =? 0 then ringbuf_op kend name rb_close addr
                else bad_op);
           mret (match e with Some e => intFromErr e | None => 0 end));
  end_op;;
  mret ret.

(** ** The table *)

Context (dev_read dev_write : Z -> option (bool -> Z -> Z -> K Z)) (st0 : mem).
Context (de nm name path old new de' dot dotdot elf ph : Z).

Definition syscalls (num : Z) : option (K Z) :=
  match num with
  | 1 => Some sys_fork
  | 2 => Some sys_exit
  | 3 => Some sys_wait
  | 4 => Some (sys_pipe kend)
  | 5 => Some (sys_read dev_read)
  | 6 => Some sys_kill
  | 7 => Some (sys_exec kend trampoline de nm elf ph path)
  | 8 => Some (sys_fstat st0)
  | 9 => Some (sys_chdir de nm path)
  | 10 => Some sys_dup
  | 11 => Some sys_getpid
  | 12 => Some sys_sbrk
  | 13 => Some sys_sleep
  | 14 => Some sys_uptime
  | 15 => Some (sys_open kend de nm name path dot dotdot)
  | 16 => Some (sys_write dev_write)
  | 17 => Some (sys_mknod de name path dot dotdot)
  | 18 => Some (sys_unlink de name path de' dot dotdot)
  | 19 => Some (sys_link de nm name old new)
  | 20 => Some (sys_mkdir de name path dot dotdot)
  | 21 => Some (sys_close kend)
  | 22 => Some sys_ringbuf
  | _ => None
  end.

Definition syscall : K unit :=
  i ← curproc;
  p ← gets (getp i);
  a7 ← get_tf (pr_trapframe p) (TF_A 7);
  match syscalls (i32 a7) with
  | Some call =>
      r ← call;
      p ← gets (getp i);
      set_tf (pr_trapframe p) (TF_A 0) r
  | None =>
      fop (printf "%d %s: unknown sys call %d");;
      set_tf (pr_trapframe p) (TF_A 0) (-1)
  end.
End sysproc.
