(* ===== verification/Trap.v ===== *)
(** Traps: src/src/kernel/trap.c.

    [sstatus] is the register of the CPU in Kernel.v.  The addresses of the
    assembly entry points and the handlers of the devices are parameters;
    [usertrapret] ends where it jumps to the trampoline, with the value it
    passes in [a0]. *)

From S2P Require Import Prelude Ring Spinlock Mem Sleeplock Strings Kalloc Vm Bio Log BlockLayer Fs Pipe Kernel File Ringbuf Proc Args Syscall.

Definition SSTATUS_SPP : Z := Z.shiftl 1 8.
Definition SSTATUS_SPIE : Z := Z.shiftl 1 5.
Definition SATP_SV39 : Z := Z.shiftl 8 60.
Definition MAKE_SATP (pagetable : Z) : Z := Z.lor SATP_SV39 (Z.shiftr pagetable 12).
Definition UART0_IRQ : Z := 10.
Definition VIRTIO0_IRQ : Z := 1.

Section trap.
Context {L : Type} `{BlockLayer L}.
Abbreviation K := (M (kern L)).
Context (kend : Z).
Context (kernelvec usertrap_addr uservec trampoline : Z).
Context (plic_claim : K Z) (plic_complete : Z -> K unit) (uartintr virtio_disk_intr : K unit).
Context (syscall : K unit).

Definition r_sstatus : K Z := gets (fun s => c_sstatus (kn_cpu s)).
Definition w_sstatus (v : Z) : K unit :=
  modify (fun s => set_kn_cpu (Cpu (c_noff (kn_cpu s)) (c_intena (kn_cpu s)) v) s).
Definition csr_modify (f : csr -> csr) : K unit := modify (fun s => set_kn_csr (f (kn_csr s)) s).

Definition trapinit : K unit := modify (set_kn_ticks_lock false).
Definition trapinithart : K unit := csr_modify (w_stvec kernelvec).

Definition clockintr : K unit :=
  kacquire kn_ticks_lock set_kn_ticks_lock;;
  modify (fun s => set_kn_ticks (u32 (kn_ticks s + 1)) s);;
  wakeup ticks_chan;;
  krelease kn_ticks_lock set_kn_ticks_lock.

Definition devintr : K Z :=
  scause ← gets (fun s => r_scause (kn_csr s));
  if has scause 0x8000000000000000 && (Z.land scause 0xff =? 9) then
    irq ← plic_claim;
    (if irq =? UART0_IRQ then uartintr
     else if irq =? VIRTIO0_IRQ then virtio_disk_intr
     else when (negb (irq =? 0)) (fop (printf "unexpected interrupt irq=%d")));;
    when (negb (irq =? 0)) (plic_complete irq);;
    mret 1
  else if scause =? 0x8000000000000001 then
    id ← gets (fun s => i32 (r_tp (kn_csr s)));
    (if id =? 0 then clockintr else mret tt);;
    csr_modify (fun c => w_sip (Z.land (r_sip c) (Z.lnot 2)) c);;
    mret 2
  else mret 0.

Definition usertrapret : K Z :=
  i ← curproc;
  cpu_op (intr_off 0);;
  csr_modify (w_stvec (u64 (TRAMPOLINE + (uservec - trampoline))));;
  p ← gets (getp i);
  c ← gets kn_csr;
  set_tf (pr_trapframe p) TF_KSATP (r_satp c);;
  set_tf (pr_trapframe p) TF_KSP (u64 (pr_kstack p + PGSIZE));;
  set_tf (pr_trapframe p) TF_KTRAP usertrap_addr;;
  set_tf (pr_trapframe p) TF_KHARTID (r_tp c);;
  x ← r_sstatus;
  w_sstatus (Z.lor (Z.land x (Z.lnot SSTATUS_SPP)) SSTATUS_SPIE);;
  epc ← get_tf (pr_trapframe p) TF_EPC;
  csr_modify (w_sepc epc);;
  mret (MAKE_SATP (pr_pagetable p)).

(** The part of [usertrap] between the two checks for [killed]. *)
Definition usertrap_dispatch (i : nat) : K Z :=
  c ← gets kn_csr;
  p ← gets (getp i);
  if r_scause c =? 8 then
    k ← killed i;
    (if (k : bool) then exit kend (-1) else mret tt);;
    epc ← get_tf (pr_trapframe p) TF_EPC;
    set_tf (pr_trapframe p) TF_EPC (u64 (epc + 4));;
    cpu_op (intr_on 0);;
    syscall;;
    mret 0
  else
    which_dev ← devintr;
    if negb (which_dev =? 0) then mret which_dev
    else
      fop (printf "usertrap(): unexpected scause %p pid=%d");;
      fop (printf "            sepc=%p stval=%p");;
      setkilled i;;
      mret 0.

Definition usertrap : K Z :=
  x ← r_sstatus;
  if has x SSTATUS_SPP then panic "usertrap: not from user mode"
  else
    csr_modify (w_stvec kernelvec);;
    i ← curproc;
    p ← gets (getp i);
    c ← gets kn_csr;
    set_tf (pr_trapframe p) TF_EPC (r_sepc c);;
    which_dev ← usertrap_dispatch i;
    k ← killed i;
    (if (k : bool) then exit kend (-1) else mret tt);;
    (if which_dev =? 2 then yield else mret tt);;
    usertrapret.

(** What is left of [usertrap] when [yield] comes back. *)
Definition usertrap_resume : K Z := yield_resume;; usertrapret.

(** The end of [kerneltrap]. *)
Definition kerneltrap_ret (sepc sstatus : Z) : K unit :=
  csr_modify (w_sepc sepc);;
  w_sstatus sstatus.

Definition kerneltrap : K unit :=
  c ← gets kn_csr;
  sstatus ← r_sstatus;
  if negb (has sstatus SSTATUS_SPP) then panic "kerneltrap: not from supervisor mode"
  else
    on ← cpu_op (intr_get 0);
    if (on : bool) then panic "kerneltrap: interrupts enabled"
    else
      which_dev ← devintr;
      if which_dev =? 0 then
        fop (printf "scause %p");;
        fop (printf "sepc=%p stval=%p");;
        panic "kerneltrap"
      else
        me ← myproc;
        st ← gets (fun s => from_option (fun i => pr_state (getp i s)) UNUSED me);
        (if (which_dev =? 2) && bool_decide (st = RUNNING) then yield else mret tt);;
        kerneltrap_ret (r_sepc c) sstatus.

Definition kerneltrap_resume (sepc sstatus : Z) : K unit :=
  yield_resume;;
  kerneltrap_ret sepc sstatus.
End trap.
