(* ===== verification/Asm.v ===== *)
(** The assembly: src/src/kernel/swtch.S, trampoline.S, kernelvec.S and
    entry.S, instruction by instruction.

    A piece of code is a list of instructions and the jump at its end.  The
    address space is what a value of [satp] makes of an address,
    [translate]; the page tables do not change while the code runs, so that
    [sfence.vma] has nothing to do. *)

From S2P Require Import Prelude Mem Kalloc Vm.

(** ** The machine *)

Inductive reg :=
  | ra | sp | gp | tp | t0 | t1 | t2 | s0 | s1 | a0 | a1 | a2 | a3 | a4 | a5 | a6 | a7
  | s2 | s3 | s4 | s5 | s6 | s7 | s8 | s9 | s10 | s11 | t3 | t4 | t5 | t6.
#[export] Instance reg_eq_dec : EqDecision reg.
Proof. solve_decision. Defined.

Inductive csr :=
  | satp | sscratch | sip | sie
  | mhartid | mstatus | mepc | medeleg | mideleg | mscratch | mtvec | mie | pmpaddr0 | pmpcfg0.
#[export] Instance csr_eq_dec : EqDecision csr.
Proof. solve_decision. Defined.

Record machine := Machine { regs : reg -> Z; csrs : csr -> Z; memory : mem }.

Definition set_reg (r : reg) (v : Z) (m : machine) : machine :=
  Machine (fun x => if decide (x = r) then u64 v else regs m x) (csrs m) (memory m).
Definition set_csr (c : csr) (v : Z) (m : machine) : machine :=
  Machine (regs m) (fun x => if decide (x = c) then u64 v else csrs m x) (memory m).
Definition set_memory (d : mem) (m : machine) : machine := Machine (regs m) (csrs m) d.

Inductive instr :=
  | Sd (r : reg) (o : Z) (b : reg)
  | Ld (r : reg) (o : Z) (b : reg)
  | Li (r : reg) (v : Z)
  | Addi (r x : reg) (n : Z)
  | Add (r x y : reg)
  | Mul (r x y : reg)
  | Csrw (c : csr) (r : reg)
  | Csrr (r : reg) (c : csr)
  | Csrrw (r : reg) (c : csr) (x : reg)
  | SfenceVma.

(** Where the code goes in the end: to an address, back from a trap to
    [sepc] or [mepc], or to a C function. *)
Inductive jump := Jr (r : reg) | Sret | Mret | CallC (f : string).
Inductive target := To (pc : Z) | ToSepc | ToMepc | ToC (f : string).

Definition code : Type := list instr * jump.

Section semantics.
Context (translate : Z -> Z -> option Z).

Definition step (i : instr) (m : machine) : option machine :=
  match i with
  | Sd r o b => pa ← translate (csrs m satp) (u64 (regs m b + o)); Some (set_memory (st64 (memory m) pa (regs m r)) m)
  | Ld r o b => pa ← translate (csrs m satp) (u64 (regs m b + o)); Some (set_reg r (ld64 (memory m) pa) m)
  | Li r v => Some (set_reg r v m)
  | Addi r x n => Some (set_reg r (regs m x + n) m)
  | Add r x y => Some (set_reg r (regs m x + regs m y) m)
  | Mul r x y => Some (set_reg r (regs m x * regs m y) m)
  | Csrw c r => Some (set_csr c (regs m r) m)
  | Csrr r c => Some (set_reg r (csrs m c) m)
  | Csrrw r c x => Some (set_reg r (csrs m c) (set_csr c (regs m x) m))
  | SfenceVma => Some m
  end.

Fixpoint run (l : list instr) (m : machine) : option machine :=
  match l with
  | [] => Some m
  | i :: l => m ← step i m; run l m
  end.

Definition goes (j : jump) (m : machine) : target :=
  match j with Jr r => To (regs m r) | Sret => ToSepc | Mret => ToMepc | CallC f => ToC f end.

Definition exec (c : code) (m : machine) : option (machine * target) :=
  m ← run c.1 m; Some (m, goes c.2 m).
End semantics.

(** ** The code *)

(** [ret] is [jr ra]. *)
Definition swtch : code :=
  ([Sd ra 0 a0; Sd sp 8 a0; Sd s0 16 a0; Sd s1 24 a0; Sd s2 32 a0; Sd s3 40 a0; Sd s4 48 a0; Sd s5 56 a0;
    Sd s6 64 a0; Sd s7 72 a0; Sd s8 80 a0; Sd s9 88 a0; Sd s10 96 a0; Sd s11 104 a0;
    Ld ra 0 a1; Ld sp 8 a1; Ld s0 16 a1; Ld s1 24 a1; Ld s2 32 a1; Ld s3 40 a1; Ld s4 48 a1; Ld s5 56 a1;
    Ld s6 64 a1; Ld s7 72 a1; Ld s8 80 a1; Ld s9 88 a1; Ld s10 96 a1; Ld s11 104 a1], Jr ra).

Definition uservec : code :=
  ([Csrw sscratch a0; Li a0 TRAPFRAME;
    Sd ra 40 a0; Sd sp 48 a0; Sd gp 56 a0; Sd tp 64 a0; Sd t0 72 a0; Sd t1 80 a0; Sd t2 88 a0; Sd s0 96 a0;
    Sd s1 104 a0; Sd a1 120 a0; Sd a2 128 a0; Sd a3 136 a0; Sd a4 144 a0; Sd a5 152 a0; Sd a6 160 a0;
    Sd a7 168 a0; Sd s2 176 a0; Sd s3 184 a0; Sd s4 192 a0; Sd s5 200 a0; Sd s6 208 a0; Sd s7 216 a0;
    Sd s8 224 a0; Sd s9 232 a0; Sd s10 240 a0; Sd s11 248 a0; Sd t3 256 a0; Sd t4 264 a0; Sd t5 272 a0;
    Sd t6 280 a0;
    Csrr t0 sscratch; Sd t0 112 a0; Ld sp 8 a0; Ld tp 32 a0; Ld t0 16 a0; Ld t1 0 a0;
    SfenceVma; Csrw satp t1; SfenceVma], Jr t0).

Definition userret : code :=
  ([SfenceVma; Csrw satp a0; SfenceVma; Li a0 TRAPFRAME;
    Ld ra 40 a0; Ld sp 48 a0; Ld gp 56 a0; Ld tp 64 a0; Ld t0 72 a0; Ld t1 80 a0; Ld t2 88 a0; Ld s0 96 a0;
    Ld s1 104 a0; Ld a1 120 a0; Ld a2 128 a0; Ld a3 136 a0; Ld a4 144 a0; Ld a5 152 a0; Ld a6 160 a0;
    Ld a7 168 a0; Ld s2 176 a0; Ld s3 184 a0; Ld s4 192 a0; Ld s5 200 a0; Ld s6 208 a0; Ld s7 216 a0;
    Ld s8 224 a0; Ld s9 232 a0; Ld s10 240 a0; Ld s11 248 a0; Ld t3 256 a0; Ld t4 264 a0; Ld t5 272 a0;
    Ld t6 280 a0;
    Ld a0 112 a0], Sret).

(** Up to the call of [kerneltrap], and from its return on. *)
Definition kernelvec_save : code :=
  ([Addi sp sp (-256);
    Sd ra 0 sp; Sd sp 8 sp; Sd gp 16 sp; Sd tp 24 sp; Sd t0 32 sp; Sd t1 40 sp; Sd t2 48 sp; Sd s0 56 sp;
    Sd s1 64 sp; Sd a0 72 sp; Sd a1 80 sp; Sd a2 88 sp; Sd a3 96 sp; Sd a4 104 sp; Sd a5 112 sp; Sd a6 120 sp;
    Sd a7 128 sp; Sd s2 136 sp; Sd s3 144 sp; Sd s4 152 sp; Sd s5 160 sp; Sd s6 168 sp; Sd s7 176 sp;
    Sd s8 184 sp; Sd s9 192 sp; Sd s10 200 sp; Sd s11 208 sp; Sd t3 216 sp; Sd t4 224 sp; Sd t5 232 sp;
    Sd t6 240 sp], CallC "kerneltrap").

Definition kernelvec_restore : code :=
  ([Ld ra 0 sp; Ld sp 8 sp; Ld gp 16 sp; Ld t0 32 sp; Ld t1 40 sp; Ld t2 48 sp; Ld s0 56 sp;
    Ld s1 64 sp; Ld a0 72 sp; Ld a1 80 sp; Ld a2 88 sp; Ld a3 96 sp; Ld a4 104 sp; Ld a5 112 sp; Ld a6 120 sp;
    Ld a7 128 sp; Ld s2 136 sp; Ld s3 144 sp; Ld s4 152 sp; Ld s5 160 sp; Ld s6 168 sp; Ld s7 176 sp;
    Ld s8 184 sp; Ld s9 192 sp; Ld s10 200 sp; Ld s11 208 sp; Ld t3 216 sp; Ld t4 224 sp; Ld t5 232 sp;
    Ld t6 240 sp;
    Addi sp sp 256], Sret).

Definition timervec : code :=
  ([Csrrw a0 mscratch a0; Sd a1 0 a0; Sd a2 8 a0; Sd a3 16 a0;
    Ld a1 24 a0; Ld a2 32 a0; Ld a3 0 a1; Add a3 a3 a2; Sd a3 0 a1;
    Li a1 2; Csrw sip a1;
    Ld a3 16 a0; Ld a2 8 a0; Ld a1 0 a0; Csrrw a0 mscratch a0], Mret).

(** [stack0] is the address of the variable. *)
Definition entry (stack0 : Z) : code :=
  ([Li sp stack0; Li a0 (1024 * 4); Csrr a1 mhartid; Addi a1 a1 1; Mul a0 a0 a1; Add sp sp a0], CallC "start").
