(* ===== verification/AsmProps.v ===== *)
(** Registers across traps and context switches: what swtch.S, trampoline.S
    and kernelvec.S save and load. *)

From S2P Require Import Prelude Mem Kalloc Vm Asm.

#[local] Arguments ld64 : simpl never.
#[local] Arguments u64 : simpl never.

(** Registers that are known to be the same, or not. *)
Ltac dec_regs := repeat match goal with |- context [decide (?x = ?y)] => destruct (decide (x = y)) as [?|?]; try discriminate; try congruence end.

(** ** Runs of stores and loads *)

(** Registers with the places they are kept at. *)
Definition table : Type := list (reg * Z).
Definition saves (b : reg) (tbl : table) : list instr := (fun ro => Sd ro.1 ro.2 b) <$> tbl.
Definition loads (b : reg) (tbl : table) : list instr := (fun ro => Ld ro.1 ro.2 b) <$> tbl.

Definition stored (f : reg -> Z) (pa : Z) (tbl : table) (d : mem) : mem :=
  foldl (fun d ro => st64 d (pa + ro.2) (f ro.1)) d tbl.

(** The place of a register. *)
Fixpoint place (tbl : table) (r : reg) : option Z :=
  match tbl with
  | [] => None
  | (x, o) :: tbl => match place tbl r with Some o' => Some o' | None => if decide (r = x) then Some o else None end
  end.

Definition loaded (d : mem) (pa : Z) (tbl : table) (f : reg -> Z) (r : reg) : Z :=
  match place tbl r with Some o => ld64 d (pa + o) | None => f r end.

(** The places are words that do not overlap, within [n] bytes. *)
Fixpoint spaced (n : Z) (tbl : table) : bool :=
  match tbl with
  | [] => true
  | (_, o) :: tbl => (0 <=? o) && (o + 8 <=? n) && forallb (fun ro => (o + 8 <=? ro.2) || (ro.2 + 8 <=? o)) tbl && spaced n tbl
  end.

Lemma spaced_cons n r o tbl : spaced n ((r, o) :: tbl) = true ->
  0 <= o /\ o + 8 <= n /\ (forall ro, ro ∈ tbl -> o + 8 <= ro.2 \/ ro.2 + 8 <= o) /\ spaced n tbl = true.
Proof.
  cbn [spaced]. rewrite !andb_true_iff, forallb_forall. intros (((H1 & H2) & H3) & H4). split_and!; [lia|lia| |done].
  intros ro Hi. specialize (H3 ro ltac:(by apply list_elem_of_In)). lia.
Qed.

Lemma spaced_in n tbl ro : spaced n tbl = true -> ro ∈ tbl -> 0 <= ro.2 /\ ro.2 + 8 <= n.
Proof.
  induction tbl as [|[x o] tbl IH]; intros Hs Hi; [by apply not_elem_of_nil in Hi|].
  apply spaced_cons in Hs as (? & ? & _ & Hs). apply elem_of_cons in Hi as [->|Hi]; [done|by apply IH].
Qed.

Lemma place_in tbl r o : place tbl r = Some o -> (r, o) ∈ tbl.
Proof.
  induction tbl as [|[x o'] tbl IH]; cbn [place]; [done|]. destruct (place tbl r) eqn:E.
  - intros [= ->]. right. by apply IH.
  - destruct (decide (r = x)) as [->|]; [|done]. intros [= ->]. left.
Qed.

Lemma rd_stored f pa tbl d n a : spaced n tbl = true -> a < pa \/ pa + n <= a -> rd (stored f pa tbl d) a = rd d a.
Proof.
  revert d. induction tbl as [|[r o] tbl IH]; intros d Hs Ha; [done|]. apply spaced_cons in Hs as (? & ? & _ & Hs).
  cbn [stored foldl fst snd]. fold (stored f pa tbl (st64 d (pa + o) (f r))). rewrite IH by done.
  unfold st64. apply rd_stn_other. lia.
Qed.

Lemma rd_stored_low f pa tbl d n a : (forall ro, ro ∈ tbl -> n <= ro.2) -> a < pa + n -> rd (stored f pa tbl d) a = rd d a.
Proof.
  revert d. induction tbl as [|[r o] tbl IH]; intros d Hs Ha; [done|].
  cbn [stored foldl fst snd]. fold (stored f pa tbl (st64 d (pa + o) (f r))). rewrite IH by (try intros ro Hi; try apply Hs; try right; done).
  unfold st64. apply rd_stn_other. pose proof (Hs (r, o) ltac:(by left)) as Ho. cbn [snd] in Ho. lia.
Qed.

Lemma ld_stored_other f pa tbl d o : (forall ro, ro ∈ tbl -> o + 8 <= ro.2 \/ ro.2 + 8 <= o) -> ld64 (stored f pa tbl d) (pa + o) = ld64 d (pa + o).
Proof.
  revert d. induction tbl as [|[r o'] tbl IH]; intros d Hs; [done|].
  cbn [stored foldl fst snd]. fold (stored f pa tbl (st64 d (pa + o') (f r))). rewrite IH by (intros ro Hi; apply Hs; by right).
  apply ld64_st64_other. pose proof (Hs (r, o') ltac:(by left)) as Ho. cbn [snd] in Ho. lia.
Qed.

Lemma ld_stored f pa tbl d n r o : spaced n tbl = true -> (r, o) ∈ tbl -> ld64 (stored f pa tbl d) (pa + o) = u64 (f r).
Proof.
  revert d. induction tbl as [|[x o'] tbl IH]; intros d Hs Hi; [by apply not_elem_of_nil in Hi|].
  apply spaced_cons in Hs as (_ & _ & Ho & Hs). cbn [stored foldl fst snd]. fold (stored f pa tbl (st64 d (pa + o') (f x))).
  apply elem_of_cons in Hi as [E|Hi]; [|by apply IH]. injection E as -> ->.
  rewrite ld_stored_other by done. apply ld64_st64.
Qed.

Section code.
Context (translate : Z -> Z -> option Z).

(** [n] bytes from address [va] on are at [pa]. *)
Definition mapped (sp va pa n : Z) : Prop := forall i, 0 <= i < n -> translate sp (u64 (va + i)) = Some (pa + i).

Lemma run_app l l' m : run translate (l ++ l') m = m ← run translate l m; run translate l' m.
Proof. revert m. induction l as [|i l IH]; intros m; cbn [run app]; [done|]. destruct (step translate i m); cbn; [apply IH|done]. Qed.

Lemma run_cons i l m : run translate (i :: l) m = m ← step translate i m; run translate l m.
Proof. done. Qed.

Lemma run_saves b tbl n m pa : spaced n tbl = true -> mapped (csrs m satp) (regs m b) pa n ->
  run translate (saves b tbl) m = Some (set_memory (stored (regs m) pa tbl (memory m)) m).
Proof.
  revert m. induction tbl as [|[r o] tbl IH]; intros m Hs Hm; [by destruct m|]. apply spaced_cons in Hs as (? & ? & _ & Hs).
  cbn [saves fmap list_fmap run step fst snd]. rewrite Hm by lia. cbn [mbind option_bind].
  fold (saves b tbl). rewrite IH; done.
Qed.

Lemma run_loads b tbl n m pa : spaced n tbl = true -> place tbl b = None -> mapped (csrs m satp) (regs m b) pa n ->
  exists m', run translate (loads b tbl) m = Some m' /\ csrs m' = csrs m /\ memory m' = memory m /\
    forall r, regs m' r = loaded (memory m) pa tbl (regs m) r.
Proof.
  revert m. induction tbl as [|[x o] tbl IH]; intros m Hs Hb Hm; [by exists m|]. apply spaced_cons in Hs as (? & ? & _ & Hs).
  cbn [loads fmap list_fmap run step fst snd]. rewrite Hm by lia. cbn [mbind option_bind]. fold (loads b tbl).
  cbn [place] in Hb. destruct (place tbl b) eqn:Eb; [done|]. destruct (decide (b = x)); [done|].
  destruct (IH (set_reg x (ld64 (memory m) (pa + o)) m) Hs eq_refl) as (m' & -> & Hc & Hmem & Hr).
  { cbn [set_reg regs csrs]. by rewrite decide_False. }
  exists m'. split_and!; [done|done|done|]. intros r. rewrite Hr. unfold loaded. cbn [place set_reg regs memory].
  destruct (place tbl r); [done|]. destruct (decide (r = x)); [|done]. apply u64_small, ld64_range.
Qed.
End code.

(** The values of the registers are words. *)
Definition words (m : machine) : Prop := forall r, 0 <= regs m r < 2 ^ 64.

Lemma stored_app f pa tbl tbl' d : stored f pa (tbl ++ tbl') d = stored f pa tbl' (stored f pa tbl d).
Proof. apply foldl_app. Qed.

(** ** Context switches *)

(** [struct context] *)
Definition ctx_table : table :=
  [(ra, 0); (sp, 8); (s0, 16); (s1, 24); (s2, 32); (s3, 40); (s4, 48); (s5, 56); (s6, 64); (s7, 72); (s8, 80); (s9, 88);
   (s10, 96); (s11, 104)].
Definition CTX_SIZE : Z := 112.

(** The registers that a C function keeps. *)
Definition callee_saved (r : reg) : bool := match place ctx_table r with Some _ => true | None => false end.

Definition apart (a b n : Z) : Prop := a + n <= b \/ b + n <= a.

Section switch.
Context (translate : Z -> Z -> option Z).
Abbreviation mapped := (mapped translate).
Abbreviation exec := (exec translate).

Lemma swtch_code : swtch = (saves a0 ctx_table ++ loads a1 ctx_table, Jr ra).
Proof. done. Qed.

Lemma ctx_places r o : place ctx_table r = Some o -> (r, o) ∈ ctx_table /\ 0 <= o /\ o + 8 <= CTX_SIZE.
Proof.
  intros H%place_in. split; [done|]. exact (spaced_in CTX_SIZE ctx_table (r, o) eq_refl H).
Qed.

(** A switch from the context at [old] to the one at [new]. *)
Lemma swtch_exec m old new :
  mapped (csrs m satp) (regs m a0) old CTX_SIZE -> mapped (csrs m satp) (regs m a1) new CTX_SIZE -> apart old new CTX_SIZE ->
  exists m', exec swtch m = Some (m', To (ld64 (memory m) new)) /\ csrs m' = csrs m /\
    memory m' = stored (regs m) old ctx_table (memory m) /\
    (forall r, regs m' r = loaded (memory m) new ctx_table (regs m) r).
Proof.
  intros Ho Hn Ha. unfold Asm.exec. rewrite swtch_code. cbn [fst snd]. rewrite run_app, (run_saves translate a0 ctx_table CTX_SIZE m old) by done.
  cbn [mbind option_bind]. destruct (run_loads translate a1 ctx_table CTX_SIZE (set_memory (stored (regs m) old ctx_table (memory m)) m) new)
    as (m' & -> & Hc & Hm & Hr); [done|done|done|]. cbn [set_memory csrs memory regs] in *.
  assert (forall o, 0 <= o -> o + 8 <= CTX_SIZE -> ld64 (stored (regs m) old ctx_table (memory m)) (new + o) = ld64 (memory m) (new + o)) as Hl.
  { intros o H0 H1. apply ldn_ext. intros i Hi. apply (rd_stored _ _ _ _ CTX_SIZE); [done|]. destruct Ha; simpl Z.of_nat in Hi; lia. }
  assert (forall r, regs m' r = loaded (memory m) new ctx_table (regs m) r) as Hr'.
  { intros r. rewrite Hr. unfold loaded. destruct (place ctx_table r) eqn:E; [|done]. apply ctx_places in E as (_ & ? & ?). by apply Hl. }
  exists m'. split_and!; [|done|done|done]. cbn [mbind option_bind goes]. rewrite (Hr' ra). unfold loaded.
  change (place ctx_table ra) with (Some 0). cbv iota. by rewrite Z.add_0_r.
Qed.

(** C25: a thread that calls [swtch] goes on where it was when it is switched
    back to.  Whatever ran in between, if the context in which [swtch] saved
    the thread is as it was left, a later [swtch] to it, from any other
    context, jumps to the address at which the first call was to return, with
    the stack pointer and all callee-saved registers that the thread had.
    The first switch itself jumps into the new context with its registers,
    and changes no memory but the old context. *)
Theorem swtch_resumes m old new :
  words m -> mapped (csrs m satp) (regs m a0) old CTX_SIZE -> mapped (csrs m satp) (regs m a1) new CTX_SIZE ->
  apart old new CTX_SIZE ->
  exists m1, exec swtch m = Some (m1, To (ld64 (memory m) new)) /\
    (forall r, regs m1 r = loaded (memory m) new ctx_table (regs m) r) /\
    (forall a, a < old \/ old + CTX_SIZE <= a -> rd (memory m1) a = rd (memory m) a) /\
    forall m2 other,
      (forall a, old <= a < old + CTX_SIZE -> rd (memory m2) a = rd (memory m1) a) ->
      mapped (csrs m2 satp) (regs m2 a0) other CTX_SIZE -> mapped (csrs m2 satp) (regs m2 a1) old CTX_SIZE ->
      apart other old CTX_SIZE ->
      exists m3, exec swtch m2 = Some (m3, To (regs m ra)) /\
        forall r, regs m3 r = if callee_saved r then regs m r else regs m2 r.
Proof.
  intros Hw Ho Hn Ha. destruct (swtch_exec m old new Ho Hn Ha) as (m1 & E1 & _ & Hm1 & Hr1).
  exists m1. split_and!; [done|done| |].
  { intros a Hout. rewrite Hm1. by apply (rd_stored _ _ _ _ CTX_SIZE). }
  intros m2 other Hsame Ho2 Hn2 Ha2. destruct (swtch_exec m2 other old Ho2 Hn2 Ha2) as (m3 & E3 & _ & _ & Hr3).
  assert (forall r o, place ctx_table r = Some o -> ld64 (memory m2) (old + o) = regs m r) as Hkept.
  { intros r o Hp. apply ctx_places in Hp as (Hi & H0 & H1). transitivity (ld64 (memory m1) (old + o)).
    - apply ldn_ext. intros i Hi'. apply Hsame. simpl Z.of_nat in Hi'. lia.
    - rewrite Hm1, (ld_stored _ _ _ _ CTX_SIZE r o) by done. by apply u64_small. }
  exists m3. rewrite E3. split.
  - rewrite <- (Hkept ra 0 eq_refl), Z.add_0_r. done.
  - intros r. rewrite Hr3. unfold loaded, callee_saved. destruct (place ctx_table r) eqn:E; [by apply Hkept|done].
Qed.
End switch.

(** ** Traps from user space *)

(** The registers in [struct trapframe], in the order in which they are
    saved. *)
Definition tf_table : table :=
  [(ra, 40); (sp, 48); (gp, 56); (tp, 64); (t0, 72); (t1, 80); (t2, 88); (s0, 96); (s1, 104); (a1, 120); (a2, 128); (a3, 136);
   (a4, 144); (a5, 152); (a6, 160); (a7, 168); (s2, 176); (s3, 184); (s4, 192); (s5, 200); (s6, 208); (s7, 216); (s8, 224);
   (s9, 232); (s10, 240); (s11, 248); (t3, 256); (t4, 264); (t5, 272); (t6, 280)].
Definition tf_all : table := tf_table ++ [(a0, 112)].
Definition tf_size : Z := 288.
Definition tf_offset (r : reg) : Z := default 0 (place tf_all r).

(** The words of the frame that the kernel gives itself. *)
Definition kernel_table : table := [(sp, 8); (tp, 32); (t0, 16); (t1, 0)].

Lemma tf_places r : place tf_all r = Some (tf_offset r) /\ (r, tf_offset r) ∈ tf_all /\ 40 <= tf_offset r /\ tf_offset r + 8 <= tf_size.
Proof.
  assert (place tf_all r = Some (tf_offset r)) as E by (by destruct r). pose proof (place_in _ _ _ E) as Hi.
  split_and!; [done|done|by destruct r|]. exact (proj2 (spaced_in tf_size tf_all (r, tf_offset r) eq_refl Hi)).
Qed.

Section user.
Context (translate : Z -> Z -> option Z).
Abbreviation mapped := (mapped translate).
Abbreviation exec := (exec translate).

Lemma uservec_code : uservec =
  ([Csrw sscratch a0; Li a0 TRAPFRAME] ++ saves a0 tf_table ++ [Csrr t0 sscratch; Sd t0 112 a0] ++ loads a0 kernel_table ++
   [SfenceVma; Csrw satp t1; SfenceVma], Jr t0).
Proof. done. Qed.

(** From user space: [tf] is where the user page table has the trap frame. *)
Lemma uservec_exec u tf : words u -> mapped (csrs u satp) TRAPFRAME tf tf_size ->
  exists k, exec uservec u = Some (k, To (ld64 (memory u) (tf + 16))) /\
    regs k sp = ld64 (memory u) (tf + 8) /\ regs k tp = ld64 (memory u) (tf + 32) /\ csrs k satp = ld64 (memory u) tf /\
    memory k = stored (regs u) tf tf_all (memory u).
Proof.
  intros Hw Hm. unfold Asm.exec. rewrite uservec_code. cbn [fst snd]. rewrite run_app. cbn [run step mbind option_bind].
  rewrite run_app. set (m1 := set_reg a0 TRAPFRAME (set_csr sscratch (regs u a0) u)).
  assert (regs m1 a0 = TRAPFRAME) as E0 by done. assert (csrs m1 satp = csrs u satp) as Es by done.
  rewrite (run_saves translate a0 tf_table tf_size m1 tf) by (rewrite ?E0, ?Es; done). cbn [mbind option_bind].
  rewrite run_app. cbn [run step]. set (m2 := set_memory (stored (regs m1) tf tf_table (memory m1)) m1).
  set (m3 := set_reg t0 (csrs m2 sscratch) m2). cbn [mbind option_bind]. change (regs m3 a0) with TRAPFRAME. change (csrs m3 satp) with (csrs u satp).
  rewrite Hm by done. cbn [mbind option_bind]. rewrite run_app.
  set (m4 := set_memory (st64 (memory m3) (tf + 112) (regs m3 t0)) m3).
  assert (memory m4 = stored (regs u) tf tf_all (memory u)) as Em4.
  { unfold tf_all. rewrite stored_app. cbn [stored foldl fst snd]. fold (stored (regs u) tf tf_table (memory u)).
    unfold m4. cbn [set_memory memory]. change (regs m3 t0) with (u64 (u64 (regs u a0))). rewrite !(u64_small (regs u a0)) by apply Hw.
    done. }
  destruct (run_loads translate a0 kernel_table tf_size m4 tf) as (m5 & -> & Hc & Hmem & Hr); [done|done|done|].
  cbn [mbind option_bind run step goes set_csr regs csrs memory].
  assert (forall o, 0 <= o -> o + 8 <= 40 -> ld64 (memory m4) (tf + o) = ld64 (memory u) (tf + o)) as Hl.
  { intros o H0 H1. rewrite Em4. apply ld_stored_other. intros ro Hi.
    repeat (apply elem_of_cons in Hi as [->|Hi]; [cbn; lia|]). by apply not_elem_of_nil in Hi. }
  assert (forall r o, place kernel_table r = Some o -> 0 <= o -> o + 8 <= 40 -> regs m5 r = ld64 (memory u) (tf + o)) as Hk.
  { intros r o Hp H0 H1. rewrite Hr. unfold loaded. rewrite Hp. by apply Hl. }
  exists (set_csr satp (regs m5 t1) m5). cbn [set_csr regs csrs memory]. rewrite Hmem, Em4.
  split_and!; [|by apply Hk..| |done].
  - by rewrite (Hk t0 16).
  - rewrite decide_True, (Hk t1 0), Z.add_0_r by done. apply u64_small, ld64_range.
Qed.

Lemma userret_code : userret =
  ([SfenceVma; Csrw satp a0; SfenceVma; Li a0 TRAPFRAME] ++ loads a0 tf_table ++ [Ld a0 112 a0], Sret).
Proof. done. Qed.

(** Back to user space, with the page table in [a0]. *)
Lemma userret_exec k tf : words k -> mapped (regs k a0) TRAPFRAME tf tf_size ->
  exists u, exec userret k = Some (u, ToSepc) /\ csrs u satp = regs k a0 /\ memory u = memory k /\
    forall r, regs u r = ld64 (memory k) (tf + tf_offset r).
Proof.
  intros Hw Hm. unfold Asm.exec. rewrite userret_code. cbn [fst snd]. rewrite run_app. cbn [run step mbind option_bind].
  rewrite run_app. set (m1 := set_reg a0 TRAPFRAME (set_csr satp (regs k a0) k)).
  assert (csrs m1 satp = regs k a0) as Es by (cbn; apply u64_small, Hw).
  destruct (run_loads translate a0 tf_table tf_size m1 tf) as (m2 & -> & Hc & Hmem & Hr); [done|done|by rewrite Es|].
  cbn [mbind option_bind run step]. rewrite (Hr a0), Hc, Es. change (loaded (memory m1) tf tf_table (regs m1) a0) with TRAPFRAME.
  rewrite Hm by done. cbn [mbind option_bind goes]. eexists. split; [done|]. cbn [set_reg csrs memory regs].
  rewrite Hc, Hmem. split_and!; [done|done|]. intros r. destruct (decide (r = a0)) as [->|Hne].
  - apply u64_small, ld64_range.
  - rewrite Hr. unfold loaded. by destruct r.
Qed.
End user.

(** ** Traps in the kernel *)

Definition kv_table : table :=
  [(ra, 0); (sp, 8); (gp, 16); (tp, 24); (t0, 32); (t1, 40); (t2, 48); (s0, 56); (s1, 64); (a0, 72); (a1, 80); (a2, 88); (a3, 96);
   (a4, 104); (a5, 112); (a6, 120); (a7, 128); (s2, 136); (s3, 144); (s4, 152); (s5, 160); (s6, 168); (s7, 176); (s8, 184);
   (s9, 192); (s10, 200); (s11, 208); (t3, 216); (t4, 224); (t5, 232); (t6, 240)].
Definition kv_size : Z := 256.
Definition kv_offset (r : reg) : Z := default 0 (place kv_table r).

Section kernel.
Context (translate : Z -> Z -> option Z).
Abbreviation mapped := (mapped translate).
Abbreviation exec := (exec translate).

(** What is loaded after the stack pointer. *)
Definition kv_rest : table :=
  [(gp, 16); (t0, 32); (t1, 40); (t2, 48); (s0, 56); (s1, 64); (a0, 72); (a1, 80); (a2, 88); (a3, 96);
   (a4, 104); (a5, 112); (a6, 120); (a7, 128); (s2, 136); (s3, 144); (s4, 152); (s5, 160); (s6, 168); (s7, 176); (s8, 184);
   (s9, 192); (s10, 200); (s11, 208); (t3, 216); (t4, 224); (t5, 232); (t6, 240)].

Lemma kernelvec_save_code : kernelvec_save = ([Addi sp sp (-256)] ++ saves sp kv_table, CallC "kerneltrap").
Proof. done. Qed.

Lemma kernelvec_restore_code : kernelvec_restore =
  (loads sp [(ra, 0)] ++ [Ld sp 8 sp] ++ loads sp kv_rest ++ [Addi sp sp 256], Sret).
Proof. done. Qed.

Lemma kernelvec_save_exec m st : words m -> mapped (csrs m satp) (u64 (regs m sp - 256)) st kv_size ->
  exists k, exec kernelvec_save m = Some (k, ToC "kerneltrap") /\ regs k sp = u64 (regs m sp - 256) /\ csrs k = csrs m /\
    memory k = stored (regs k) st kv_table (memory m) /\ forall r, r <> sp -> regs k r = regs m r.
Proof.
  intros Hw Hm. unfold Asm.exec. rewrite kernelvec_save_code. cbn [fst snd]. rewrite run_app. cbn [run step mbind option_bind].
  set (m1 := set_reg sp (regs m sp + -256) m). assert (regs m1 sp = u64 (regs m sp - 256)) as E by done.
  rewrite (run_saves translate sp kv_table kv_size m1 st) by (rewrite ?E; done). cbn [mbind option_bind goes].
  eexists. split; [done|]. cbn [set_memory regs csrs memory]. split_and!; [done|done|done|].
  intros r Hr. cbn [m1 set_reg regs]. by rewrite decide_False.
Qed.

(** The stack pointer is where it was, and the frame has what was saved. *)
Lemma kernelvec_restore_exec k st : words k -> mapped (csrs k satp) (regs k sp) st kv_size -> ld64 (memory k) (st + 8) = regs k sp ->
  exists m, exec kernelvec_restore k = Some (m, ToSepc) /\ regs m sp = u64 (regs k sp + 256) /\ regs m tp = regs k tp /\
    memory m = memory k /\ csrs m = csrs k /\ forall r, r <> sp -> r <> tp -> regs m r = ld64 (memory k) (st + kv_offset r).
Proof.
  intros Hw Hm Hsp. unfold Asm.exec. rewrite kernelvec_restore_code. cbn [fst snd]. rewrite run_app.
  destruct (run_loads translate sp [(ra, 0)] kv_size k st) as (m1 & -> & C1 & M1 & R1); [done|done|done|].
  cbn [mbind option_bind]. rewrite run_app. cbn [run step]. rewrite (R1 sp), C1. change (loaded (memory k) st [(ra, 0)] (regs k) sp) with (regs k sp).
  rewrite Hm by done. cbn [mbind option_bind]. set (m2 := set_reg sp (ld64 (memory m1) (st + 8)) m1).
  assert (regs m2 sp = regs k sp) as Es.
  { cbn. rewrite M1, Hsp. apply u64_small, Hw. }
  rewrite run_app. destruct (run_loads translate sp kv_rest kv_size m2 st) as (m3 & -> & C3 & M3 & R3); [done|done|cbn [m2 set_reg csrs]; by rewrite C1, Es|].
  cbn [mbind option_bind run step goes]. eexists. split; [done|]. cbn [set_reg regs csrs memory]. rewrite decide_True by done.
  cbn [m2 set_reg csrs memory] in C3, M3. split_and!; try congruence.
  - rewrite R3. unfold loaded. cbn [place kv_rest]. change (u64 (regs m2 sp + 256) = u64 (regs k sp + 256)). by rewrite Es.
  - rewrite decide_False by done. rewrite R3. change (regs m1 tp = regs k tp). by rewrite R1.
  - intros r H1 H2. rewrite decide_False by done. rewrite R3. unfold loaded. cbn [m2 set_reg memory]. rewrite M1.
    destruct r; try done; cbn; rewrite ?R1; unfold loaded; cbn; done.
Qed.

(** The words of the frame that [kerneltrap] leaves alone. *)
Definition same_bytes (d d' : mem) (a n : Z) : Prop := forall x, a <= x < a + n -> rd d x = rd d' x.

Lemma same_ld64 d d' a n o : same_bytes d d' a n -> 0 <= o -> o + 8 <= n -> ld64 d (a + o) = ld64 d' (a + o).
Proof. intros H H0 H1. apply ldn_ext. intros i Hi. apply H. simpl Z.of_nat in Hi. lia. Qed.

Lemma kv_places r : (r, kv_offset r) ∈ kv_table /\ 0 <= kv_offset r /\ kv_offset r + 8 <= kv_size.
Proof.
  assert (place kv_table r = Some (kv_offset r)) as E by (by destruct r). pose proof (place_in _ _ _ E) as Hi.
  split; [done|]. exact (spaced_in kv_size kv_table (r, kv_offset r) eq_refl Hi).
Qed.

(** C26: a trap in the kernel is invisible to the code it interrupts.
    [kernelvec] saves the registers below the stack pointer and calls
    [kerneltrap] with nothing else changed; if that keeps the stack pointer,
    as C functions do, and the saved words, then on its return [kernelvec]
    gives every register the value it had, except [tp], which keeps what it
    is by then: the process may have moved to another CPU. *)
Theorem kernelvec_transparent m st :
  words m -> 256 <= regs m sp -> mapped (csrs m satp) (regs m sp - 256) st kv_size ->
  exists k, exec kernelvec_save m = Some (k, ToC "kerneltrap") /\ regs k sp = regs m sp - 256 /\
    (forall a, a < st \/ st + kv_size <= a -> rd (memory k) a = rd (memory m) a) /\
    forall k', words k' -> regs k' sp = regs k sp -> csrs k' satp = csrs k satp -> same_bytes (memory k') (memory k) st kv_size ->
      exists m', exec kernelvec_restore k' = Some (m', ToSepc) /\ regs m' tp = regs k' tp /\
        memory m' = memory k' /\ csrs m' = csrs k' /\ forall r, r <> tp -> regs m' r = regs m r.
Proof.
  intros Hw Hs Hm. pose proof (Hw sp) as Hsp. assert (u64 (regs m sp - 256) = regs m sp - 256) as Eu by (apply u64_small; lia).
  destruct (kernelvec_save_exec m st Hw) as (k & E & Rsp & C & M & R); [by rewrite Eu|]. rewrite Eu in Rsp.
  exists k. split_and!; [done|done| |].
  { intros a Ha. rewrite M. by apply (rd_stored _ _ _ _ kv_size). }
  intros k' Hw' Hsp' Hsat Hsame.
  assert (forall r, ld64 (memory k') (st + kv_offset r) = u64 (regs k r)) as Hk.
  { intros r. destruct (kv_places r) as (Hi & H0 & H1). rewrite (same_ld64 _ _ _ _ _ Hsame H0 H1), M.
    by apply (ld_stored _ _ _ _ kv_size). }
  destruct (kernelvec_restore_exec k' st Hw') as (m' & E' & Rsp' & Rtp & M' & C' & R').
  { rewrite Hsp', Hsat, C, Rsp. exact Hm. }
  { pose proof (Hk sp) as Hk8. change (kv_offset sp) with 8 in Hk8. rewrite Hk8, Hsp'. apply u64_small. rewrite Rsp. lia. }
  exists m'. split_and!; [done|done|done|done|]. intros r Hr. destruct (decide (r = sp)) as [->|Hne].
  - rewrite Rsp', Hsp', Rsp. replace (regs m sp - 256 + 256) with (regs m sp) by lia. by apply u64_small.
  - rewrite R', Hk, R by done. by apply u64_small.
Qed.
End kernel.

(** ** The timer *)

(** Machine mode has no page table. *)
Definition bare (_ va : Z) : option Z := Some va.

(** The middle part: the compare register and the software interrupt. *)
Lemma timervec_middle m3 : 0 <= regs m3 a1 < 2 ^ 64 ->
  exists m4, run bare [Ld a3 0 a1; Add a3 a3 a2; Sd a3 0 a1; Li a1 2; Csrw sip a1] m3 = Some m4 /\
    csrs m4 = csrs (set_csr sip 2 m3) /\ (forall r, r <> a1 -> r <> a3 -> regs m4 r = regs m3 r) /\
    memory m4 = st64 (memory m3) (regs m3 a1) (u64 (ld64 (memory m3) (regs m3 a1) + regs m3 a2)).
Proof.
  intros H1. assert (u64 (regs m3 a1 + 0) = regs m3 a1) as E by (rewrite Z.add_0_r; by apply u64_small).
  eexists. cbn [run step bare mbind option_bind]. split; [done|]. cbn [set_reg set_csr set_memory regs csrs memory].
  split_and!; [done| |].
  - intros r Hr1 Hr3. by rewrite !decide_False.
  - dec_regs. rewrite !E. by rewrite (u64_small (ld64 _ _)) by apply ld64_range.
Qed.

Section timer.
Context (m : machine) (sc cmp interval : Z).
Hypothesis Hw : words m.
Hypothesis Hsc : csrs m mscratch = sc.
Hypothesis Hrange : 0 <= sc < 2 ^ 64 - 40.
Hypothesis Hcmp : ld64 (memory m) (sc + 24) = cmp.
Hypothesis Hint : ld64 (memory m) (sc + 32) = interval.
Hypothesis Hapart : cmp + 8 <= sc \/ sc + 40 <= cmp.

(** What the handler leaves in memory. *)
Definition ticked : mem :=
  st64 (stored (regs m) sc [(a1, 0); (a2, 8); (a3, 16)] (memory m)) cmp (u64 (ld64 (memory m) cmp + interval)).

Lemma ld_ticked o : 0 <= o -> o + 8 <= 40 -> ld64 ticked (sc + o) = ld64 (stored (regs m) sc [(a1, 0); (a2, 8); (a3, 16)] (memory m)) (sc + o).
Proof. intros H0 H1. apply ld64_st64_other. lia. Qed.

Lemma ld_scratch o : 24 <= o -> ld64 (stored (regs m) sc [(a1, 0); (a2, 8); (a3, 16)] (memory m)) (sc + o) = ld64 (memory m) (sc + o).
Proof.
  intros H0. apply ld_stored_other. intros ro Hi. repeat (apply elem_of_cons in Hi as [->|Hi]; [cbn; lia|]). by apply not_elem_of_nil in Hi.
Qed.

Lemma ld_cmp : ld64 (stored (regs m) sc [(a1, 0); (a2, 8); (a3, 16)] (memory m)) cmp = ld64 (memory m) cmp.
Proof. apply ldn_ext. intros i Hi. simpl Z.of_nat in Hi. apply (rd_stored _ _ _ _ 24); [done|lia]. Qed.

Lemma timervec_code : timervec =
  ([Csrrw a0 mscratch a0] ++ saves a0 [(a1, 0); (a2, 8); (a3, 16)] ++ loads a0 [(a1, 24); (a2, 32)] ++
   [Ld a3 0 a1; Add a3 a3 a2; Sd a3 0 a1; Li a1 2; Csrw sip a1] ++ loads a0 [(a3, 16); (a2, 8); (a1, 0)] ++ [Csrrw a0 mscratch a0], Mret).
Proof. done. Qed.

(** the timer interrupt of machine mode is invisible to the code it
    interrupts, and keeps the clock going.  With [mscratch] at a scratch area
    that holds the address of the compare register and the interval,
    [timervec] gives every register and [mscratch] back its value, sets the
    register one interval further, asks for a software interrupt, and changes
    no other memory than the three words it saves registers in. *)
Theorem timervec_ticks :
  exists m', exec bare timervec m = Some (m', ToMepc) /\ (forall r, regs m' r = regs m r) /\
    csrs m' mscratch = sc /\ csrs m' sip = 2 /\ csrs m' satp = csrs m satp /\
    ld64 (memory m') cmp = u64 (ld64 (memory m) cmp + interval) /\
    forall a, (a < cmp \/ cmp + 8 <= a) -> (a < sc \/ sc + 24 <= a) -> rd (memory m') a = rd (memory m) a.
Proof.
  unfold exec. rewrite timervec_code. cbn [fst snd]. rewrite run_app. cbn [run step mbind option_bind]. rewrite Hsc.
  set (m1 := set_reg a0 sc (set_csr mscratch (regs m a0) m)).
  assert (regs m1 a0 = sc) as E0 by (apply u64_small; lia).
  assert (forall s, mapped bare s sc sc 40) as Hb by (intros s i Hi; unfold bare; rewrite u64_small by lia; done).
  rewrite run_app, (run_saves bare a0 _ 40 m1 sc) by (rewrite ?E0; done). cbn [mbind option_bind]. rewrite run_app.
  change (stored (regs m1) sc [(a1, 0); (a2, 8); (a3, 16)] (memory m1)) with (stored (regs m) sc [(a1, 0); (a2, 8); (a3, 16)] (memory m)).
  set (d := stored (regs m) sc [(a1, 0); (a2, 8); (a3, 16)] (memory m)).
  destruct (run_loads bare a0 [(a1, 24); (a2, 32)] 40 (set_memory d m1) sc) as (m3 & -> & C3 & M3 & R3); [done|done|cbn [set_memory regs csrs]; by rewrite E0|].
  cbn [mbind option_bind]. rewrite run_app. cbn [set_memory memory csrs] in C3, M3.
  assert (regs m3 a1 = cmp /\ regs m3 a2 = interval /\ regs m3 a0 = sc) as (E1 & E2 & E0').
  { rewrite <- Hcmp, <- Hint, <- (ld_scratch 24), <- (ld_scratch 32) by lia. split_and!; [exact (R3 a1)|exact (R3 a2)|].
    rewrite <- E0. exact (R3 a0). }
  assert (0 <= cmp < 2 ^ 64) as Hcr by (rewrite <- Hcmp; apply ld64_range).
  destruct (timervec_middle m3) as (m4 & -> & C4 & R4 & M4); [by rewrite E1|]. cbn [mbind option_bind].
  rewrite M3, E1, E2 in M4. unfold d in M4. rewrite ld_cmp in M4. fold ticked in M4.
  assert (regs m4 a0 = sc) as E4 by (by rewrite R4).
  rewrite run_app. destruct (run_loads bare a0 [(a3, 16); (a2, 8); (a1, 0)] 40 m4 sc) as (m5 & -> & C5 & M5 & R5); [done|done|by rewrite E4|].
  cbn [mbind option_bind run step goes]. eexists. split; [done|]. cbn [set_reg set_csr regs csrs memory].
  assert (regs m5 a0 = sc) as E5 by (rewrite <- E4; exact (R5 a0)).
  assert (forall r o, place [(a3, 16); (a2, 8); (a1, 0)] r = Some o -> ld64 (memory m4) (sc + o) = regs m r) as Hl.
  { intros r o Hp. rewrite M4. assert ((r, o) ∈ [(a1, 0); (a2, 8); (a3, 16)]) as Hi by (apply place_in in Hp; set_solver).
    rewrite ld_ticked by (repeat (apply elem_of_cons in Hi as [[= -> ->]|Hi]; [lia|]); by apply not_elem_of_nil in Hi).
    rewrite (ld_stored _ _ _ _ 40 r o) by done. by apply u64_small. }
  split_and!.
  - intros r. destruct (decide (r = a0)) as [->|Hr].
    + rewrite C5, C4. cbn [set_csr csrs]. dec_regs. rewrite C3. cbn. dec_regs. rewrite !u64_small by (by rewrite ?u64_small). done.
    + rewrite R5. unfold loaded. destruct (place [(a3, 16); (a2, 8); (a1, 0)] r) eqn:Ep; [by apply Hl|].
      rewrite R4, R3 by (intros ->; done). unfold loaded. destruct (place [(a1, 24); (a2, 32)] r) eqn:Ep'; [by destruct r|].
      cbn. by rewrite decide_False.
  - dec_regs. rewrite E5. apply u64_small. lia.
  - dec_regs. rewrite C5, C4. cbn. by dec_regs.
  - dec_regs. rewrite C5, C4. cbn. dec_regs. rewrite C3. cbn. by dec_regs.
  - rewrite M5, M4. unfold ticked. rewrite ld64_st64. apply u64_small, u64_range.
  - intros a Ha Hb'. rewrite M5, M4. unfold ticked, st64. rewrite rd_stn_other by (simpl Z.of_nat; lia).
    by apply (rd_stored _ _ _ _ 24).
Qed.
End timer.

(** ** Examples *)

Definition ex_machine : machine :=
  Machine (fun r => match r with a0 => 0x8000 | a1 => 0x9000 | sp => 0x7000 | ra => 0x1234 | s0 => 7 | _ => 0 end) (fun c => match c with mscratch => 0x5000 | _ => 0 end)
    (st64 (st64 (st64 (st64 ∅ 0x9000 0x4321) 0x9008 0x6000) 0x5018 0x2004000) 0x5020 1000000).

Lemma ex_words : words ex_machine.
Proof. intros r. by destruct r. Qed.

Lemma ex_mapped s n a b : 0 <= a -> a + n < 2 ^ 64 -> a = b -> mapped bare s a b n.
Proof. intros H0 H1 -> i Hi. unfold bare. rewrite u64_small by lia. done. Qed.

Lemma swtch_resumes_witness : exists m1, exec bare swtch ex_machine = Some (m1, To 0x4321) /\ regs m1 sp = 0x6000.
Proof.
  destruct (swtch_resumes bare ex_machine 0x8000 0x9000 ex_words) as (m1 & E & R & _); [by apply ex_mapped..|by left|].
  exists m1. split; [exact E|]. rewrite (R sp). vm_compute. reflexivity.
Defined.

Lemma kernelvec_transparent_witness : exists k, exec bare kernelvec_save ex_machine = Some (k, ToC "kerneltrap") /\ regs k sp = 0x6f00.
Proof.
  destruct (kernelvec_transparent bare ex_machine 0x6f00 ex_words) as (k & E & R & _); [done|by apply ex_mapped|].
  exists k. split; [exact E|exact R].
Defined.

Lemma timervec_ticks_witness : exists m', exec bare timervec ex_machine = Some (m', ToMepc) /\ ld64 (memory m') 0x2004000 = 1000000.
Proof.
  destruct (timervec_ticks ex_machine 0x5000 0x2004000 1000000 ex_words) as (m' & E & _ & _ & _ & _ & H & _); [reflexivity|done|vm_compute; reflexivity..|by right|].
  exists m'. split; [exact E|]. rewrite H. vm_compute. reflexivity.
Defined.
