(* ===== verification/Boot.v ===== *)
(** From the first instruction to [main]: src/src/kernel/start.zig and
    start.c, and the interrupt controller of plic.c.

    The build links start.zig; start.c is what it was translated from.  The
    two differ in [timerinit].  The code runs in machine mode, on the
    machine of Asm.v. *)

From S2P Require Import Prelude Mem Kalloc Vm Asm AsmProps.

#[local] Arguments ld64 : simpl never.
#[local] Arguments st64 : simpl never.
#[local] Arguments u64 : simpl never.

(** ** Model *)

Abbreviation B := (M machine).

Definition r (c : csr) : B Z := gets (fun m => csrs m c).
Definition w (c : csr) (v : Z) : B unit := modify (set_csr c v).
Definition w_tp (v : Z) : B unit := modify (set_reg tp v).
Definition ld (a : Z) : B Z := gets (fun m => ld64 (memory m) a).
Definition st (a v : Z) : B unit := modify (fun m => set_memory (st64 (memory m) a v) m).

Definition MSTATUS_MPP_MASK : Z := Z.shiftl 3 11.
Definition MSTATUS_MPP_S : Z := Z.shiftl 1 11.
Definition MSTATUS_MIE : Z := Z.shiftl 1 3.
Definition SIE_SEIE : Z := Z.shiftl 1 9.
Definition SIE_STIE : Z := Z.shiftl 1 5.
Definition SIE_SSIE : Z := Z.shiftl 1 1.
Definition MIE_MTIE : Z := Z.shiftl 1 7.
Definition CLINT : Z := 0x2000000.
Definition CLINT_MTIMECMP (hartid : Z) : Z := CLINT + 0x4000 + 8 * hartid.
Definition CLINT_MTIME : Z := CLINT + 0xBFF8.
Definition interval : Z := 1000000.

(** The functions of riscv.h, one for each register. *)
Definition r_mhartid : B Z := r mhartid.
Definition r_mie : B Z := r mie.
Definition r_mstatus : B Z := r mstatus.
Definition r_sie : B Z := r sie.
Definition w_medeleg (x : Z) : B unit := w medeleg x.
Definition w_mepc (x : Z) : B unit := w mepc x.
Definition w_mideleg (x : Z) : B unit := w mideleg x.
Definition w_mie (x : Z) : B unit := w mie x.
Definition w_mscratch (x : Z) : B unit := w mscratch x.
Definition w_mstatus (x : Z) : B unit := w mstatus x.
Definition w_mtvec (x : Z) : B unit := w mtvec x.
Definition w_pmpaddr0 (x : Z) : B unit := w pmpaddr0 x.
Definition w_pmpcfg0 (x : Z) : B unit := w pmpcfg0 x.
Definition w_satp (x : Z) : B unit := w satp x.
Definition w_sie (x : Z) : B unit := w sie x.

(** The addresses of [main], [timervec], and the array [timer_scratch]. *)
Section boot.
Context (main timervec_addr timer_scratch : Z).

(** start.c *)
Definition timerinit : B unit :=
  id ← r_mhartid;
  let id := i32 id in
  time ← ld CLINT_MTIME;
  st (CLINT_MTIMECMP id) (u64 (time + interval));;
  let scratch := timer_scratch + 40 * id in
  st (scratch + 24) (CLINT_MTIMECMP id);;
  st (scratch + 32) interval;;
  w_mscratch scratch;;
  w_mtvec timervec_addr;;
  x ← r_mstatus;
  w_mstatus (Z.lor x MSTATUS_MIE);;
  x ← r_mie;
  w_mie (Z.lor x MIE_MTIE).

Definition start : B unit :=
  x ← r_mstatus;
  w_mstatus (Z.lor (Z.land x (Z.lnot MSTATUS_MPP_MASK)) MSTATUS_MPP_S);;
  w_mepc main;;
  w_satp 0;;
  w_medeleg 0xffff;;
  w_mideleg 0xffff;;
  x ← r_sie;
  w_sie (Z.lor (Z.lor (Z.lor x SIE_SEIE) SIE_STIE) SIE_SSIE);;
  w_pmpaddr0 0x3fffffffffffff;;
  w_pmpcfg0 0xf;;
  timerinit;;
  id ← r_mhartid;
  w_tp (i32 id).

(** start.zig: [scratch] is a variable, at the address [local], that starts
    as a copy of the entry of the array. *)
Definition timerinit_zig (local : Z) : B unit :=
  id ← r_mhartid;
  time ← ld CLINT_MTIME;
  st (CLINT_MTIMECMP id) (u64 (time + interval));;
  modify (fun m => set_memory (mcopy 40 (memory m) local (memory m) (timer_scratch + 40 * id)) m);;
  st (local + 24) (CLINT_MTIMECMP id);;
  st (local + 32) interval;;
  w_mscratch local;;
  w_mtvec timervec_addr;;
  x ← r_mstatus;
  w_mstatus (Z.lor x MSTATUS_MIE);;
  x ← r_mie;
  w_mie (Z.lor x MIE_MTIE).

Definition start_zig (local : Z) : B unit :=
  x ← r_mstatus;
  w_mstatus (Z.lor (Z.land x (Z.lnot MSTATUS_MPP_MASK)) MSTATUS_MPP_S);;
  w_mepc main;;
  w_satp 0;;
  w_medeleg 0xffff;;
  w_mideleg 0xffff;;
  x ← r_sie;
  w_sie (Z.lor (Z.lor (Z.lor x SIE_SEIE) SIE_STIE) SIE_SSIE);;
  w_pmpaddr0 0x3fffffffffffff;;
  w_pmpcfg0 0xf;;
  timerinit_zig local;;
  id ← r_mhartid;
  w_tp id.
End boot.

(** *** plic.c: the registers of the controller, as memory *)

Abbreviation D := (M mem).

Definition UART0_IRQ : Z := 10.
Definition VIRTIO0_IRQ : Z := 1.
Definition PLIC_SENABLE (hart : Z) : Z := PLIC + 0x2080 + hart * 0x100.
Definition PLIC_SPRIORITY (hart : Z) : Z := PLIC + 0x201000 + hart * 0x2000.
Definition PLIC_SCLAIM (hart : Z) : Z := PLIC + 0x201004 + hart * 0x2000.

Definition w32 (a v : Z) : D unit := modify (fun d => st32 d a v).

Definition plicinit : D unit :=
  w32 (PLIC + UART0_IRQ * 4) 1;;
  w32 (PLIC + VIRTIO0_IRQ * 4) 1.

Definition plicinithart (hart : Z) : D unit :=
  w32 (PLIC_SENABLE hart) (Z.lor (Z.shiftl 1 UART0_IRQ) (Z.shiftl 1 VIRTIO0_IRQ));;
  w32 (PLIC_SPRIORITY hart) 0.

(** Reading the claim register takes the interrupt: [device] is what the
    controller does. *)
Definition plic_claim (device : mem -> Z -> Z * mem) (hart : Z) : D Z := fun d =>
  let '(irq, d') := device d (PLIC_SCLAIM hart) in
  Ok (i32 irq) d'.

Definition plic_complete (hart irq : Z) : D unit := w32 (PLIC_SCLAIM hart) irq.

(** ** Properties *)

Section props.
Context (main timervec_addr timer_scratch : Z) (m : machine).
Abbreviation id := (csrs m mhartid).
Hypothesis Hid : 0 <= id < 8.

(** What [start] leaves in the registers. *)
Record booted (scratch : Z) (m' : machine) : Prop := {
  bo_mpp : Z.land (csrs m' mstatus) MSTATUS_MPP_MASK = MSTATUS_MPP_S;
  bo_mie : Z.testbit (csrs m' mstatus) 3 = true;
  bo_mtie : Z.testbit (csrs m' mie) 7 = true;
  bo_mepc : csrs m' mepc = u64 main;
  bo_satp : csrs m' satp = 0;
  bo_mtvec : csrs m' mtvec = u64 timervec_addr;
  bo_tp : regs m' tp = id;
  bo_scratch : csrs m' mscratch = u64 scratch }.

Lemma testbit_u64 x k : 0 <= k < 64 -> Z.testbit (u64 x) k = Z.testbit x k.
Proof. intros Hk. change (u64 x) with (x mod 2 ^ 64). apply Z.mod_pow2_bits_low. lia. Qed.

(** The previous mode is set before, and the interrupts are enabled after. *)
Lemma start_mstatus x :
  let y := u64 (Z.lor (u64 (Z.lor (Z.land x (Z.lnot MSTATUS_MPP_MASK)) MSTATUS_MPP_S)) MSTATUS_MIE) in
  Z.land y MSTATUS_MPP_MASK = MSTATUS_MPP_S /\ Z.testbit y 3 = true.
Proof.
  intros y. assert (forall k, 0 <= k < 64 -> Z.testbit y k =
    (Z.testbit x k && negb (Z.testbit MSTATUS_MPP_MASK k) || Z.testbit MSTATUS_MPP_S k) || Z.testbit MSTATUS_MIE k) as Hy.
  { intros k Hk. unfold y. rewrite testbit_u64, Z.lor_spec, testbit_u64, Z.lor_spec, Z.land_spec, Z.lnot_spec by lia. done. }
  split; [|rewrite Hy by lia; by destruct (Z.testbit x 3)].
  apply Z.bits_inj'. intros k Hk. rewrite Z.land_spec.
  destruct (Z.eq_dec k 11) as [->|]; [rewrite Hy by lia; by destruct (Z.testbit x 11)|].
  destruct (Z.eq_dec k 12) as [->|]; [rewrite Hy by lia; by destruct (Z.testbit x 12)|].
  change MSTATUS_MPP_MASK with (Z.lor (2 ^ 11) (2 ^ 12)). change MSTATUS_MPP_S with (2 ^ 11).
  rewrite Z.lor_spec, !Z.pow2_bits_false by lia. apply andb_false_r.
Qed.

Lemma start_mie x : Z.testbit (u64 (Z.lor x MIE_MTIE)) 7 = true.
Proof. rewrite testbit_u64, Z.lor_spec by lia. apply orb_true_r. Qed.

(** The scratch area of [timervec]: the compare register of the CPU and the
    interval. *)
Record armed (scratch : Z) (d : mem) : Prop := {
  ar_cmp : ld64 d (scratch + 24) = CLINT_MTIMECMP id;
  ar_interval : ld64 d (scratch + 32) = interval }.

Lemma CLINT_range : 0 <= CLINT_MTIMECMP id < 2 ^ 64 /\ CLINT_MTIMECMP id + 8 <= CLINT_MTIME.
Proof. unfold CLINT_MTIMECMP, CLINT_MTIME, CLINT. lia. Qed.

(** What both versions do, with the scratch area at [scratch]: [start]
    returns to supervisor mode at [main] with the timer armed one interval
    from now. *)
Lemma start_ok : let scratch := timer_scratch + 40 * id in
  CLINT_MTIME + 8 <= timer_scratch ->
  exists m', start main timervec_addr timer_scratch m = Ok tt m' /\ booted scratch m' /\ armed scratch (memory m') /\
    ld64 (memory m') (CLINT_MTIMECMP id) = u64 (ld64 (memory m) CLINT_MTIME + interval).
Proof.
  intros scratch Hts. pose proof CLINT_range as [Hc Hc2]. eexists. split; [reflexivity|].
  assert (i32 id = id) as Ei by (apply i32_small; lia).
  split; [|split].
  - split; cbn [set_reg set_csr set_memory regs csrs memory]; dec_regs; try done; rewrite ?Ei; try done;
      [apply start_mstatus|apply start_mstatus|apply start_mie|apply u64_small; lia].
  - split; cbn [set_reg set_csr set_memory regs csrs memory]; dec_regs; rewrite Ei.
    + rewrite ld64_st64_other, ld64_st64 by (unfold scratch; lia). by apply u64_small.
    + rewrite ld64_st64. done.
  - cbn [set_reg set_csr set_memory regs csrs memory]. dec_regs. rewrite Ei. unfold scratch. rewrite !ld64_st64_other, ld64_st64 by lia.
    apply u64_small, u64_range.
Qed.


(** The Zig version sets the timer up in the local variable: [mscratch] holds
    the variable's address, and the array that was meant for it is never
    written.  The variable's place on the stack can be used again as soon as
    [timerinit] has returned. *)
Theorem start_zig_scratch local : CLINT_MTIME + 8 <= local ->
  local + 40 <= timer_scratch \/ timer_scratch + 40 * 8 <= local -> CLINT_MTIME + 8 <= timer_scratch ->
  exists m1, start_zig main timervec_addr timer_scratch local m = Ok tt m1 /\ booted local m1 /\ armed local (memory m1) /\
    same_bytes (memory m1) (memory m) timer_scratch (40 * 8).
Proof.
  intros Hlo Hap Hts. pose proof CLINT_range as [Hc Hc2]. eexists. split; [reflexivity|]. split; [|split].
  - split; cbn [set_reg set_csr set_memory regs csrs memory]; dec_regs; try done;
      [apply start_mstatus|apply start_mstatus|apply start_mie|apply u64_small; lia].
  - split; cbn [set_reg set_csr set_memory regs csrs memory]; dec_regs.
    + rewrite ld64_st64_other, ld64_st64 by lia. by apply u64_small.
    + by rewrite ld64_st64.
  - intros a Ha. cbn [set_reg set_csr set_memory regs csrs memory]. dec_regs. unfold st64.
    rewrite !rd_stn_other, rd_mcopy, inr_false, rd_stn_other by (simpl Z.of_nat; lia). done.
Qed.
End props.

(** An interrupt reaches a CPU when the controller has a priority for it
    above the CPU's threshold, and its bit among those the CPU enables. *)
Definition reaches (d : mem) (hart irq : Z) : bool :=
  (ld32 d (PLIC_SPRIORITY hart) <? ld32 d (PLIC + irq * 4)) && Z.testbit (ld32 d (PLIC_SENABLE hart)) irq.

(** The interrupts of the serial port and the disk reach every CPU that has
    run [plicinithart], after [plicinit]. *)
Theorem plic_reaches d hart : 0 <= hart < 8 ->
  exists d', (plicinit;; plicinithart hart) d = Ok tt d' /\ reaches d' hart UART0_IRQ = true /\ reaches d' hart VIRTIO0_IRQ = true.
Proof.
  intros Hh. eexists. split; [reflexivity|]. unfold reaches, UART0_IRQ, VIRTIO0_IRQ, PLIC_SENABLE, PLIC_SPRIORITY, PLIC.
  unfold ld32, st32. repeat first [rewrite ldn_stn | rewrite ldn_stn_other by (simpl Z.of_nat; lia)]. done.
Qed.

