(* ===== verification/TrapProps.v ===== *)
(** The way out of the kernel and back: [usertrapret] of trap.c and the two
    halves of trampoline.S. *)

From S2P Require Import Prelude Ring Spinlock Mem Sleeplock Strings Kalloc Vm Bio Log BlockLayer Fs Pipe Kernel KernelSpec File Ringbuf Proc Args Syscall Asm AsmProps Trap ProcProps.

#[local] Arguments ld64 : simpl never.
#[local] Arguments st64 : simpl never.
#[local] Arguments u64 : simpl never.

Section props.
Context {L : Type} `{BlockLayer L}.
Context (kernelvec usertrap_addr uservec_addr trampoline : Z).
Abbreviation usertrapret := (usertrapret (L := L) usertrap_addr uservec_addr trampoline).

Definition kmem (s : kern L) : mem := k_mem (f_k (kn_fs s)).

(** The frame with the four words that [usertrapret] stores. *)
Definition kernel_words (p : proc) (c : Kernel.csr) (d : mem) : mem :=
  let tf := pr_trapframe p in
  st64 (st64 (st64 (st64 d (tf + TF_KSATP) (r_satp c)) (tf + TF_KSP) (u64 (pr_kstack p + PGSIZE))) (tf + TF_KTRAP) usertrap_addr)
    (tf + TF_KHARTID) (r_tp c).

Lemma kernel_words_other p c d o : 40 <= o \/ o = TF_EPC -> ld64 (kernel_words p c d) (pr_trapframe p + o) = ld64 d (pr_trapframe p + o).
Proof.
  intros Ho. unfold kernel_words. rewrite !ld64_st64_other; [done|..]; unfold TF_KSATP, TF_KSP, TF_KTRAP, TF_KHARTID, TF_EPC in *; lia.
Qed.

Lemma kernel_words_own p c d :
  ld64 (kernel_words p c d) (pr_trapframe p) = u64 (r_satp c) /\ ld64 (kernel_words p c d) (pr_trapframe p + 8) = u64 (pr_kstack p + PGSIZE) /\
  ld64 (kernel_words p c d) (pr_trapframe p + 16) = u64 usertrap_addr /\ ld64 (kernel_words p c d) (pr_trapframe p + 32) = u64 (r_tp c).
Proof.
  unfold kernel_words, TF_KSATP, TF_KSP, TF_KTRAP, TF_KHARTID. rewrite Z.add_0_r.
  split_and!; repeat (rewrite ld64_st64_other by lia); rewrite ld64_st64; [done| |done|done]. apply u64_small, u64_range.
Qed.

(** The steps of [usertrapret], by what they change. *)
Lemma set_tf_ok (s : kern L) tf off v : exists s', set_tf tf off v s = Ok tt s' /\ kmem s' = st64 (kmem s) (tf + off) v /\
  kn_csr s' = kn_csr s /\ kn_proc s' = kn_proc s /\ kn_cpu s' = kn_cpu s.
Proof. by eexists. Qed.

Lemma get_tf_ok (s : kern L) tf off : exists s', get_tf tf off s = Ok (ld64 (kmem s) (tf + off)) s' /\ kmem s' = kmem s /\
  kn_csr s' = kn_csr s /\ kn_proc s' = kn_proc s /\ kn_cpu s' = kn_cpu s.
Proof. by eexists. Qed.

Lemma csr_modify_ok (s : kern L) f : exists s', csr_modify f s = Ok tt s' /\ kn_csr s' = f (kn_csr s) /\
  kmem s' = kmem s /\ kn_proc s' = kn_proc s /\ kn_cpu s' = kn_cpu s.
Proof. by eexists. Qed.

Lemma w_sstatus_ok (s : kern L) v : exists s', w_sstatus v s = Ok tt s' /\ kn_csr s' = kn_csr s /\
  kmem s' = kmem s /\ kn_proc s' = kn_proc s /\ c_sstatus (kn_cpu s') = v.
Proof. by eexists. Qed.

Lemma intr_off_ok (s : kern L) : exists s', cpu_op (intr_off 0) s = Ok tt s' /\ kn_csr s' = kn_csr s /\
  kmem s' = kmem s /\ kn_proc s' = kn_proc s /\ c_sstatus (kn_cpu s') = Z.land (c_sstatus (kn_cpu s)) (Z.lnot SSTATUS_SIE).
Proof. by eexists. Qed.

(** Clearing SPP and setting SPIE leaves the interrupts off. *)
Lemma user_sstatus x : Z.testbit (Z.lor (Z.land (Z.land x (Z.lnot SSTATUS_SIE)) (Z.lnot SSTATUS_SPP)) SSTATUS_SPIE) 1 = false.
Proof.
  rewrite Z.lor_spec, !Z.land_spec, !Z.lnot_spec by lia.
  change (Z.testbit SSTATUS_SIE 1) with true. change (Z.testbit SSTATUS_SPIE 1) with false. by rewrite andb_false_r.
Qed.

(** [usertrapret] returns the user page table for [satp]. *)
Lemma usertrapret_ok (s : kern L) i : cpu_ok (kn_cpu s) -> kn_cur s = Some i ->
  let p := getp i s in
  exists s', usertrapret s = Ok (MAKE_SATP (pr_pagetable p)) s' /\ kmem s' = kernel_words p (kn_csr s) (kmem s) /\
    r_sepc (kn_csr s') = ld64 (kmem s) (pr_trapframe p + TF_EPC) /\ r_stvec (kn_csr s') = u64 (TRAMPOLINE + (uservec_addr - trampoline)) /\
    kn_proc s' = kn_proc s /\ c_intr (kn_cpu s') = false.
Proof.
  intros Hc Hi p. unfold Trap.usertrapret. mstep (curproc_ok s i Hc Hi). set (s0 := set_kn_cpu _ s).
  assert (kmem s0 = kmem s /\ kn_csr s0 = kn_csr s /\ kn_proc s0 = kn_proc s) as (M0 & C0 & P0) by done. clearbody s0.
  destruct (intr_off_ok s0) as (s1 & R1 & C1 & M1 & P1 & U1). mstep R1.
  destruct (csr_modify_ok s1 (w_stvec (u64 (TRAMPOLINE + (uservec_addr - trampoline))))) as (s2 & R2 & C2 & M2 & P2 & U2). mstep R2.
  rewrite !gets_bind. assert (getp i s2 = p) as -> by (unfold p, getp; by rewrite P2, P1, P0).
  destruct (set_tf_ok s2 (pr_trapframe p) TF_KSATP (r_satp (kn_csr s2))) as (s3 & R3 & M3 & C3 & P3 & U3). mstep R3.
  destruct (set_tf_ok s3 (pr_trapframe p) TF_KSP (u64 (pr_kstack p + PGSIZE))) as (s4 & R4 & M4 & C4 & P4 & U4). mstep R4.
  destruct (set_tf_ok s4 (pr_trapframe p) TF_KTRAP usertrap_addr) as (s5 & R5 & M5 & C5 & P5 & U5). mstep R5.
  destruct (set_tf_ok s5 (pr_trapframe p) TF_KHARTID (r_tp (kn_csr s2))) as (s6 & R6 & M6 & C6 & P6 & U6). mstep R6.
  unfold r_sstatus. rewrite gets_bind.
  destruct (w_sstatus_ok s6 (Z.lor (Z.land (c_sstatus (kn_cpu s6)) (Z.lnot SSTATUS_SPP)) SSTATUS_SPIE)) as (s7 & R7 & C7 & M7 & P7 & U7). mstep R7.
  destruct (get_tf_ok s7 (pr_trapframe p) TF_EPC) as (s8 & R8 & M8 & C8 & P8 & U8). mstep R8.
  destruct (csr_modify_ok s8 (w_sepc (ld64 (kmem s7) (pr_trapframe p + TF_EPC)))) as (s9 & R9 & C9 & M9 & P9 & U9). mstep R9.
  assert (kn_csr s2 = w_stvec (u64 (TRAMPOLINE + (uservec_addr - trampoline))) (kn_csr s)) as E2 by congruence.
  assert (kmem s7 = kernel_words p (kn_csr s) (kmem s)) as E7.
  { rewrite M7, M6, M5, M4, M3, M2, M1, M0, E2. done. }
  exists s9. split; [done|]. rewrite M9, C9. cbn [w_sepc r_sepc r_stvec]. rewrite M8, E7, C8, C7, C6, C5, C4, C3, E2.
  split_and!; [done|apply kernel_words_other; by right|done|congruence|].
  rewrite c_intr_testbit, U9, U8, U7, U6, U5, U4, U3, U2, U1. apply user_sstatus.
Qed.

(** What the user page table, as [satp], has at [TRAPFRAME]. *)
Context (translate : Z -> Z -> option Z).

(** C12: the way to user space and back.  [usertrapret] returns with
    interrupts off; [userret] then enters user space with the page table of
    the process, at the saved program counter, and with every register as
    the trap frame has it.  Whatever the program does there, at the next trap
    [uservec] enters [usertrap] on the kernel stack of the process, with the
    kernel's page table and the number of the CPU, all registers of the
    program being in the trap frame; no other memory has changed.  This
    needs of the program that it leaves the words of the frame alone that the
    kernel stores there; the frame is not mapped for it. *)
Theorem user_round_trip (s : kern L) i tf :
  cpu_ok (kn_cpu s) -> kn_cur s = Some i -> pr_trapframe (getp i s) = tf ->
  let p := getp i s in let usatp := MAKE_SATP (pr_pagetable p) in
  mapped translate usatp TRAPFRAME tf tf_size ->
  exists s', usertrapret s = Ok usatp s' /\ c_intr (kn_cpu s') = false /\
    r_sepc (kn_csr s') = ld64 (kmem s) (tf + TF_EPC) /\ r_stvec (kn_csr s') = u64 (TRAMPOLINE + (uservec_addr - trampoline)) /\
    forall k, words k -> memory k = kmem s' -> regs k a0 = usatp ->
      exists u, exec translate userret k = Some (u, ToSepc) /\ csrs u satp = usatp /\
        (forall r, regs u r = ld64 (kmem s) (tf + tf_offset r)) /\
        forall u', words u' -> csrs u' satp = usatp -> same_bytes (memory u') (memory u) tf 40 ->
          exists k', exec translate uservec u' = Some (k', To (u64 usertrap_addr)) /\
            regs k' sp = u64 (pr_kstack p + PGSIZE) /\ regs k' tp = u64 (r_tp (kn_csr s)) /\ csrs k' satp = u64 (r_satp (kn_csr s)) /\
            (forall r, ld64 (memory k') (tf + tf_offset r) = regs u' r) /\
            forall a, a < tf + 40 \/ tf + tf_size <= a -> rd (memory k') a = rd (memory u') a.
Proof.
  intros Hc Hi Htf p usatp Hm. destruct (usertrapret_ok s i Hc Hi) as (s' & R & M & Epc & Evec & _ & Hoff). fold p in R, M, Epc.
  assert (pr_trapframe p = tf) as Ep by done. rewrite Ep in *. exists s'. split_and!; [done|done|done|done|].
  intros k Hk Mk Ka. destruct (userret_exec translate k tf Hk) as (u & E & Us & Um & Ur); [by rewrite Ka|].
  rewrite Ka in Us. exists u. split_and!; [done|done| |].
  { intros r. rewrite Ur, Mk, M, <- Ep. apply kernel_words_other. left. by destruct (tf_places r) as (_ & _ & ? & _). }
  intros u' Hw Hs Hsame. destruct (uservec_exec translate u' tf Hw) as (k' & E' & Ksp & Ktp & Ksatp & Km); [by rewrite Hs|].
  destruct (kernel_words_own p (kn_csr s) (kmem s)) as (W0 & W1 & W2 & W3). rewrite Ep, <- M, <- Mk, <- Um in W0, W1, W2, W3.
  assert (forall o, 0 <= o -> o + 8 <= 40 -> ld64 (memory u') (tf + o) = ld64 (memory u) (tf + o)) as Hk'.
  { intros o H0 H1. by apply (same_ld64 _ _ _ 40). }
  exists k'. split_and!.
  - by rewrite E', Hk', W2 by lia.
  - by rewrite Ksp, Hk', W1 by lia.
  - by rewrite Ktp, Hk', W3 by lia.
  - rewrite Ksatp, <- (Z.add_0_r tf), Hk', Z.add_0_r, W0 by lia. done.
  - intros r. rewrite Km. destruct (tf_places r) as (_ & Hin & _). rewrite (ld_stored _ _ _ _ tf_size r) by done. by apply u64_small.
  - intros a Ha. rewrite Km. destruct Ha as [Ha|Ha]; [|by apply (rd_stored _ _ _ _ tf_size); [done|right]].
    by apply rd_stored_low with 40; [intros ro Hi'; repeat (apply elem_of_cons in Hi' as [->|Hi']; [done|]); by apply not_elem_of_nil in Hi'|].
Qed.
End props.

(** An address space with the trap frame of process 1. *)
Definition ex_space (_ va : Z) : option Z := Some (va - TRAPFRAME).

Definition ex_entry (d : mem) : machine := Machine (fun r => match r with a0 => MAKE_SATP 0 | _ => 0 end) (fun _ => 0) d.

Lemma ex_entry_words d : words (ex_entry d).
Proof. intros []; vm_compute; split; discriminate || reflexivity. Qed.

Lemma user_round_trip_witness :
  exists s', usertrapret (L := lst) 0x80001000 0x80002010 0x80002000 (ex_kern (Some 1%nat) ex_cpu false) = Ok (MAKE_SATP 0) s' /\
    r_stvec (kn_csr s') = TRAMPOLINE + 0x10 /\
    exists u, exec ex_space userret (ex_entry (kmem s')) = Some (u, ToSepc).
Proof.
  destruct (user_round_trip (L := lst) 0x80001000 0x80002010 0x80002000 ex_space (ex_kern (Some 1%nat) ex_cpu false) 1%nat 0)
    as (s' & E & _ & _ & V & Hk); [exact ex_cpu_ok|reflexivity|reflexivity| |].
  { intros i Hi. unfold ex_space. assert (TRAPFRAME = 274877898752) as -> by reflexivity. unfold tf_size in Hi. rewrite u64_small by lia. f_equal. lia. }
  exists s'. split; [exact E|]. split; [rewrite V; reflexivity|].
  destruct (Hk (ex_entry (kmem s'))) as (u & Eu & _).
  - apply ex_entry_words.
  - reflexivity.
  - exact (eq_refl (MAKE_SATP 0)).
  - exists u. exact Eu.
Defined.
