(* ===== verification/Queue.v ===== *)
(** Ring buffers with free-running indices: the bytes between a read and a
    write index that count modulo [B], in a buffer of [N] bytes.  uart.c and
    console.c keep their characters this way. *)

From S2P Require Import Prelude Mem.

(** The sizes: the buffer divides the range of the indices. *)
Class RingDims (N B : Z) : Prop := { rd_pos : 0 < N; rd_lt : N < B; rd_div : (N | B) }.

Ltac dims :=
  match goal with D : RingDims ?N ?B |- _ => pose proof (@rd_pos N B D) as HN; pose proof (@rd_lt N B D) as HB; pose proof (@rd_div N B D) as Hdiv end.

Section queue.
Context (N B : Z) {D : RingDims N B}.

Definition dist (r w : Z) : Z := (w - r) mod B.

(** The entries of a buffer of any kind, and of a buffer of bytes. *)
Definition entries {A} (f : Z -> A) (r w : Z) : list A :=
  (fun j : nat => f ((r + Z.of_nat j) mod N)) <$> seq 0 (Z.to_nat (dist r w)).

Definition rq (buf : mem) (r w : Z) : list Z := entries (rd buf) r w.

Lemma dist_range r w : 0 <= dist r w < B.
Proof. dims. apply Z.mod_pos_bound. lia. Qed.

Lemma entries_length {A} (f : Z -> A) r w : Z.of_nat (length (entries f r w)) = dist r w.
Proof. dims. unfold entries. rewrite length_fmap, length_seq. pose proof (dist_range r w). lia. Qed.

Lemma dist_same r : dist r r = 0.
Proof. dims. unfold dist. by rewrite Z.sub_diag, Z.mod_0_l by lia. Qed.

Lemma dist_zero r w : 0 <= r < B -> 0 <= w < B -> dist r w = 0 -> r = w.
Proof. dims.
  intros Hr Hw Hd. unfold dist in Hd. apply Z.mod_divide in Hd as [k Hk]; [|lia].
  assert (k = 0) by nia. lia.
Qed.

Lemma dist_step r w : 0 < dist r w -> dist ((r + 1) mod B) w = dist r w - 1.
Proof. dims.
  intros Hd. pose proof (dist_range r w). unfold dist in *. rewrite Zminus_mod_idemp_r.
  replace (w - (r + 1)) with (w - r - 1) by lia. rewrite <- (Zminus_mod_idemp_l (w - r)).
  apply Z.mod_small. lia.
Qed.

Lemma dist_grow r w : dist r w < N -> dist r ((w + 1) mod B) = dist r w + 1.
Proof. dims.
  intros Hd. pose proof (dist_range r w). unfold dist in *. rewrite Zminus_mod_idemp_l.
  replace (w + 1 - r) with (w - r + 1) by lia. rewrite <- Zplus_mod_idemp_l.
  apply Z.mod_small. lia.
Qed.

Lemma dist_shrink r w : 0 < dist r w -> dist r ((w - 1) mod B) = dist r w - 1.
Proof. dims.
  intros Hd. pose proof (dist_range r w). unfold dist in *. rewrite Zminus_mod_idemp_l.
  replace (w - 1 - r) with (w - r - 1) by lia. rewrite <- (Zminus_mod_idemp_l (w - r)).
  apply Z.mod_small. lia.
Qed.

Lemma slot_mod a j : (a mod B + j) mod N = (a + j) mod N.
Proof. dims.
  rewrite <- Zplus_mod_idemp_l. rewrite Z.mod_mod_divide by done. by rewrite Zplus_mod_idemp_l.
Qed.

Lemma entries_empty {A} (f : Z -> A) r : entries f r r = [].
Proof. dims. unfold entries. by rewrite dist_same. Qed.

Lemma entries_pop {A} (f : Z -> A) r w :
  0 < dist r w -> entries f r w = f (r mod N) :: entries f ((r + 1) mod B) w.
Proof. dims.
  intros Hd. unfold entries. rewrite dist_step by done.
  replace (Z.to_nat (dist r w)) with (S (Z.to_nat (dist r w - 1))) by lia. cbn [seq fmap list_fmap].
  f_equal; [by rewrite Z.add_0_r|]. rewrite <- fmap_S_seq, <- list_fmap_compose. apply list_fmap_ext.
  intros _ j _. simpl. rewrite slot_mod. do 2 f_equal. lia.
Qed.

(** Two positions less than [N] apart are different slots. *)
Lemma slots_differ a i j : 0 <= i < N -> 0 <= j < N -> i <> j -> (a + i) mod N <> (a + j) mod N.
Proof. dims.
  intros Hi Hj Hne E. apply Hne. assert ((a + i - (a + j)) mod N = 0) as H0.
  { rewrite Zminus_mod, E, Z.sub_diag. by apply Z.mod_0_l; lia. }
  apply Z.mod_divide in H0 as [k Hk]; [|lia]. assert (k = 0) by nia. lia.
Qed.

Lemma entries_ext {A} (f f' : Z -> A) r w :
  (forall j, 0 <= j < dist r w -> f' ((r + j) mod N) = f ((r + j) mod N)) -> entries f' r w = entries f r w.
Proof. dims.
  intros He. unfold entries. apply list_fmap_ext. intros k j Hj. apply lookup_seq in Hj as [-> Hj].
  apply He. lia.
Qed.

Lemma entries_snoc {A} (f : Z -> A) r w :
  0 < dist r w -> entries f r w = entries f r ((w - 1) mod B) ++ [f ((w - 1) mod B mod N)].
Proof. dims.
  intros Hd. unfold entries at 1. replace (Z.to_nat (dist r w)) with (S (Z.to_nat (dist r w - 1))) by lia.
  rewrite seq_S, fmap_app. unfold entries. rewrite dist_shrink by done. f_equal. simpl. do 2 f_equal.
  rewrite Z.mod_mod_divide by done. pose proof (dist_range r w). rewrite Z2Nat.id by lia.
  unfold dist. replace (r + ((w - r) mod B - 1)) with ((w - r) mod B + (r - 1)) by lia. rewrite slot_mod. f_equal. lia.
Qed.

(** A store into the slot at the write index. *)
Lemma entries_push {A} (f f' : Z -> A) r w :
  0 <= w < B -> dist r w < N -> (forall z, 0 <= z -> z <> w mod N -> f' z = f z) ->
  entries f' r ((w + 1) mod B) = entries f r w ++ [f' (w mod N)].
Proof. dims.
  intros Hw Hd Hf. pose proof (dist_range r w) as Hr. rewrite entries_snoc by (rewrite dist_grow; lia).
  rewrite Zminus_mod_idemp_l. replace (w + 1 - 1) with w by lia. rewrite (Z.mod_small w B) by done.
  f_equal. apply entries_ext. intros j Hj. apply Hf; [apply Z.mod_pos_bound; lia|].
  assert (w mod N = (r + dist r w) mod N) as ->.
  { unfold dist. replace (r + (w - r) mod B) with ((w - r) mod B + r) by lia. rewrite slot_mod. f_equal. lia. }
  apply slots_differ; lia.
Qed.

(** Three indices in order split the queue. *)
Lemma entries_app {A} (f : Z -> A) r w e :
  dist r w + dist w e = dist r e -> entries f r e = entries f r w ++ entries f w e.
Proof. dims.
  intros Hd. pose proof (dist_range r w). pose proof (dist_range w e). unfold entries.
  rewrite <- Hd, Z2Nat.inj_add, seq_app, fmap_app by lia. f_equal. rewrite Nat.add_0_l.
  rewrite <- (Nat.add_0_r (Z.to_nat (dist r w))) at 1. rewrite <- fmap_add_seq, <- list_fmap_compose.
  apply list_fmap_ext. intros _ j _. simpl. rewrite Nat2Z.inj_add, Z2Nat.id by lia. f_equal.
  unfold dist. replace (r + ((w - r) mod B + Z.of_nat j)) with ((w - r) mod B + (r + Z.of_nat j)) by lia.
  rewrite slot_mod. f_equal. lia.
Qed.
(** The same for bytes. *)
Lemma rq_length buf r w : Z.of_nat (length (rq buf r w)) = dist r w.
Proof. apply entries_length. Qed.
Lemma rq_empty buf r : rq buf r r = [].
Proof. apply entries_empty. Qed.
Lemma rq_pop buf r w : 0 < dist r w -> rq buf r w = rd buf (r mod N) :: rq buf ((r + 1) mod B) w.
Proof. apply entries_pop. Qed.
Lemma rq_snoc buf r w : 0 < dist r w -> rq buf r w = rq buf r ((w - 1) mod B) ++ [rd buf ((w - 1) mod B mod N)].
Proof. apply (entries_snoc (rd buf)). Qed.
Lemma rq_push buf r w c :
  0 <= w < B -> dist r w < N -> rq (wr buf (w mod N) c) r ((w + 1) mod B) = rq buf r w ++ [u8 c].
Proof.
  intros Hw Hd. rewrite <- (rd_wr_eq buf (w mod N) c). apply entries_push; [done|done|].
  intros z _ Hz. by apply rd_wr_ne, not_eq_sym.
Qed.
Lemma rq_app buf r w e : dist r w + dist w e = dist r e -> rq buf r e = rq buf r w ++ rq buf w e.
Proof. apply entries_app. Qed.
End queue.
