(* ===== verification/IQueue.v ===== *)
(** The intrusive first-in first-out list of src/src/kernel/queue.zig.

    The elements are the caller's: the queue only links them through their
    [next] fields, so the model is a store of those fields, named by the
    addresses of the elements, with the record of the queue.  A failed safety
    check is the outcome [Panic]. *)

From S2P Require Import Prelude.

(** An address that is not in [next] has [null] there. *)
Record queue := Queue { next : gmap Z Z; q_in : option Z; q_out : option Z; count : Z }.

Definition set_next (x : Z) (v : option Z) (s : queue) : queue :=
  Queue (match v with Some y => <[x := y]> (next s) | None => delete x (next s) end) (q_in s) (q_out s) (count s).
Definition set_in (v : option Z) (s : queue) : queue := Queue (next s) v (q_out s) (count s).
Definition set_out (v : option Z) (s : queue) : queue := Queue (next s) (q_in s) v (count s).
Definition set_count (v : Z) (s : queue) : queue := Queue (next s) (q_in s) (q_out s) v.

Abbreviation Q := (M queue).

(** [self.count += 1] and [self.count -= 1], checked. *)
Definition incr : Q unit :=
  n ← gets count;
  if n + 1 <? 2 ^ 64 then modify (set_count (n + 1)) else panic "integer overflow".

Definition decr : Q unit :=
  n ← gets count;
  if n =? 0 then panic "integer overflow" else modify (set_count (n - 1)).

Definition push (elem : Z) : Q unit :=
  i ← gets q_in;
  match i with
  | Some i =>
      modify (set_next i (Some elem));;
      modify (set_in (Some elem))
  | None =>
      o ← gets q_out;
      match o with
      | Some _ => panic "reached unreachable code"
      | None =>
          modify (set_in (Some elem));;
          modify (set_out (Some elem))
      end
  end;;
  incr.

Definition pop : Q (option Z) :=
  o ← gets q_out;
  match o with
  | None => mret None
  | Some ret =>
      n ← gets (fun s => next s !! ret);
      modify (set_out n);;
      modify (set_next ret None);;
      i ← gets q_in;
      when (bool_decide (i = Some ret)) (modify (set_in None));;
      decr;;
      mret (Some ret)
  end.

Definition peek : Q (option Z) := gets q_out.

Definition empty : Q bool :=
  o ← peek;
  mret (bool_decide (o = None)).

(** The loop, with the element it is at; there are at most as many as there
    are links. *)
Fixpoint remove_loop (fuel : nat) (to_remove : Z) (it : option Z) : Q unit :=
  match it with
  | None => panic "reached unreachable code"
  | Some elem =>
      match fuel with
      | O => out_of_fuel
      | S fuel =>
          n ← gets (fun s => next s !! elem);
          if bool_decide (n = Some to_remove) then
            i ← gets q_in;
            when (bool_decide (i = Some to_remove)) (modify (set_in (Some elem)));;
            n ← gets (fun s => next s !! to_remove);
            modify (set_next elem n);;
            modify (set_next to_remove None);;
            decr
          else remove_loop fuel to_remove n
      end
  end.

Definition remove (to_remove : Z) : Q unit :=
  o ← gets q_out;
  if bool_decide (o = Some to_remove) then pop;; mret tt
  else
    fuel ← gets (fun s => S (size (next s)));
    remove_loop fuel to_remove o.

Definition reset : Q unit := modify (fun s => Queue (next s) None None 0).

(** ** What it stands for *)

(** The elements are linked in the order of the list. *)
Fixpoint linked (n : gmap Z Z) (l : list Z) : Prop :=
  match l with
  | [] => True
  | x :: l => n !! x = head l /\ linked n l
  end.

(** The queue holds [l], from the first to go out to the last. *)
Record holds (s : queue) (l : list Z) : Prop := {
  ho_linked : linked (next s) l;
  ho_nodup : NoDup l;
  ho_out : q_out s = head l;
  ho_in : q_in s = last l;
  ho_count : count s = Z.of_nat (length l) }.

Lemma linked_ext n n' l : (forall x, x ∈ l -> n' !! x = n !! x) -> linked n l -> linked n' l.
Proof.
  induction l as [|x l IH]; [done|]. intros He [H1 H2]. split; [rewrite He by apply list_elem_of_here; done|].
  apply IH; [|done]. intros y Hy. apply He. by apply list_elem_of_further.
Qed.

Lemma queue_linked_app n l1 l2 : linked n (l1 ++ l2) -> linked n l2.
Proof. induction l1 as [|x l1 IH]; [done|]. intros [_ H]. by apply IH. Qed.

Lemma linked_last n l x : linked n (l ++ [x]) -> n !! x = None.
Proof. intros H%queue_linked_app. apply H. Qed.

Lemma linked_snoc n l x : linked n l -> NoDup (l ++ [x]) -> n !! x = None ->
  linked (match last l with Some y => <[y := x]> n | None => n end) (l ++ [x]).
Proof.
  induction l as [|y l IH]; intros H Hd Hx; [done|]. destruct H as [H1 H2]. cbn [app] in *. apply NoDup_cons in Hd as [Hy Hd].
  specialize (IH H2 Hd Hx). destruct l as [|z l].
  - cbn [last app linked head]. split; [apply lookup_insert_eq|]. split; [|done]. rewrite lookup_insert_ne; [done|]. intros ->. apply Hy. apply list_elem_of_here.
  - change (last (y :: z :: l)) with (last (z :: l)). destruct (last (z :: l)) as [e|] eqn:El; [|by apply last_None in El].
    split; [|exact IH]. rewrite lookup_insert_ne; [done|]. intros ->. apply Hy. apply elem_of_app. left. by apply last_Some_elem_of.
Qed.

Ltac qrun := unfold when; repeat first [rewrite gets_bind|rewrite modify_bind|rewrite ret_bind]; cbn [next q_in q_out count set_next set_in set_out set_count].

Lemma push_spec s l x : holds s l -> x ∉ l -> next s !! x = None -> Z.of_nat (length l) + 1 < 2 ^ 64 ->
  exists s', push x s = Ok tt s' /\ holds s' (l ++ [x]) /\ forall y, y ∉ l -> next s' !! y = next s !! y.
Proof.
  intros [H1 H2 H3 H4 H5] Hx Hn Hlen. assert (NoDup (l ++ [x])) as Hd.
  { apply NoDup_app. split; [done|]. split; [|apply NoDup_singleton]. intros y Hy ->%list_elem_of_singleton. done. }
  assert (Z.of_nat (length (l ++ [x])) = Z.of_nat (length l) + 1) as El by (rewrite length_app; cbn [length]; lia).
  pose proof (linked_snoc (next s) l x H1 Hd Hn) as Hl. unfold push. qrun. rewrite H4. destruct (last l) as [e|] eqn:Ee.
  - rewrite bind_bind. qrun. unfold incr. qrun. rewrite H5, (proj2 (Z.ltb_lt _ _) Hlen). eexists. split; [reflexivity|]. split.
    + split; cbn [next q_in q_out count set_next set_in set_out set_count]; [done|done| |by rewrite last_snoc|done].
      rewrite H3. by destruct l.
    + intros y Hy. cbn [next set_next set_count]. apply lookup_insert_ne. intros ->. apply Hy. by apply last_Some_elem_of.
  - apply last_None in Ee as ->. cbn [head] in H3. rewrite bind_bind. qrun. rewrite H3. rewrite bind_bind. qrun. unfold incr. qrun.
    rewrite H5, (proj2 (Z.ltb_lt _ _) Hlen). eexists. split; [reflexivity|]. split; [|done].
    by split; cbn [next q_in q_out count set_next set_in set_out set_count app] in *.
Qed.

Lemma pop_spec s l : holds s l ->
  match l with
  | [] => pop s = Ok None s
  | x :: l' => exists s', pop s = Ok (Some x) s' /\ holds s' l' /\ next s' !! x = None /\ forall y, y <> x -> next s' !! y = next s !! y
  end.
Proof.
  intros [H1 H2 H3 H4 H5]. unfold pop. qrun. rewrite H3. destruct l as [|x l]; [done|]. cbn [head]. destruct H1 as [Hx H1].
  apply NoDup_cons in H2 as [Hnx H2]. qrun. rewrite H4, Hx. cbn [length] in H5.
  assert (linked (delete x (next s)) l) as Hl.
  { apply (linked_ext (next s)); [|done]. intros y Hy. apply lookup_delete_ne. by intros ->. }
  assert (forall s0, count s0 = count s -> (decr;; mret (Some x)) s0 = Ok (Some x) (set_count (Z.of_nat (length l)) s0)) as Hdec.
  { intros s0 Ec. unfold decr. rewrite bind_bind. qrun. rewrite Ec, H5, (proj2 (Z.eqb_neq _ _)) by lia. qrun. do 2 f_equal. unfold set_count. f_equal. lia. }
  case_bool_decide as E.
  - assert (l = []) as -> by (destruct l as [|z l]; [done|]; exfalso; apply Hnx; apply last_Some_elem_of; exact E).
    qrun. rewrite Hdec by done. eexists. split; [reflexivity|]. split; [by split|]. cbn [next set_count set_in set_next set_out]. split; [apply lookup_delete_eq|].
    intros y Hy. by apply lookup_delete_ne.
  - qrun. rewrite Hdec by done. eexists. split; [reflexivity|]. cbn [next set_count set_in set_next set_out]. split; [|split; [apply lookup_delete_eq|intros y Hy; by apply lookup_delete_ne]].
    split; cbn [next q_in q_out count set_count set_in set_next set_out]; try done. rewrite H4. destruct l; [done|by cbn [last]].
Qed.

(** ** Removal from the middle *)

Lemma queue_linked_size n l : linked n l -> NoDup l -> (length l <= S (size n))%nat.
Proof.
  revert n. induction l as [|x l IH]; intros n H Hd; [cbn; lia|]. destruct H as [Hx H]. apply NoDup_cons in Hd as [Hnx Hd].
  destruct l as [|y l]; [cbn; lia|]. cbn [head] in Hx. assert (size (delete x n) = Nat.pred (size n)) as Hs by (apply map_size_delete_Some; by eexists).
  assert (size n <> 0%nat) as Hne by (intros E%map_size_empty_iff; by rewrite E in Hx).
  specialize (IH (delete x n)). rewrite Hs in IH. cbn [length] in *. enough (S (length l) <= S (Nat.pred (size n)))%nat by lia. apply IH; [|done].
  apply (linked_ext n); [|done]. intros z Hz. apply lookup_delete_ne. by intros ->.
Qed.

Lemma linked_remove n l0 y x l2 : linked n (l0 ++ y :: x :: l2) -> NoDup (l0 ++ y :: x :: l2) ->
  linked (delete x (match head l2 with Some z => <[y := z]> n | None => delete y n end)) (l0 ++ y :: l2).
Proof.
  induction l0 as [|a l0 IH]; intros H Hd.
  - destruct H as (Hy & Hx & H). apply NoDup_cons in Hd as [Hny Hd]. apply NoDup_cons in Hd as [Hnx Hd]. cbn [app linked].
    assert (y <> x) as Hyx by (intros ->; apply Hny, list_elem_of_here). split.
    + rewrite lookup_delete_ne by done. destruct (head l2); [apply lookup_insert_eq|apply lookup_delete_eq].
    + apply (linked_ext n); [|done]. intros z Hz. rewrite lookup_delete_ne by (by intros ->).
      assert (y <> z) by (intros ->; by apply Hny, list_elem_of_further). destruct (head l2); [by apply lookup_insert_ne|by apply lookup_delete_ne].
  - cbn [app] in *. destruct H as [Ha H]. apply NoDup_cons in Hd as [Hna Hd]. specialize (IH H Hd). split; [|done].
    assert (a <> x) by (intros ->; apply Hna, elem_of_app; right; apply list_elem_of_further, list_elem_of_here).
    assert (a <> y) by (intros ->; apply Hna, elem_of_app; right; apply list_elem_of_here).
    rewrite lookup_delete_ne by done. assert (head (l0 ++ y :: l2) = head (l0 ++ y :: x :: l2)) as -> by (by destruct l0).
    destruct (head l2); [by rewrite lookup_insert_ne|by rewrite lookup_delete_ne].
Qed.

Lemma last_app_cons {A} (l : list A) x l' : last (l ++ x :: l') = last (x :: l').
Proof. rewrite last_app. by destruct (last (x :: l')) eqn:E; [|apply last_None in E]. Qed.

(** The element before the one to be removed. *)
Lemma remove_here s l0 y x l2 fuel : holds s (l0 ++ y :: x :: l2) ->
  exists s', remove_loop (S fuel) x (Some y) s = Ok tt s' /\ holds s' (l0 ++ y :: l2) /\ next s' !! x = None /\
    forall z, z ∉ l0 ++ y :: x :: l2 -> next s' !! z = next s !! z.
Proof.
  intros [H1 H2 H3 H4 H5]. pose proof (queue_linked_app _ _ _ H1) as (Hy & Hx & _). cbn [head] in Hy.
  pose proof (linked_remove _ _ _ _ _ H1 H2) as Hl. assert (y <> x) as Hyx.
  { apply NoDup_app in H2 as (_ & _ & Hd). apply NoDup_cons in Hd as [Hny _]. intros ->. apply Hny, list_elem_of_here. }
  assert (NoDup (l0 ++ y :: l2)) as Hd'.
  { apply NoDup_app in H2 as (Ha & Hb & Hc). apply NoDup_cons in Hc as [Hny Hc]. apply NoDup_cons in Hc as [_ Hc]. apply NoDup_app.
    split; [done|]. split; [intros z Hz Hz'; apply (Hb z Hz); set_solver|apply NoDup_cons; set_solver]. }
  assert (count s <> 0) as Hc by (rewrite H5, length_app; cbn [length]; lia).
  cbn [remove_loop]. qrun. rewrite Hy, bool_decide_true by done. qrun. rewrite H4, last_app_cons. change (last (y :: x :: l2)) with (last (x :: l2)).
  assert (forall i, exists s', (n ← gets (fun s => next s !! x); modify (set_next y n);; modify (set_next x None);; decr) (set_in i s) = Ok tt s' /\
    next s' = delete x (match head l2 with Some z => <[y := z]> (next s) | None => delete y (next s) end) /\ q_in s' = i /\ q_out s' = q_out s /\ count s' = count s - 1) as Hrest.
  { intros i. qrun. unfold decr. qrun. rewrite (proj2 (Z.eqb_neq _ _) Hc), Hx. eexists. split; [reflexivity|].
    cbn [next q_in q_out count set_next set_in set_count]. by destruct (head l2). }
  assert (exists s', (when (bool_decide (last (x :: l2) = Some x)) (modify (set_in (Some y)));; n ← gets (fun s => next s !! x);
      modify (set_next y n);; modify (set_next x None);; decr) s = Ok tt s' /\
    next s' = delete x (match head l2 with Some z => <[y := z]> (next s) | None => delete y (next s) end) /\
    q_in s' = last (l0 ++ y :: l2) /\ q_out s' = q_out s /\ count s' = count s - 1) as (s' & R & E1 & E2 & E3 & E4).
  { rewrite last_app_cons. case_bool_decide as E.
    - assert (l2 = []) as -> by (destruct l2 as [|z l2]; [done|]; exfalso; apply NoDup_app in H2 as (_ & _ & Hd);
        apply NoDup_cons in Hd as [_ Hd]; apply NoDup_cons in Hd as [Hd _]; apply Hd, last_Some_elem_of, E).
      unfold when. rewrite modify_bind. apply (Hrest (Some y)).
    - unfold when. rewrite ret_bind. destruct (Hrest (q_in s)) as (s' & R & E1 & E2 & E3 & E4). exists s'.
      assert (set_in (q_in s) s = s) as Es by (by destruct s). rewrite Es in R. split; [exact R|]. split; [done|]. split; [|done].
      rewrite E2, H4, last_app_cons. by destruct l2. }
  exists s'. split; [exact R|]. split.
  - split; rewrite ?E1, ?E2, ?E3, ?E4; [done|done|rewrite H3; by destruct l0|done|rewrite H5, !length_app; cbn [length]; lia].
  - rewrite E1. split; [apply lookup_delete_eq|]. intros z Hz. rewrite lookup_delete_ne by set_solver.
    destruct (head l2); [apply lookup_insert_ne|apply lookup_delete_ne]; set_solver.
Qed.

Lemma remove_loop_spec m : forall fuel s l0 y x l2, holds s (l0 ++ y :: m ++ x :: l2) -> (length m < fuel)%nat ->
  exists s', remove_loop fuel x (Some y) s = Ok tt s' /\ holds s' (l0 ++ y :: m ++ l2) /\ next s' !! x = None /\
    forall z, z ∉ l0 ++ y :: m ++ x :: l2 -> next s' !! z = next s !! z.
Proof.
  induction m as [|a m IH]; intros fuel s l0 y x l2 H Hf; (destruct fuel as [|fuel]; [cbn in Hf; lia|]); [by apply remove_here|].
  pose proof (queue_linked_app _ _ _ (ho_linked _ _ H)) as (Hy & _). cbn [app head] in Hy. cbn [remove_loop]. rewrite gets_bind, Hy.
  assert (a <> x) as Hax.
  { pose proof (ho_nodup _ _ H) as Hd. apply NoDup_app in Hd as (_ & _ & Hd). apply NoDup_cons in Hd as [_ Hd]. cbn [app] in Hd.
    apply NoDup_cons in Hd as [Hd _]. intros ->. apply Hd, elem_of_app. right. apply list_elem_of_here. }
  rewrite bool_decide_false by congruence. destruct (IH fuel s (l0 ++ [y]) a x l2) as (s' & R & H' & Hx & Hfr).
  - by rewrite <- app_assoc.
  - cbn in Hf. lia.
  - rewrite <- app_assoc in H'. cbn [app] in H'. exists s'. split; [exact R|]. split; [exact H'|]. split; [done|]. intros z Hz. apply Hfr.
    by rewrite <- app_assoc.
Qed.

Lemma remove_spec s l1 x l2 : holds s (l1 ++ x :: l2) ->
  exists s', remove x s = Ok tt s' /\ holds s' (l1 ++ l2) /\ next s' !! x = None /\ forall z, z ∉ l1 ++ x :: l2 -> next s' !! z = next s !! z.
Proof.
  intros H. unfold remove. rewrite gets_bind, (ho_out _ _ H). destruct l1 as [|y l1].
  - cbn [app head]. rewrite bool_decide_true by done. destruct (pop_spec s (x :: l2) H) as (s' & R & H' & Hx & Hfr).
    rewrite (bind_ok _ _ _ _ _ R). exists s'. split; [done|]. split; [done|]. split; [done|]. intros z Hz. apply Hfr. set_solver.
  - cbn [app head]. assert (y <> x) as Hne.
    { pose proof (ho_nodup _ _ H) as Hd. cbn [app] in Hd. apply NoDup_cons in Hd as [Hd _]. set_solver. }
    rewrite bool_decide_false, gets_bind by congruence. pose proof (queue_linked_size _ _ (ho_linked _ _ H) (ho_nodup _ _ H)) as Hs.
    apply (remove_loop_spec l1 _ s [] y x l2 H). cbn [app length] in Hs. rewrite length_app in Hs. cbn [length] in Hs. lia.
Qed.

Lemma remove_loop_absent l : forall fuel s x, linked (next s) l -> x ∉ l -> (length l <= fuel)%nat ->
  remove_loop fuel x (head l) s = Panic "reached unreachable code".
Proof.
  induction l as [|y l IH]; intros fuel s x H Hx Hf; [by destruct fuel|]. destruct fuel as [|fuel]; [cbn in Hf; lia|]. destruct H as [Hy H].
  cbn [head remove_loop]. rewrite gets_bind, Hy. cbn [length] in Hf.
  rewrite bool_decide_false by (intros E; apply Hx, list_elem_of_further; destruct l; [done|injection E as <-; apply list_elem_of_here]).
  apply IH; [done|set_solver|lia].
Qed.

(** Removing an element that is not in the queue fails the check. *)
Lemma remove_absent s l x : holds s l -> x ∉ l -> remove x s = Panic "reached unreachable code".
Proof.
  intros H Hx. unfold remove. rewrite gets_bind, (ho_out _ _ H).
  rewrite bool_decide_false by (intros E; apply Hx; destruct l; [done|injection E as <-; apply list_elem_of_here]).
  rewrite gets_bind. destruct l as [|y l]; [done|]. pose proof (queue_linked_size _ _ (ho_linked _ _ H) (ho_nodup _ _ H)) as Hs.
  destruct (ho_linked _ _ H) as [Hy Hl]. cbn [head remove_loop]. rewrite gets_bind, Hy.
  rewrite bool_decide_false by (intros E; apply Hx, list_elem_of_further; destruct l; [done|injection E as <-; apply list_elem_of_here]).
  apply remove_loop_absent; [done|set_solver|cbn [length] in Hs; lia].
Qed.

(** ** Refinement *)

Inductive op := Push (x : Z) | Pop | Peek | Empty | Remove (x : Z) | Reset.
Inductive answer := Done | Elem (x : option Z) | Flag (b : bool).

Definition exec_op (o : op) : Q answer :=
  match o with
  | Push x => push x;; mret Done
  | Pop => x ← pop; mret (Elem x)
  | Peek => x ← peek; mret (Elem x)
  | Empty => b ← empty; mret (Flag b)
  | Remove x => remove x;; mret Done
  | Reset => reset;; mret Done
  end.

Fixpoint exec_ops (l : list op) : Q (list answer) :=
  match l with
  | [] => mret []
  | o :: l => r ← exec_op o; rs ← exec_ops l; mret (r :: rs)
  end.

(** The queue as a list, with the elements that [reset] has dropped: their
    links are still set, and they must not be pushed again. *)
Record fifo := Fifo { items : list Z; dropped : gset Z }.

(** None where the caller breaks the rules. *)
Definition spec_op (o : op) (a : fifo) : option (answer * fifo) :=
  match o with
  | Push x =>
      if decide ((x ∉ items a) /\ (x ∉ dropped a) /\ Z.of_nat (length (items a)) + 1 < 2 ^ 64)
      then Some (Done, Fifo (items a ++ [x]) (dropped a)) else None
  | Pop => Some (Elem (head (items a)), Fifo (tail (items a)) (dropped a))
  | Peek => Some (Elem (head (items a)), a)
  | Empty => Some (Flag (bool_decide (items a = [])), a)
  | Remove x => if decide (x ∈ items a) then Some (Done, Fifo (filter (fun y => y <> x) (items a)) (dropped a)) else None
  | Reset => Some (Done, Fifo [] (dropped a ∪ list_to_set (items a)))
  end.

Fixpoint spec_ops (l : list op) (a : fifo) : option (list answer * fifo) :=
  match l with
  | [] => Some ([], a)
  | o :: l => '(r, a) ← spec_op o a; '(rs, a) ← spec_ops l a; Some (r :: rs, a)
  end.

Record stands_for (s : queue) (a : fifo) : Prop := {
  sf_holds : holds s (items a);
  sf_clean : forall x, x ∉ items a -> x ∉ dropped a -> next s !! x = None }.

Lemma filter_out (l1 : list Z) x l2 : NoDup (l1 ++ x :: l2) -> filter (fun y => y <> x) (l1 ++ x :: l2) = l1 ++ l2.
Proof.
  assert (forall l : list Z, x ∉ l -> filter (fun y => y <> x) l = l) as Hid.
  { induction l as [|y l IH]; intros Hx; [done|]. rewrite filter_cons_True by set_solver. f_equal. apply IH. set_solver. }
  intros (_ & Hb & Hc)%NoDup_app. apply NoDup_cons in Hc as [Hc _]. rewrite filter_app, filter_cons_False by (intros E; by apply E).
  rewrite !Hid; [done|done|]. intros Hx. apply (Hb x Hx), list_elem_of_here.
Qed.

Lemma exec_op_refines o s a r a' : stands_for s a -> spec_op o a = Some (r, a') -> exists s', exec_op o s = Ok r s' /\ stands_for s' a'.
Proof.
  intros [H Hc]. destruct a as [l d]. cbn [items dropped] in *. destruct o as [x| | | |x|]; cbn [spec_op exec_op items dropped].
  - case_decide as Hp; [|done]. destruct Hp as (Hx & Hd & Hl). intros [= <- <-].
    destruct (push_spec s l x H Hx (Hc x Hx Hd) Hl) as (s' & R & H' & Hfr). rewrite (bind_ok _ _ _ _ _ R). exists s'. split; [done|].
    split; [done|]. cbn [items dropped]. intros y Hy Hyd. rewrite Hfr by set_solver. apply Hc; set_solver.
  - intros [= <- <-]. pose proof (pop_spec s l H) as Hp. destruct l as [|x l].
    + rewrite (bind_ok _ _ _ _ _ Hp). exists s. by split.
    + destruct Hp as (s' & R & H' & Hx & Hfr). rewrite (bind_ok _ _ _ _ _ R). exists s'. split; [done|]. split; [done|]. cbn [items dropped tail].
      intros y Hy Hyd. destruct (decide (y = x)) as [->|Hne]; [done|]. rewrite Hfr by done. apply Hc; [set_solver|done].
  - intros [= <- <-]. exists s. unfold peek. rewrite gets_bind, (ho_out _ _ H). by split.
  - intros [= <- <-]. exists s. unfold empty, peek. rewrite bind_bind, gets_bind, ret_bind, (ho_out _ _ H). split; [|by split]. by destruct l.
  - case_decide as Hx; [|done]. intros [= <- <-]. apply list_elem_of_split in Hx as (l1 & l2 & ->).
    destruct (remove_spec s l1 x l2 H) as (s' & R & H' & Hn & Hfr). rewrite (bind_ok _ _ _ _ _ R). exists s'. split; [done|].
    rewrite filter_out by apply H. split; [done|]. cbn [items dropped]. intros y Hy Hyd. destruct (decide (y = x)) as [->|Hne]; [done|].
    rewrite Hfr by set_solver. apply Hc; set_solver.
  - intros [= <- <-]. eexists. split; [reflexivity|]. split; [by split; [..|apply NoDup_nil_2|done|done|done]|].
    cbn [items dropped next]. intros y _ Hy. apply Hc; set_solver.
Qed.

(** The queue is a first-in first-out list: every sequence of calls that
    keeps the rules gives the answers of the list. *)
Theorem queue_refines ops a rs a' s : stands_for s a -> spec_ops ops a = Some (rs, a') ->
  exists s', exec_ops ops s = Ok rs s' /\ stands_for s' a'.
Proof.
  revert a rs s. induction ops as [|o ops IH]; intros a rs s H E; cbn [spec_ops exec_ops] in *.
  - injection E as <- <-. by exists s.
  - destruct (spec_op o a) as [[r a1]|] eqn:E1; [|done]. cbn [mbind option_bind] in E. destruct (spec_ops ops a1) as [[rs1 a2]|] eqn:E2; [|done].
    injection E as <- <-. destruct (exec_op_refines o s a r a1 H E1) as (s1 & R1 & H1). destruct (IH a1 rs1 s1 H1 E2) as (s2 & R2 & H2).
    exists s2. rewrite (bind_ok _ _ _ _ _ R1), (bind_ok _ _ _ _ _ R2). done.
Qed.

Definition queue0 : queue := Queue ∅ None None 0.

Lemma queue0_stands : stands_for queue0 (Fifo [] ∅).
Proof. split; [split; try done; apply NoDup_nil_2|]. intros x _ _. apply lookup_empty. Qed.

Lemma queue_refines_witness : exists s', exec_ops [Push 1; Push 2; Push 3; Remove 2; Pop; Empty; Pop; Pop; Empty] queue0 =
    Ok [Done; Done; Done; Done; Elem (Some 1); Flag false; Elem (Some 3); Elem None; Flag true] s' /\ holds s' [].
Proof.
  destruct (queue_refines [Push 1; Push 2; Push 3; Remove 2; Pop; Empty; Pop; Pop; Empty] (Fifo [] ∅)
    [Done; Done; Done; Done; Elem (Some 1); Flag false; Elem (Some 3); Elem None; Flag true] (Fifo [] ∅) queue0 queue0_stands) as (s' & R & H);
    [vm_compute; reflexivity|]. exists s'. split; [exact R|apply H].
Defined.

(** An element that [reset] dropped brings its old successor with it: the
    queue hands out an element that was not pushed, and then fails the check
    of its count. *)
Lemma push_dropped : exists s, exec_ops [Push 1; Push 2; Reset; Push 1; Pop; Peek] queue0 =
    Ok [Done; Done; Done; Done; Elem (Some 1); Elem (Some 2)] s /\ pop s = Panic "integer overflow".
Proof. eexists. split; vm_compute; reflexivity. Qed.
