(* ===== verification/Uart.v ===== *)
(** The serial port: src/src/kernel/uart.c.

    The device is what it will answer and what it was told: the values the
    next reads of LSR and RHR give, in order, and the writes to its registers.
    Nothing is known of the answers, so a theorem holds for any behaviour of
    the hardware; when the list of LSR values is used up the port stays busy.

    The state also has the console's buffer and what console.c uses of the
    calling process.  Interrupts are not part of it: [push_off] and [pop_off]
    in [uartputc_sync] have no effect here. *)

From S2P Require Import Prelude Mem Sleeplock Strings Kalloc Vm.

Definition RHR : Z := 0.
Definition THR : Z := 0.
Definition IER : Z := 1.
Definition IER_RX_ENABLE : Z := Z.shiftl 1 0.
Definition IER_TX_ENABLE : Z := Z.shiftl 1 1.
Definition FCR : Z := 2.
Definition FCR_FIFO_ENABLE : Z := Z.shiftl 1 0.
Definition FCR_FIFO_CLEAR : Z := Z.shiftl 3 1.
Definition LCR : Z := 3.
Definition LCR_EIGHT_BITS : Z := Z.shiftl 3 0.
Definition LCR_BAUD_LATCH : Z := Z.shiftl 1 7.
Definition LSR_RX_READY : Z := Z.shiftl 1 0.
Definition LSR_TX_IDLE : Z := Z.shiftl 1 5.
Definition UART_TX_BUF_SIZE : Z := 32.
Definition INPUT_BUF_SIZE : Z := 128.

(** The port: future answers, and the writes so far, newest last. *)
Record port := Port { d_lsr : list Z; d_rhr : list Z; d_writes : list (Z * Z) }.

(** The transmit buffer. *)
Record txbuf := Tx { tx_lock : bool; tx_buf : mem; tx_w : Z; tx_r : Z }.

(** [cons]. *)
Record cons_t := Cons { cn_lock : bool; cn_buf : mem; cn_r : Z; cn_w : Z; cn_e : Z }.

Record cst := Cst {
  cs_port : port; cs_tx : txbuf; cs_cons : cons_t; cs_panicked : bool;
  cs_k : kst; cs_pt : Z; cs_killed : bool; cs_woken : list chan }.

Definition set_cs_port v s := Cst v (cs_tx s) (cs_cons s) (cs_panicked s) (cs_k s) (cs_pt s) (cs_killed s) (cs_woken s).
Definition set_cs_tx v s := Cst (cs_port s) v (cs_cons s) (cs_panicked s) (cs_k s) (cs_pt s) (cs_killed s) (cs_woken s).
Definition set_cs_cons v s := Cst (cs_port s) (cs_tx s) v (cs_panicked s) (cs_k s) (cs_pt s) (cs_killed s) (cs_woken s).
Definition set_cs_k v s := Cst (cs_port s) (cs_tx s) (cs_cons s) (cs_panicked s) v (cs_pt s) (cs_killed s) (cs_woken s).

#[export] Instance cst_wakeup : Wakeup cst := fun ch =>
  modify (fun s => Cst (cs_port s) (cs_tx s) (cs_cons s) (cs_panicked s) (cs_k s) (cs_pt s) (cs_killed s) (ch :: cs_woken s)).

(** [WriteReg], and [ReadReg] of the two registers the driver reads. *)
Definition WriteReg (reg v : Z) : M cst unit :=
  modify (fun s => let d := cs_port s in
    set_cs_port (Port (d_lsr d) (d_rhr d) (d_writes d ++ [(reg, u8 v)])) s).

Definition read_lsr : M cst Z := fun s =>
  let d := cs_port s in
  Ok (hd 0 (d_lsr d)) (set_cs_port (Port (tl (d_lsr d)) (d_rhr d) (d_writes d)) s).

Definition read_rhr : M cst Z := fun s =>
  let d := cs_port s in
  Ok (u8 (hd 0 (d_rhr d))) (set_cs_port (Port (d_lsr d) (tl (d_rhr d)) (d_writes d)) s).

Definition tx_modify (f : txbuf -> txbuf) : M cst unit := modify (fun s => set_cs_tx (f (cs_tx s)) s).
Definition set_tx_lock v t := Tx v (tx_buf t) (tx_w t) (tx_r t).
Definition tx_acquire : M cst unit := zoom cs_tx set_cs_tx (acquire tx_lock set_tx_lock).
Definition tx_release : M cst unit := zoom cs_tx set_cs_tx (release tx_lock set_tx_lock).
Definition tx_chan : chan := Chan "uart_tx_r" 0.

Definition uartinit : M cst unit :=
  WriteReg IER 0x00;;
  WriteReg LCR LCR_BAUD_LATCH;;
  WriteReg 0 0x03;;
  WriteReg 1 0x00;;
  WriteReg LCR LCR_EIGHT_BITS;;
  WriteReg FCR (Z.lor FCR_FIFO_ENABLE FCR_FIFO_CLEAR);;
  WriteReg IER (Z.lor IER_TX_ENABLE IER_RX_ENABLE);;
  tx_modify (set_tx_lock false).

(** A round takes a byte out of the buffer, so as many rounds as it holds
    bytes are enough, and one more to see that it is empty. *)
Fixpoint uartstart_loop (fuel : nat) : M cst unit :=
  match fuel with
  | O => out_of_fuel
  | S f =>
      t ← gets cs_tx;
      if tx_w t =? tx_r t then mret tt
      else
        lsr ← read_lsr;
        if Z.land lsr LSR_TX_IDLE =? 0 then mret tt
        else
          let c := rd (tx_buf t) (tx_r t mod UART_TX_BUF_SIZE) in
          tx_modify (fun t => Tx (tx_lock t) (tx_buf t) (tx_w t) (u64 (tx_r t + 1)));;
          wakeup tx_chan;;
          WriteReg THR c;;
          uartstart_loop f
  end.

Definition uartstart : M cst unit :=
  t ← gets cs_tx;
  uartstart_loop (S (Z.to_nat (u64 (tx_w t - tx_r t)))).

(** False when the caller has gone to sleep on [uart_tx_r] with the lock
    released; it calls [uartputc] again when it wakes up, which also tests
    [panicked] again. *)
Definition uartputc (c : Z) : M cst bool :=
  tx_acquire;;
  panicked ← gets cs_panicked;
  if (panicked : bool) then out_of_fuel
  else
    t ← gets cs_tx;
    if tx_w t =? u64 (tx_r t + UART_TX_BUF_SIZE) then
      tx_release;;
      mret false
    else
      tx_modify (fun t => Tx (tx_lock t) (wr (tx_buf t) (tx_w t mod UART_TX_BUF_SIZE) c)
                             (u64 (tx_w t + 1)) (tx_r t));;
      uartstart;;
      tx_release;;
      mret true.

(** Spin until the port is idle; it never is after the last answer. *)
Fixpoint wait_idle (fuel : nat) : M cst unit :=
  match fuel with
  | O => out_of_fuel
  | S f =>
      lsr ← read_lsr;
      if Z.land lsr LSR_TX_IDLE =? 0 then wait_idle f else mret tt
  end.

Definition uartputc_sync (c : Z) : M cst unit :=
  panicked ← gets cs_panicked;
  if (panicked : bool) then out_of_fuel
  else
    n ← gets (fun s => length (d_lsr (cs_port s)));
    wait_idle n;;
    WriteReg THR c.

Definition uartgetc : M cst Z :=
  lsr ← read_lsr;
  if negb (Z.land lsr LSR_RX_READY =? 0) then read_rhr else mret (-1).

(** [uartintr], where [intr] is [consoleintr]. *)
Fixpoint uartintr_loop (fuel : nat) (intr : Z -> M cst unit) : M cst unit :=
  match fuel with
  | O => out_of_fuel
  | S f =>
      c ← uartgetc;
      if c =? -1 then mret tt
      else intr c;; uartintr_loop f intr
  end.

Definition uartintr (intr : Z -> M cst unit) : M cst unit :=
  n ← gets (fun s => length (d_lsr (cs_port s)));
  uartintr_loop (S n) intr;;
  tx_acquire;;
  uartstart;;
  tx_release.
