(* ===== verification/Console.v ===== *)
(** The console: src/src/kernel/console.c.

    A call that goes to sleep returns with the lock released, as [Blocked]
    with the count it keeps on its stack; what the process runs when it wakes
    up is the [_from] version with that count. *)

From S2P Require Import Prelude Mem Sleeplock Strings Kalloc Vm Pipe Uart.

Definition BACKSPACE : Z := 0x100.

(** [C(x)], Control-x. *)
Definition CTRL (x : Z) : Z := x - 64.

Section console.
(** [procdump] of proc.c. *)
Context (procdump : M cst unit).

Definition consputc (c : Z) : M cst unit :=
  if c =? BACKSPACE then
    uartputc_sync 8;;
    uartputc_sync 32;;
    uartputc_sync 8
  else uartputc_sync c.

Definition cons_modify (f : cons_t -> cons_t) : M cst unit := modify (fun s => set_cs_cons (f (cs_cons s)) s).
Definition set_cn_lock v c := Cons v (cn_buf c) (cn_r c) (cn_w c) (cn_e c).
Definition set_cn_r v c := Cons (cn_lock c) (cn_buf c) v (cn_w c) (cn_e c).
Definition set_cn_w v c := Cons (cn_lock c) (cn_buf c) (cn_r c) v (cn_e c).
Definition set_cn_e v c := Cons (cn_lock c) (cn_buf c) (cn_r c) (cn_w c) v.
Definition cn_acquire : M cst unit := zoom cs_cons set_cs_cons (acquire cn_lock set_cn_lock).
Definition cn_release : M cst unit := zoom cs_cons set_cs_cons (release cn_lock set_cn_lock).
Definition cons_chan : chan := Chan "cons.r" 0.

(** [either_copyin] of one byte, and [either_copyout]. *)
Definition copyin_char (user_src : bool) (src : Z) : M cst (option Z) :=
  if user_src then
    pt ← gets cs_pt;
    '(r, m) ← zoom cs_k set_cs_k (copyin_obj pt ∅ 0 src 1);
    mret (if r =? -1 then None else Some (rd m 0))
  else
    k ← gets cs_k;
    mret (Some (rd (k_mem k) src)).

Definition copyout_char (user_dst : bool) (dst c : Z) : M cst Z :=
  if user_dst then
    pt ← gets cs_pt;
    zoom cs_k set_cs_k (copyout_obj pt dst (wr ∅ 0 c) 0 1)
  else
    modify (fun s => set_cs_k (set_k_mem (wr (k_mem (cs_k s)) dst c) (cs_k s)) s);;
    mret 0.

Fixpoint consolewrite_loop (fuel : nat) (user_src : bool) (src n i : Z) : M cst io :=
  match fuel with
  | O => mret (Done i)
  | S f =>
      if i <? n then
        c ← copyin_char user_src (u64 (src + i));
        match c with
        | None => mret (Done i)
        | Some c =>
            sent ← uartputc c;
            if (sent : bool) then consolewrite_loop f user_src src n (i + 1)
            else mret (Blocked i)
        end
      else mret (Done i)
  end.

Definition consolewrite_from (user_src : bool) (src n i : Z) : M cst io :=
  consolewrite_loop (Z.to_nat (n - i)) user_src src n i.

Definition consolewrite (user_src : bool) (src n : Z) : M cst io := consolewrite_from user_src src n 0.

(** The end of [consoleread]. *)
Definition consoleread_end (target n : Z) : M cst io :=
  cn_release;;
  mret (Done (target - n)).

(** [n] is what is left to read of [target]; a round that goes on reads a
    byte, so [n] rounds are enough. *)
Fixpoint consoleread_loop (fuel : nat) (user_dst : bool) (dst target n : Z) : M cst io :=
  match fuel with
  | O => if n >? 0 then out_of_fuel else consoleread_end target n
  | S f =>
      if n >? 0 then
        x ← gets cs_cons;
        if cn_r x =? cn_w x then
          killed ← gets cs_killed;
          cn_release;;
          if (killed : bool) then mret (Done (-1)) else mret (Blocked n)
        else
          let c := rd (cn_buf x) (cn_r x mod INPUT_BUF_SIZE) in
          cons_modify (fun x => set_cn_r (u32 (cn_r x + 1)) x);;
          if c =? CTRL 68 then
            when (n <? target) (cons_modify (fun x => set_cn_r (u32 (cn_r x - 1)) x));;
            consoleread_end target n
          else
            r ← copyout_char user_dst dst c;
            if r =? -1 then consoleread_end target n
            else if c =? 10 then consoleread_end target (n - 1)
            else consoleread_loop f user_dst (dst + 1) target (n - 1)
      else consoleread_end target n
  end.

Definition consoleread_from (user_dst : bool) (dst target n : Z) : M cst io :=
  cn_acquire;;
  consoleread_loop (Z.to_nat n) user_dst (dst + (target - n)) target n.

Definition consoleread (user_dst : bool) (dst n : Z) : M cst io := consoleread_from user_dst dst n n.

(** Kill line: a round takes one character back. *)
Fixpoint kill_line (fuel : nat) : M cst unit :=
  match fuel with
  | O => mret tt
  | S f =>
      x ← gets cs_cons;
      if negb (cn_e x =? cn_w x) && negb (rd (cn_buf x) (u32 (cn_e x - 1) mod INPUT_BUF_SIZE) =? 10) then
        cons_modify (fun x => set_cn_e (u32 (cn_e x - 1)) x);;
        consputc BACKSPACE;;
        kill_line f
      else mret tt
  end.

(** The default case: an ordinary character. *)
Definition cons_input (c : Z) : M cst unit :=
  x ← gets cs_cons;
  if negb (c =? 0) && (u32 (cn_e x - cn_r x) <? INPUT_BUF_SIZE) then
    let c := if c =? 13 then 10 else c in
    consputc c;;
    cons_modify (fun x => Cons (cn_lock x) (wr (cn_buf x) (cn_e x mod INPUT_BUF_SIZE) c)
                               (cn_r x) (cn_w x) (u32 (cn_e x + 1)));;
    x ← gets cs_cons;
    if (c =? 10) || (c =? CTRL 68) || (u32 (cn_e x - cn_r x) =? INPUT_BUF_SIZE) then
      cons_modify (fun x => set_cn_w (cn_e x) x);;
      wakeup cons_chan
    else mret tt
  else mret tt.

Definition consoleintr (c : Z) : M cst unit :=
  cn_acquire;;
  (if c =? CTRL 80 then procdump
   else if c =? CTRL 85 then
     x ← gets cs_cons;
     kill_line (Z.to_nat (u32 (cn_e x - cn_w x)))
   else if (c =? CTRL 72) || (c =? 0x7f) then
     x ← gets cs_cons;
     if negb (cn_e x =? cn_w x) then
       cons_modify (fun x => set_cn_e (u32 (cn_e x - 1)) x);;
       consputc BACKSPACE
     else mret tt
   else cons_input c);;
  cn_release.

(** [consoleinit] up to the two entries of [devsw]. *)
Definition consoleinit : M cst unit :=
  cons_modify (set_cn_lock false);;
  uartinit.
End console.
