(* ===== verification/ConsoleProps.v ===== *)
(** Properties of the serial port's output queue and of the console's line
    editing. *)

From S2P Require Import Prelude Mem Sleeplock Strings Kalloc Vm VmSpec CopySpec VmProps Pipe Queue Uart Console.

(** ** The output queue *)

Abbreviation u64mod := (2 ^ 64).

Definition txq (t : txbuf) : list Z := rq UART_TX_BUF_SIZE u64mod (tx_buf t) (tx_r t) (tx_w t).

Record tx_ok (t : txbuf) : Prop := {
  to_r : 0 <= tx_r t < u64mod;
  to_w : 0 <= tx_w t < u64mod;
  to_len : dist u64mod (tx_r t) (tx_w t) <= UART_TX_BUF_SIZE }.

#[export] Instance tx_dims : RingDims UART_TX_BUF_SIZE u64mod.
Proof. split; [done|done|]. by exists (2 ^ 59). Qed.

(** What the bytes [l] are on the wire. *)
Definition wire (l : list Z) : list (Z * Z) := (fun c => (THR, c)) <$> l.

(** [s'] is [s] after the first [n] bytes of [q] were handed to the port, the
    rest being queued. *)
Record sent (s : cst) (q : list Z) (n : nat) (s' : cst) : Prop := {
  se_n : (n <= length q)%nat;
  se_q : txq (cs_tx s') = drop n q;
  se_ok : tx_ok (cs_tx s');
  se_wire : d_writes (cs_port s') = d_writes (cs_port s) ++ wire (take n q);
  se_rhr : d_rhr (cs_port s') = d_rhr (cs_port s);
  se_cons : cs_cons s' = cs_cons s;
  se_lock : tx_lock (cs_tx s') = tx_lock (cs_tx s);
  se_k : cs_k s' = cs_k s;
  se_busy : drop n q = [] \/ Z.land (nth n (d_lsr (cs_port s)) 0) LSR_TX_IDLE = 0 }.

Lemma txq_length t : Z.of_nat (length (txq t)) = dist u64mod (tx_r t) (tx_w t).
Proof. apply rq_length, tx_dims. Qed.

Lemma uartstart_loop_ok fuel : forall s,
  tx_ok (cs_tx s) -> (length (txq (cs_tx s)) < fuel)%nat ->
  exists n s', uartstart_loop fuel s = Ok tt s' /\ sent s (txq (cs_tx s)) n s'.
Proof.
  induction fuel as [|fuel IH]; intros s Hok Hf; [lia|]. cbn [uartstart_loop]. rewrite gets_bind.
  set (t := cs_tx s) in *. pose proof (txq_length t) as Hlen.
  destruct (Z.eqb_spec (tx_w t) (tx_r t)) as [E|E].
  { exists 0%nat, s. split; [done|]. assert (txq t = []) as Hq by (unfold txq; rewrite E; apply rq_empty, tx_dims).
    rewrite Hq. split; try done; [by rewrite app_nil_r|by left]. }
  assert (0 < dist u64mod (tx_r t) (tx_w t)) as Hd.
  { pose proof (dist_range UART_TX_BUF_SIZE u64mod (tx_r t) (tx_w t)).
    destruct (Z.eq_dec (dist u64mod (tx_r t) (tx_w t)) 0) as [H0|]; [|lia].
    destruct E. symmetry. apply (dist_zero UART_TX_BUF_SIZE u64mod); [apply Hok|apply Hok|done]. }
  set (c := rd (tx_buf t) (tx_r t mod UART_TX_BUF_SIZE)). set (r' := (tx_r t + 1) mod u64mod).
  assert (txq t = c :: rq UART_TX_BUF_SIZE u64mod (tx_buf t) r' (tx_w t)) as Hq by (by apply rq_pop; [apply tx_dims|]).
  erewrite bind_ok by reflexivity.
  destruct (Z.eqb_spec (Z.land (hd 0 (d_lsr (cs_port s))) LSR_TX_IDLE) 0) as [Eb|Eb].
  { exists 0%nat. eexists. split; [done|]. split; try done; [lia|by rewrite app_nil_r|].
    right. by destruct (d_lsr (cs_port s)). }
  fold c. unfold tx_modify, WriteReg, wakeup, cst_wakeup. rewrite !modify_bind.
  match goal with |- context [uartstart_loop fuel ?x] => set (s1 := x) end.
  assert (cs_tx s1 = Tx (tx_lock t) (tx_buf t) (tx_w t) r') as Et by done.
  assert (tx_ok (cs_tx s1)) as Hok1.
  { rewrite Et. split; cbn [tx_r tx_w]; [apply Z.mod_pos_bound; lia|apply Hok|]. unfold r'.
    rewrite (dist_step UART_TX_BUF_SIZE u64mod) by done. pose proof (to_len _ Hok). lia. }
  assert (txq t = c :: txq (cs_tx s1)) as Hq1 by (rewrite Et; exact Hq).
  destruct (IH s1 Hok1) as (n & s' & Hrun & [Q1 Q2 Q3 Q4 Q5 Q6 Q7 Q8 Q9]).
  { rewrite Hq1 in Hf. cbn [length] in Hf. lia. }
  exists (S n), s'. split; [exact Hrun|]. rewrite Hq1. split; try done.
  - cbn [length]. lia.
  - rewrite Q4. unfold s1. simpl. rewrite <- app_assoc. simpl. unfold c. by rewrite u8_rd.
  - destruct Q9 as [Q9|Q9]; [by left|right].
    enough (nth (S n) (d_lsr (cs_port s)) 0 = nth n (d_lsr (cs_port s1)) 0) as -> by exact Q9.
    change (d_lsr (cs_port s1)) with (tl (d_lsr (cs_port s))). destruct (d_lsr (cs_port s)); [by destruct n|done].
Qed.

Lemma uartstart_ok s :
  tx_ok (cs_tx s) -> exists n s', uartstart s = Ok tt s' /\ sent s (txq (cs_tx s)) n s'.
Proof.
  intros Hok. unfold uartstart. rewrite gets_bind. apply uartstart_loop_ok; [done|].
  pose proof (txq_length (cs_tx s)) as Hl. unfold dist in Hl. unfold u64, wrap. lia.
Qed.

Lemma tx_acquire_ok s :
  tx_lock (cs_tx s) = false -> tx_acquire s = Ok tt (set_cs_tx (set_tx_lock true (cs_tx s)) s).
Proof. intros Hl. unfold tx_acquire, zoom, acquire. by rewrite Hl. Qed.
Lemma tx_release_ok s :
  tx_lock (cs_tx s) = true -> tx_release s = Ok tt (set_cs_tx (set_tx_lock false (cs_tx s)) s).
Proof. intros Hl. unfold tx_release, zoom, release. by rewrite Hl. Qed.

(** [uartputc] on a port that has not been silenced by a panic.  With a
    full queue the caller goes to sleep and nothing changes; otherwise the
    byte joins the end of the queue and the port is given bytes from its
    front, in order, until the queue is empty or the port is busy. *)
Theorem uartputc_correct c s :
  tx_ok (cs_tx s) -> tx_lock (cs_tx s) = false -> cs_panicked s = false ->
  let q := txq (cs_tx s) in
  if Z.of_nat (length q) =? UART_TX_BUF_SIZE then uartputc c s = Ok false s
  else exists n s', uartputc c s = Ok true s' /\ sent s (q ++ [u8 c]) n s'.
Proof.
  intros Hok Hl Hp q. set (t := cs_tx s) in *. pose proof (txq_length t) as Hlen. fold q in Hlen.
  pose proof (to_len _ Hok) as Hle. pose proof (to_r _ Hok) as Hr. pose proof (to_w _ Hok) as Hw.
  unfold uartputc. mstep (tx_acquire_ok s Hl). fold t.
  rewrite gets_bind. cbn [cs_panicked set_cs_tx]. rewrite Hp. rewrite gets_bind. cbn [cs_tx set_cs_tx].
  cbn [tx_w tx_r set_tx_lock].
  assert ((tx_w t =? u64 (tx_r t + UART_TX_BUF_SIZE)) = (Z.of_nat (length q) =? UART_TX_BUF_SIZE)) as ->.
  { rewrite Hlen. unfold u64, wrap. apply eq_iff_eq_true. rewrite !Z.eqb_eq. unfold dist. split.
    - intros ->. rewrite Zminus_mod_idemp_l. replace (tx_r t + UART_TX_BUF_SIZE - tx_r t) with UART_TX_BUF_SIZE by lia. done.
    - intros E. rewrite <- E, Zplus_mod_idemp_r. replace (tx_r t + (tx_w t - tx_r t)) with (tx_w t) by lia. by rewrite Z.mod_small. }
  destruct (Z.eqb_spec (Z.of_nat (length q)) UART_TX_BUF_SIZE) as [E|E].
  - mstep (tx_release_ok (set_cs_tx (set_tx_lock true t) s) eq_refl).
    unfold t in Hl |- *. destruct s as [p [] co pa k pt ki wo]; simpl in *. by subst.
  - unfold tx_modify. rewrite modify_bind.
    match goal with |- context [(uartstart ≫= _) ?x] => set (s1 := x) end.
    assert (txq (cs_tx s1) = q ++ [u8 c]) as Hq1.
    { unfold txq, s1. cbn [cs_tx set_cs_tx tx_buf tx_r tx_w set_tx_lock]. apply rq_push; [apply tx_dims|done|lia]. }
    assert (tx_ok (cs_tx s1)) as Hok1.
    { unfold s1. split; cbn [cs_tx set_cs_tx tx_buf tx_r tx_w set_tx_lock]; [done|apply u64_range|].
      unfold u64, wrap. rewrite (dist_grow UART_TX_BUF_SIZE u64mod); lia. }
    destruct (uartstart_ok s1 Hok1) as (n & s2 & Hrun & [Q1 Q2 Q3 Q4 Q5 Q6 Q7 Q8 Q9]). rewrite Hq1 in *.
    exists n, (set_cs_tx (set_tx_lock false (cs_tx s2)) s2). split.
    + mstep Hrun. by mstep (tx_release_ok s2 ltac:(by rewrite Q7)).
    + split; try done. by destruct Q3.
Qed.

Lemma uartputc_correct_witness :
  let s := Cst (Port [32; 0] [] []) (Tx false ∅ 0 0) (Cons false ∅ 0 0 0) false (Kst ∅ false 0) 0 false [] in
  exists n s', uartputc 65 s = Ok true s' /\ sent s [65] n s'.
Proof.
  intros s. apply (uartputc_correct 65 s); [|reflexivity|reflexivity].
  split; simpl; [lia|lia|done].
Defined.

(** ** Line editing *)

Abbreviation u32mod := (2 ^ 32).

#[export] Instance cons_dims : RingDims INPUT_BUF_SIZE u32mod.
Proof. split; [done|done|]. by exists (2 ^ 25). Qed.

(** The bytes between two indices. *)
Definition cq (c : cons_t) (a b : Z) : list Z := rq INPUT_BUF_SIZE u32mod (cn_buf c) a b.
(** The lines a reader can have, and the line being typed. *)
Definition pending (c : cons_t) : list Z := cq c (cn_r c) (cn_w c).
Definition editing (c : cons_t) : list Z := cq c (cn_w c) (cn_e c).

Record cons_ok (c : cons_t) : Prop := {
  co_r : 0 <= cn_r c < u32mod;
  co_w : 0 <= cn_w c < u32mod;
  co_e : 0 <= cn_e c < u32mod;
  co_split : dist u32mod (cn_r c) (cn_w c) + dist u32mod (cn_w c) (cn_e c) = dist u32mod (cn_r c) (cn_e c);
  co_len : dist u32mod (cn_r c) (cn_e c) <= INPUT_BUF_SIZE;
  co_line : 10 ∉ editing c }.

(** What a key does to the two. *)
Definition key (ch : Z) (st : list Z * list Z) : list Z * list Z :=
  let '(pend, edit) := st in
  if ch =? CTRL 85 then (pend, [])
  else if (ch =? CTRL 72) || (ch =? 0x7f) then (pend, removelast edit)
  else if negb (ch =? 0) && (Z.of_nat (length pend + length edit) <? INPUT_BUF_SIZE) then
    let c := if ch =? 13 then 10 else ch in
    let edit := edit ++ [c] in
    if (c =? 10) || (c =? CTRL 68) || (Z.of_nat (length pend + length edit) =? INPUT_BUF_SIZE)
    then (pend ++ edit, []) else (pend, edit)
  else (pend, edit).

(** *** Echo *)

(** The number of times the port will say that it is idle. *)
Definition idles (s : cst) : nat := length (filter (fun v => Z.land v LSR_TX_IDLE <> 0) (d_lsr (cs_port s))).

(** [s'] is [s] but for what went to and fro between driver and port. *)
Definition echoed (s s' : cst) : Prop :=
  cs_cons s' = cs_cons s /\ cs_tx s' = cs_tx s /\ cs_panicked s' = cs_panicked s /\
  cs_k s' = cs_k s /\ cs_pt s' = cs_pt s /\ cs_killed s' = cs_killed s /\ cs_woken s' = cs_woken s.

Lemma echoed_trans s1 s2 s3 : echoed s1 s2 -> echoed s2 s3 -> echoed s1 s3.
Proof. unfold echoed. intros. destruct_and!. split_and!; congruence. Qed.

Lemma wait_idle_ok n : forall s,
  n = length (d_lsr (cs_port s)) -> (0 < idles s)%nat ->
  exists s', wait_idle n s = Ok tt s' /\ echoed s s' /\ (idles s <= S (idles s'))%nat.
Proof.
  induction n as [|n IH]; intros s Hn Hi; unfold idles in *.
  { destruct (d_lsr (cs_port s)); [simpl in Hi; lia|done]. }
  cbn [wait_idle]. destruct (d_lsr (cs_port s)) as [|v l] eqn:El; [done|].
  assert (read_lsr s = Ok v (set_cs_port (Port l (d_rhr (cs_port s)) (d_writes (cs_port s))) s)) as Hr
    by (unfold read_lsr; by rewrite El).
  mstep Hr. rewrite filter_cons in Hi |- *. destruct (Z.eqb_spec (Z.land v LSR_TX_IDLE) 0) as [E|E].
  - rewrite decide_False in Hi |- * by (intros Hne; by apply Hne).
    destruct (IH (set_cs_port (Port l (d_rhr (cs_port s)) (d_writes (cs_port s))) s)) as (s' & H1 & H2 & H3);
      [simpl in *; lia|exact Hi|].
    exists s'. split; [done|]. split; [|exact H3]. eapply echoed_trans; [|exact H2]. done.
  - rewrite decide_True by done. eexists. split; [done|]. split; [done|]. simpl. lia.
Qed.

Lemma uartputc_sync_ok c s n :
  cs_panicked s = false -> (n < idles s)%nat ->
  exists s', uartputc_sync c s = Ok tt s' /\ echoed s s' /\ (n <= idles s')%nat.
Proof.
  intros Hp Hi. unfold uartputc_sync. rewrite gets_bind, Hp, gets_bind.
  destruct (wait_idle_ok _ s eq_refl) as (s1 & H1 & H2 & H3); [lia|]. mstep H1.
  eexists. split; [done|]. split; [exact H2|]. unfold idles in *. simpl. lia.
Qed.

Lemma consputc_ok c s n :
  cs_panicked s = false -> (n + 2 < idles s)%nat ->
  exists s', consputc c s = Ok tt s' /\ echoed s s' /\ (n <= idles s')%nat.
Proof.
  intros Hp Hi. unfold consputc. destruct (c =? BACKSPACE).
  - destruct (uartputc_sync_ok 8 s (n + 2) Hp Hi) as (s1 & H1 & E1 & I1). mstep H1.
    destruct (uartputc_sync_ok 32 s1 (n + 1)) as (s2 & H2 & E2 & I2); [destruct E1 as (_ & _ & -> & _); done|lia|]. mstep H2.
    destruct (uartputc_sync_ok 8 s2 n) as (s3 & H3 & E3 & I3); [destruct E2 as (_ & _ & -> & _), E1 as (_ & _ & -> & _); done|lia|].
    exists s3. split; [done|]. split; [|done]. eapply echoed_trans; [|exact E3]. by eapply echoed_trans.
  - destruct (uartputc_sync_ok c s n Hp) as (s1 & H1 & E1 & I1); [lia|]. by exists s1.
Qed.

(** *** The buffer *)

Lemma cons_acquire_ok s :
  cn_lock (cs_cons s) = false -> cn_acquire s = Ok tt (set_cs_cons (set_cn_lock true (cs_cons s)) s).
Proof. intros Hl. unfold cn_acquire, zoom, acquire. by rewrite Hl. Qed.
Lemma cons_release_ok s :
  cn_lock (cs_cons s) = true -> cn_release s = Ok tt (set_cs_cons (set_cn_lock false (cs_cons s)) s).
Proof. intros Hl. unfold cn_release, zoom, release. by rewrite Hl. Qed.

Lemma pending_length c : Z.of_nat (length (pending c)) = dist u32mod (cn_r c) (cn_w c).
Proof. apply rq_length, cons_dims. Qed.
Lemma editing_length c : Z.of_nat (length (editing c)) = dist u32mod (cn_w c) (cn_e c).
Proof. apply rq_length, cons_dims. Qed.
Lemma total_length c :
  cons_ok c -> Z.of_nat (length (pending c) + length (editing c)) = dist u32mod (cn_r c) (cn_e c).
Proof. intros Hok. rewrite Nat2Z.inj_add, pending_length, editing_length. apply Hok. Qed.

Lemma editing_empty c : cons_ok c -> cn_e c = cn_w c <-> editing c = [].
Proof.
  intros Hok. split.
  - unfold editing, cq. intros ->. apply rq_empty, cons_dims.
  - intros E. pose proof (editing_length c) as Hl. rewrite E in Hl. simpl in Hl. symmetry.
    apply (dist_zero INPUT_BUF_SIZE u32mod); [apply Hok|apply Hok|done].
Qed.

(** Taking the last character back. *)
Definition back (c : cons_t) : cons_t := set_cn_e (u32 (cn_e c - 1)) c.

Lemma editing_back c :
  cons_ok c -> editing c <> [] ->
  editing c = editing (back c) ++ [rd (cn_buf c) (u32 (cn_e c - 1) mod INPUT_BUF_SIZE)].
Proof.
  intros Hok Hne. apply rq_snoc; [apply cons_dims|]. rewrite <- editing_length.
  destruct (editing c); [done|simpl; lia].
Qed.

Lemma back_ok c :
  cons_ok c -> editing c <> [] -> cons_ok (back c) /\ pending (back c) = pending c.
Proof.
  intros Hok Hne. split; [|done]. pose proof (editing_length c) as Hl. pose proof (pending_length c) as Hp.
  assert (0 < dist u32mod (cn_w c) (cn_e c)) as Hd by (rewrite <- Hl; destruct (editing c); [done|simpl; lia]).
  pose proof (dist_range INPUT_BUF_SIZE u32mod (cn_r c) (cn_w c)) as Hr.
  pose proof (co_split _ Hok) as Hs. pose proof (co_len _ Hok).
  split; [apply Hok|apply Hok|apply u32_range| | |]; cbn [back set_cn_e cn_r cn_w cn_e];
    unfold u32, wrap; rewrite ?(dist_shrink INPUT_BUF_SIZE u32mod) by lia; try lia.
  intros Hin. apply (co_line _ Hok). rewrite editing_back by done. apply elem_of_app. by left.
Qed.

(** Typing a character. *)
Definition typed (ch : Z) (c : cons_t) : cons_t :=
  Cons (cn_lock c) (wr (cn_buf c) (cn_e c mod INPUT_BUF_SIZE) ch) (cn_r c) (cn_w c) (u32 (cn_e c + 1)).

Lemma typed_ok ch c :
  cons_ok c -> dist u32mod (cn_r c) (cn_e c) < INPUT_BUF_SIZE ->
  dist u32mod (cn_r c) (cn_e (typed ch c)) = dist u32mod (cn_r c) (cn_e c) + 1 /\
  dist u32mod (cn_w c) (cn_e (typed ch c)) = dist u32mod (cn_w c) (cn_e c) + 1 /\
  pending (typed ch c) = pending c /\ editing (typed ch c) = editing c ++ [u8 ch].
Proof.
  intros Hok Hlt. pose proof (co_split _ Hok) as Hs. pose proof (co_e _ Hok) as He.
  pose proof (dist_range INPUT_BUF_SIZE u32mod (cn_r c) (cn_w c)) as Hr.
  assert (dist u32mod (cn_r c) (cn_e (typed ch c)) = dist u32mod (cn_r c) (cn_e c) + 1) as H1
    by (apply (dist_grow INPUT_BUF_SIZE u32mod); lia).
  assert (dist u32mod (cn_w c) (cn_e (typed ch c)) = dist u32mod (cn_w c) (cn_e c) + 1) as H2
    by (apply (dist_grow INPUT_BUF_SIZE u32mod); lia).
  assert (editing (typed ch c) = editing c ++ [u8 ch]) as H3
    by (apply (rq_push INPUT_BUF_SIZE u32mod (cn_buf c) (cn_w c) (cn_e c)); [done|lia]).
  split_and!; [done|done| |done].
  assert (cq (typed ch c) (cn_r c) (cn_e (typed ch c)) = cq c (cn_r c) (cn_e c) ++ [u8 ch]) as H4
    by (apply (rq_push INPUT_BUF_SIZE u32mod (cn_buf c) (cn_r c) (cn_e c)); [done|lia]).
  unfold cq in H4. rewrite (rq_app INPUT_BUF_SIZE u32mod _ _ (cn_w c)) in H4 by lia.
  rewrite (rq_app INPUT_BUF_SIZE u32mod (cn_buf c) _ (cn_w c)) in H4 by lia. rewrite <- app_assoc in H4.
  apply app_inj_1 in H4 as [H4 _]; [exact H4|]. apply Nat2Z.inj. by rewrite !rq_length by apply cons_dims.
Qed.

(** *** A key *)

(** [s'] is [s] with the lines [st], the readers having been woken if there is
    more to read. *)
Record edited (s : cst) (st : list Z * list Z) (s' : cst) : Prop := {
  ed_ok : cons_ok (cs_cons s');
  ed_lock : cn_lock (cs_cons s') = cn_lock (cs_cons s);
  ed_lines : (pending (cs_cons s'), editing (cs_cons s')) = st;
  ed_woken : cs_woken s' = (if decide (pending (cs_cons s') = pending (cs_cons s)) then [] else [cons_chan]) ++ cs_woken s;
  ed_tx : cs_tx s' = cs_tx s;
  ed_panicked : cs_panicked s' = cs_panicked s;
  ed_k : cs_k s' = cs_k s;
  ed_killed : cs_killed s' = cs_killed s }.

Lemma edited_echo s s' : echoed s s' -> cons_ok (cs_cons s) ->
  edited s (pending (cs_cons s), editing (cs_cons s)) s'.
Proof.
  intros (E1 & E2 & E3 & E4 & E5 & E6 & E7) Hok. split; rewrite ?E1; try done.
  by rewrite decide_True by done.
Qed.

(** One character taken back, on the screen too. *)
Lemma back_echo s n :
  cons_ok (cs_cons s) -> editing (cs_cons s) <> [] -> cs_panicked s = false -> (n + 2 < idles s)%nat ->
  exists s', (cons_modify back;; consputc BACKSPACE) s = Ok tt s' /\ (n <= idles s')%nat /\
    cs_cons s' = back (cs_cons s) /\
    edited s (pending (cs_cons s), editing (back (cs_cons s))) s'.
Proof.
  intros Hok Hne Hp Hi. unfold cons_modify. rewrite modify_bind.
  destruct (back_ok _ Hok Hne) as [Hok1 Hpe].
  destruct (consputc_ok BACKSPACE (set_cs_cons (back (cs_cons s)) s) n Hp Hi) as (s1 & H1 & E & I1).
  exists s1. split; [done|]. split; [done|]. destruct E as (E1 & E2 & E3 & E4 & E5 & E6 & E7). split; [done|].
  split; rewrite ?E1; try done. by rewrite decide_True by done.
Qed.

Lemma kill_line_ok fuel : forall s,
  fuel = length (editing (cs_cons s)) -> cons_ok (cs_cons s) -> cs_panicked s = false ->
  (3 * fuel <= idles s)%nat ->
  exists s', kill_line fuel s = Ok tt s' /\ edited s (pending (cs_cons s), []) s'.
Proof.
  induction fuel as [|fuel IH]; intros s Hf Hok Hp Hi.
  { exists s. split; [done|]. pose proof (edited_echo s s ltac:(done) Hok) as H.
    by destruct (editing (cs_cons s)). }
  assert (editing (cs_cons s) <> []) as Hne by (intros E; by rewrite E in Hf).
  pose proof (editing_back _ Hok Hne) as Hb. cbn [kill_line]. rewrite gets_bind.
  rewrite (proj2 (Z.eqb_neq _ _)) by (intros E; by apply Hne, editing_empty).
  rewrite (proj2 (Z.eqb_neq _ 10)).
  2:{ intros E. rewrite E in Hb. apply (co_line _ Hok). rewrite Hb. apply elem_of_app. right. by left. }
  destruct (back_echo s (3 * fuel) Hok Hne Hp) as (s1 & H1 & I1 & C1 & E1); [lia|].
  cbn [negb andb]. rewrite <- bind_bind. change (fun x => set_cn_e (u32 (cn_e x - 1)) x) with back. mstep H1.
  assert (fuel = length (editing (cs_cons s1))) as Hf1.
  { rewrite C1. rewrite Hb, length_app in Hf. simpl in Hf. lia. }
  destruct (IH s1 Hf1) as (s2 & H2 & E2); [apply E1|rewrite (ed_panicked _ _ _ E1); done|done|].
  exists s2. split; [done|]. destruct E1 as [A1 A2 A3 A4 A5 A6 A7 A8], E2 as [B1 B2 B3 B4 B5 B6 B7 B8].
  injection A3 as P1 _. split; try congruence; try done. rewrite B4, A4, P1.
  by rewrite (decide_True _ _ (P := pending (cs_cons s) = _)) by done.
Qed.

(** The line is complete. *)
Definition commit (c : cons_t) : cons_t := set_cn_w (cn_e c) c.

Lemma typed_cons_ok ch c :
  cons_ok c -> dist u32mod (cn_r c) (cn_e c) < INPUT_BUF_SIZE -> u8 ch <> 10 -> cons_ok (typed ch c).
Proof.
  intros Hok Hlt Hch. destruct (typed_ok ch c Hok Hlt) as (T1 & T2 & T3 & T4).
  pose proof (co_split _ Hok). split; [apply Hok|apply Hok|apply u32_range| | |].
  - change (dist u32mod (cn_r c) (cn_w c) + dist u32mod (cn_w c) (cn_e (typed ch c)) = dist u32mod (cn_r c) (cn_e (typed ch c))). lia.
  - change (dist u32mod (cn_r c) (cn_e (typed ch c)) <= INPUT_BUF_SIZE). lia.
  - rewrite T4. intros [Hin|Hin]%elem_of_app; [by apply (co_line _ Hok)|]. by apply list_elem_of_singleton in Hin.
Qed.

Lemma commit_ok ch c :
  cons_ok c -> dist u32mod (cn_r c) (cn_e c) < INPUT_BUF_SIZE ->
  cons_ok (commit (typed ch c)) /\ editing (commit (typed ch c)) = [] /\
  pending (commit (typed ch c)) = pending c ++ editing c ++ [u8 ch].
Proof.
  intros Hok Hlt. destruct (typed_ok ch c Hok Hlt) as (T1 & T2 & T3 & T4).
  pose proof (co_split _ Hok) as Hs. set (c1 := typed ch c) in *.
  assert (editing (commit c1) = []) as He by (apply rq_empty, cons_dims). split_and!; [|done|].
  - split; [apply Hok|apply u32_range|apply u32_range| | |by rewrite He; apply not_elem_of_nil];
      cbn [commit set_cn_w cn_r cn_w cn_e]; rewrite ?(dist_same INPUT_BUF_SIZE u32mod);
      change (cn_r c1) with (cn_r c); lia.
  - rewrite <- T4, <- T3. apply (rq_app INPUT_BUF_SIZE u32mod (cn_buf c1) (cn_r c) (cn_w c) (cn_e c1)). lia.
Qed.

Lemma cons_input_ok ch s :
  0 <= ch < 256 -> ch <> CTRL 72 -> ch <> CTRL 85 -> ch <> 0x7f ->
  cons_ok (cs_cons s) -> cs_panicked s = false -> (2 < idles s)%nat ->
  exists s', cons_input ch s = Ok tt s' /\ edited s (key ch (pending (cs_cons s), editing (cs_cons s))) s'.
Proof.
  intros Hch Hh Hu Hd Hok Hp Hi. unfold cons_input, key. rewrite gets_bind.
  rewrite (proj2 (Z.eqb_neq _ _) Hh), (proj2 (Z.eqb_neq _ _) Hu), (proj2 (Z.eqb_neq _ _) Hd). cbn [orb].
  set (c := cs_cons s) in *. change (u32 (cn_e c - cn_r c)) with (dist u32mod (cn_r c) (cn_e c)).
  rewrite (total_length c Hok). destruct (_ && _) eqn:Ec; [|exists s; split; [done|by apply edited_echo]].
  apply andb_true_iff in Ec as [Ez Hlt%Z.ltb_lt]. set (k := if ch =? 13 then 10 else ch).
  assert (u8 k = k) as Hk by (apply u8_small; unfold k; destruct (ch =? 13); lia).
  destruct (consputc_ok k s 0 Hp Hi) as (s1 & H1 & (E1 & E2 & E3 & E4 & E5 & E6 & E7) & _). mstep H1.
  erewrite bind_ok by reflexivity. rewrite gets_bind. cbn [cs_cons set_cs_cons]. fold (typed k (cs_cons s1)). rewrite E1. fold c.
  destruct (typed_ok k c Hok Hlt) as (T1 & T2 & T3 & T4). rewrite Hk in T4.
  change (u32 (cn_e (typed k c) - cn_r (typed k c))) with (dist u32mod (cn_r c) (cn_e (typed k c))). rewrite T1.
  assert (Z.of_nat (length (pending c) + length (editing c ++ [k])) = dist u32mod (cn_r c) (cn_e c) + 1) as ->.
  { rewrite <- (total_length c Hok), length_app. simpl. lia. }
  destruct (_ || _) eqn:Eo.
  - destruct (commit_ok k c Hok Hlt) as (C1 & C2 & C3). rewrite Hk in C3. eexists. split; [reflexivity|].
    split; cbn [cs_cons set_cs_cons cs_woken cs_tx cs_panicked cs_k cs_killed]; try done; fold (commit (typed k c)).
    + by rewrite C2, C3.
    + rewrite E7, C3, decide_False; [done|]. fold c. intros E. apply (f_equal length) in E. rewrite !length_app in E. cbn [length] in E. lia.
  - apply orb_false_iff in Eo as [Eo _]. apply orb_false_iff in Eo as [Eo%Z.eqb_neq _]. eexists. split; [reflexivity|].
    split; cbn [cs_cons set_cs_cons cs_woken cs_tx cs_panicked cs_k cs_killed]; try done.
    + apply typed_cons_ok; [done|done|by rewrite Hk].
    + by rewrite T3, T4.
    + by rewrite T3, decide_True by done.
Qed.

(** C13: a key other than ^P arrives while the console's lock is free and the port
    will be idle often enough to take the echo.  [consoleintr] does to the
    lines what [key] says: ^U empties the line being typed, ^H and DEL take its
    last character back, a character that fits is added to it (a carriage
    return as a newline), and a newline, ^D or a full buffer hands the line to
    the readers and wakes them.  Nothing that is waiting to be read changes, the
    indices stay in order however often they have wrapped around, and the
    lock is released. *)
Theorem consoleintr_refines procdump ch s :
  0 <= ch < 256 -> ch <> CTRL 80 ->
  cons_ok (cs_cons s) -> cn_lock (cs_cons s) = false -> cs_panicked s = false ->
  (3 * Z.to_nat INPUT_BUF_SIZE <= idles s)%nat ->
  exists s', consoleintr procdump ch s = Ok tt s' /\
    edited s (key ch (pending (cs_cons s), editing (cs_cons s))) s'.
Proof.
  intros Hch Hpd Hok Hl Hp Hi. unfold consoleintr. mstep (cons_acquire_ok s Hl).
  assert (2 < idles s)%nat as Hi2 by (change (Z.to_nat INPUT_BUF_SIZE) with 128%nat in Hi; lia).
  rewrite (proj2 (Z.eqb_neq _ _) Hpd). set (s0 := set_cs_cons (set_cn_lock true (cs_cons s)) s).
  assert (cons_ok (cs_cons s0)) as Hok0 by (by destruct Hok).
  enough (exists s1, (if ch =? CTRL 85 then x ← gets cs_cons; kill_line (Z.to_nat (u32 (cn_e x - cn_w x)))
     else if (ch =? CTRL 72) || (ch =? 0x7f) then
       x ← gets cs_cons;
       if negb (cn_e x =? cn_w x) then cons_modify (fun x => set_cn_e (u32 (cn_e x - 1)) x);; consputc BACKSPACE
       else mret tt
     else cons_input ch) s0 = Ok tt s1 /\ edited s0 (key ch (pending (cs_cons s), editing (cs_cons s))) s1)
    as (s1 & H1 & [E1 E2 E3 E4 E5 E6 E7 E8]).
  { mstep H1. eexists. split; [by apply cons_release_ok; rewrite E2|]. split; try done. by destruct E1. }
  destruct (Z.eqb_spec ch (CTRL 85)) as [->|Hu].
  { rewrite gets_bind. pose proof (editing_length (cs_cons s0)) as Hel. pose proof (total_length _ Hok0).
    pose proof (co_len _ Hok0). destruct (kill_line_ok (length (editing (cs_cons s0))) s0) as (s1 & H1 & E1); [done|done|done|change (idles s0) with (idles s); lia|].
    exists s1. split; [|exact E1]. rewrite <- H1. f_equal.
    change (u32 (cn_e (cs_cons s0) - cn_w (cs_cons s0))) with (dist u32mod (cn_w (cs_cons s0)) (cn_e (cs_cons s0))). lia. }
  destruct ((ch =? CTRL 72) || (ch =? 0x7f)) eqn:Eb.
  { rewrite gets_bind. unfold key. rewrite (proj2 (Z.eqb_neq _ _) Hu), Eb.
    destruct (Z.eqb_spec (cn_e (cs_cons s0)) (cn_w (cs_cons s0))) as [Ee|Ee].
    - exists s0. split; [done|]. apply (editing_empty _ Hok0) in Ee.
      pose proof (edited_echo s0 s0 ltac:(done) Hok0) as H. change (editing (cs_cons s)) with (editing (cs_cons s0)).
      rewrite Ee in H |- *. exact H.
    - assert (editing (cs_cons s0) <> []) as Hne by (intros E; by apply Ee, editing_empty).
      destruct (back_echo s0 0 Hok0 Hne Hp) as (s1 & H1 & _ & _ & E1); [change (idles s0) with (idles s); lia|].
      exists s1. split; [exact H1|]. change (editing (cs_cons s)) with (editing (cs_cons s0)).
      rewrite (editing_back _ Hok0 Hne), removelast_last. exact E1. }
  apply orb_false_iff in Eb as [Eh%Z.eqb_neq Ed%Z.eqb_neq].
  apply (cons_input_ok ch s0); done.
Qed.

Definition idle_port : port := Port (replicate 384 LSR_TX_IDLE) [] [].
Definition idle_cst (c : cons_t) : cst := Cst idle_port (Tx false ∅ 0 0) c false (Kst ∅ false 0) 0 false [].
(** "ls" typed, on indices about to wrap around. *)
Definition ls_typed : cons_t := typed 115 (typed 108 (Cons false ∅ (2 ^ 32 - 1) (2 ^ 32 - 1) (2 ^ 32 - 1))).

Lemma ls_typed_ok : cons_ok ls_typed.
Proof. split; vm_compute; [done..|]. intros H. by repeat (inversion H; subst; clear H; rename select (_ ∈ _) into H). Qed.

Lemma consoleintr_refines_witness :
  exists s', consoleintr (mret tt) 13 (idle_cst ls_typed) = Ok tt s' /\
    edited (idle_cst ls_typed) ([108; 115; 10], []) s'.
Proof.
  apply (consoleintr_refines (mret tt) 13 (idle_cst ls_typed)); [lia|done|exact ls_typed_ok|reflexivity|reflexivity|].
  vm_compute. lia.
Defined.

(** ** Reading *)

(** What a read of [n] more bytes, [i] being delivered, makes of the pending
    bytes [q]: the bytes delivered, the bytes left, and whether it waits for
    more.  [mapped] tells whether the process has memory for a byte. *)
Fixpoint take_line (mapped : nat -> bool) (i n : nat) (q : list Z) : list Z * list Z * bool :=
  match n, q with
  | O, _ => ([], q, false)
  | S _, [] => ([], [], true)
  | S n, c :: q' =>
      if c =? CTRL 68 then ([], if (0 <? i)%nat then q else q', false)
      else if negb (mapped i) then ([], q', false)
      else if c =? 10 then ([c], q', false)
      else let '(d, r, b) := take_line mapped (S i) n q' in (c :: d, r, b)
  end.

(** [s'] is [s] after the read: [d] delivered at [dst], [rest] still pending. *)
Record was_read (pages : layout) (s : cst) (dst : Z) (d rest : list Z) (s' : cst) : Prop := {
  wr_ok : cons_ok (cs_cons s');
  wr_pending : pending (cs_cons s') = rest;
  wr_editing : editing (cs_cons s') = editing (cs_cons s);
  wr_stored : ustored (cs_pt s) (k_mem (cs_k s)) (k_mem (cs_k s')) dst (Z.of_nat (length d)) (fun j => d !!! Z.to_nat j);
  wr_pt : cs_pt s' = cs_pt s;
  wr_killed : cs_killed s' = cs_killed s;
  wr_woken : cs_woken s' = cs_woken s }.

Definition pop (c : cons_t) : cons_t := set_cn_r (u32 (cn_r c + 1)) c.

Lemma pop_ok c x q : cons_ok c -> pending c = x :: q ->
  cons_ok (pop c) /\ pending (pop c) = q /\ rd (cn_buf c) (cn_r c mod INPUT_BUF_SIZE) = x /\ cn_r c <> cn_w c /\
  set_cn_r (u32 (cn_r (pop c) - 1)) (pop c) = c.
Proof.
  intros Hok Hp. pose proof (pending_length c) as Hl. rewrite Hp in Hl. cbn [length] in Hl.
  assert (0 < dist u32mod (cn_r c) (cn_w c)) as Hd by lia. pose proof (co_split _ Hok) as Hs. pose proof (co_len _ Hok).
  pose proof (dist_range INPUT_BUF_SIZE u32mod (cn_w c) (cn_e c)).
  assert (pending c = rd (cn_buf c) (cn_r c mod INPUT_BUF_SIZE) :: pending (pop c)) as Hq by (by apply rq_pop; [apply cons_dims|]).
  rewrite Hp in Hq. injection Hq as Ex Eq. split_and!; [|done|done| |].
  - split; [apply u32_range|apply Hok|apply Hok| | |apply (co_line _ Hok)]; cbn [pop set_cn_r cn_r cn_w cn_e];
      unfold u32, wrap; rewrite ?(dist_step INPUT_BUF_SIZE u32mod) by lia; lia.
  - intros E. rewrite E, (dist_same INPUT_BUF_SIZE u32mod) in Hd. lia.
  - assert (u32 (cn_r (pop c) - 1) = cn_r c) as ->; [|by destruct c]. cbn [pop set_cn_r cn_r]. unfold u32, wrap.
    rewrite Zminus_mod_idemp_l. replace (cn_r c + 1 - 1) with (cn_r c) by lia. apply Z.mod_small, Hok.
Qed.

Lemma copyout_char_ok pages s dst c :
  user_ok (k_mem (cs_k s)) pages (cs_pt s) -> 0 <= dst -> 0 <= c < 256 ->
  exists m', copyout_char true dst c s =
    Ok (if bool_decide (is_Some (utrans (k_mem (cs_k s)) (cs_pt s) dst)) then 0 else -1) (set_cs_k (set_k_mem m' (cs_k s)) s) /\
    ustored (cs_pt s) (k_mem (cs_k s)) m' dst
      (if bool_decide (is_Some (utrans (k_mem (cs_k s)) (cs_pt s) dst)) then 1 else 0) (fun _ => c).
Proof.
  intros Hu Hd Hc. unfold copyout_char. rewrite gets_bind.
  destruct (copyout_obj_spec (cs_pt s) pages (cs_k s) dst (wr ∅ 0 c) 0 1 Hu Hd ltac:(lia)) as (r & k & m' & Hrun & Hst & Hk & Hr).
  exists m'. unfold zoom. rewrite Hrun. destruct Hr as [(-> & -> & Hm)|(-> & Hlt & Hn & _)].
  - rewrite bool_decide_eq_true_2 by (rewrite <- (Z.add_0_r dst); apply Hm; lia). split; [done|].
    destruct Hst as [S1 S2]. split; [|done]. intros i a Hi Ha. rewrite (S1 i a Hi Ha). replace (0 + i) with 0 by lia.
    rewrite rd_wr_eq. by apply u8_small.
  - assert (k = 0) as -> by lia. rewrite Z.add_0_r in Hn. rewrite bool_decide_eq_false_2 by (rewrite Hn; by intros [? ?]).
    split; [done|]. destruct Hst as [S1 S2]. split; [lia|done].
Qed.

(** One byte delivered. *)
Lemma was_read_more pages s s1 s' dst c d rest :
  user_ok (k_mem (cs_k s)) pages (cs_pt s) ->
  cs_pt s1 = cs_pt s -> cs_killed s1 = cs_killed s -> cs_woken s1 = cs_woken s ->
  editing (cs_cons s1) = editing (cs_cons s) ->
  ustored (cs_pt s) (k_mem (cs_k s)) (k_mem (cs_k s1)) dst 1 (fun _ => c) ->
  was_read pages s1 (dst + 1) d rest s' -> was_read pages s dst (c :: d) rest s'.
Proof.
  intros Hu E1 E2 E3 E4 Hst [W1 W2 W3 W4 W5 W6 W7]. split; try congruence; try done. rewrite E1 in W4.
  cbn [length]. replace (Z.of_nat (S (length d))) with (1 + Z.of_nat (length d)) by lia.
  eapply ustored_app; [exact Hu|lia|lia| |].
  - destruct Hst as [S1 S2]. split; [|done]. intros i a Hi Ha. rewrite (S1 i a Hi Ha). by replace i with 0 by lia.
  - destruct W4 as [S1 S2]. split; [|done]. intros i a Hi Ha. rewrite (S1 i a Hi Ha).
    replace (Z.to_nat (1 + i)) with (S (Z.to_nat i)) by lia. done.
Qed.

Lemma was_read_none pages s s' dst rest :
  cons_ok (cs_cons s') -> pending (cs_cons s') = rest -> editing (cs_cons s') = editing (cs_cons s) ->
  ustored (cs_pt s) (k_mem (cs_k s)) (k_mem (cs_k s')) dst 0 (fun _ => 0) ->
  cs_pt s' = cs_pt s -> cs_killed s' = cs_killed s -> cs_woken s' = cs_woken s ->
  was_read pages s dst [] rest s'.
Proof. intros ??? [S1 S2] ???. split; try done. split; [simpl; lia|done]. Qed.

Lemma ustored_refl root m dst f : ustored root m m dst 0 f.
Proof. split; [lia|done]. Qed.

Lemma consoleread_end_ok target n s :
  cn_lock (cs_cons s) = true ->
  consoleread_end target n s = Ok (Done (target - n)) (set_cs_cons (set_cn_lock false (cs_cons s)) s).
Proof. intros Hl. unfold consoleread_end. by mstep (cons_release_ok s Hl). Qed.

(** The result, [n] bytes of [target] being left at the start. *)
Definition read_result (s : cst) (target n : Z) (d : list Z) (blocked : bool) : io :=
  if blocked then (if cs_killed s then Done (-1) else Blocked (n - Z.of_nat (length d)))
  else Done (target - n + Z.of_nat (length d)).

Lemma take_line_ext f g i n q : (forall j, f j = g j) -> take_line f i n q = take_line g i n q.
Proof.
  intros He. revert i q. induction n as [|n IH]; intros i q; [done|]. destruct q as [|c q]; [done|].
  cbn [take_line]. by rewrite He, IH.
Qed.

Lemma pending_empty c : cons_ok c -> pending c = [] -> cn_r c = cn_w c.
Proof.
  intros Hok E. pose proof (pending_length c) as Hl. rewrite E in Hl. simpl in Hl.
  apply (dist_zero INPUT_BUF_SIZE u32mod); [apply Hok|apply Hok|done].
Qed.

(** The end of a read, nothing more being delivered. *)
Lemma read_stops pages s s1 dst i n rest :
  cn_lock (cs_cons s1) = true -> cons_ok (cs_cons s1) -> pending (cs_cons s1) = rest ->
  editing (cs_cons s1) = editing (cs_cons s) ->
  ustored (cs_pt s) (k_mem (cs_k s)) (k_mem (cs_k s1)) dst 0 (fun _ => 0) ->
  cs_pt s1 = cs_pt s -> cs_killed s1 = cs_killed s -> cs_woken s1 = cs_woken s ->
  exists s', consoleread_end (Z.of_nat (i + n)) (Z.of_nat n) s1 =
      Ok (read_result s (Z.of_nat (i + n)) (Z.of_nat n) [] false) s' /\
    cn_lock (cs_cons s') = false /\ was_read pages s dst [] rest s'.
Proof.
  intros Hl Hok Hp He Hst E1 E2 E3. rewrite consoleread_end_ok by done.
  exists (set_cs_cons (set_cn_lock false (cs_cons s1)) s1). split; [|split; [done|]].
  - unfold read_result. cbn [length]. do 2 f_equal. lia.
  - apply was_read_none; try done. by destruct Hok.
Qed.

Lemma consoleread_loop_ok pages : forall n s dst i d rest blocked,
  cons_ok (cs_cons s) -> cn_lock (cs_cons s) = true -> user_ok (k_mem (cs_k s)) pages (cs_pt s) -> 0 <= dst ->
  take_line (fun j => bool_decide (is_Some (utrans (k_mem (cs_k s)) (cs_pt s) (dst + Z.of_nat j)))) i n (pending (cs_cons s)) = (d, rest, blocked) ->
  exists s', consoleread_loop n true (dst + Z.of_nat i) (Z.of_nat (i + n)) (Z.of_nat n) s =
      Ok (read_result s (Z.of_nat (i + n)) (Z.of_nat n) d blocked) s' /\
    cn_lock (cs_cons s') = false /\ was_read pages s (dst + Z.of_nat i) d rest s'.
Proof.
  induction n as [|n IH]; intros s dst i d rest blocked Hok Hl Hu Hd Ht; cbn [take_line consoleread_loop] in *.
  { simplify_eq. destruct (Z.gtb_spec (Z.of_nat 0) 0); [lia|]. apply read_stops; try done. apply ustored_refl. }
  destruct (Z.gtb_spec (Z.of_nat (S n)) 0); [|lia]. rewrite gets_bind. destruct (pending (cs_cons s)) as [|c q] eqn:Ep.
  { simplify_eq. rewrite (pending_empty _ Hok Ep), Z.eqb_refl, gets_bind. mstep (cons_release_ok s Hl).
    eexists. split; [unfold read_result; cbn [length]; rewrite Z.sub_0_r; by destruct (cs_killed s)|]. split; [done|].
    apply was_read_none; try done; [by destruct Hok|apply ustored_refl]. }
  destruct (pop_ok _ _ _ Hok Ep) as (Hok1 & Hp1 & Hc & Hne & Hback).
  rewrite (proj2 (Z.eqb_neq _ _) Hne), Hc. erewrite bind_ok by reflexivity.
  change (set_cn_r (u32 (cn_r (cs_cons s) + 1)) (cs_cons s)) with (pop (cs_cons s)).
  set (s1 := set_cs_cons (pop (cs_cons s)) s). destruct (c =? CTRL 68) eqn:E4.
  { assert ((Z.of_nat (S n) <? Z.of_nat (i + S n)) = (0 <? i)%nat) as ->.
    { apply eq_iff_eq_true. rewrite Z.ltb_lt, Nat.ltb_lt. lia. }
    simplify_eq. destruct (0 <? i)%nat; cbn [when].
    - assert (cons_modify (fun x => set_cn_r (u32 (cn_r x - 1)) x) s1 = Ok tt s) as Hm.
      { unfold cons_modify, modify, s1. f_equal. cbn [cs_cons set_cs_cons]. rewrite Hback. by destruct s. }
      mstep Hm.
      apply read_stops; try done. apply ustored_refl.
    - rewrite ret_bind. apply read_stops; try done. apply ustored_refl. }
  assert (0 <= c < 256) as Hcr by (rewrite <- Hc; apply rd_range).
  destruct (copyout_char_ok pages s1 (dst + Z.of_nat i) c Hu ltac:(lia) Hcr) as (m' & H1 & Hst). mstep H1.
  cbn [cs_k cs_pt s1 set_cs_cons] in *. destruct (bool_decide _) eqn:Em; cbn [negb] in Ht.
  2:{ simplify_eq. apply read_stops; try done. destruct Hst as [S1 S2]. split; [lia|done]. }
  set (s2 := set_cs_k (set_k_mem m' (cs_k s)) s1). change (0 =? -1) with false. cbn iota.
  destruct (c =? 10) eqn:En.
  { simplify_eq. replace (Z.of_nat (S n) - 1) with (Z.of_nat n) by lia. replace (i + S n)%nat with (S i + n)%nat by lia.
    destruct (read_stops pages s2 s2 (dst + Z.of_nat i + 1) (S i) n (pending (cs_cons s2))) as (s' & R1 & R2 & R3); try done; [apply ustored_refl|].
    exists s'. split; [rewrite R1; unfold read_result; cbn [length]; do 2 f_equal; lia|]. split; [done|]. by eapply (was_read_more pages s s2). }
  destruct (take_line _ (S i) n q) as [[d' r'] b'] eqn:Et. simplify_eq.
  destruct (ustored_frame _ _ _ _ _ _ _ Hu Hst) as [Hu2 Htr].
  destruct (IH s2 dst (S i) d' rest blocked) as (s' & R1 & R2 & R3); [done|done|done|done| |].
  { rewrite <- Et. apply take_line_ext. intros j. cbn [cs_k cs_pt s2 s1 set_cs_k set_cs_cons k_mem set_k_mem]. by rewrite Htr. }
  exists s'. split; [|split; [done|]].
  - replace (dst + Z.of_nat i + 1) with (dst + Z.of_nat (S i)) by lia. replace (Z.of_nat (S n) - 1) with (Z.of_nat n) by lia.
    replace (i + S n)%nat with (S i + n)%nat by lia. rewrite R1. unfold read_result. cbn [length].
    change (cs_killed s2) with (cs_killed s). destruct blocked; [destruct (cs_killed s); [done|]|]; do 2 f_equal; lia.
  - replace (dst + Z.of_nat (S i)) with (dst + Z.of_nat i + 1) in R3 by lia. by eapply (was_read_more pages s s2).
Qed.

(** C31: [consoleread] of [n] bytes into the memory of a process.  It delivers
    the pending bytes in order up to a newline, which is delivered too, up to
    [n] bytes, or up to ^D: a ^D at the start is taken out and ends the read
    with 0, a later one is left for the next read.  It stops at the first
    address the process has no memory for, the byte for it being lost.  When
    the pending bytes run out before any of this it sleeps with what is left
    to do, or returns -1 if the process was killed.  What was delivered is in
    the process's memory, nothing else there changes, the line being typed
    is untouched, and the lock is free. *)
Theorem consoleread_correct pages s dst n d rest blocked :
  cons_ok (cs_cons s) -> cn_lock (cs_cons s) = false -> user_ok (k_mem (cs_k s)) pages (cs_pt s) -> 0 <= dst -> 0 <= n ->
  take_line (fun j => bool_decide (is_Some (utrans (k_mem (cs_k s)) (cs_pt s) (dst + Z.of_nat j))))
    0 (Z.to_nat n) (pending (cs_cons s)) = (d, rest, blocked) ->
  exists s', consoleread true dst n s = Ok (read_result s n n d blocked) s' /\
    cn_lock (cs_cons s') = false /\ was_read pages s dst d rest s'.
Proof.
  intros Hok Hl Hu Hd Hn Ht. unfold consoleread, consoleread_from. mstep (cons_acquire_ok s Hl).
  set (s0 := set_cs_cons (set_cn_lock true (cs_cons s)) s).
  destruct (consoleread_loop_ok pages (Z.to_nat n) s0 dst 0 d rest blocked) as (s' & R1 & R2 & R3); try done; [by destruct Hok|].
  rewrite Z.sub_diag. rewrite Nat.add_0_l, Z2Nat.id in R1 by done. change (Z.of_nat 0) with 0 in R1, R3. rewrite Z.add_0_r in R3.
  exists s'. split; [exact R1|]. split; [done|]. by destruct R3.
Qed.

(** "ls" and a newline, and the beginning of the next line. *)
Definition ls_entered : cons_t := typed 112 (commit (typed 10 ls_typed)).

Lemma ls_entered_ok : cons_ok ls_entered.
Proof. split; vm_compute; [done..|]. intros H. by repeat (inversion H; subst; clear H; rename select (_ ∈ _) into H). Qed.

Lemma consoleread_correct_witness :
  exists k pt s', consoleread true 0 100 (Cst idle_port (Tx false ∅ 0 0) ls_entered false k pt false []) = Ok (Done 3) s'.
Proof.
  destruct example_space as (k & pages & root & pa & Hu & Hpa & Hne & Hpte & _).
  set (s := Cst idle_port (Tx false ∅ 0 0) ls_entered false k root false []).
  destruct (consoleread_correct pages s 0 100 [108; 115; 10] [] false) as (s' & Hrun & _);
    [exact ls_entered_ok|reflexivity|exact Hu|lia|lia| |by exists k, root, s'].
  assert (pending (cs_cons s) = [108; 115; 10]) as -> by (vm_compute; reflexivity).
  assert (forall j, (j < 3)%nat -> bool_decide (is_Some (utrans (k_mem (cs_k s)) (cs_pt s) (0 + Z.of_nat j))) = true) as Hm.
  { intros j Hj. apply bool_decide_eq_true_2. unfold utrans, s. cbn [cs_k cs_pt].
    assert ((0 <=? 0 + Z.of_nat j) && (0 + Z.of_nat j <? MAXVA) = true) as -> by (assert (3 < MAXVA) by done; lia).
    rewrite (Hpte (0 + Z.of_nat j)) by (unfold PGSIZE; lia). unfold mk_pte. rewrite has_V_lor, PTE2PA_mk, has_U_user by done.
    rewrite (proj2 (Z.eqb_neq _ _) Hne). by eexists. }
  change (Z.to_nat 100) with 100%nat. cbn [take_line]. rewrite !Hm by lia. reflexivity.
Defined.
