(* ===== verification/Virtio.v ===== *)
(** The disk driver: src/src/kernel/virtio_disk.c.

    The descriptors, the two rings and the driver's own tables are functions
    of their index.  An address in a descriptor is the object it points to.
    The disk is the memory of the device, by byte.

    [virtio_disk_rw] gives the CPU away twice, with the lock released: while
    no descriptors are free, and until the device is done.  [rw_start] is the
    code up to the second wait and [rw_finish] the code from there on; both
    say whether the process has gone (back) to sleep. *)

From S2P Require Import Prelude Ring Mem Sleeplock Kalloc Bio.

Definition NUM : nat := 8.
Definition VRING_DESC_F_NEXT : Z := 1.
Definition VRING_DESC_F_WRITE : Z := 2.
Definition VIRTIO_BLK_T_IN : Z := 0.
Definition VIRTIO_BLK_T_OUT : Z := 1.

(** What a descriptor points to: [ops[i]], the data of a buffer, [info[i].status]. *)
Inductive dptr := PNull | POp (i : nat) | PData (b : nat) | PStatus (i : nat).

Record virtq_desc := Desc { d_addr : dptr; d_len : Z; d_flags : Z; d_next : nat }.

(** [struct virtio_blk_req] without the reserved word. *)
Record virtio_blk_req := Req { q_type : Z; q_sector : Z }.

(** [v_info] is [info[i].b] and [v_status] [info[i].status]; [v_bdisk],
    [v_bno] and [v_data] are the fields [disk], [blockno] and [data] of the
    buffers; [v_regs] the writes to the device's registers. *)
Record vst := Vst {
  v_lock : bool;
  v_desc : nat -> virtq_desc;
  v_avail : nat -> nat; v_avail_idx : Z;
  v_used : nat -> nat; v_used_end : Z;
  v_free : nat -> bool; v_used_idx : Z;
  v_info : nat -> option nat; v_status : nat -> Z;
  v_ops : nat -> virtio_blk_req;
  v_bdisk : nat -> bool; v_bno : nat -> Z; v_data : nat -> mem;
  v_disk : mem; v_regs : list (Z * Z); v_woken : list chan }.

Definition set_v_lock v s := Vst v (v_desc s) (v_avail s) (v_avail_idx s) (v_used s) (v_used_end s) (v_free s) (v_used_idx s) (v_info s) (v_status s) (v_ops s) (v_bdisk s) (v_bno s) (v_data s) (v_disk s) (v_regs s) (v_woken s).
Definition set_v_desc v s := Vst (v_lock s) v (v_avail s) (v_avail_idx s) (v_used s) (v_used_end s) (v_free s) (v_used_idx s) (v_info s) (v_status s) (v_ops s) (v_bdisk s) (v_bno s) (v_data s) (v_disk s) (v_regs s) (v_woken s).
Definition set_v_avail v s := Vst (v_lock s) (v_desc s) v (v_avail_idx s) (v_used s) (v_used_end s) (v_free s) (v_used_idx s) (v_info s) (v_status s) (v_ops s) (v_bdisk s) (v_bno s) (v_data s) (v_disk s) (v_regs s) (v_woken s).
Definition set_v_avail_idx v s := Vst (v_lock s) (v_desc s) (v_avail s) v (v_used s) (v_used_end s) (v_free s) (v_used_idx s) (v_info s) (v_status s) (v_ops s) (v_bdisk s) (v_bno s) (v_data s) (v_disk s) (v_regs s) (v_woken s).
Definition set_v_used v s := Vst (v_lock s) (v_desc s) (v_avail s) (v_avail_idx s) v (v_used_end s) (v_free s) (v_used_idx s) (v_info s) (v_status s) (v_ops s) (v_bdisk s) (v_bno s) (v_data s) (v_disk s) (v_regs s) (v_woken s).
Definition set_v_used_end v s := Vst (v_lock s) (v_desc s) (v_avail s) (v_avail_idx s) (v_used s) v (v_free s) (v_used_idx s) (v_info s) (v_status s) (v_ops s) (v_bdisk s) (v_bno s) (v_data s) (v_disk s) (v_regs s) (v_woken s).
Definition set_v_free v s := Vst (v_lock s) (v_desc s) (v_avail s) (v_avail_idx s) (v_used s) (v_used_end s) v (v_used_idx s) (v_info s) (v_status s) (v_ops s) (v_bdisk s) (v_bno s) (v_data s) (v_disk s) (v_regs s) (v_woken s).
Definition set_v_used_idx v s := Vst (v_lock s) (v_desc s) (v_avail s) (v_avail_idx s) (v_used s) (v_used_end s) (v_free s) v (v_info s) (v_status s) (v_ops s) (v_bdisk s) (v_bno s) (v_data s) (v_disk s) (v_regs s) (v_woken s).
Definition set_v_info v s := Vst (v_lock s) (v_desc s) (v_avail s) (v_avail_idx s) (v_used s) (v_used_end s) (v_free s) (v_used_idx s) v (v_status s) (v_ops s) (v_bdisk s) (v_bno s) (v_data s) (v_disk s) (v_regs s) (v_woken s).
Definition set_v_status v s := Vst (v_lock s) (v_desc s) (v_avail s) (v_avail_idx s) (v_used s) (v_used_end s) (v_free s) (v_used_idx s) (v_info s) v (v_ops s) (v_bdisk s) (v_bno s) (v_data s) (v_disk s) (v_regs s) (v_woken s).
Definition set_v_ops v s := Vst (v_lock s) (v_desc s) (v_avail s) (v_avail_idx s) (v_used s) (v_used_end s) (v_free s) (v_used_idx s) (v_info s) (v_status s) v (v_bdisk s) (v_bno s) (v_data s) (v_disk s) (v_regs s) (v_woken s).
Definition set_v_bdisk v s := Vst (v_lock s) (v_desc s) (v_avail s) (v_avail_idx s) (v_used s) (v_used_end s) (v_free s) (v_used_idx s) (v_info s) (v_status s) (v_ops s) v (v_bno s) (v_data s) (v_disk s) (v_regs s) (v_woken s).
Definition set_v_data v s := Vst (v_lock s) (v_desc s) (v_avail s) (v_avail_idx s) (v_used s) (v_used_end s) (v_free s) (v_used_idx s) (v_info s) (v_status s) (v_ops s) (v_bdisk s) (v_bno s) v (v_disk s) (v_regs s) (v_woken s).
Definition set_v_disk v s := Vst (v_lock s) (v_desc s) (v_avail s) (v_avail_idx s) (v_used s) (v_used_end s) (v_free s) (v_used_idx s) (v_info s) (v_status s) (v_ops s) (v_bdisk s) (v_bno s) (v_data s) v (v_regs s) (v_woken s).
Definition set_v_regs v s := Vst (v_lock s) (v_desc s) (v_avail s) (v_avail_idx s) (v_used s) (v_used_end s) (v_free s) (v_used_idx s) (v_info s) (v_status s) (v_ops s) (v_bdisk s) (v_bno s) (v_data s) (v_disk s) v (v_woken s).
Definition set_v_woken v s := Vst (v_lock s) (v_desc s) (v_avail s) (v_avail_idx s) (v_used s) (v_used_end s) (v_free s) (v_used_idx s) (v_info s) (v_status s) (v_ops s) (v_bdisk s) (v_bno s) (v_data s) (v_disk s) (v_regs s) v.

#[export] Instance vst_wakeup : Wakeup vst := fun ch => modify (fun s => set_v_woken (ch :: v_woken s) s).

Definition v_acquire : M vst unit := acquire v_lock set_v_lock.
Definition v_release : M vst unit := release v_lock set_v_lock.
Definition free_chan : chan := Chan "disk.free" 0.
Definition vbuf_chan (b : nat) : chan := Chan "buf" (Z.of_nat b).

(** A write to a register of the device. *)
Definition mmio_write (r v : Z) : M vst unit := modify (fun s => set_v_regs (v_regs s ++ [(r, u32 v)]) s).

Section init.
(** What the device answers to a read of a register after the given writes,
    and what the three calls of [kalloc] return. *)
Context (reg : list (Z * Z) -> Z -> Z) (desc avail used : Z).

Definition mmio_read (r : Z) : M vst Z := gets (fun s => u32 (reg (v_regs s) r)).

(** Without the bits of the features the driver does not use. *)
Definition mask_features (features : Z) : Z :=
  fold_left (fun f bit => Z.land f (Z.lnot (Z.shiftl 1 bit))) [5; 7; 11; 12; 27; 29; 28] features.

(** Reset the device and negotiate; the status after it. *)
Definition negotiate : M vst Z :=
  mmio_write 0x070 0;;
  mmio_write 0x070 1;;
  mmio_write 0x070 3;;
  features ← mmio_read 0x010;
  mmio_write 0x020 (mask_features features);;
  mmio_write 0x070 11;;
  mmio_read 0x070.

Definition zero_queues : M vst unit :=
  modify (fun s => set_v_desc (fun _ => Desc PNull 0 0 0) s);;
  modify (fun s => set_v_avail_idx 0 (set_v_avail (fun _ => 0%nat) s));;
  modify (fun s => set_v_used_end 0 (set_v_used (fun _ => 0%nat) s)).

Definition virtio_disk_init : M vst unit :=
  modify (set_v_lock false);;
  magic ← mmio_read 0x000;
  version ← mmio_read 0x004;
  device ← mmio_read 0x008;
  vendor ← mmio_read 0x00c;
  if negb (magic =? 0x74726976) || negb (version =? 2) || negb (device =? 2) || negb (vendor =? 0x554d4551)
  then panic "could not find virtio disk"
  else
    status ← negotiate;
    if Z.land status 8 =? 0 then panic "virtio disk FEATURES_OK unset"
    else
      mmio_write 0x030 0;;
      ready ← mmio_read 0x044;
      if negb (ready =? 0) then panic "virtio disk should not be ready"
      else
        max ← mmio_read 0x034;
        if max =? 0 then panic "virtio disk has no queue 0"
        else if max <? Z.of_nat NUM then panic "virtio disk max queue too short"
        else if (desc =? 0) || (avail =? 0) || (used =? 0) then panic "virtio disk kalloc"
        else
          zero_queues;;
          mmio_write 0x038 (Z.of_nat NUM);;
          mmio_write 0x080 desc;;
          mmio_write 0x084 (Z.shiftr desc 32);;
          mmio_write 0x090 avail;;
          mmio_write 0x094 (Z.shiftr avail 32);;
          mmio_write 0x0a0 used;;
          mmio_write 0x0a4 (Z.shiftr used 32);;
          mmio_write 0x044 1;;
          modify (fun s => set_v_free (fun _ => true) s);;
          mmio_write 0x070 (Z.lor status 4).
End init.

Definition alloc_desc : M vst (option nat) :=
  for_loop NUM 0 (fun k =>
    let i := Z.to_nat k in
    free ← gets (fun s => v_free s i);
    if (free : bool) then
      modify (fun s => set_v_free (fupd (v_free s) i false) s);;
      mret (Some i)
    else mret None).

Definition free_desc (i : nat) : M vst unit :=
  if (NUM <=? i)%nat then panic "free_desc 1"
  else
    free ← gets (fun s => v_free s i);
    if (free : bool) then panic "free_desc 2"
    else
      modify (fun s => set_v_desc (fupd (v_desc s) i (Desc PNull 0 0 0)) s);;
      modify (fun s => set_v_free (fupd (v_free s) i true) s);;
      wakeup free_chan.

(** A round frees a descriptor: [NUM] rounds are enough. *)
Fixpoint free_chain_loop (fuel : nat) (i : nat) : M vst unit :=
  match fuel with
  | O => out_of_fuel
  | S f =>
      d ← gets (fun s => v_desc s i);
      free_desc i;;
      if negb (Z.land (d_flags d) VRING_DESC_F_NEXT =? 0) then free_chain_loop f (d_next d)
      else mret tt
  end.

Definition free_chain (i : nat) : M vst unit := free_chain_loop (S NUM) i.

Definition alloc3_desc : M vst (option (nat * nat * nat)) :=
  a ← alloc_desc;
  match a with
  | None => mret None
  | Some i0 =>
      b ← alloc_desc;
      match b with
      | None => free_desc i0;; mret None
      | Some i1 =>
          c ← alloc_desc;
          match c with
          | None => free_desc i0;; free_desc i1;; mret None
          | Some i2 => mret (Some (i0, i1, i2))
          end
      end
  end.

Definition set_desc (i : nat) (d : virtq_desc) : M vst unit :=
  modify (fun s => set_v_desc (fupd (v_desc s) i d) s).

(** Format the three descriptors. *)
Definition format_request (b : nat) (write : bool) (sector : Z) (i0 i1 i2 : nat) : M vst unit :=
  modify (fun s => set_v_ops (fupd (v_ops s) i0 (Req (if write then VIRTIO_BLK_T_OUT else VIRTIO_BLK_T_IN) sector)) s);;
  set_desc i0 (Desc (POp i0) 16 VRING_DESC_F_NEXT i1);;
  set_desc i1 (Desc (PData b) BSIZE (Z.lor (if write then 0 else VRING_DESC_F_WRITE) VRING_DESC_F_NEXT) i2);;
  modify (fun s => set_v_status (fupd (v_status s) i0 0xff) s);;
  set_desc i2 (Desc (PStatus i0) 1 VRING_DESC_F_WRITE 0).

(** Hand the chain to the device. *)
Definition submit_request (b i0 : nat) : M vst unit :=
  modify (fun s => set_v_bdisk (fupd (v_bdisk s) b true) s);;
  modify (fun s => set_v_info (fupd (v_info s) i0 (Some b)) s);;
  modify (fun s => set_v_avail (fupd (v_avail s) (Z.to_nat (v_avail_idx s mod Z.of_nat NUM)) i0) s);;
  modify (fun s => set_v_avail_idx (u16 (v_avail_idx s + 1)) s);;
  mmio_write 0x050 0.

(** [virtio_disk_rw] up to the second wait: the head of the chain, or none
    when the process sleeps on [disk.free[0]]. *)
Definition rw_start (b : nat) (write : bool) : M vst (option nat) :=
  bno ← gets (fun s => v_bno s b);
  let sector := u32 (bno * (BSIZE / 512)) in
  v_acquire;;
  r ← alloc3_desc;
  match r with
  | None => v_release;; mret None
  | Some (i0, i1, i2) =>
      format_request b write sector i0 i1 i2;;
      submit_request b i0;;
      v_release;;
      mret (Some i0)
  end.

(** From the second wait on: false when the process sleeps on [b]. *)
Definition rw_finish (b i0 : nat) : M vst bool :=
  v_acquire;;
  busy ← gets (fun s => v_bdisk s b);
  if (busy : bool) then v_release;; mret false
  else
    modify (fun s => set_v_info (fupd (v_info s) i0 None) s);;
    free_chain i0;;
    v_release;;
    mret true.

(** A round handles one entry of the used ring; the device is ahead by less
    than 2^16 entries. *)
Fixpoint intr_loop (fuel : nat) : M vst unit :=
  match fuel with
  | O => out_of_fuel
  | S f =>
      s ← gets id;
      if v_used_idx s =? v_used_end s then mret tt
      else
        let id := v_used s (Z.to_nat (v_used_idx s mod Z.of_nat NUM)) in
        if negb (v_status s id =? 0) then panic "virtio_disk_intr status"
        else
          match v_info s id with
          | None => panic "kerneltrap"
          | Some b =>
              modify (fun s => set_v_bdisk (fupd (v_bdisk s) b false) s);;
              wakeup (vbuf_chan b);;
              modify (fun s => set_v_used_idx (u16 (v_used_idx s + 1)) s);;
              intr_loop f
          end
  end.

(** [status] is the value of the interrupt status register. *)
Definition virtio_disk_intr (status : Z) : M vst unit :=
  v_acquire;;
  mmio_write 0x064 (Z.land status 3);;
  n ← gets (fun s => Z.to_nat (u16 (v_used_end s - v_used_idx s)));
  intr_loop (S n);;
  v_release.
