(* ===== verification/VirtioProps.v ===== *)
(** The disk driver and the disk together serve every request once.

    The device is as the virtio specification describes it: it fetches heads
    of chains from the available ring, serves the chains it has fetched in any
    order, and puts their heads on the used ring.  It runs beside the driver,
    which may be in any number of calls of [virtio_disk_rw]; the steps of both
    are interleaved at will.  What they do is compared with a disk that knows
    of no descriptors and no rings. *)

From S2P Require Import Prelude Ring Mem Sleeplock Kalloc Bio Queue Virtio.

(** ** The device *)

Definition has_next (d : virtq_desc) : bool := negb (Z.land (d_flags d) VRING_DESC_F_NEXT =? 0).
Definition has_write (d : virtq_desc) : bool := negb (Z.land (d_flags d) VRING_DESC_F_WRITE =? 0).

(** The transfer, by the request, and by the data descriptor's length. *)
Definition device_io (q : virtio_blk_req) (b : nat) (len : Z) (s : vst) : vst :=
  if q_type q =? VIRTIO_BLK_T_OUT
  then set_v_disk (mcopy (Z.to_nat len) (v_disk s) (q_sector q * 512) (v_data s b) 0) s
  else set_v_data (fupd (v_data s) b (mcopy (Z.to_nat len) (v_data s b) 0 (v_disk s) (q_sector q * 512))) s.

(** Serve the chain at [h]: none when it is not a chain of a request, data
    with the direction the request asks for, and a status byte. *)
Definition serve (h : nat) (s : vst) : option vst :=
  let d0 := v_desc s h in
  let d1 := v_desc s (d_next d0) in
  let d2 := v_desc s (d_next d1) in
  match d_addr d0, d_addr d1, d_addr d2 with
  | POp i, PData b, PStatus j =>
      let q := v_ops s i in
      if has_next d0 && has_next d1 && negb (has_next d2) && negb (has_write d0) && has_write d2 &&
         eqb (has_write d1) (q_type q =? VIRTIO_BLK_T_IN) && (d_len d0 =? 16) && (d_len d2 =? 1) then
        let s1 := device_io q b (d_len d1) s in
        let s2 := set_v_status (fupd (v_status s1) j 0) s1 in
        let s3 := set_v_used (fupd (v_used s2) (Z.to_nat (v_used_end s2 mod Z.of_nat NUM)) h) s2 in
        Some (set_v_used_end (u16 (v_used_end s3 + 1)) s3)
      else None
  | _, _, _ => None
  end.

(** ** The system *)

(** A process between the two waits of [virtio_disk_rw]. *)
Record call := Call { c_buf : nat; c_write : bool; c_head : nat }.

(** [y_last] is how far the device has read the available ring, [y_taken] the
    chains it has fetched and not yet served. *)
Record sys := Sys { y_v : vst; y_last : Z; y_taken : list nat; y_calls : list call }.

Definition set_v_buf (b : nat) (n : Z) (m : mem) (s : vst) : vst :=
  Vst (v_lock s) (v_desc s) (v_avail s) (v_avail_idx s) (v_used s) (v_used_end s) (v_free s) (v_used_idx s) (v_info s) (v_status s) (v_ops s) (v_bdisk s) (fupd (v_bno s) b n) (fupd (v_data s) b m) (v_disk s) (v_regs s) (v_woken s).

(** The number of a block whose sectors have 32-bit numbers. *)
Definition block_number (n : Z) : Prop := 0 <= n < 2 ^ 31.

(** A buffer has one user at a time, by its sleep lock. *)
Inductive sstep : sys -> sys -> Prop :=
| s_start v l t cs b w r v' :
    b ∉ (c_buf <$> cs) -> rw_start b w v = Ok r v' ->
    sstep (Sys v l t cs) (Sys v' l t (match r with None => cs | Some h => Call b w h :: cs end))
| s_finish v l t cs1 cs2 c r v' :
    rw_finish (c_buf c) (c_head c) v = Ok r v' ->
    sstep (Sys v l t (cs1 ++ c :: cs2)) (Sys v' l t (if (r : bool) then cs1 ++ cs2 else cs1 ++ c :: cs2))
| s_intr v l t cs st v' :
    virtio_disk_intr st v = Ok tt v' -> sstep (Sys v l t cs) (Sys v' l t cs)
| s_fetch v l t cs :
    l <> v_avail_idx v ->
    sstep (Sys v l t cs) (Sys v (u16 (l + 1)) (v_avail v (Z.to_nat (l mod Z.of_nat NUM)) :: t) cs)
| s_serve v l t1 t2 cs h v' :
    serve h v = Some v' -> sstep (Sys v l (t1 ++ h :: t2) cs) (Sys v' l (t1 ++ t2) cs)
| s_use v l t cs b n m :
    b ∉ (c_buf <$> cs) -> block_number n ->
    sstep (Sys v l t cs) (Sys (set_v_buf b n m v) l t cs).

(** As [virtio_disk_init] leaves it. *)
Definition started (c : sys) : Prop :=
  exists reg desc avail used v0, virtio_disk_init reg desc avail used v0 = Ok tt (y_v c) /\
    v_used_idx v0 = 0 /\ (forall b, block_number (v_bno v0 b)) /\ (forall b, v_bdisk v0 b = false) /\
    y_last c = 0 /\ y_taken c = [] /\ y_calls c = [].

Definition reachable (c : sys) : Prop := exists c0, started c0 /\ rtc sstep c0 c.

(** ** A disk without rings *)

Record acall := ACall { a_buf : nat; a_write : bool; a_done : bool }.
Record adisk := ADisk { a_disk : mem; a_data : nat -> mem; a_bno : nat -> Z; a_calls : list acall }.

(** The transfer of one block. *)
Definition transfer (b : nat) (w : bool) (d : adisk) (cs : list acall) : adisk :=
  let at_ := a_bno d b * BSIZE in
  if w then ADisk (mcopy (Z.to_nat BSIZE) (a_disk d) at_ (a_data d b) 0) (a_data d) (a_bno d) cs
  else ADisk (a_disk d) (fupd (a_data d) b (mcopy (Z.to_nat BSIZE) (a_data d b) 0 (a_disk d) at_)) (a_bno d) cs.

(** A call begins, is served once, and returns after that. *)
Inductive astep : adisk -> adisk -> Prop :=
| a_begin d b w : b ∉ (a_buf <$> a_calls d) ->
    astep d (ADisk (a_disk d) (a_data d) (a_bno d) (ACall b w false :: a_calls d))
| a_serve d b w cs1 cs2 : a_calls d = cs1 ++ ACall b w false :: cs2 ->
    astep d (transfer b w d (cs1 ++ ACall b w true :: cs2))
| a_return d b w cs1 cs2 : a_calls d = cs1 ++ ACall b w true :: cs2 ->
    astep d (ADisk (a_disk d) (a_data d) (a_bno d) (cs1 ++ cs2))
| a_use d b n m : b ∉ (a_buf <$> a_calls d) ->
    astep d (ADisk (a_disk d) (fupd (a_data d) b m) (fupd (a_bno d) b n) (a_calls d)).

(** The chains the device has not served: not yet fetched, and fetched. *)
Abbreviation u16mod := (2 ^ 16).
Abbreviation RN := (Z.of_nat NUM).
Definition avail_q (v : vst) (l : Z) : list nat := entries RN u16mod (fun z => v_avail v (Z.to_nat z)) l (v_avail_idx v).
Definition used_q (v : vst) : list nat := entries RN u16mod (fun z => v_used v (Z.to_nat z)) (v_used_idx v) (v_used_end v).
Definition waiting (c : sys) : list nat := avail_q (y_v c) (y_last c) ++ y_taken c.

Definition view (c : sys) : adisk :=
  ADisk (v_disk (y_v c)) (v_data (y_v c)) (v_bno (y_v c))
    ((fun k => ACall (c_buf k) (c_write k) (bool_decide (c_head k ∉ waiting c))) <$> y_calls c).

#[export] Instance virtq_dims : RingDims RN u16mod.
Proof. split; [done|done|]. by exists (2 ^ 13). Qed.

(** ** The invariant *)

(** A call with the other two descriptors of its chain. *)
Record vchain := VChain { g_call : call; g_1 : nat; g_2 : nat }.
#[export] Instance call_eq_dec : EqDecision call.
Proof. solve_decision. Defined.
#[export] Instance vchain_eq_dec : EqDecision vchain.
Proof. solve_decision. Defined.
Definition g_head (g : vchain) : nat := c_head (g_call g).
Definition g_buf (g : vchain) : nat := c_buf (g_call g).
Definition idx (G : list vchain) : list nat := G ≫= (fun g => [g_head g; g_1 g; g_2 g]).

Record formatted (v : vst) (g : vchain) : Prop := {
  fm_0 : v_desc v (g_head g) = Desc (POp (g_head g)) 16 VRING_DESC_F_NEXT (g_1 g);
  fm_1 : v_desc v (g_1 g) = Desc (PData (g_buf g)) BSIZE (Z.lor (if c_write (g_call g) then 0 else VRING_DESC_F_WRITE) VRING_DESC_F_NEXT) (g_2 g);
  fm_2 : v_desc v (g_2 g) = Desc (PStatus (g_head g)) 1 VRING_DESC_F_WRITE 0;
  fm_op : v_ops v (g_head g) = Req (if c_write (g_call g) then VIRTIO_BLK_T_OUT else VIRTIO_BLK_T_IN) (u32 (v_bno v (g_buf g) * (BSIZE / 512)));
  fm_info : v_info v (g_head g) = Some (g_buf g) }.

(** The heads on their way. *)
Definition on_way (v : vst) (l : Z) (t : list nat) : list nat := avail_q v l ++ t ++ used_q v.

Record vinv (v : vst) (l : Z) (t : list nat) (G : list vchain) : Prop := {
  vi_nodup : NoDup (idx G);
  vi_lt : forall i, i ∈ idx G -> (i < NUM)%nat;
  vi_free : forall i, (i < NUM)%nat -> v_free v i = true <-> i ∉ idx G;
  vi_bufs : NoDup (g_buf <$> G);
  vi_fmt : forall g, g ∈ G -> formatted v g;
  vi_way : NoDup (on_way v l t);
  vi_heads : forall h, h ∈ on_way v l t -> h ∈ g_head <$> G;
  vi_busy : forall g, g ∈ G -> v_bdisk v (g_buf g) = true <-> g_head g ∈ on_way v l t;
  vi_status : forall g, g ∈ G -> g_head g ∉ avail_q v l ++ t -> v_status v (g_head g) = 0;
  vi_range : 0 <= l < u16mod /\ 0 <= v_avail_idx v < u16mod /\ 0 <= v_used_idx v < u16mod /\ 0 <= v_used_end v < u16mod;
  vi_bno : forall b, block_number (v_bno v b) }.

Lemma elem_of_idx i G : i ∈ idx G <-> exists g, g ∈ G /\ (i = g_head g \/ i = g_1 g \/ i = g_2 g).
Proof. unfold idx. rewrite list_elem_of_bind. set_solver. Qed.

Lemma head_idx g G : g ∈ G -> g_head g ∈ idx G.
Proof. rewrite elem_of_idx. eauto. Qed.

Lemma idx_cons g G : idx (g :: G) = g_head g :: g_1 g :: g_2 g :: idx G.
Proof. done. Qed.
Lemma idx_app G1 G2 : idx (G1 ++ G2) = idx G1 ++ idx G2.
Proof. apply bind_app. Qed.
Lemma idx_length G : length (idx G) = (3 * length G)%nat.
Proof. induction G as [|g G IH]; [done|]. rewrite idx_cons. cbn [length]. lia. Qed.

Lemma heads_nodup G : NoDup (idx G) -> NoDup (g_head <$> G).
Proof.
  induction G as [|g G IH]; [intros; constructor|]. rewrite idx_cons, fmap_cons, !NoDup_cons.
  intros (H1 & _ & _ & H4). split; [|by apply IH]. intros (g' & E & Hg)%list_elem_of_fmap.
  apply H1. rewrite E, !elem_of_cons. do 2 right. by apply head_idx.
Qed.

(** A chain is known by its head, and by each of its descriptors. *)
Lemma head_inj G g g' : NoDup (idx G) -> g ∈ G -> g' ∈ G -> g_head g = g_head g' -> g = g'.
Proof.
  intros Hnd%heads_nodup (i & Hi)%list_elem_of_lookup_1 (j & Hj)%list_elem_of_lookup_1 E.
  assert (i = j) as <-; [|congruence]. eapply (NoDup_lookup _ _ _ (g_head g) Hnd); rewrite list_lookup_fmap.
  - by rewrite Hi.
  - rewrite Hj. by rewrite E.
Qed.

Lemma buf_inj G g g' : NoDup (g_buf <$> G) -> g ∈ G -> g' ∈ G -> g_buf g = g_buf g' -> g = g'.
Proof.
  intros Hnd (i & Hi)%list_elem_of_lookup_1 (j & Hj)%list_elem_of_lookup_1 E.
  assert (i = j) as <-; [|congruence]. eapply (NoDup_lookup _ _ _ (g_buf g) Hnd); rewrite list_lookup_fmap.
  - by rewrite Hi.
  - rewrite Hj. by rewrite E.
Qed.

(** There are never more than two chains, so the rings never overflow. *)
Lemma way_short v l t G : vinv v l t G -> (length (on_way v l t) <= 2)%nat.
Proof.
  intros Hv. assert (length (idx G) <= NUM)%nat as H1.
  { rewrite <- (length_seq NUM 0). apply submseteq_length, NoDup_submseteq; [apply Hv|].
    intros i Hi. apply elem_of_seq. pose proof (vi_lt _ _ _ _ Hv i Hi). lia. }
  rewrite idx_length in H1. assert (length (on_way v l t) <= length (g_head <$> G))%nat as H2.
  { apply submseteq_length, NoDup_submseteq; [apply Hv|]. apply (vi_heads _ _ _ _ Hv). }
  rewrite length_fmap in H2. unfold NUM in H1. lia.
Qed.

Lemma avail_short v l t G : vinv v l t G -> dist u16mod l (v_avail_idx v) < RN.
Proof.
  intros Hv. pose proof (way_short _ _ _ _ Hv) as H. unfold on_way in H. rewrite !length_app in H.
  rewrite <- (entries_length RN u16mod (fun z => v_avail v (Z.to_nat z))). fold (avail_q v l). unfold NUM. lia.
Qed.
Lemma used_short v l t G : vinv v l t G -> dist u16mod (v_used_idx v) (v_used_end v) < RN.
Proof.
  intros Hv. pose proof (way_short _ _ _ _ Hv) as H. unfold on_way in H. rewrite !length_app in H.
  rewrite <- (entries_length RN u16mod (fun z => v_used v (Z.to_nat z))). fold (used_q v). unfold NUM. lia.
Qed.

(** ** Descriptors *)

(** [s] with other descriptors, free flags and wakeups. *)
Definition with_descs (D : nat -> virtq_desc) (F : nat -> bool) (W : list chan) (s : vst) : vst :=
  Vst (v_lock s) D (v_avail s) (v_avail_idx s) (v_used s) (v_used_end s) F (v_used_idx s) (v_info s) (v_status s) (v_ops s) (v_bdisk s) (v_bno s) (v_data s) (v_disk s) (v_regs s) W.

Lemma alloc_desc_ok s :
  (alloc_desc s = Ok None s /\ forall i, (i < NUM)%nat -> v_free s i = false) \/
  (exists i, (i < NUM)%nat /\ v_free s i = true /\
     alloc_desc s = Ok (Some i) (with_descs (v_desc s) (fupd (v_free s) i false) (v_woken s) s)).
Proof.
  unfold alloc_desc.
  match goal with |- context [for_loop NUM 0 ?b] =>
    destruct (for_loop_find (fun k => v_free s (Z.to_nat k)) (fun s' => s' = s) b NUM 0 s) as [(s' & H1 & -> & H2)|(j & s1 & Hj & -> & H1 & _ & H2)] end.
  - done.
  - intros j s' _ -> E. exists s. rewrite gets_bind, E. done.
  - left. split; [done|]. intros i Hi. rewrite <- (Nat2Z.id i). apply H2. lia.
  - right. exists (Z.to_nat j). split; [unfold NUM in *; lia|]. split; [done|]. apply H2. rewrite gets_bind, H1. done.
Qed.

Lemma free_desc_ok i s :
  (i < NUM)%nat -> v_free s i = false ->
  free_desc i s = Ok tt (with_descs (fupd (v_desc s) i (Desc PNull 0 0 0)) (fupd (v_free s) i true) (free_chan :: v_woken s) s).
Proof. intros Hi Hf. unfold free_desc. rewrite (proj2 (Nat.leb_gt _ _) Hi), gets_bind, Hf. done. Qed.

(** Either three different free descriptors are taken, or the free ones are
    as they were. *)
Lemma alloc3_desc_ok s :
  (exists D F W, alloc3_desc s = Ok None (with_descs D F W s) /\
     (forall i, (i < NUM)%nat -> F i = v_free s i) /\
     (forall i, (i < NUM)%nat -> v_free s i = false -> D i = v_desc s i)) \/
  (exists i0 i1 i2 F, alloc3_desc s = Ok (Some (i0, i1, i2)) (with_descs (v_desc s) F (v_woken s) s) /\
     NoDup [i0; i1; i2] /\ (forall i, i ∈ [i0; i1; i2] -> (i < NUM)%nat /\ v_free s i = true) /\
     (forall i, F i = true <-> v_free s i = true /\ i ∉ [i0; i1; i2])).
Proof.
  unfold alloc3_desc. destruct (alloc_desc_ok s) as [[H1 _]|(i0 & L0 & F0 & H1)]; mstep H1.
  { left. exists (v_desc s), (v_free s), (v_woken s). split; [by destruct s|done]. }
  match goal with |- context [with_descs ?D ?F ?W s] => set (s1 := with_descs D F W s) end.
  destruct (alloc_desc_ok s1) as [[H2 _]|(i1 & L1 & F1 & H2)]; mstep H2.
  { left. mstep (free_desc_ok i0 s1 L0 (fupd_eq _ _ _)). do 3 eexists. split; [reflexivity|]. split.
    - intros i Hi. destruct (decide (i = i0)) as [->|]; [by rewrite fupd_eq|]. simpl. by rewrite !fupd_ne by done.
    - intros i Hi Hf. rewrite fupd_ne; [done|]. intros ->. by rewrite F0 in Hf. }
  assert (i1 <> i0) as N1 by (intros ->; simpl in F1; by rewrite fupd_eq in F1).
  simpl in F1. rewrite fupd_ne in F1 by done.
  match goal with |- context [with_descs ?D ?F ?W s1] => set (s2 := with_descs D F W s1) end.
  destruct (alloc_desc_ok s2) as [[H3 _]|(i2 & L2 & F2 & H3)]; mstep H3.
  { left. assert (v_free s2 i0 = false) as E0 by (simpl; rewrite fupd_ne by done; apply fupd_eq).
    mstep (free_desc_ok i0 s2 L0 E0).
    match goal with |- context [with_descs ?D ?F ?W s2] => set (s3 := with_descs D F W s2) end.
    assert (v_free s3 i1 = false) as E1 by (simpl; rewrite fupd_ne by done; apply fupd_eq).
    mstep (free_desc_ok i1 s3 L1 E1). do 3 eexists. split; [reflexivity|]. split.
    - intros i Hi. destruct (decide (i = i1)) as [->|]; [by rewrite fupd_eq|]. rewrite fupd_ne by done.
      destruct (decide (i = i0)) as [->|]; [simpl; by rewrite fupd_eq|simpl]. by rewrite !fupd_ne by done.
    - intros i Hi Hf. rewrite fupd_ne by (intros ->; by rewrite F1 in Hf). simpl.
      rewrite fupd_ne; [done|]. intros ->. by rewrite F0 in Hf. }
  assert (i2 <> i1) as N2 by (intros ->; simpl in F2; by rewrite fupd_eq in F2).
  simpl in F2. rewrite fupd_ne in F2 by done.
  assert (i2 <> i0) as N3 by (intros ->; by rewrite fupd_eq in F2). rewrite fupd_ne in F2 by done.
  right. exists i0, i1, i2. eexists. split; [reflexivity|]. split_and!.
  - clear - N1 N2 N3. do 3 (apply NoDup_cons_2; [set_solver|]). apply NoDup_nil_2.
  - clear - L0 L1 L2 F0 F1 F2. set_solver.
  - intros i. simpl. clear - F0 F1 F2. unfold fupd. rewrite !not_elem_of_cons. pose proof (not_elem_of_nil i).
    repeat case_decide; subst; split; intuition congruence.
Qed.

(** ** The first half of [virtio_disk_rw] *)

Definition same_store (v v' : vst) : Prop := v_disk v' = v_disk v /\ v_data v' = v_data v /\ v_bno v' = v_bno v.

Lemma formatted_ext v v' g :
  formatted v g -> (forall i, i ∈ idx [g] -> v_desc v' i = v_desc v i) ->
  v_ops v' (g_head g) = v_ops v (g_head g) -> v_info v' (g_head g) = v_info v (g_head g) ->
  v_bno v' (g_buf g) = v_bno v (g_buf g) -> formatted v' g.
Proof.
  intros [H0 H1 H2 H3 H4] Hd Ho Hi Hb. rewrite idx_cons in Hd.
  split; [rewrite Hd; [done|set_solver]..| |]; congruence.
Qed.

Lemma idx_one g G i : g ∈ G -> i ∈ idx [g] -> i ∈ idx G.
Proof. rewrite !elem_of_idx. intros Hg (g' & ->%list_elem_of_singleton & H). eauto. Qed.

(** Only descriptors no chain has are touched. *)
Lemma vinv_descs v l t G D F W :
  vinv v l t G -> (forall i, (i < NUM)%nat -> F i = v_free v i) ->
  (forall i, (i < NUM)%nat -> v_free v i = false -> D i = v_desc v i) ->
  vinv (with_descs D F W v) l t G.
Proof.
  intros [I1 I2 I3 I4 I5 I6 I7 I8 I9 I10 I11] HF HD. split; try done.
  - intros i Hi. simpl. rewrite HF by done. by apply I3.
  - intros g Hg. eapply formatted_ext; [by apply I5| |done..]. intros i Hi%(idx_one _ _ _ Hg). apply HD; [by apply I2|].
    apply not_true_iff_false. intros E. by apply (I3 i (I2 i Hi)).
Qed.

Lemma vinv_lock b v l t G : vinv v l t G -> vinv (set_v_lock b v) l t G.
Proof.
  intros [I1 I2 I3 I4 I5 I6 I7 I8 I9 I10 I11]. split; try done.
  intros g Hg. by eapply formatted_ext; [apply I5|..].
Qed.

(** The state once a chain is with the device. *)
Definition submitted (b : nat) (w : bool) (i0 i1 i2 : nat) (F : nat -> bool) (v : vst) : vst :=
  Vst false
    (fupd (fupd (fupd (v_desc v) i0 (Desc (POp i0) 16 VRING_DESC_F_NEXT i1))
       i1 (Desc (PData b) BSIZE (Z.lor (if w then 0 else VRING_DESC_F_WRITE) VRING_DESC_F_NEXT) i2))
       i2 (Desc (PStatus i0) 1 VRING_DESC_F_WRITE 0))
    (fupd (v_avail v) (Z.to_nat (v_avail_idx v mod RN)) i0) (u16 (v_avail_idx v + 1)) (v_used v) (v_used_end v) F (v_used_idx v)
    (fupd (v_info v) i0 (Some b)) (fupd (v_status v) i0 0xff)
    (fupd (v_ops v) i0 (Req (if w then VIRTIO_BLK_T_OUT else VIRTIO_BLK_T_IN) (u32 (v_bno v b * (BSIZE / 512)))))
    (fupd (v_bdisk v) b true) (v_bno v) (v_data v) (v_disk v) (v_regs v ++ [(0x050, 0)]) (v_woken v).

Lemma avail_q_submitted b w i0 i1 i2 F v l t G :
  vinv v l t G -> avail_q (submitted b w i0 i1 i2 F v) l = avail_q v l ++ [i0].
Proof.
  intros Hv. pose proof (avail_short _ _ _ _ Hv) as Hd. destruct (vi_range _ _ _ _ Hv) as (_ & Hw & _).
  unfold avail_q. cbn [v_avail v_avail_idx submitted]. unfold u16, wrap.
  rewrite (entries_push RN u16mod (fun z => v_avail v (Z.to_nat z))); [by rewrite fupd_eq|done|done|].
  intros z H0 Hz. rewrite fupd_ne; [done|]. pose proof (Z.mod_pos_bound (v_avail_idx v) RN). unfold NUM in *. lia.
Qed.

Lemma nodup3 (a b c : nat) : NoDup [a; b; c] -> a <> b /\ a <> c /\ b <> c.
Proof. rewrite !NoDup_cons. set_solver. Qed.

Lemma submitted_inv b w i0 i1 i2 F v l t G :
  vinv v l t G -> b ∉ g_buf <$> G -> NoDup [i0; i1; i2] ->
  (forall i, i ∈ [i0; i1; i2] -> (i < NUM)%nat /\ v_free v i = true) ->
  (forall i, F i = true <-> v_free v i = true /\ i ∉ [i0; i1; i2]) ->
  vinv (submitted b w i0 i1 i2 F v) l t (VChain (Call b w i0) i1 i2 :: G).
Proof.
  intros Hv Hb Hnd Hi HF. pose proof (avail_q_submitted b w i0 i1 i2 F _ _ _ _ Hv) as Hq.
  destruct Hv as [I1 I2 I3 I4 I5 I6 I7 I8 I9 I10 I11]. set (v' := submitted _ _ _ _ _ _ _) in *.
  assert (forall i, i ∈ [i0; i1; i2] -> i ∉ idx G) as Hni by (intros i Hx; destruct (Hi i Hx); by apply I3).
  assert (on_way v' l t ≡ₚ i0 :: on_way v l t) as Hp.
  { unfold on_way. rewrite Hq, <- app_assoc. symmetry. apply Permutation_middle. }
  assert (forall g, g ∈ G -> g_head g <> i0 /\ g_buf g <> b) as Hne.
  { intros g Hg. split; intros E.
    - apply (Hni i0); [by left|]. rewrite <- E. by apply head_idx.
    - apply Hb. rewrite <- E. by apply list_elem_of_fmap_2. }
  split; try done.
  - rewrite idx_cons. apply (NoDup_app [i0; i1; i2]). split; [done|]. split; [|done]. intros i Hx. by apply Hni.
  - intros i [Hx|Hx]%(elem_of_app [i0; i1; i2]); [by apply Hi|by apply I2].
  - intros i Hx. change (v_free v' i) with (F i). rewrite HF, I3 by done.
    rewrite idx_cons. change (_ :: _ :: _ :: idx G) with ([i0; i1; i2] ++ idx G). rewrite not_elem_of_app. tauto.
  - apply NoDup_cons_2; done.
  - intros g [->|Hg]%elem_of_cons.
    + destruct (nodup3 _ _ _ Hnd) as (N0 & N1 & N2). split; simpl.
      * by rewrite !fupd_ne, fupd_eq by done.
      * by rewrite fupd_ne, fupd_eq by done.
      * by rewrite fupd_eq.
      * by rewrite fupd_eq.
      * by rewrite fupd_eq.
    + destruct (Hne g Hg). eapply formatted_ext; [by apply I5| |by simpl; rewrite fupd_ne..|done].
      intros i Hx%(idx_one _ _ _ Hg). simpl.
      rewrite !fupd_ne; [done|..]; intros ->; (eapply Hni; [|exact Hx]); rewrite !elem_of_cons; auto.
  - rewrite Hp. apply NoDup_cons_2; [|done]. intros (g & E & Hg)%I7%list_elem_of_fmap. destruct (Hne g Hg). congruence.
  - intros h. rewrite Hp, fmap_cons, !elem_of_cons. intros [->|H]; [by left|right; by apply I7].
  - intros g [->|Hg]%elem_of_cons; rewrite Hp, elem_of_cons; simpl.
    + rewrite fupd_eq. naive_solver.
    + destruct (Hne g Hg). rewrite fupd_ne by done. rewrite (I8 g Hg). naive_solver.
  - intros g Hg. rewrite Hq. intros Hx. simpl. apply elem_of_cons in Hg as [->|Hg]; [destruct Hx; apply elem_of_app; left; apply elem_of_app; right; by left|].
    rewrite fupd_ne by by apply Hne. apply I9; [done|]. intros [H|H]%elem_of_app; apply Hx, elem_of_app; [left; apply elem_of_app; by left|by right].
  - destruct I10 as (R1 & R2 & R3). split; [done|]. split; [apply u16_range|done].
Qed.

Lemma rw_start_inv b w v l t G :
  vinv v l t G -> v_lock v = false -> b ∉ g_buf <$> G ->
  exists r v', rw_start b w v = Ok r v' /\ v_lock v' = false /\ same_store v v' /\
    match r with
    | None => vinv v' l t G /\ avail_q v' l = avail_q v l
    | Some h => exists i1 i2, vinv v' l t (VChain (Call b w h) i1 i2 :: G) /\ avail_q v' l = avail_q v l ++ [h]
    end.
Proof.
  intros Hv Hl Hb. unfold rw_start. rewrite gets_bind.
  assert (v_acquire v = Ok tt (set_v_lock true v)) as Ha by (unfold v_acquire, acquire; by rewrite Hl). mstep Ha.
  assert (vinv (set_v_lock true v) l t G) as Hv1 by by apply vinv_lock.
  destruct (alloc3_desc_ok (set_v_lock true v)) as [(D & F & W & H1 & HF & HD)|(i0 & i1 & i2 & F & H1 & Hnd & Hi & HF)]; mstep H1.
  - eexists None, _. split; [reflexivity|]. split; [done|]. split; [done|]. split; [|done].
    by apply (vinv_lock false _ _ _ _ (vinv_descs _ _ _ _ D F W Hv1 HF HD)).
  - exists (Some i0), (submitted b w i0 i1 i2 F v). split; [reflexivity|]. split; [done|]. split; [done|].
    exists i1, i2. split; [by apply submitted_inv|by eapply avail_q_submitted].
Qed.

(** ** The second half *)

Lemma vinv_perm v l t G G' : G ≡ₚ G' -> vinv v l t G -> vinv v l t G'.
Proof.
  intros Hp [I1 I2 I3 I4 I5 I6 I7 I8 I9 I10 I11].
  assert (idx G ≡ₚ idx G') as Hi by (unfold idx; by rewrite Hp).
  split; try done.
  - by rewrite <- Hi.
  - intros i. rewrite <- Hi. apply I2.
  - intros i. rewrite <- Hi. apply I3.
  - by rewrite <- Hp.
  - intros g. rewrite <- Hp. apply I5.
  - intros h. rewrite <- Hp. apply I7.
  - intros g. rewrite <- Hp. apply I8.
  - intros g. rewrite <- Hp. apply I9.
Qed.

Lemma free_chain_ok g v G :
  NoDup (idx (g :: G)) -> (forall i, i ∈ idx (g :: G) -> (i < NUM)%nat /\ v_free v i = false) ->
  v_desc v (g_head g) = Desc (POp (g_head g)) 16 VRING_DESC_F_NEXT (g_1 g) ->
  has_next (v_desc v (g_1 g)) = true -> d_next (v_desc v (g_1 g)) = g_2 g -> has_next (v_desc v (g_2 g)) = false ->
  exists D W, free_chain (g_head g) v =
    Ok tt (with_descs D (fupd (fupd (fupd (v_free v) (g_head g) true) (g_1 g) true) (g_2 g) true) W v) /\
    forall i, i ∈ idx G -> D i = v_desc v i.
Proof.
  rewrite idx_cons. intros Hnd Hi H0 H1 Hx H2. pose proof Hnd as (N0 & N1 & N2)%(NoDup_app [g_head g; g_1 g; g_2 g]).
  destruct (nodup3 _ _ _ N0) as (D1 & D2 & D3).
  assert (forall i, i ∈ [g_head g; g_1 g; g_2 g] -> (i < NUM)%nat /\ v_free v i = false) as Hl.
  { intros i Hin. apply Hi. change (i ∈ [g_head g; g_1 g; g_2 g] ++ idx G). apply elem_of_app. by left. }
  destruct (Hl (g_head g)) as [L0 F0]; [by left|]. destruct (Hl (g_1 g)) as [L1 F1]; [by right; left|].
  destruct (Hl (g_2 g)) as [L2 F2]; [by right; right; left|].
  unfold free_chain. change (S NUM) with (S (S (S 6))). cbn [free_chain_loop]. unfold has_next in *.
  rewrite gets_bind, H0. mstep (free_desc_ok _ _ L0 F0). cbn [d_flags d_next].
  change (negb (Z.land VRING_DESC_F_NEXT VRING_DESC_F_NEXT =? 0)) with true. cbn beta iota.
  match goal with |- context [with_descs ?D ?F ?W v] => set (v1 := with_descs D F W v) end.
  assert (v_desc v1 (g_1 g) = v_desc v (g_1 g)) as E1 by (simpl; by rewrite fupd_ne).
  assert (v_free v1 (g_1 g) = false) as F1' by (simpl; by rewrite fupd_ne).
  rewrite gets_bind, E1. mstep (free_desc_ok _ _ L1 F1'). rewrite H1, Hx.
  match goal with |- context [with_descs ?D ?F ?W v1] => set (v2 := with_descs D F W v1) end.
  assert (v_desc v2 (g_2 g) = v_desc v (g_2 g)) as E2 by (simpl; by rewrite !fupd_ne).
  assert (v_free v2 (g_2 g) = false) as F2' by (simpl; by rewrite !fupd_ne).
  rewrite gets_bind, E2. mstep (free_desc_ok _ _ L2 F2'). rewrite H2.
  do 2 eexists. split; [reflexivity|]. intros i Hin. simpl.
  rewrite !fupd_ne; [done|..]; intros ->; (eapply N1; [|exact Hin]); rewrite !elem_of_cons; auto.
Qed.

Lemma rw_finish_inv g v l t G :
  vinv v l t (g :: G) -> v_lock v = false ->
  exists r v', rw_finish (g_buf g) (g_head g) v = Ok r v' /\ v_lock v' = false /\ same_store v v' /\
    avail_q v' l = avail_q v l /\
    if (r : bool) then vinv v' l t G /\ g_head g ∉ on_way v l t else v' = v.
Proof.
  intros Hv Hl. unfold rw_finish.
  assert (v_acquire v = Ok tt (set_v_lock true v)) as Ha by (unfold v_acquire, acquire; by rewrite Hl). mstep Ha.
  rewrite gets_bind. cbn [v_bdisk set_v_lock]. destruct (v_bdisk v (g_buf g)) eqn:Eb.
  { exists false, v. split; [|done]. erewrite bind_ok by reflexivity. unfold mret, M_ret. f_equal. destruct v; simpl in *. by subst. }
  rewrite modify_bind. cbn [v_info set_v_lock].
  match goal with |- context [(free_chain _ ≫= _) ?x] => set (v1 := x) end.
  destruct Hv as [I1 I2 I3 I4 I5 I6 I7 I8 I9 I10 I11]. destruct (I5 g) as [M0 M1 M2 M3 M4]; [by left|].
  assert (g_head g ∉ on_way v l t) as Hw by (intros Hin; apply (I8 g) in Hin; [congruence|by left]).
  destruct (free_chain_ok g v1 G) as (D & W & H1 & HD); [done| |done|simpl; rewrite M1; by destruct (c_write _)|simpl; by rewrite M1|simpl; by rewrite M2|].
  { intros i Hi. split; [by apply I2|]. apply not_true_iff_false. intros E. by apply (I3 i (I2 i Hi)). }
  mstep H1. eexists true, _. split; [reflexivity|]. split; [done|]. split; [done|]. split; [done|]. split; [|done].
  apply vinv_lock. rewrite idx_cons in *. pose proof I1 as (N0 & N1 & N2)%(NoDup_app [g_head g; g_1 g; g_2 g]).
  assert (forall g', g' ∈ G -> g_head g' <> g_head g) as Hne.
  { intros g' Hg E. eapply N1; [by left|]. rewrite <- E. by apply head_idx. }
  split; try done.
  - intros i Hi. apply I2. by do 3 right.
  - intros i Hi. simpl. unfold fupd. repeat case_decide; subst; [split; [|done]; intros _; apply N1; rewrite !elem_of_cons; auto..|].
    rewrite I3, !not_elem_of_cons by done. tauto.
  - by apply NoDup_cons in I4 as [_ ?].
  - intros g' Hg. eapply formatted_ext; [apply I5; by right| | |simpl; by rewrite fupd_ne by by apply Hne|]; try done.
    intros i Hi%(idx_one _ _ _ Hg). by apply HD.
  - intros h Hh. pose proof (I7 h Hh) as [->|?]%elem_of_cons; [done|done].
  - intros g' Hg. apply I8. by right.
  - intros g' Hg. apply I9. by right.
Qed.

(** ** The interrupt handler *)

Lemma used_pop v l t G :
  vinv v l t G -> v_used_idx v <> v_used_end v ->
  used_q v = v_used v (Z.to_nat (v_used_idx v mod RN)) ::
    entries RN u16mod (fun z => v_used v (Z.to_nat z)) (u16 (v_used_idx v + 1)) (v_used_end v).
Proof.
  intros Hv Hne. apply (entries_pop RN u16mod). destruct (vi_range _ _ _ _ Hv) as (_ & _ & R1 & R2).
  pose proof (dist_range RN u16mod (v_used_idx v) (v_used_end v)).
  destruct (Z.eq_dec (dist u16mod (v_used_idx v) (v_used_end v)) 0) as [E|]; [|lia].
  by apply (dist_zero RN u16mod) in E.
Qed.

(** One entry of the used ring is handled. *)
Definition noted (b : nat) (v : vst) : vst :=
  set_v_used_idx (u16 (v_used_idx v + 1)) (set_v_woken (vbuf_chan b :: v_woken v) (set_v_bdisk (fupd (v_bdisk v) b false) v)).

Lemma noted_inv g v l t G :
  vinv v l t G -> g ∈ G -> v_used_idx v <> v_used_end v ->
  v_used v (Z.to_nat (v_used_idx v mod RN)) = g_head g -> vinv (noted (g_buf g) v) l t G.
Proof.
  intros Hv Hg Hne Eh. pose proof (used_pop _ _ _ _ Hv Hne) as Hq. rewrite Eh in Hq.
  change (entries _ _ _ _ _) with (used_q (noted (g_buf g) v)) in Hq.
  destruct Hv as [I1 I2 I3 I4 I5 I6 I7 I8 I9 I10 I11]. set (v' := noted (g_buf g) v) in *.
  assert (on_way v l t ≡ₚ g_head g :: on_way v' l t) as Hp.
  { unfold on_way. rewrite Hq. change (avail_q v' l) with (avail_q v l). rewrite !app_assoc. symmetry. apply Permutation_middle. }
  rewrite Hp, NoDup_cons in I6. destruct I6 as [Hni I6]. split; try done.
  - intros g' Hg'. by eapply formatted_ext; [apply I5|..].
  - intros h Hh. apply I7. rewrite Hp. by right.
  - intros g' Hg'. simpl. destruct (decide (g' = g)) as [->|Hd]; [by rewrite fupd_eq|].
    rewrite fupd_ne by (intros E; by apply Hd, (buf_inj G)). rewrite (I8 g' Hg'), Hp, elem_of_cons.
    split; [|by right]. intros [E|?]; [|done]. by destruct Hd; apply (head_inj G).
  - destruct I10 as (R1 & R2 & R3 & R4). split; [done|]. split; [done|]. split; [apply u16_range|done].
Qed.

Lemma intr_loop_inv fuel : forall v l t G,
  vinv v l t G -> dist u16mod (v_used_idx v) (v_used_end v) < Z.of_nat fuel ->
  exists v', intr_loop fuel v = Ok tt v' /\ v_lock v' = v_lock v /\ same_store v v' /\
    avail_q v' l = avail_q v l /\ vinv v' l t G.
Proof.
  induction fuel as [|fuel IH]; intros v l t G Hv Hf; [pose proof (dist_range RN u16mod (v_used_idx v) (v_used_end v)); lia|].
  cbn [intr_loop]. rewrite gets_bind. unfold id. destruct (Z.eqb_spec (v_used_idx v) (v_used_end v)) as [E|E].
  { exists v. by split_and!. }
  pose proof (used_pop _ _ _ _ Hv E) as Hq. set (h := v_used v (Z.to_nat (v_used_idx v mod RN))) in *.
  assert (h ∈ used_q v) as Hu by (rewrite Hq; by left).
  assert (h ∈ on_way v l t) as Hw by (unfold on_way; rewrite !elem_of_app; by right; right).
  destruct (proj1 (list_elem_of_fmap _ _ _) (vi_heads _ _ _ _ Hv h Hw)) as (g & Eh & Hg).
  rewrite Eh. rewrite (vi_status _ _ _ _ Hv g Hg).
  2:{ rewrite <- Eh. pose proof (vi_way _ _ _ _ Hv) as Hnd. unfold on_way in Hnd. rewrite app_assoc in Hnd.
      apply NoDup_app in Hnd as (_ & Hnd & _). intros Hin. by apply (Hnd h Hin). }
  rewrite (fm_info _ _ (vi_fmt _ _ _ _ Hv g Hg)). cbn [negb Z.eqb].
  pose proof (noted_inv g v l t G Hv Hg E Eh) as Hv1.
  assert (0 < dist u16mod (v_used_idx v) (v_used_end v)) as Hd.
  { rewrite <- (entries_length RN u16mod (fun z => v_used v (Z.to_nat z))). fold (used_q v). rewrite Hq. cbn [length]. lia. }
  destruct (IH (noted (g_buf g) v) l t G Hv1) as (v' & H1 & H2 & H3 & H4 & H5).
  { cbn [noted v_used_idx v_used_end set_v_used_idx set_v_woken set_v_bdisk]. unfold u16, wrap.
    rewrite (dist_step RN u16mod) by done. lia. }
  exists v'. by split_and!.
Qed.

Lemma disk_intr_inv st v l t G :
  vinv v l t G -> v_lock v = false ->
  exists v', virtio_disk_intr st v = Ok tt v' /\ v_lock v' = false /\ same_store v v' /\
    avail_q v' l = avail_q v l /\ vinv v' l t G.
Proof.
  intros Hv Hl. unfold virtio_disk_intr.
  assert (v_acquire v = Ok tt (set_v_lock true v)) as Ha by (unfold v_acquire, acquire; by rewrite Hl). mstep Ha.
  unfold mmio_write. rewrite modify_bind, gets_bind.
  match goal with |- context [(intr_loop _ ≫= _) ?x] => set (v1 := x) end.
  assert (vinv v1 l t G) as Hv1.
  { destruct Hv as [I1 I2 I3 I4 I5 I6 I7 I8 I9 I10 I11]. split; try done. intros g Hg. by eapply formatted_ext; [apply I5|..]. }
  destruct (intr_loop_inv (S (Z.to_nat (u16 (v_used_end v1 - v_used_idx v1)))) v1 l t G Hv1) as (v' & H1 & H2 & H3 & H4 & H5).
  { unfold dist, u16, wrap. pose proof (Z.mod_pos_bound (v_used_end v1 - v_used_idx v1) u16mod). lia. }
  mstep H1. exists (set_v_lock false v'). split.
  { unfold v_release, release. by rewrite H2. }
  split; [done|]. split; [done|]. split; [done|]. by apply vinv_lock.
Qed.

(** ** The device's steps *)

Lemma fetch_inv v l t G :
  vinv v l t G -> l <> v_avail_idx v ->
  let h := v_avail v (Z.to_nat (l mod RN)) in
  avail_q v l = h :: avail_q v (u16 (l + 1)) /\ vinv v (u16 (l + 1)) (h :: t) G.
Proof.
  intros Hv Hne h. destruct (vi_range _ _ _ _ Hv) as (R0 & R1 & R2).
  assert (avail_q v l = h :: avail_q v (u16 (l + 1))) as Hq.
  { apply (entries_pop RN u16mod). pose proof (dist_range RN u16mod l (v_avail_idx v)).
    destruct (Z.eq_dec (dist u16mod l (v_avail_idx v)) 0) as [E|]; [|lia]. by apply (dist_zero RN u16mod) in E. }
  split; [done|].
  assert (avail_q v l ++ t ≡ₚ avail_q v (u16 (l + 1)) ++ h :: t) as Hp by (rewrite Hq; apply Permutation_middle).
  assert (on_way v l t ≡ₚ on_way v (u16 (l + 1)) (h :: t)) as Hw by (unfold on_way; by rewrite !app_assoc, Hp).
  destruct Hv as [I1 I2 I3 I4 I5 I6 I7 I8 I9 I10 I11]. split; try done.
  - by rewrite <- Hw.
  - intros x. rewrite <- Hw. apply I7.
  - intros g. rewrite <- Hw. apply I8.
  - intros g. rewrite <- Hp. apply I9.
  - split; [apply u16_range|done].
Qed.

(** The state after the chain of [g] was served. *)
Definition served (g : vchain) (v : vst) : vst :=
  let b := g_buf g in
  Vst (v_lock v) (v_desc v) (v_avail v) (v_avail_idx v)
    (fupd (v_used v) (Z.to_nat (v_used_end v mod RN)) (g_head g)) (u16 (v_used_end v + 1))
    (v_free v) (v_used_idx v) (v_info v) (fupd (v_status v) (g_head g) 0) (v_ops v) (v_bdisk v) (v_bno v)
    (if c_write (g_call g) then v_data v
     else fupd (v_data v) b (mcopy (Z.to_nat BSIZE) (v_data v b) 0 (v_disk v) (v_bno v b * BSIZE)))
    (if c_write (g_call g) then mcopy (Z.to_nat BSIZE) (v_disk v) (v_bno v b * BSIZE) (v_data v b) 0 else v_disk v)
    (v_regs v) (v_woken v).

Lemma sector_of n : block_number n -> u32 (n * (BSIZE / 512)) * 512 = n * BSIZE.
Proof. unfold block_number, BSIZE. intros Hn. change (1024 / 512) with 2. rewrite u32_small by lia. lia. Qed.

Lemma serve_formatted g v : formatted v g -> block_number (v_bno v (g_buf g)) -> serve (g_head g) v = Some (served g v).
Proof.
  intros [M0 M1 M2 M3 M4] Hb. unfold serve. rewrite M0. cbn [d_next d_addr]. rewrite M1. cbn [d_next d_addr]. rewrite M2. cbn [d_addr].
  rewrite M3. unfold served, device_io. cbn [q_sector q_type]. rewrite (sector_of _ Hb).
  destruct (c_write (g_call g)); reflexivity.
Qed.

Lemma used_q_served g v l t G : vinv v l t G -> used_q (served g v) = used_q v ++ [g_head g].
Proof.
  intros Hv. pose proof (used_short _ _ _ _ Hv) as Hd. destruct (vi_range _ _ _ _ Hv) as (_ & _ & _ & Hw).
  unfold used_q. cbn [v_used v_used_idx v_used_end served]. unfold u16, wrap.
  rewrite (entries_push RN u16mod (fun z => v_used v (Z.to_nat z))); [by rewrite fupd_eq|done|done|].
  intros z H0 Hz. rewrite fupd_ne; [done|]. pose proof (Z.mod_pos_bound (v_used_end v) RN). unfold NUM in *. lia.
Qed.

Lemma serve_inv h v l t1 t2 G :
  vinv v l (t1 ++ h :: t2) G ->
  exists g, g ∈ G /\ g_head g = h /\ serve h v = Some (served g v) /\ vinv (served g v) l (t1 ++ t2) G.
Proof.
  intros Hv. assert (h ∈ on_way v l (t1 ++ h :: t2)) as Hin.
  { unfold on_way. rewrite !elem_of_app. right. left. right. by left. }
  destruct (proj1 (list_elem_of_fmap _ _ _) (vi_heads _ _ _ _ Hv h Hin)) as (g & -> & Hg).
  pose proof (used_q_served g _ _ _ _ Hv) as Hq. destruct Hv as [I1 I2 I3 I4 I5 I6 I7 I8 I9 I10 I11].
  exists g. split; [done|]. split; [done|]. split; [by apply serve_formatted; [apply I5|]|].
  set (v' := served g v) in *.
  assert (on_way v l (t1 ++ g_head g :: t2) ≡ₚ on_way v' l (t1 ++ t2)) as Hw.
  { unfold on_way. change (avail_q v' l) with (avail_q v l). rewrite Hq. apply Permutation_app_head.
    rewrite <- !app_assoc. apply Permutation_app_head. rewrite app_assoc. simpl. apply Permutation_cons_append. }
  split; try done.
  - intros g' Hg'. by eapply formatted_ext; [apply I5|..].
  - by rewrite <- Hw.
  - intros x. rewrite <- Hw. apply I7.
  - intros g'. rewrite <- Hw. apply I8.
  - intros g' Hg' Hn. simpl. destruct (decide (g_head g' = g_head g)) as [->|Hd]; [by rewrite fupd_eq|].
    rewrite fupd_ne by done. apply I9; [done|]. intros Hx. apply Hn. rewrite !elem_of_app, elem_of_cons in *.
    change (avail_q v' l) with (avail_q v l). tauto.
  - destruct I10 as (R1 & R2 & R3 & R4). do 3 (split; [done|]). apply u16_range.
Qed.

(** ** The whole system *)

Definition sinv (c : sys) : Prop :=
  v_lock (y_v c) = false /\ exists G, y_calls c = g_call <$> G /\ vinv (y_v c) (y_last c) (y_taken c) G.

Lemma init_ok reg desc avail used v0 v :
  virtio_disk_init reg desc avail used v0 = Ok tt v ->
  v_lock v = false /\ v_free v = (fun _ => true) /\ v_avail_idx v = 0 /\ v_used_end v = 0 /\
  v_used_idx v = v_used_idx v0 /\ v_bno v = v_bno v0 /\ v_bdisk v = v_bdisk v0.
Proof.
  unfold virtio_disk_init, negotiate, mmio_read, mmio_write, zero_queues. intros H.
  rewrite !modify_bind in H. rewrite !gets_bind in H. destruct (_ || _); [done|].
  rewrite !bind_bind in H. unfold mbind, M_bind, modify, gets in H. simpl in H.
  repeat case_match; simplify_eq/=; done.
Qed.

Lemma started_inv c : started c -> sinv c.
Proof.
  intros (reg & desc & avail & used & v0 & H & U & Hb & _ & Hl & Ht & Hc).
  apply init_ok in H as (E1 & E2 & E3 & E4 & E5 & E6 & E7). split; [done|]. exists []. rewrite Hc. split; [done|].
  assert (on_way (y_v c) (y_last c) (y_taken c) = []) as Hw.
  { unfold on_way, avail_q, used_q. rewrite Ht, Hl, E3, E4, E5, U. by rewrite !(entries_empty RN u16mod). }
  split; rewrite ?Hw; try (intros ? Hx; by apply not_elem_of_nil in Hx); try apply NoDup_nil_2.
  - intros i Hi. rewrite E2. split; [|done]. intros _. apply not_elem_of_nil.
  - rewrite Hl, E3, E4, E5, U. done.
  - intros b. rewrite E6. apply Hb.
Qed.

Lemma view_ext v v' l l' t t' cs :
  same_store v v' ->
  (forall k, k ∈ cs -> c_head k ∈ waiting (Sys v' l' t' cs) <-> c_head k ∈ waiting (Sys v l t cs)) ->
  view (Sys v' l' t' cs) = view (Sys v l t cs).
Proof.
  intros (E1 & E2 & E3) Hk. unfold view. cbn [y_v y_calls]. rewrite E1, E2, E3. f_equal.
  apply list_fmap_ext. intros i k Hi. f_equal. apply bool_decide_ext.
  by rewrite (Hk k (list_elem_of_lookup_2 _ _ _ Hi)).
Qed.

Lemma calls_bufs (G : list vchain) : c_buf <$> (g_call <$> G) = g_buf <$> G.
Proof. by rewrite <- list_fmap_compose. Qed.
Lemma view_bufs c : a_buf <$> a_calls (view c) = c_buf <$> y_calls c.
Proof. unfold view. cbn [a_calls]. by rewrite <- list_fmap_compose. Qed.

(** The flags of the calls of [G] when the heads [Q] wait. *)
Definition acalls (Q : list nat) (cs : list call) : list acall :=
  (fun k => ACall (c_buf k) (c_write k) (bool_decide (c_head k ∉ Q))) <$> cs.

Lemma acalls_ext Q Q' cs : (forall k, k ∈ cs -> c_head k ∈ Q' <-> c_head k ∈ Q) -> acalls Q' cs = acalls Q cs.
Proof.
  intros Hk. apply list_fmap_ext. intros i k Hi. f_equal. apply bool_decide_ext.
  by rewrite (Hk k (list_elem_of_lookup_2 _ _ _ Hi)).
Qed.

Lemma start_sim v l t cs b w r v' :
  sinv (Sys v l t cs) -> b ∉ c_buf <$> cs -> rw_start b w v = Ok r v' ->
  let c' := Sys v' l t (match r with None => cs | Some h => Call b w h :: cs end) in
  sinv c' /\ (view c' = view (Sys v l t cs) \/ astep (view (Sys v l t cs)) (view c')).
Proof.
  intros [Hl (G & Ec & Hv)] Hb Hrun. cbn [y_v y_last y_taken y_calls] in *. subst cs. rewrite calls_bufs in Hb.
  destruct (rw_start_inv b w v l t G Hv Hl Hb) as (r' & v1 & H1 & L1 & S1 & H2).
  rewrite Hrun in H1. injection H1 as <- <-. destruct r as [h|].
  - destruct H2 as (i1 & i2 & Hv1 & Hq). split; [split; [done|]; by exists (VChain (Call b w h) i1 i2 :: G)|]. right.
    destruct S1 as (E1 & E2 & E3). unfold view. cbn [y_v y_calls]. rewrite E1, E2, E3.
    rewrite fmap_cons. cbn [c_buf c_write c_head]. unfold waiting. cbn [y_v y_last y_taken]. rewrite Hq.
    rewrite bool_decide_eq_false_2 by (intros Hn; apply Hn; rewrite !elem_of_app; left; right; by left).
    assert (forall k, k ∈ g_call <$> G -> c_head k ∈ (avail_q v l ++ [h]) ++ t <-> c_head k ∈ avail_q v l ++ t) as Hk.
    { intros k (g & -> & Hg)%list_elem_of_fmap. rewrite !elem_of_app, list_elem_of_singleton. split; [|tauto].
      intros [[?|E]|?]; [by left| |by right]. exfalso. pose proof (vi_nodup _ _ _ _ Hv1) as [Hnd _]%NoDup_cons.
      apply Hnd. do 2 right. rewrite <- E. by apply (head_idx g). }
    fold (acalls ((avail_q v l ++ [h]) ++ t) (g_call <$> G)). rewrite (acalls_ext _ _ _ Hk).
    apply (a_begin (ADisk _ _ _ (acalls (avail_q v l ++ t) (g_call <$> G)))). unfold acalls. cbn [a_calls].
    by rewrite <- !list_fmap_compose.
  - destruct H2 as [Hv1 Hq]. split; [split; [done|]; by exists G|]. left. apply view_ext; [done|].
    intros k _. unfold waiting. cbn [y_v y_last y_taken]. by rewrite Hq.
Qed.

Lemma fmap_split (cs1 cs2 : list call) c G :
  g_call <$> G = cs1 ++ c :: cs2 ->
  exists G1 g G2, G = G1 ++ g :: G2 /\ g_call <$> G1 = cs1 /\ g_call g = c /\ g_call <$> G2 = cs2.
Proof.
  intros (G1 & G' & H1 & H2 & ->)%fmap_app_inv. symmetry in H2. apply fmap_cons_inv in H2 as (g & G2 & -> & -> & ->).
  by exists G1, g, G2.
Qed.

Lemma finish_sim v l t cs1 cs2 c r v' :
  sinv (Sys v l t (cs1 ++ c :: cs2)) -> rw_finish (c_buf c) (c_head c) v = Ok r v' ->
  let c0 := Sys v l t (cs1 ++ c :: cs2) in
  let c' := Sys v' l t (if r then cs1 ++ cs2 else cs1 ++ c :: cs2) in
  sinv c' /\ (view c' = view c0 \/ astep (view c0) (view c')).
Proof.
  intros [Hl (G & Ec & Hv)] Hrun c0 c'. cbn [y_v y_last y_taken y_calls] in *. symmetry in Ec.
  pose proof Ec as (G1 & g & G2 & -> & E1 & E2 & E3)%fmap_split. subst c.
  assert (vinv v l t (g :: G1 ++ G2)) as Hv1 by (eapply vinv_perm; [|exact Hv]; symmetry; apply Permutation_middle).
  destruct (rw_finish_inv g v l t (G1 ++ G2) Hv1 Hl) as (r' & v1 & H1 & L1 & (S1 & S2 & S3) & Hq & H2).
  unfold g_buf, g_head in H1. rewrite Hrun in H1. injection H1 as <- <-. destruct r.
  - destruct H2 as [Hv2 Hn]. split.
    { split; [done|]. exists (G1 ++ G2). split; [|done]. unfold c'. cbn [y_calls]. by rewrite fmap_app, E1, E3. }
    right. unfold c', c0, view, waiting. cbn [y_v y_calls y_last y_taken]. rewrite S1, S2, S3, Hq, !fmap_app, fmap_cons.
    rewrite bool_decide_eq_true_2.
    2:{ intros Hin. apply Hn. unfold on_way. rewrite app_assoc. apply elem_of_app. by left. }
    by eapply (a_return (ADisk _ _ _ (_ ++ ACall _ _ true :: _))).
  - subst v'. split; [|by left]. split; [done|]. by exists (G1 ++ g :: G2).
Qed.

Lemma serve_sim v l t1 t2 cs h v' :
  sinv (Sys v l (t1 ++ h :: t2) cs) -> serve h v = Some v' ->
  let c0 := Sys v l (t1 ++ h :: t2) cs in
  let c' := Sys v' l (t1 ++ t2) cs in
  sinv c' /\ (view c' = view c0 \/ astep (view c0) (view c')).
Proof.
  intros [Hl (G & Ec & Hv)] Hrun c0 c'. cbn [y_v y_last y_taken y_calls] in *.
  destruct (serve_inv h v l t1 t2 G Hv) as (g & Hg & Eh & H1 & Hv1). rewrite Hrun in H1. injection H1 as ->.
  split; [split; [done|]; by exists G|]. right.
  apply list_elem_of_split in Hg as (G1 & G2 & EG). pose proof (vi_nodup _ _ _ _ Hv) as Hnd%heads_nodup.
  rewrite EG, fmap_app, fmap_cons, Eh in Hnd. apply NoDup_app in Hnd as (_ & N1 & [N2 _]%NoDup_cons).
  pose proof (vi_way _ _ _ _ Hv) as Hw. unfold on_way in Hw.
  assert (h ∉ avail_q v l ++ t1 ++ t2) as Hn.
  { rewrite <- app_assoc, (app_assoc (avail_q v l)) in Hw. simpl in Hw. rewrite <- Permutation_middle in Hw.
    apply NoDup_cons in Hw as [Hx _]. intros Hin. apply Hx. rewrite !elem_of_app in *. tauto. }
  assert (forall G', (forall g', g' ∈ G' -> g_head g' <> h) ->
    acalls (avail_q v l ++ t1 ++ t2) (g_call <$> G') = acalls (avail_q v l ++ t1 ++ h :: t2) (g_call <$> G')) as Hk.
  { intros G' Hne. apply acalls_ext. intros k (g' & -> & Hg')%list_elem_of_fmap.
    rewrite !elem_of_app, elem_of_cons. specialize (Hne g' Hg'). unfold g_head in Hne. tauto. }
  unfold c', c0, view, waiting. cbn [y_v y_calls y_last y_taken]. rewrite Ec, EG.
  change (avail_q (served g v) l) with (avail_q v l). rewrite !fmap_app, !fmap_cons.
  fold (acalls (avail_q v l ++ t1 ++ t2) (g_call <$> G1)) (acalls (avail_q v l ++ t1 ++ t2) (g_call <$> G2)).
  rewrite (Hk G1), (Hk G2).
  2:{ intros g' Hg' E. apply N2. rewrite <- E. by apply list_elem_of_fmap_2. }
  2:{ intros g' Hg' E. apply (N1 h); [rewrite <- E; by apply list_elem_of_fmap_2|by left]. }
  unfold g_head in Eh. rewrite Eh, (bool_decide_eq_true_2 (h ∉ avail_q v l ++ t1 ++ t2)) by done.
  rewrite bool_decide_eq_false_2 by (intros H; apply H; rewrite !elem_of_app, elem_of_cons; auto).
  pose proof (a_serve (ADisk (v_disk v) (v_data v) (v_bno v) (acalls (avail_q v l ++ t1 ++ h :: t2) (g_call <$> G1) ++
     ACall (g_buf g) (c_write (g_call g)) false :: acalls (avail_q v l ++ t1 ++ h :: t2) (g_call <$> G2))) _ _ _ _ eq_refl) as Ha.
  unfold transfer in Ha. cbn [a_disk a_data a_bno] in Ha. unfold served. cbn [v_disk v_data v_bno].
  destruct (c_write (g_call g)); exact Ha.
Qed.

Lemma step_sim c c' : sinv c -> sstep c c' -> sinv c' /\ (view c' = view c \/ astep (view c) (view c')).
Proof.
  intros Hi Hs. destruct Hs as [v l t cs b w r v' Hb Hrun|v l t cs1 cs2 c r v' Hrun|v l t cs st v' Hrun|v l t cs Hne|v l t1 t2 cs h v' Hrun|v l t cs b n m Hb Hn].
  - by eapply start_sim.
  - by eapply finish_sim.
  - destruct Hi as [Hl (G & Ec & Hv)]. destruct (disk_intr_inv st v l t G Hv Hl) as (v1 & H1 & L1 & S1 & Q1 & Hv1).
    rewrite Hrun in H1. injection H1 as <-. split; [split; [done|]; by exists G|]. left. apply view_ext; [done|].
    intros k _. unfold waiting. cbn [y_v y_last y_taken]. by rewrite Q1.
  - destruct Hi as [Hl (G & Ec & Hv)]. destruct (fetch_inv v l t G Hv Hne) as [Q1 Hv1].
    split; [split; [done|]; by exists G|]. left. apply view_ext; [done|]. intros k _. unfold waiting. cbn [y_v y_last y_taken].
    rewrite Q1. rewrite !elem_of_app, !elem_of_cons. tauto.
  - by eapply serve_sim.
  - destruct Hi as [Hl (G & Ec & Hv)]. cbn [y_v y_last y_taken y_calls] in *. subst cs. split.
    + split; [done|]. exists G. split; [done|]. destruct Hv as [I1 I2 I3 I4 I5 I6 I7 I8 I9 I10 I11]. split; try done.
      * intros g Hg. eapply formatted_ext; [by apply I5|done|done|done|]. simpl. rewrite fupd_ne; [done|].
        intros E. apply Hb. rewrite calls_bufs, <- E. by apply list_elem_of_fmap_2.
      * intros x. simpl. unfold fupd. by case_decide.
    + right. assert (view (Sys (set_v_buf b n m v) l t (g_call <$> G)) =
        let d := view (Sys v l t (g_call <$> G)) in ADisk (a_disk d) (fupd (a_data d) b m) (fupd (a_bno d) b n) (a_calls d)) as -> by reflexivity.
      apply (a_use (view (Sys v l t (g_call <$> G))) b n m).
      by rewrite view_bufs.
Qed.

Lemma disk_reachable_inv c : reachable c -> sinv c.
Proof.
  intros (c0 & H0 & Hr). apply started_inv in H0. induction Hr as [|c0 c1 c2 Hs _ IH]; [done|].
  apply IH. by apply (step_sim c0 c1).
Qed.

Lemma free_count v G :
  NoDup (idx G) -> (forall i, i ∈ idx G -> (i < NUM)%nat) ->
  (forall i, (i < NUM)%nat -> v_free v i = true <-> i ∉ idx G) ->
  (length (filter (fun i => v_free v i = true) (seq 0 NUM)) + 3 * length G = NUM)%nat.
Proof.
  intros Hnd Hlt Hf. rewrite <- idx_length, <- length_app. transitivity (length (seq 0 NUM)); [|apply length_seq].
  apply Permutation_length, NoDup_Permutation; [|apply NoDup_seq|].
  - apply NoDup_app. split; [apply NoDup_filter, NoDup_seq|]. split; [|done].
    intros i [H1 H2]%list_elem_of_filter. apply Hf; [apply elem_of_seq in H2; lia|done].
  - intros i. rewrite elem_of_app, list_elem_of_filter, elem_of_seq. split.
    + intros [[_ ?]|Hi]; [lia|]. specialize (Hlt i Hi). lia.
    + intros Hi. destruct (decide (i ∈ idx G)); [by right|left]. split; [|lia]. apply Hf; [lia|done].
Qed.

(** C2: the driver and the device together are a disk that serves every
    request once.  Whatever step is taken in a state that can be reached from
    [virtio_disk_init], by a process that starts or ends a request, by the
    interrupt handler, or by the device, which serves requests in any order:
    the plain disk sees either nothing or one step of its own.  A request of a
    block begins, the block is copied in the direction asked for, all of it and
    once, and only after that the call returns; no other block and no other
    buffer changes. *)
Theorem virtio_refines c c' :
  reachable c -> sstep c c' -> view c' = view c \/ astep (view c) (view c').
Proof. intros Hr%disk_reachable_inv Hs. by apply step_sim. Qed.


(** A device that accepts the driver, and the first write. *)
Definition ex_reg (writes : list (Z * Z)) (r : Z) : Z :=
  if r =? 0 then 0x74726976 else if r =? 4 then 2 else if r =? 8 then 2 else if r =? 12 then 0x554d4551
  else if r =? 0x70 then 11 else if r =? 0x34 then 1024 else 0.
Definition ex_v0 : vst :=
  Vst false (fun _ => Desc PNull 0 0 0) (fun _ => 0%nat) 0 (fun _ => 0%nat) 0 (fun _ => false) 0
    (fun _ => None) (fun _ => 0) (fun _ => Req 0 0) (fun _ => false) (fun _ => 7) (fun _ => ∅) ∅ [] [].
Definition run_state {A} (o : outcome vst A) : vst := match o with Ok _ s => s | _ => ex_v0 end.
Definition ex_v1 : vst := run_state (virtio_disk_init ex_reg 0x1000 0x2000 0x3000 ex_v0).

Lemma ex_reachable : reachable (Sys ex_v1 0 [] []).
Proof.
  eexists. split; [|apply rtc_refl]. exists ex_reg, 0x1000, 0x2000, 0x3000, ex_v0.
  split_and!; try reflexivity. done.
Qed.

Lemma virtio_refines_witness :
  exists c', sstep (Sys ex_v1 0 [] []) c' /\ (view c' = view (Sys ex_v1 0 [] []) \/ astep (view (Sys ex_v1 0 [] [])) (view c')).
Proof.
  destruct (disk_reachable_inv _ ex_reachable) as [Hl (G & Ec & Hv)]. symmetry in Ec. apply fmap_nil_inv in Ec as ->.
  destruct (rw_start_inv 3 true _ _ _ _ Hv Hl (not_elem_of_nil _)) as (r & v' & Hrun & _).
  pose proof (s_start _ 0 [] [] 3 true r v' (not_elem_of_nil _) Hrun) as Hs.
  eexists. split; [exact Hs|]. exact (virtio_refines _ _ ex_reachable Hs).
Defined.

