(* ===== verification/Grep.v ===== *)
(** grep: src/src/user/grep.c.

    A C string is the list of its bytes before the NUL.  The matcher is
    compared with the meaning of the pattern, and the loop over the input with
    the lines of the whole input, however [read] cuts it into pieces. *)

From S2P Require Import Prelude.

(** ** The matcher *)

(** [matchstar], where [here] is [matchhere re]. *)
Fixpoint matchstar (here : list Z -> bool) (c : Z) (text : list Z) : bool :=
  if here text then true
  else
    match text with
    | [] => false
    | x :: text' => if (x =? c) || (c =? 46) then matchstar here c text' else false
    end.

(** [re[1]] is the NUL when [re1] is empty. *)
Fixpoint matchhere (re text : list Z) : bool :=
  match re with
  | [] => true
  | r0 :: re1 =>
      let plain :=
        if (r0 =? 36) && (match re1 with [] => true | _ => false end)
        then match text with [] => true | _ => false end
        else
          match text with
          | [] => false
          | x :: text' => if (r0 =? 46) || (r0 =? x) then matchhere re1 text' else false
          end in
      match re1 with
      | r1 :: re2 => if r1 =? 42 then matchstar (matchhere re2) r0 text else plain
      | [] => plain
      end
  end.

(** The loop of [match]. *)
Fixpoint match_from (re text : list Z) : bool :=
  if matchhere re text then true
  else match text with [] => false | _ :: text' => match_from re text' end.

Definition re_match (re text : list Z) : bool :=
  match re with
  | r0 :: re1 => if r0 =? 94 then matchhere re1 text else match_from re text
  | [] => match_from re text
  end.

(** ** The program *)

(** A file: what is left of it, and how many bytes the next reads give at
    most beyond the first. *)
Record input := Input { in_rest : list Z; in_sched : list nat }.

(** [read(fd, p, n)]: at least a byte, unless [n] is 0 or the file is at its end. *)
Definition read (n : nat) (f : input) : list Z * input :=
  let k := Nat.min n (S (hd 0%nat (in_sched f))) in
  (take k (in_rest f), Input (drop k (in_rest f)) (tl (in_sched f))).

Definition BUFSZ : nat := 1024.

(** [strchr(p, '\n')]: the bytes before and after the newline. *)
Fixpoint strchr_nl (p : list Z) : option (list Z * list Z) :=
  match p with
  | [] => None
  | c :: p' =>
      if c =? 10 then Some ([], p')
      else if c =? 0 then None
      else match strchr_nl p' with Some (l, q) => Some (c :: l, q) | None => None end
  end.

(** The inner loop: what is written, and what is left of the buffer.  A round
    takes a line, so as many rounds as the buffer has bytes are enough. *)
Fixpoint scan (fuel : nat) (re p : list Z) : list Z * list Z :=
  match fuel with
  | O => ([], p)
  | S fuel' =>
      match strchr_nl p with
      | None => ([], p)
      | Some (l, q) =>
          let '(out, rest) := scan fuel' re q in
          ((if re_match re l then l ++ [10] else []) ++ out, rest)
      end
  end.

(** [buf] is what is in the buffer; none when the fuel is used up. *)
Fixpoint grep_loop (fuel : nat) (re buf : list Z) (f : input) : option (list Z) :=
  match fuel with
  | O => None
  | S fuel' =>
      let '(got, f') := read (BUFSZ - length buf - 1) f in
      match got with
      | [] => Some []
      | _ =>
          let p := buf ++ got in
          let '(out, rest) := scan (S (length p)) re p in
          match grep_loop fuel' re rest f' with
          | Some out' => Some (out ++ out')
          | None => None
          end
      end
  end.

(** A read that gives something gives a byte. *)
Definition grep (re : list Z) (f : input) : option (list Z) :=
  grep_loop (S (length (in_rest f))) re [] f.

(** ** The meaning of a pattern *)

Inductive atom := Chr (c : Z) | Any.
Inductive item := One (a : atom) | Star (a : atom) | Eol.

Definition atom_of (c : Z) : atom := if c =? 46 then Any else Chr c.

Fixpoint items (re : list Z) : list item :=
  match re with
  | [] => []
  | c :: re1 =>
      let plain := if (c =? 36) && (match re1 with [] => true | _ => false end) then [Eol] else One (atom_of c) :: items re1 in
      match re1 with
      | r1 :: re2 => if r1 =? 42 then Star (atom_of c) :: items re2 else plain
      | [] => plain
      end
  end.

Definition fits (a : atom) (x : Z) : Prop := match a with Chr c => x = c | Any => True end.

(** The text starts with a word of the items, and ends there where they say so. *)
Fixpoint starts (l : list item) (t : list Z) : Prop :=
  match l with
  | [] => True
  | One a :: l => exists x t', t = x :: t' /\ fits a x /\ starts l t'
  | Star a :: l => exists w t', t = w ++ t' /\ Forall (fits a) w /\ starts l t'
  | Eol :: l => t = [] /\ starts l t
  end.

Definition occurs (re t : list Z) : Prop :=
  match re with
  | r0 :: re1 => if r0 =? 94 then starts (items re1) t else exists t1 t2, t = t1 ++ t2 /\ starts (items re) t2
  | [] => True
  end.

Lemma fits_atom c x : fits (atom_of c) x <-> (x =? c) || (c =? 46) = true.
Proof.
  unfold atom_of. destruct (Z.eqb_spec c 46) as [->|]; simpl; [by rewrite orb_true_r|].
  rewrite orb_false_r. by rewrite Z.eqb_eq.
Qed.

Lemma matchstar_spec here c t :
  matchstar here c t = true <-> exists w t', t = w ++ t' /\ Forall (fits (atom_of c)) w /\ here t' = true.
Proof.
  induction t as [|x t IH]; cbn [matchstar]; destruct (here _) eqn:Eh.
  - split; [|done]. intros _. by exists [], [].
  - split; [done|]. intros (w & t' & E & _ & H). symmetry in E. apply app_eq_nil in E as [-> ->]. congruence.
  - split; [|done]. intros _. by exists [], (x :: t).
  - destruct (_ || _) eqn:Ex; [rewrite IH|]; split.
    + intros (w & t' & -> & Hw & H). exists (x :: w), t'. split_and!; [done|constructor; [by apply fits_atom|done]|done].
    + intros ([|y w] & t' & E & Hw & H); simplify_eq/=; [congruence|]. apply Forall_cons in Hw as [_ Hw]. by exists w, t'.
    + done.
    + intros ([|y w] & t' & E & Hw & H); simplify_eq/=; [congruence|]. apply Forall_cons in Hw as [Hy _].
      apply fits_atom in Hy. congruence.
Qed.

Lemma matchhere_spec n : forall re t, (length re <= n)%nat -> matchhere re t = true <-> starts (items re) t.
Proof.
  induction n as [|n IH]; intros re t Hn; (destruct re as [|c re1]; [done|simpl in Hn; try lia]).
  assert ((if (c =? 36) && (match re1 with [] => true | _ => false end) then match t with [] => true | _ => false end
     else match t with [] => false | x :: t' => if (c =? 46) || (c =? x) then matchhere re1 t' else false end) = true <->
    starts (if (c =? 36) && (match re1 with [] => true | _ => false end) then [Eol] else One (atom_of c) :: items re1) t) as Hplain.
  { destruct (_ && _); [by destruct t; simpl; naive_solver|]. destruct t as [|x t']; simpl; [naive_solver|].
    assert ((c =? 46) || (c =? x) = (x =? c) || (c =? 46)) as -> by (rewrite orb_comm; f_equal; apply Z.eqb_sym).
    destruct (_ || _) eqn:Ex.
    - rewrite IH by lia. split; [|naive_solver]. intros H. exists x, t'. split_and!; [done|by apply fits_atom|done].
    - split; [done|]. intros (y & t2 & E & Hy & _). simplify_eq. apply fits_atom in Hy. congruence. }
  cbn [matchhere items]. destruct re1 as [|r1 re2]; [exact Hplain|]. destruct (Z.eqb_spec r1 42) as [->|]; [|exact Hplain].
  rewrite matchstar_spec. cbn [starts]. simpl in Hn. split; intros (w & t' & E & Hw & H); exists w, t'; (split_and!; [done|done|]); by apply (IH re2 t' ltac:(lia)).
Qed.

Lemma match_from_spec re t : match_from re t = true <-> exists t1 t2, t = t1 ++ t2 /\ starts (items re) t2.
Proof.
  induction t as [|x t IH]; cbn [match_from]; destruct (matchhere re _) eqn:Eh.
  - split; [|done]. intros _. exists [], []. split; [done|]. by apply (matchhere_spec (length re)).
  - split; [done|]. intros (t1 & t2 & E & H). symmetry in E. apply app_eq_nil in E as [-> ->].
    apply (matchhere_spec (length re)) in H; [congruence|done].
  - split; [|done]. intros _. exists [], (x :: t). split; [done|]. by apply (matchhere_spec (length re)).
  - rewrite IH. split; intros (t1 & t2 & E & H).
    + exists (x :: t1), t2. by rewrite E.
    + destruct t1 as [|y t1]; simplify_eq/=; [|by exists t1, t2].
      apply (matchhere_spec (length re)) in H; [congruence|done].
Qed.

(** C34: [match] decides whether the pattern occurs in the text: a pattern
    that begins with ^ at its beginning, any other somewhere in it; each
    character stands for itself and . for any, a following * for any number
    of them, and a last $ for the end of the text.  The search returns for
    every pattern and text. *)
Theorem match_correct re text : re_match re text = true <-> occurs re text.
Proof.
  unfold re_match, occurs. destruct re as [|r0 re1].
  - destruct text; done.
  - destruct (r0 =? 94); [by apply (matchhere_spec (length re1))|apply match_from_spec].
Qed.

(** ** The lines of the input *)

(** The lines that end with a newline, [cur] being the beginning of the first. *)
Fixpoint complete (t cur : list Z) : list (list Z) :=
  match t with
  | [] => []
  | c :: t => if c =? 10 then cur :: complete t [] else complete t (cur ++ [c])
  end.

Definition emit (re : list Z) (ls : list (list Z)) : list Z :=
  ls ≫= (fun l => if re_match re l then l ++ [10] else []).

Lemma complete_app t r cur : 10 ∉ t -> complete (t ++ r) cur = complete r (cur ++ t).
Proof.
  revert cur. induction t as [|c t IH]; intros cur Hn; [by rewrite app_nil_r|]. apply not_elem_of_cons in Hn as [Hc Hn].
  simpl. rewrite (proj2 (Z.eqb_neq _ _)) by done. rewrite IH by done. by rewrite <- app_assoc.
Qed.

Lemma complete_none t cur : 10 ∉ t -> complete t cur = [].
Proof. intros Hn. rewrite <- (app_nil_r t). by rewrite complete_app. Qed.

(** The first line, if there is one, begins with [cur]. *)
Lemma complete_head t cur l ls : complete t cur = l :: ls -> (length cur <= length l)%nat.
Proof.
  revert cur. induction t as [|c t IH]; intros cur E; [done|]. simpl in E. destruct (c =? 10); [by simplify_eq|].
  apply IH in E. rewrite length_app in E. lia.
Qed.

Lemma strchr_nl_spec p :
  Forall (.≠ 0) p ->
  match strchr_nl p with
  | Some (l, q) => p = l ++ 10 :: q /\ 10 ∉ l
  | None => 10 ∉ p
  end.
Proof.
  induction p as [|c p IH]; intros Hz; cbn [strchr_nl]; [apply not_elem_of_nil|]. apply Forall_cons in Hz as [Hc Hz].
  destruct (Z.eqb_spec c 10) as [->|Hn]; [split; [done|apply not_elem_of_nil]|].
  rewrite (proj2 (Z.eqb_neq _ _) Hc). specialize (IH Hz). destruct (strchr_nl p) as [[l q]|].
  - destruct IH as [-> Hl]. split; [done|]. by apply not_elem_of_cons.
  - by apply not_elem_of_cons.
Qed.

Lemma scan_spec re fuel : forall p,
  Forall (.≠ 0) p -> (length p < fuel)%nat ->
  exists rest, scan fuel re p = (emit re (complete p []), rest) /\ (10 ∉ rest) /\ (length rest <= length p)%nat /\
    Forall (.≠ 0) rest /\ (forall r, complete (p ++ r) [] = complete p [] ++ complete (rest ++ r) []).
Proof.
  induction fuel as [|fuel IH]; intros p Hz Hf; [lia|]. cbn [scan]. pose proof (strchr_nl_spec p Hz) as Hs.
  destruct (strchr_nl p) as [[l q]|].
  - destruct Hs as [-> Hl]. rewrite length_app in Hf. cbn [length] in Hf. apply Forall_app in Hz as [Hzl [_ Hzq]%Forall_cons].
    destruct (IH q Hzq) as (rest & H1 & H2 & H3 & H4 & H5); [lia|]. exists rest. rewrite H1.
    rewrite (complete_app l (10 :: q)) by done. cbn [complete Z.eqb app]. split; [done|]. split; [done|].
    split; [rewrite length_app; simpl; lia|]. split; [done|]. intros r. rewrite <- app_assoc. rewrite complete_app by done. simpl.
    by rewrite H5.
  - exists p. rewrite (complete_none p []) by done. by split_and!.
Qed.

Lemma grep_loop_spec re fuel : forall buf f,
  10 ∉ buf -> (length buf < BUFSZ)%nat -> Forall (.≠ 0) (buf ++ in_rest f) -> (length (in_rest f) < fuel)%nat ->
  Forall (fun l => length l < BUFSZ - 1)%nat (complete (buf ++ in_rest f) []) ->
  grep_loop fuel re buf f = Some (emit re (complete (buf ++ in_rest f) [])).
Proof.
  induction fuel as [|fuel IH]; intros buf f Hn Hb Hz Hf Hl; [lia|]. cbn [grep_loop]. unfold read.
  set (k := Nat.min _ _). destruct (take k (in_rest f)) as [|x got'] eqn:Eg.
  - assert (complete (buf ++ in_rest f) [] = []) as ->; [|done]. rewrite complete_app in Hl |- * by done. simpl in Hl |- *.
    destruct (in_rest f) as [|y r] eqn:Er; [done|]. destruct (complete (y :: r) buf) as [|l ls] eqn:Ec; [done|].
    apply complete_head in Ec. apply Forall_cons in Hl as [Hl _]. cbn beta in Hl.
    destruct k eqn:Ek; [|done]. unfold k, BUFSZ in *. lia.
  - assert (in_rest f = (x :: got') ++ drop k (in_rest f)) as Er by (rewrite <- Eg; symmetry; apply take_drop).
    assert (length (x :: got') <= k)%nat as Hg by (rewrite <- Eg, length_take; lia).
    assert (0 < length (x :: got'))%nat as Hg0 by (cbn [length]; lia).
    set (got := x :: got') in *. set (d := drop k (in_rest f)) in *. clearbody got d.
    rewrite Er, app_assoc in Hz, Hl |- *. apply Forall_app in Hz as [Hz1 Hz2].
    destruct (scan_spec re (S (length (buf ++ got))) (buf ++ got) Hz1) as (rest & H1 & H2 & H3 & H4 & H5); [lia|].
    rewrite H1. rewrite H5 in Hl |- *. apply Forall_app in Hl as [_ Hl]. rewrite length_app in H3.
    rewrite (IH rest (Input d (tl (in_sched f)))); simpl; try done.
    + unfold emit. by rewrite bind_app.
    + unfold k in *. lia.
    + by apply Forall_app.
    + apply (f_equal length) in Er. rewrite length_app in Er. lia.
Qed.

(** grep writes the lines of the file in which the pattern occurs, in
    order, each with its newline, and stops, however many bytes each [read]
    gives.  This holds when no line fills the buffer and the file has no NUL
    byte; what follows the last newline is not a line. *)
Theorem grep_correct re f :
  Forall (.≠ 0) (in_rest f) ->
  Forall (fun l => length l < BUFSZ - 1)%nat (complete (in_rest f) []) ->
  grep re f = Some (emit re (complete (in_rest f) [])).
Proof.
  intros Hz Hl. unfold grep. apply (grep_loop_spec re _ [] f); try done; [apply not_elem_of_nil|unfold BUFSZ; simpl; lia|lia].
Qed.

Lemma grep_correct_witness :
  grep [98; 42; 99; 36] (Input [97; 98; 99; 10; 97; 10; 99; 10] [2; 0; 3]%nat) = Some [97; 98; 99; 10; 99; 10].
Proof.
  rewrite (grep_correct [98; 42; 99; 36] (Input [97; 98; 99; 10; 97; 10; 99; 10] [2; 0; 3]%nat)); [reflexivity| |].
  - simpl. repeat (apply Forall_cons; split; [lia|]). apply Forall_nil_2.
  - simpl. unfold BUFSZ. repeat (apply Forall_cons; split; [simpl; lia|]). apply Forall_nil_2.
Defined.

(** With a line that fills the buffer [read] is asked for no bytes, its 0 is
    taken for the end of the file, and the lines after it are not searched. *)
Theorem grep_stops_at_long_line :
  let f := Input (replicate 1023 97 ++ [10; 98; 10]) (replicate 1026 1024%nat) in
  grep [98] f = Some [] /\ [98] ∈ complete (in_rest f) [] /\ re_match [98] [98] = true.
Proof.
  split_and!; [vm_compute; reflexivity| |reflexivity].
  assert (complete (in_rest (Input (replicate 1023 97 ++ [10; 98; 10]) (replicate 1026 1024%nat))) [] = [replicate 1023 97; [98]]) as ->.
  { cbn [in_rest]. rewrite complete_app; [reflexivity|]. intros [? _]%elem_of_replicate. done. }
  right. by left.
Qed.
