(* ===== verification/UPrintf.v ===== *)
(** The formatted output of user programs: src/src/user/ulib/printf.c.

    What is written to the file descriptor is a list of bytes, the calls of
    [putc] in order.  An argument of a variadic call is the 64-bit slot it is
    passed in, or the string it points to. *)

From S2P Require Import Prelude.

(** [digits[d]]. *)
Definition digit (d : Z) : Z := if d <? 10 then 48 + d else 65 + (d - 10).

(** The [do] loop of [printint]: the contents of [buf].  [x] has 32 bits, so
    32 rounds are enough for every base. *)
Fixpoint digits_loop (fuel : nat) (x base : Z) : list Z :=
  match fuel with
  | O => []
  | S f =>
      digit (x mod base) ::
        (let x := x / base in if negb (x =? 0) then digits_loop f x base else [])
  end.

Definition printint (xx base : Z) (sgn : bool) : list Z :=
  let neg := sgn && (xx <? 0) in
  let x := if neg then u32 (- xx) else u32 xx in
  let buf := digits_loop 32 x base ++ (if neg then [45] else []) in
  rev buf.

Fixpoint printptr_loop (n : nat) (x : Z) : list Z :=
  match n with
  | O => []
  | S n' => digit (Z.shiftr x 60) :: printptr_loop n' (u64 (Z.shiftl x 4))
  end.

Definition printptr (x : Z) : list Z := 48 :: 120 :: printptr_loop 16 x.

Inductive varg := VInt (z : Z) | VStr (s : option (list Z)).

(** [pct] is [state == '%'].  None when an argument is missing or of another
    kind. *)
Fixpoint vprintf (fmt : list Z) (pct : bool) (ap : list varg) : option (list Z) :=
  match fmt with
  | [] => Some []
  | c :: fmt =>
      if negb pct then
        if c =? 37 then vprintf fmt true ap
        else out ← vprintf fmt false ap; Some (c :: out)
      else if c =? 100 then
        match ap with VInt z :: ap => out ← vprintf fmt false ap; Some (printint (i32 z) 10 true ++ out) | _ => None end
      else if c =? 108 then
        match ap with VInt z :: ap => out ← vprintf fmt false ap; Some (printint (i32 z) 10 false ++ out) | _ => None end
      else if c =? 120 then
        match ap with VInt z :: ap => out ← vprintf fmt false ap; Some (printint (i32 z) 16 false ++ out) | _ => None end
      else if c =? 112 then
        match ap with VInt z :: ap => out ← vprintf fmt false ap; Some (printptr (u64 z) ++ out) | _ => None end
      else if c =? 115 then
        match ap with
        | VStr s :: ap =>
            out ← vprintf fmt false ap;
            Some (match s with Some l => l | None => [40; 110; 117; 108; 108; 41] end ++ out)
        | _ => None
        end
      else if c =? 99 then
        match ap with VInt z :: ap => out ← vprintf fmt false ap; Some (u8 z :: out) | _ => None end
      else if c =? 37 then out ← vprintf fmt false ap; Some (c :: out)
      else out ← vprintf fmt false ap; Some (37 :: c :: out)
  end.

Definition fprintf (fmt : list Z) (ap : list varg) : option (list Z) := vprintf fmt false ap.

(** ** Properties *)

(** The number a list of digits stands for, most significant first. *)
Definition number (base : Z) (ds : list Z) : Z := fold_left (fun a d => a * base + d) ds 0.

Lemma number_snoc base ds d : number base (ds ++ [d]) = number base ds * base + d.
Proof. unfold number. by rewrite fold_left_app. Qed.

Lemma number_bound base ds : 0 < base -> Forall (fun d => 0 <= d < base) ds -> 0 <= number base ds < base ^ Z.of_nat (length ds).
Proof.
  intros Hb. induction ds as [|d ds IH] using rev_ind; intros Hf; [by unfold number; simpl|].
  apply Forall_app in Hf as [Hf [Hd _]%Forall_cons]. specialize (IH Hf). rewrite number_snoc, length_app.
  replace (Z.of_nat (length ds + length [d])) with (Z.of_nat (length ds) + 1) by (simpl; lia).
  rewrite Z.pow_add_r by lia. nia.
Qed.

(** The digits of [x], most significant first, without leading zeros. *)
Record digits_of (base x : Z) (ds : list Z) : Prop := {
  dg_range : Forall (fun d => 0 <= d < base) ds;
  dg_number : number base ds = x;
  dg_short : ds = [0] \/ 0 < x /\ base ^ Z.of_nat (length ds - 1) <= x }.

Lemma digits_loop_ok base fuel : forall x,
  2 <= base -> 0 <= x < base ^ Z.of_nat fuel -> (0 < fuel)%nat ->
  exists ds, rev (digits_loop fuel x base) = digit <$> ds /\ digits_of base x ds.
Proof.
  induction fuel as [|fuel IH]; intros x Hb Hx Hf; [lia|]. cbn [digits_loop rev].
  pose proof (Z.mod_pos_bound x base ltac:(lia)) as Hm. pose proof (Z.div_mod x base ltac:(lia)) as Hdm.
  destruct (Z.eqb_spec (x / base) 0) as [E|E]; cbn [negb rev app].
  { assert (x mod base = x) as Ex by lia. exists [x]. rewrite Ex. split; [done|]. rewrite Ex in Hm.
    split; [by constructor|done|]. destruct (Z.eq_dec x 0) as [->|]; [by left|right]. simpl. lia. }
  assert (0 <= x / base) as Hp by (apply Z.div_pos; lia).
  assert (x / base < base ^ Z.of_nat fuel) as Hlt.
  { apply Z.div_lt_upper_bound; [lia|]. rewrite <- Z.pow_succ_r by lia. rewrite Nat2Z.inj_succ in Hx. lia. }
  destruct (IH (x / base) Hb) as (ds & H1 & [G1 G2 G3]); [lia| |].
  { destruct fuel; [simpl in Hlt; lia|lia]. }
  exists (ds ++ [x mod base]). rewrite H1, fmap_app. split; [done|]. split.
  - apply Forall_app. split; [done|]. by constructor.
  - rewrite number_snoc, G2. lia.
  - right. destruct G3 as [->|[G3 G4]]; [unfold number in G2; simpl in G2; lia|]. split; [lia|].
    rewrite length_app. cbn [length]. replace (length ds + 1 - 1)%nat with (S (length ds - 1)).
    2:{ destruct ds; [unfold number in G2; simpl in G2; lia|simpl; lia]. }
    rewrite Nat2Z.inj_succ, Z.pow_succ_r by lia. nia.
Qed.

Lemma digits_short base x ds : 10 <= base -> x < 2 ^ 32 -> digits_of base x ds -> (length ds <= 10)%nat.
Proof.
  intros Hb Hx [_ _ [->|[Hp Hl]]]; [simpl; lia|]. destruct (decide (length ds <= 10)%nat) as [|Hn]; [done|exfalso].
  assert (10 ^ 10 <= base ^ Z.of_nat (length ds - 1)) as Hle.
  { transitivity (base ^ 10); [apply Z.pow_le_mono_l; lia|apply Z.pow_le_mono_r; lia]. }
  assert (2 ^ 32 < 10 ^ 10) by done. lia.
Qed.

(** C38: [printint] in base 10 or 16 writes the number: the digits of the 32-bit
    argument, most significant first and without leading zeros, after a minus
    sign if the argument is to be read as signed and is negative; the most
    negative number too.  What it stores in [buf] fits its 16 bytes. *)
Theorem printint_correct xx base sgn :
  - 2147483648 <= xx < 2147483648 -> base = 10 \/ base = 16 ->
  let neg := sgn && (xx <? 0) in
  exists ds, printint xx base sgn = (if neg then [45] else []) ++ (digit <$> ds) /\
    digits_of base (if neg then - xx else u32 xx) ds /\ (length (printint xx base sgn) <= 16)%nat.
Proof.
  intros Hx Hb neg. unfold printint. fold neg. set (x := if neg then u32 (- xx) else u32 xx).
  assert (x = if neg then - xx else u32 xx) as Ex.
  { unfold x, neg. destruct (sgn && (xx <? 0)) eqn:E; [|done]. apply u32_small. apply andb_true_iff in E as [_ E%Z.ltb_lt]. lia. }
  assert (0 <= x < 2 ^ 32) as Hr by (unfold x; destruct neg; apply u32_range).
  destruct (digits_loop_ok base 32 x) as (ds & H1 & H2); [lia| |lia|].
  { split; [lia|]. assert (2 ^ 32 <= base ^ 32) by (apply Z.pow_le_mono_l; lia). simpl Z.of_nat. lia. }
  pose proof (digits_short base x ds ltac:(lia) ltac:(lia) H2) as Hl. rewrite Ex in H2.
  exists ds. rewrite rev_app_distr, H1. split; [by destruct neg|]. split; [done|].
  rewrite length_app, length_fmap. destruct neg; simpl; lia.
Qed.

Lemma printint_correct_witness :
  exists ds, printint (-2147483648) 10 true = 45 :: (digit <$> ds) /\ number 10 ds = 2147483648.
Proof.
  destruct (printint_correct (-2147483648) 10 true ltac:(lia) ltac:(by left)) as (ds & H1 & H2 & _).
  exists ds. split; [exact H1|]. exact (dg_number _ _ _ H2).
Defined.

(** %l takes a 64-bit argument and prints the low 32 bits of it: 2^32 is
    printed as 0. *)
Theorem percent_l_truncates : fprintf [37; 108] [VInt (2 ^ 32)] = Some [48].
Proof. reflexivity. Qed.
