(* ===== verification/ULog.v ===== *)
(** The formatted output that is written in Zig: [printf] of
    src/src/user/ulib/ulog.zig, which user programs call, and of
    src/src/kernel/klog.zig.

    Both go over the format in the same way and give the arguments to the
    formatter of Zig's standard library, [print]; an argument is the slot it
    is passed in, or the string it points to. *)

From S2P Require Import Prelude UPrintf.

(** The bytes of a string of the source; [nl] is its newline. *)
Fixpoint str (s : string) : list Z :=
  match s with
  | EmptyString => []
  | String a s => Z.of_N (Ascii.N_of_ascii a) :: str s
  end.
Definition nl : list Z := [10].

(** The digits of a number in Zig's formats, least significant first. *)
Definition zig_digit (d : Z) : Z := if d <? 10 then 48 + d else 97 + (d - 10).
Fixpoint zig_digits (fuel : nat) (x base : Z) : list Z :=
  match fuel with
  | O => []
  | S f => zig_digit (x mod base) :: (if x / base =? 0 then [] else zig_digits f (x / base) base)
  end.

(** [{d}] is a number in base 10 and [{x}] in base 16; both have a sign. *)
Definition zig_int (z base : Z) : list Z :=
  (if z <? 0 then [45] else []) ++ rev (zig_digits 64 (Z.abs z) base).

(** A pointer is its type, an [@] and the address. *)
Definition zig_ptr (z : Z) : list (list Z) := [[117; 115; 105; 122; 101]; [64]; zig_int z 16].

(** The pieces of the output, in the order in which they are written.  None
    when an argument is missing or of another kind. *)
Fixpoint pieces (fmt : list Z) (ap : list varg) : option (list (list Z)) :=
  match fmt with
  | [] => Some []
  | byte :: fmt =>
      if negb (byte =? 37) then out ← pieces fmt ap; Some ([byte] :: out)
      else
        match fmt with
        | [] => Some []
        | ch :: fmt =>
            if ch =? 100 then
              match ap with VInt z :: ap => out ← pieces fmt ap; Some (zig_int (i32 z) 10 :: out) | _ => None end
            else if ch =? 120 then
              match ap with VInt z :: ap => out ← pieces fmt ap; Some (zig_int (i32 z) 16 :: out) | _ => None end
            else if ch =? 112 then
              match ap with VInt z :: ap => out ← pieces fmt ap; Some (zig_ptr (u64 z) ++ out) | _ => None end
            else if ch =? 115 then
              match ap with VStr (Some s) :: ap => out ← pieces fmt ap; Some (s :: out) | _ => None end
            else if ch =? 37 then out ← pieces fmt ap; Some ([37] :: out)
            else out ← pieces fmt ap; Some ([37] :: [ch] :: out)
        end
  end.

Lemma zig_digits_10 fuel x : 0 <= x -> zig_digits fuel x 10 = digits_loop fuel x 10.
Proof.
  revert x. induction fuel as [|fuel IH]; intros x Hx; cbn [zig_digits digits_loop]; [done|].
  unfold zig_digit, digit. rewrite (proj2 (Z.ltb_lt (x mod 10) 10)) by (apply Z.mod_pos_bound; lia).
  destruct (x / 10 =? 0) eqn:E; cbn [negb]; [done|]. rewrite IH; [done|]. apply Z.div_pos; lia.
Qed.

Lemma digits_loop_more f g x : 0 <= x < 10 ^ Z.of_nat (S f) -> (f <= g)%nat -> digits_loop (S g) x 10 = digits_loop (S f) x 10.
Proof.
  revert g x. induction f as [|f IH]; intros g x Hx Hg; cbn [digits_loop].
  - rewrite (Z.div_small x 10) by (simpl in Hx; lia). done.
  - destruct g as [|g]; [lia|]. destruct (x / 10 =? 0); cbn [negb]; [done|]. f_equal. apply IH; [|lia].
    rewrite Nat2Z.inj_succ, Z.pow_succ_r in Hx by lia. split; [apply Z.div_pos; lia|apply Z.div_lt_upper_bound; lia].
Qed.

(** For %d the two libraries agree. *)
Lemma zig_int_printint z : zig_int (i32 z) 10 = printint (i32 z) 10 true.
Proof.
  pose proof (i32_range z) as Hr. unfold zig_int, printint. cbn [andb]. rewrite zig_digits_10 by lia.
  rewrite (digits_loop_more 31 63) by (try (split; [lia|]; apply Z.le_lt_trans with 2147483648; [lia|done]); lia).
  destruct (Z.ltb_spec (i32 z) 0).
  - rewrite u32_small, rev_app_distr, Z.abs_neq by lia. done.
  - rewrite u32_small, app_nil_r, Z.abs_eq by lia. done.
Qed.
