(* ===== verification/KLog.v ===== *)
(** What the kernel prints: src/src/kernel/klog.zig, with the colours of
    src/src/common/color.zig and the [panic] of src/src/kernel/start.zig.

    The output goes byte by byte to [consputc] of Console.v, which waits for
    the serial port.  The endless loop at the end of a panic is the outcome
    [Fuel].  The text of a log message is what Zig's formatter makes of its
    format and arguments, and is given. *)

From S2P Require Import Prelude Mem Sleeplock Strings Kalloc Vm Pipe Uart Console ConsoleProps UPrintf ULog.

Record klog := Klog { kl_lock : bool; locking : bool; kl_cs : cst }.

Definition set_kl_lock (v : bool) (s : klog) : klog := Klog v (locking s) (kl_cs s).
Definition set_locking (v : bool) (s : klog) : klog := Klog (kl_lock s) v (kl_cs s).
Definition set_kl_cs (v : cst) (s : klog) : klog := Klog (kl_lock s) (locking s) v.

Abbreviation L := (M klog).

Definition writeByte (byte : Z) : L unit := zoom kl_cs set_kl_cs (consputc byte).

Fixpoint writeBytes (bytes : list Z) : L unit :=
  match bytes with
  | [] => mret tt
  | byte :: bytes => writeByte byte;; writeBytes bytes
  end.

Definition log_acquire : L unit := acquire kl_lock set_kl_lock.
Definition log_release : L unit := release kl_lock set_kl_lock.
Definition set_panicked : L unit :=
  modify (fun s => let c := kl_cs s in set_kl_cs (Cst (cs_port c) (cs_tx c) (cs_cons c) true (cs_k c) (cs_pt c) (cs_killed c) (cs_woken c)) s).

Fixpoint write_pieces (l : list (list Z)) : L unit :=
  match l with
  | [] => mret tt
  | x :: l => writeBytes x;; write_pieces l
  end.

Definition printf (fmt : list Z) (ap : list varg) : L unit :=
  need_lock ← gets locking;
  when need_lock log_acquire;;
  match fmt with
  | [] => panic "null fmt"
  | _ =>
      write_pieces (default [] (pieces fmt ap));;
      when need_lock log_release
  end.

(** [panic] as C code calls it, up to its endless loop. *)
Definition c_panic_prints (msg : list Z) : L unit :=
  modify (set_locking false);;
  writeBytes (str "!KERNEL PANIC!" ++ nl);;
  writeBytes msg;;
  writeBytes nl;;
  set_panicked.

Definition c_panic (msg : list Z) : L unit :=
  c_panic_prints msg;;
  out_of_fuel.

(** *** Log messages *)

Inductive Color :=
  | black | red | green | yellow | blue | magenta | cyan | white
  | bright_black | bright_red | bright_green | bright_yellow | bright_blue | bright_magenta | bright_cyan | bright_white
  | dim | bold | reset.

Definition ttyStr (c : Color) : list Z :=
  27 :: str match c with
  | black => "[30m" | red => "[31m" | green => "[32m" | yellow => "[33m" | blue => "[34m" | magenta => "[35m" | cyan => "[36m" | white => "[37m"
  | bright_black => "[90m" | bright_red => "[91m" | bright_green => "[92m" | bright_yellow => "[93m" | bright_blue => "[94m"
  | bright_magenta => "[95m" | bright_cyan => "[96m" | bright_white => "[97m"
  | bold => "[1m" | dim => "[2m" | reset => "[0m"
  end.

Inductive Level := err | warn | info | debug.

Definition asText (l : Level) : list Z :=
  str match l with err => "error" | warn => "warning" | info => "info" | debug => "debug" end.

Definition logLevelColor (l : Level) : Color :=
  match l with err => red | warn => yellow | debug => magenta | info => green end.

Definition klogFn (level : Level) (scope text : list Z) : L unit :=
  need_lock ← gets locking;
  when need_lock log_acquire;;
  let scope_prefix := str "(" ++ ttyStr dim ++ scope ++ ttyStr reset ++ str ") " in
  let prefix := scope_prefix ++ str "[" ++ ttyStr (logLevelColor level) ++ asText level ++ ttyStr reset ++ str "]: " in
  writeBytes (prefix ++ text ++ nl);;
  when need_lock log_release.

(** [panic] of Zig code, up to its endless loop. *)
Definition zig_panic_prints (msg : list Z) : L unit :=
  modify (set_locking false);;
  klogFn err (str "panic") (msg ++ nl);;
  set_panicked.

Definition zig_panic (msg : list Z) : L unit :=
  zig_panic_prints msg;;
  out_of_fuel.

(** ** What comes out *)

(** The bytes sent to the port so far. *)
Definition output (s : klog) : list Z := map snd (d_writes (cs_port (kl_cs s))).

(** [s'] is [s] with the bytes printed; the locks are the same and the port
    can take as many more as it could, less those. *)
Record printed (bytes : list Z) (s s' : klog) : Prop := {
  pr_out : d_writes (cs_port (kl_cs s')) = d_writes (cs_port (kl_cs s)) ++ map (fun b => (THR, u8 b)) bytes;
  pr_lock : kl_lock s' = kl_lock s;
  pr_locking : locking s' = locking s;
  pr_rest : echoed (kl_cs s) (kl_cs s');
  pr_idles : (idles (kl_cs s) <= length bytes + idles (kl_cs s'))%nat }.

Lemma printed_nil s : printed [] s s.
Proof. split; try done. by rewrite app_nil_r. Qed.

Lemma printed_trans a b s1 s2 s3 : printed a s1 s2 -> printed b s2 s3 -> printed (a ++ b) s1 s3.
Proof.
  intros [A1 A2 A3 A4 A5] [B1 B2 B3 B4 B5]. split; try congruence.
  - by rewrite B1, A1, map_app, app_assoc.
  - by eapply echoed_trans.
  - rewrite length_app. lia.
Qed.

(** Bytes that the console does not take for an erase. *)
Definition byte (b : Z) : Prop := 0 <= b < 256.

Lemma wait_idle_writes n : forall s s', wait_idle n s = Ok tt s' -> d_writes (cs_port s') = d_writes (cs_port s).
Proof.
  induction n as [|n IH]; intros s s'; [done|]. cbn [wait_idle]. unfold mbind, M_bind, read_lsr.
  destruct (_ =? 0); [intros H%IH; done|by intros [= <-]].
Qed.

Lemma writeByte_ok b s : byte b -> cs_panicked (kl_cs s) = false -> (0 < idles (kl_cs s))%nat ->
  exists s', writeByte b s = Ok tt s' /\ printed [b] s s'.
Proof.
  intros Hb Hp Hi. unfold writeByte, zoom, consputc. assert (BACKSPACE = 256) as E by done. rewrite (proj2 (Z.eqb_neq b BACKSPACE)) by (unfold byte in Hb; lia).
  unfold uartputc_sync. rewrite gets_bind, Hp, gets_bind. destruct (wait_idle_ok _ (kl_cs s) eq_refl Hi) as (c1 & H1 & H2 & H3).
  pose proof (wait_idle_writes _ _ _ H1) as Hw. rewrite (bind_ok _ _ _ _ _ H1). eexists. split; [reflexivity|].
  split; cbn [kl_cs set_kl_cs kl_lock locking]; [|done|done|exact H2|exact H3]. cbn [cs_port set_cs_port d_writes]. by rewrite Hw.
Qed.

Lemma writeBytes_ok l : forall s, Forall byte l -> cs_panicked (kl_cs s) = false -> (length l <= idles (kl_cs s))%nat ->
  exists s', writeBytes l s = Ok tt s' /\ printed l s s'.
Proof.
  induction l as [|b l IH]; intros s Hb Hp Hi; [exists s; split; [done|apply printed_nil]|]. apply Forall_cons in Hb as [Hb Hl]. cbn [length] in Hi.
  destruct (writeByte_ok b s Hb Hp ltac:(lia)) as (s1 & R1 & P1). pose proof (pr_idles _ _ _ P1) as Hi1. cbn [length] in Hi1.
  destruct (IH s1 Hl) as (s2 & R2 & P2); [destruct (pr_rest _ _ _ P1) as (_ & _ & -> & _); done|lia|].
  exists s2. cbn [writeBytes]. rewrite (bind_ok _ _ _ _ _ R1). split; [done|]. exact (printed_trans [b] l _ _ _ P1 P2).
Qed.

Lemma write_pieces_ok ps : forall s, Forall byte (concat ps) -> cs_panicked (kl_cs s) = false -> (length (concat ps) <= idles (kl_cs s))%nat ->
  exists s', write_pieces ps s = Ok tt s' /\ printed (concat ps) s s'.
Proof.
  induction ps as [|p ps IH]; intros s Hb Hp Hi; [exists s; split; [done|apply printed_nil]|]. cbn [concat] in *. apply Forall_app in Hb as [Hb Hl].
  rewrite length_app in Hi. destruct (writeBytes_ok p s Hb Hp ltac:(lia)) as (s1 & R1 & P1). pose proof (pr_idles _ _ _ P1) as Hi1.
  destruct (IH s1 Hl) as (s2 & R2 & P2); [destruct (pr_rest _ _ _ P1) as (_ & _ & -> & _); done|lia|].
  exists s2. cbn [write_pieces]. rewrite (bind_ok _ _ _ _ _ R1). split; [done|]. by eapply printed_trans.
Qed.

(** A body that prints, between taking and giving back the lock. *)
Lemma locked_prints (body : L unit) bytes s : (locking s = true -> kl_lock s = false) ->
  (forall s0, printed [] s (set_kl_lock (kl_lock s) s0) -> exists s1, body s0 = Ok tt s1 /\ printed bytes s0 s1) ->
  exists s', (need_lock ← gets locking; when need_lock log_acquire;; body;; when need_lock log_release) s = Ok tt s' /\ printed bytes s s'.
Proof.
  intros Hl Hb. rewrite gets_bind. destruct (locking s) eqn:El; cbn [when].
  - specialize (Hl eq_refl). unfold log_acquire, acquire. erewrite bind_ok; [|by rewrite Hl].
    destruct (Hb (set_kl_lock true s)) as (s1 & R & [P1 P2 P3 P4 P5]); [split; try done; by rewrite app_nil_r|].
    rewrite (bind_ok _ _ _ _ _ R). unfold log_release, release. rewrite P2. cbn [kl_lock set_kl_lock]. eexists. split; [reflexivity|].
    split; cbn [kl_lock locking kl_cs set_kl_lock] in *; done.
  - destruct (Hb s) as (s1 & R & P); [split; try done; by rewrite app_nil_r|]. rewrite ret_bind, (bind_ok _ _ _ _ _ R). by exists s1.
Qed.

(** The kernel's [printf] sends exactly the bytes its format stands for, in
    order, and leaves the lock as it was. *)
Theorem printf_prints fmt ap ps s : fmt <> [] -> pieces fmt ap = Some ps -> Forall byte (concat ps) ->
  cs_panicked (kl_cs s) = false -> (length (concat ps) <= idles (kl_cs s))%nat -> (locking s = true -> kl_lock s = false) ->
  exists s', printf fmt ap s = Ok tt s' /\ printed (concat ps) s s'.
Proof.
  intros Hne Hps Hb Hp Hi Hl. destruct (locked_prints (write_pieces ps) (concat ps) s Hl) as (s' & R & P).
  - intros s0 [_ _ _ (_ & _ & Ep & _) Hi0]. cbn [kl_cs set_kl_lock length] in *. apply write_pieces_ok; [done|by rewrite Ep|lia].
  - exists s'. split; [|done]. rewrite <- R. unfold printf. destruct fmt as [|b fmt]; [done|]. by rewrite Hps.
Qed.

Definition message (level : Level) (scope text : list Z) : list Z :=
  str "(" ++ ttyStr dim ++ scope ++ ttyStr reset ++ str ") " ++ str "[" ++ ttyStr (logLevelColor level) ++ asText level ++ ttyStr reset ++ str "]: " ++ text ++ nl.

Lemma klogFn_prints level scope text s : Forall byte scope -> Forall byte text -> cs_panicked (kl_cs s) = false ->
  (length (message level scope text) <= idles (kl_cs s))%nat -> (locking s = true -> kl_lock s = false) ->
  exists s', klogFn level scope text s = Ok tt s' /\ printed (message level scope text) s s'.
Proof.
  intros Hs Ht Hp Hi Hl. destruct (locked_prints (writeBytes (message level scope text)) (message level scope text) s Hl) as (s' & R & P).
  - intros s0 [_ _ _ (_ & _ & Ep & _) Hi0]. cbn [kl_cs set_kl_lock length] in *. apply writeBytes_ok; [|by rewrite Ep|lia].
    unfold message. repeat (apply Forall_app; split); try done; destruct level; repeat constructor; done.
  - exists s'. split; [|done]. rewrite <- R. unfold klogFn, message. cbv zeta. by rewrite <- !app_assoc.
Qed.

(** A panic gets its message out whoever holds the lock, and from then on
    nothing is printed: a CPU that tries to waits for ever. *)
Theorem panic_freezes msg s : Forall byte msg -> cs_panicked (kl_cs s) = false -> (length msg + 16 <= idles (kl_cs s))%nat ->
  exists s', c_panic_prints msg s = Ok tt s' /\ output s' = output s ++ map u8 (str "!KERNEL PANIC!" ++ nl ++ msg ++ nl) /\
    c_panic msg s = Fuel /\ forall s2 b, cs_panicked (kl_cs s2) = cs_panicked (kl_cs s') -> byte b -> writeByte b s2 = Fuel.
Proof.
  intros Hm Hp Hi. set (s0 := set_locking false s).
  destruct (write_pieces_ok [str "!KERNEL PANIC!" ++ nl; msg; nl] s0) as (s1 & R & P).
  - cbn [concat]. repeat (apply Forall_app; split); try done; repeat constructor; done.
  - done.
  - cbn [concat]. rewrite !length_app. cbn [length str nl kl_cs set_locking s0] in *. change (length (str "!KERNEL PANIC!")) with 14%nat. lia.
  - assert (c_panic_prints msg s = set_panicked s1) as Rp.
    { unfold c_panic_prints. rewrite modify_bind. fold s0. revert R. cbn [write_pieces]. unfold mbind, M_bind.
      destruct (writeBytes _ s0) as [[] a| | |]; [|done..]. destruct (writeBytes msg a) as [[] b| | |]; [|done..].
      destruct (writeBytes nl b) as [[] c| | |]; [|done..]. by intros [= ->]. }
    eexists. split; [rewrite Rp; reflexivity|]. split; [|split].
    + unfold output. cbn [kl_cs set_kl_cs cs_port]. rewrite (pr_out _ _ _ P), map_app, map_map. cbn [concat]. by rewrite app_nil_r, <- app_assoc.
    + unfold c_panic, mbind, M_bind. by rewrite Rp.
    + intros s2 b E Hb. cbn [kl_cs set_kl_cs cs_panicked] in E. unfold writeByte, zoom, consputc.
      rewrite (proj2 (Z.eqb_neq b BACKSPACE)) by (unfold byte in Hb; change BACKSPACE with 256; lia).
      unfold uartputc_sync. by rewrite gets_bind, E.
Qed.
