(* ===== verification/Umalloc.v ===== *)
(** The memory allocator of user programs: src/src/user/ulib/umalloc.c.

    The headers are kept by their addresses, a header being 16 bytes; sizes
    are in units of a header.  [sbrk] moves the end of memory and returns where
    it was; whether the kernel grants that is an argument. *)

From S2P Require Import Prelude.

(** ** Model *)

(** [union header] *)
Record header := Header { h_ptr : Z; h_size : Z }.
Definition SIZEOF_HEADER : Z := 16.

(** [u_brk] is the end of the program's memory. *)
Record ustate := Ustate { u_hdrs : gmap Z header; u_freep : Z; u_brk : Z }.

Abbreviation U := (M ustate).

Definition hdr (a : Z) (s : ustate) : header := default (Header 0 0) (u_hdrs s !! a).
Definition ptr_of (a : Z) : U Z := gets (fun s => h_ptr (hdr a s)).
Definition size_of (a : Z) : U Z := gets (fun s => h_size (hdr a s)).
Definition set_ptr (a v : Z) : U unit := modify (fun s => Ustate (<[a := Header v (h_size (hdr a s))]> (u_hdrs s)) (u_freep s) (u_brk s)).
(** [size] is a [uint]. *)
Definition set_size (a v : Z) : U unit := modify (fun s => Ustate (<[a := Header (h_ptr (hdr a s)) (u32 v)]> (u_hdrs s)) (u_freep s) (u_brk s)).
Definition get_freep : U Z := gets u_freep.
Definition set_freep (v : Z) : U unit := modify (fun s => Ustate (u_hdrs s) v (u_brk s)).

(** [p + n] on header pointers. *)
Definition units (p n : Z) : Z := p + SIZEOF_HEADER * n.

Section umalloc.
(** The address of [base]. *)
Context (base : Z).

(** The loop of [free]. *)
Fixpoint free_loop (fuel : nat) (bp p : Z) : U Z :=
  match fuel with
  | O => out_of_fuel
  | S f =>
      next ← ptr_of p;
      if (bp >? p) && (bp <? next) then mret p
      else if (p >=? next) && ((bp >? p) || (bp <? next)) then mret p
      else free_loop f bp next
  end.

(** Twice the headers in store is more than the list is long. *)
Definition list_fuel (s : ustate) : nat := 2 * size (u_hdrs s) + 2.

Definition free (ap : Z) : U unit :=
  let bp := ap - SIZEOF_HEADER in
  fuel ← gets list_fuel;
  freep ← get_freep;
  p ← free_loop fuel bp freep;
  bsize ← size_of bp;
  next ← ptr_of p;
  (if units bp bsize =? next then
     nsize ← size_of next;
     set_size bp (bsize + nsize);;
     nptr ← ptr_of next;
     set_ptr bp nptr
   else set_ptr bp next);;
  psize ← size_of p;
  (if units p psize =? bp then
     bsize ← size_of bp;
     set_size p (psize + bsize);;
     bptr ← ptr_of bp;
     set_ptr p bptr
   else set_ptr p bp);;
  set_freep p.

(** The system call takes an [int]. *)
Definition sbrk (grant : bool) (n : Z) : U Z :=
  if negb grant then mret (-1)
  else
    p ← gets u_brk;
    modify (fun s => Ustate (u_hdrs s) (u_freep s) (u64 (u_brk s + n)));;
    mret p.

Definition morecore (grant : bool) (nu : Z) : U Z :=
  let nu := if nu <? 4096 then 4096 else nu in
  p ← sbrk grant (i32 (nu * SIZEOF_HEADER));
  if p =? -1 then mret 0
  else
    set_size p nu;;
    free (p + SIZEOF_HEADER);;
    get_freep.

(** The loop of [malloc]. *)
Fixpoint malloc_loop (fuel : nat) (grant : bool) (nunits prevp p : Z) : U Z :=
  match fuel with
  | O => out_of_fuel
  | S f =>
      psize ← size_of p;
      if psize >=? nunits then
        p' ← (if psize =? nunits then
                next ← ptr_of p;
                set_ptr prevp next;; mret p
              else
                set_size p (psize - nunits);;
                let p' := units p (psize - nunits) in
                set_size p' nunits;; mret p');
        set_freep prevp;;
        mret (p' + SIZEOF_HEADER)
      else
        freep ← get_freep;
        if p =? freep then
          p' ← morecore grant nunits;
          if p' =? 0 then mret 0
          else
            next ← ptr_of p';
            malloc_loop f grant nunits p' next
        else
          next ← ptr_of p;
          malloc_loop f grant nunits p next
  end.

Definition malloc_fuel (s : ustate) : nat := 4 * size (u_hdrs s) + 8.

Definition nunits_of (nbytes : Z) : Z := u32 ((nbytes + SIZEOF_HEADER - 1) / SIZEOF_HEADER + 1).

Definition malloc (grant : bool) (nbytes : Z) : U Z :=
  let nunits := nunits_of nbytes in
  freep ← get_freep;
  prevp ← (if freep =? 0 then
             set_freep base;; set_ptr base base;; set_size base 0;; mret base
           else mret freep);
  fuel ← gets malloc_fuel;
  p ← ptr_of prevp;
  malloc_loop fuel grant nunits prevp p.
End umalloc.

(** A program that has allocated nothing. *)
Definition ustate0 (brk : Z) : ustate := Ustate ∅ 0 brk.
