(* ===== verification/UmallocProps.v ===== *)
(** The allocator of user programs keeps its free list in order: circular,
    by address, disjoint and with no two blocks that touch.  [malloc] and
    [free] are what they promise on the set of free bytes: one takes a block
    of the size asked for out of it, the other puts the block back, and
    neither touches a block that is in use. *)

From S2P Require Import Prelude Umalloc.

(** ** Free lists *)

Abbreviation node := (Z * Z)%type.

(** The address of the first node, or [z]. *)
Definition hd_addr (l : list node) (z : Z) : Z := match l with [] => z | n :: _ => n.1 end.

(** The headers link the nodes [l], and the last is linked to [z]. *)
Fixpoint linked (hs : gmap Z header) (l : list node) (z : Z) : Prop :=
  match l with
  | [] => True
  | (a, s) :: l => hs !! a = Some (Header (hd_addr l z) s) /\ linked hs l z
  end.

(** The block [m] comes after [n], and does not touch it. *)
Definition before (n m : node) : Prop := n.1 + 16 <= m.1 /\ n.1 + 16 * n.2 < m.1.

Fixpoint sep (l : list node) : Prop :=
  match l with
  | [] => True
  | n :: l => Forall (before n) l /\ sep l
  end.

Definition in_free (l : list node) (x : Z) : Prop := Exists (fun n => n.1 <= x < n.1 + 16 * n.2) l.

Lemma in_free_app l l' x : in_free (l ++ l') x <-> in_free l x \/ in_free l' x.
Proof. apply Exists_app. Qed.
Lemma in_free_cons a s l x : in_free ((a, s) :: l) x <-> a <= x < a + 16 * s \/ in_free l x.
Proof. unfold in_free. by rewrite Exists_cons. Qed.

Lemma sep_app l l' : sep (l ++ l') <-> sep l /\ sep l' /\ Forall (fun n => Forall (before n) l') l.
Proof.
  induction l as [|n l IH]; simpl; [split; [done|tauto]|]. rewrite IH, Forall_app, Forall_cons. tauto.
Qed.

Lemma linked_app hs l l' z : linked hs (l ++ l') z <-> linked hs l (hd_addr l' z) /\ linked hs l' z.
Proof.
  induction l as [|[a s] l IH]; simpl; [tauto|]. rewrite IH.
  assert (hd_addr (l ++ l') z = hd_addr l (hd_addr l' z)) as -> by (by destruct l). tauto.
Qed.

Lemma linked_frame hs hs' l z : (forall n, n ∈ l -> hs' !! n.1 = hs !! n.1) -> linked hs l z -> linked hs' l z.
Proof.
  intros Hf. induction l as [|[a s] l IH]; simpl; [done|]. intros [H1 H2]. split.
  - rewrite <- H1. apply (Hf (a, s)). left.
  - apply IH; [|done]. intros n Hn. apply Hf. by right.
Qed.

(** ** The heap *)

Section heap.
Context (base lim : Z) (Hbase : 0 < base) (Hlim : lim < base + 2 ^ 36).

Record heap_ok (st : ustate) (l : list node) : Prop := {
  ho_linked : linked (u_hdrs st) ((base, 0) :: l) base;
  ho_sep : sep ((base, 0) :: l);
  ho_sizes : Forall (fun n => 1 <= n.2 /\ n.1 + 16 * n.2 <= lim) l;
  ho_freep : u_freep st ∈ map fst ((base, 0) :: l) }.

Lemma node_split (l : list node) a : a ∈ map fst l -> exists l1 s l2, l = l1 ++ (a, s) :: l2.
Proof.
  intros H. apply list_elem_of_fmap in H as ([a' s] & -> & H). apply list_elem_of_split in H as (l1 & l2 & ->). by exists l1, s, l2.
Qed.

(** The list cut at a node. *)
Lemma cut_linked hs l1 a s l2 : linked hs (l1 ++ (a, s) :: l2) base ->
  linked hs l1 a /\ hs !! a = Some (Header (hd_addr l2 base) s) /\ linked hs l2 base.
Proof. rewrite linked_app. simpl. tauto. Qed.

Lemma hdr_at a st h : u_hdrs st !! a = Some h -> hdr a st = h.
Proof. unfold hdr. by intros ->. Qed.

Lemma size_bind {A} a (k : Z -> U A) st : (size_of a ≫= k) st = k (h_size (hdr a st)) st.
Proof. done. Qed.
Lemma ptr_bind {A} a (k : Z -> U A) st : (ptr_of a ≫= k) st = k (h_ptr (hdr a st)) st.
Proof. done. Qed.
Lemma freep_bind {A} (k : Z -> U A) st : (get_freep ≫= k) st = k (u_freep st) st.
Proof. done. Qed.

(** *** The loop of [free] *)

Lemma free_up st bp l2 : forall fuel l1 a s,
  linked (u_hdrs st) (l1 ++ (a, s) :: l2) base -> sep (l1 ++ (a, s) :: l2) -> base < bp -> a < bp ->
  Forall (fun n => n.1 <> bp) l2 -> base <= a -> (length l2 < fuel)%nat ->
  exists l1' a' s' l2', l1 ++ (a, s) :: l2 = l1' ++ (a', s') :: l2' /\ free_loop fuel bp a st = Ok a' st /\
    a' < bp /\ Forall (fun n => bp < n.1) l2'.
Proof.
  induction l2 as [|[b t] l2 IH]; intros fuel l1 a s Hl Hs Hbp Ha Hne Hba Hf; (destruct fuel as [|fuel]; [lia|]).
  - apply cut_linked in Hl as (_ & Hh & _). exists l1, a, s, []. split_and!; [done| |done|done].
    cbn [free_loop]. unfold ptr_of. rewrite gets_bind, (hdr_at _ _ _ Hh). simpl.
    destruct (Z.gtb_spec bp a); [|lia]. destruct (Z.ltb_spec bp base); [lia|]. simpl.
    destruct (Z.geb_spec a base); [done|lia].
  - pose proof Hl as Hl'. apply cut_linked in Hl' as (_ & Hh & _). pose proof Hs as Hs'. rewrite sep_app in Hs'. destruct Hs' as (_ & [Hsa Hs2] & _).
    inversion Hsa as [|? ? [Hab _] _]; subst. simpl in Hab. inversion Hne as [|? ? Hnb Hne']; subst. simpl in Hnb.
    cbn [free_loop]. unfold ptr_of. rewrite gets_bind, (hdr_at _ _ _ Hh). simpl.
    destruct (Z.gtb_spec bp a); [|lia]. simpl. destruct (Z.ltb_spec bp b) as [Hb|Hb].
    + exists l1, a, s, ((b, t) :: l2). split_and!; [done|done|done|]. constructor; [done|]. destruct Hs2 as [Hb2 _].
      eapply Forall_impl; [exact Hb2|]. intros n [Hn _]. simpl in Hn. lia.
    + destruct (Z.geb_spec a b); [lia|]. simpl.
      destruct (IH fuel (l1 ++ [(a, s)]) b t) as (l1' & a' & s' & l2' & E & Hr); try (rewrite <- app_assoc; done); try done; try (simpl in Hf; lia).
      exists l1', a', s', l2'. rewrite <- app_assoc in E. done.
Qed.

(** From a node beyond the block, the search goes round to [base]. *)
Lemma free_round st bp N l2 : forall l1 a s, linked (u_hdrs st) N base -> sep N -> N = l1 ++ (a, s) :: l2 -> base < bp -> bp < a ->
  exists k, (k <= S (length l2))%nat /\ forall fuel', free_loop (k + fuel') bp a st = free_loop fuel' bp base st.
Proof.
  induction l2 as [|[b t] l2 IH]; intros l1 a s Hl Hs -> Hbp Ha.
  - exists 1%nat. split; [lia|]. intros fuel'. apply cut_linked in Hl as (_ & Hh & _). simpl.
    unfold ptr_of. rewrite gets_bind, (hdr_at _ _ _ Hh). simpl. destruct (Z.gtb_spec bp a); [lia|]. simpl.
    destruct (Z.ltb_spec bp base); [lia|]. by rewrite andb_false_r.
  - pose proof Hl as Hl'. apply cut_linked in Hl' as (_ & Hh & _). pose proof Hs as Hs'. rewrite sep_app in Hs'.
    destruct Hs' as (_ & [Hsa Hs2] & _). inversion Hsa as [|? ? [Hab _] _]; subst. simpl in Hab.
    destruct (IH (l1 ++ [(a, s)]) b t) as (k & Hk & Hr); [done|done|by rewrite <- app_assoc|done|lia|].
    exists (S k). split; [simpl; lia|]. intros fuel'. cbn [Nat.add free_loop]. unfold ptr_of. rewrite gets_bind, (hdr_at _ _ _ Hh). simpl.
    destruct (Z.gtb_spec bp a); [lia|]. simpl. destruct (Z.geb_spec a b); [lia|]. simpl. apply Hr.
Qed.

Lemma sep_addr_nodup l : sep l -> NoDup (map fst l).
Proof.
  induction l as [|n l IH]; simpl; [intros _; constructor|]. intros [Hf Hs]. constructor; [|auto].
  intros Hi. apply list_elem_of_fmap in Hi as (m & E & Hm). rewrite Forall_forall in Hf. destruct (Hf m Hm) as [? _]. lia.
Qed.

Lemma linked_dom hs l z n : linked hs l z -> n ∈ l -> is_Some (hs !! n.1).
Proof.
  induction l as [|[a s] l IH]; intros Hl Hn; [by apply not_elem_of_nil in Hn|]. simpl in Hl. destruct Hl as [H1 H2].
  apply elem_of_cons in Hn as [->|Hn]; [by eexists|auto].
Qed.

(** The nodes are among the headers in store. *)
Lemma linked_size hs l z : linked hs l z -> sep l -> (length l <= size hs)%nat.
Proof.
  intros Hl Hs. pose proof (sep_addr_nodup l Hs) as Hnd. rewrite <- (length_map fst), <- size_dom.
  rewrite <- (size_list_to_set (C := gset Z) (map fst l)) by done. apply subseteq_size. intros a Ha.
  apply elem_of_list_to_set, list_elem_of_fmap in Ha as (n & -> & Hn). apply elem_of_dom. by eapply linked_dom.
Qed.

(** The search finds the place of the block in the list. *)
Lemma free_search st l bp : heap_ok st l -> base < bp -> Forall (fun n => n.1 <> bp) l ->
  exists l1 a s l2, (base, 0) :: l = l1 ++ (a, s) :: l2 /\ free_loop (list_fuel st) bp (u_freep st) st = Ok a st /\
    a < bp /\ Forall (fun n => bp < n.1) l2.
Proof.
  intros [Hl Hs Hz Hf] Hbp Hne. pose proof (linked_size _ _ _ Hl Hs) as Hsz. unfold list_fuel. simpl in Hsz.
  apply node_split in Hf as (l1 & s & l2 & E). set (a := u_freep st) in *.
  assert (length l1 + S (length l2) = S (length l))%nat as Hlen.
  { apply (f_equal length) in E. rewrite length_app in E. simpl in E. lia. }
  assert (Forall (fun n => n.1 <> bp) ((base, 0) :: l)) as HneN by (constructor; [simpl; lia|done]).
  destruct (Z.lt_ge_cases a bp) as [Ha|Ha].
  - rewrite E in *. apply Forall_app in HneN as [_ HneN]. inversion HneN as [|? ? _ Hne2]; subst.
    destruct (free_up st bp l2 (2 * size (u_hdrs st) + 2) l1 a s) as (l1' & a' & s' & l2' & E' & Hr); try done; try lia.
    { destruct l1 as [|n l1]; [injection E as E _; simpl in *; lia|]. injection E as En El. subst n. destruct Hs as [Hb _].
      rewrite Forall_app in Hb. destruct Hb as [_ Hb]. inversion Hb as [|? ? [Hx _] _]; subst. simpl in Hx. lia. }
    exists l1', a', s', l2'. rewrite <- E'. done.
  - assert (bp < a) as Hlt.
    { rewrite E in HneN. apply Forall_app in HneN as [_ HneN]. inversion HneN as [|? ? Hn _]; subst. simpl in Hn. lia. }
    destruct (free_round st bp _ l2 l1 a s Hl Hs E Hbp Hlt) as (k & Hk & Hr).
    replace (2 * size (u_hdrs st) + 2)%nat with (k + (2 * size (u_hdrs st) + 2 - k))%nat by lia. rewrite Hr.
    destruct (free_up st bp l (2 * size (u_hdrs st) + 2 - k) [] base 0) as (l1' & a' & s' & l2' & E' & Hr'); try done; try lia.
    exists l1', a', s', l2'. done.
Qed.

(** *** Joining blocks *)

Lemma hdr_ne a b h st f g : a <> b -> hdr a (Ustate (<[b := h]> (u_hdrs st)) f g) = hdr a st.
Proof. intros Hn. unfold hdr. simpl. by rewrite lookup_insert_ne. Qed.
Lemma hdr_eq a h hs f g : hdr a (Ustate (<[a := h]> hs) f g) = h.
Proof. unfold hdr. simpl. by rewrite lookup_insert_eq. Qed.

(** The block at [bp] is joined to the block after it, if they touch. *)
Definition join_next (bp bsize : Z) (l : list node) : Z * list node :=
  match l with
  | (b, t) :: l' => if units bp bsize =? b then (bsize + t, l') else (bsize, l)
  | [] => (bsize, [])
  end.

Lemma free_upper {A} st bp bsize l2 (k : unit -> U A) :
  base < bp -> 1 <= bsize -> h_size (hdr bp st) = bsize -> linked (u_hdrs st) l2 base -> Forall (fun n => bp < n.1) l2 ->
  Forall (fun n => 0 <= n.2 /\ n.1 + 16 * n.2 <= lim) l2 ->
  let next := hd_addr l2 base in let '(sz, l2') := join_next bp bsize l2 in
  ((if units bp bsize =? next then
      nsize ← size_of next; set_size bp (bsize + nsize);; nptr ← ptr_of next; set_ptr bp nptr
    else set_ptr bp next) ≫= k) st
  = k tt (Ustate (<[bp := Header (hd_addr l2' base) sz]> (u_hdrs st)) (u_freep st) (u_brk st)).
Proof.
  intros Hb Hsz Hh Hl Ha Hz. destruct l2 as [|[b t] l2]; simpl.
  - destruct (Z.eqb_spec (units bp bsize) base) as [E|_]; [unfold units, SIZEOF_HEADER in E; lia|].
    unfold set_ptr. rewrite modify_bind. by rewrite Hh.
  - destruct Hl as [Hhb Hl]. inversion Ha as [|? ? Hab _]; subst. inversion Hz as [|? ? [Ht Hle] _]; subst. simpl in *.
    destruct (Z.eqb_spec (units bp (h_size (hdr bp st))) b) as [E|_].
    + unfold units, SIZEOF_HEADER in E. unfold size_of. rewrite bind_bind, gets_bind, (hdr_at b st _ Hhb). simpl.
      unfold set_size. rewrite bind_bind, modify_bind, bind_bind. unfold ptr_of. rewrite gets_bind, hdr_ne, (hdr_at b st _ Hhb) by lia. simpl.
      unfold set_ptr. rewrite modify_bind, hdr_eq. simpl. rewrite insert_insert_eq, u32_small by lia. done.
    + unfold set_ptr. by rewrite modify_bind.
Qed.

(** The node before [bp] is joined to it, if they touch. *)
Definition join_prev (a s bp sz : Z) (l : list node) : list node :=
  if units a s =? bp then (a, s + sz) :: l else (a, s) :: (bp, sz) :: l.

Lemma free_lower {A} st a s bp sz ptr (k : unit -> U A) :
  a < bp -> u_hdrs st !! bp = Some (Header ptr sz) -> h_size (hdr a st) = s -> 0 <= s -> 0 <= sz -> s + sz < 2 ^ 32 ->
  (psize ← size_of a;
   (if units a psize =? bp then
      bsize ← size_of bp; set_size a (psize + bsize);; bptr ← ptr_of bp; set_ptr a bptr
    else set_ptr a bp) ≫= k) st
  = k tt (Ustate (<[a := if units a s =? bp then Header ptr (s + sz) else Header bp s]> (u_hdrs st)) (u_freep st) (u_brk st)).
Proof.
  intros Ha Hbp Hs H0 Hz Hlt. unfold size_of. rewrite gets_bind, Hs. destruct (Z.eqb_spec (units a s) bp) as [E|E].
  - rewrite bind_bind, gets_bind, (hdr_at bp st _ Hbp). simpl. unfold set_size. rewrite bind_bind, modify_bind, bind_bind.
    unfold ptr_of. rewrite gets_bind, hdr_ne, (hdr_at bp st _ Hbp) by lia. simpl. unfold set_ptr. rewrite modify_bind, hdr_eq. simpl.
    rewrite insert_insert_eq, u32_small by lia. done.
  - unfold set_ptr. by rewrite modify_bind, Hs.
Qed.

(** *** The new list *)

(** A block apart from the free ones. *)
Definition apart (bp bsize : Z) (l : list node) : Prop := Forall (fun n => n.1 + 16 * n.2 <= bp \/ bp + 16 * bsize <= n.1) l.

Lemma disjoint_apart bp bsize l : 1 <= bsize -> Forall (fun n => 1 <= n.2 /\ n.1 + 16 * n.2 <= lim) l ->
  (forall x, bp <= x < bp + 16 * bsize -> ~ in_free l x) -> apart bp bsize l.
Proof.
  intros Hb Hz Hd. apply Forall_forall. intros n Hn. rewrite Forall_forall in Hz. destruct (Hz n Hn) as [Hn1 _].
  destruct (Z.le_gt_cases (n.1 + 16 * n.2) bp) as [|H1]; [by left|]. destruct (Z.le_gt_cases (bp + 16 * bsize) n.1) as [|H2]; [by right|].
  exfalso. apply (Hd (Z.max bp n.1)); [lia|]. apply Exists_exists. exists n. split; [done|lia].
Qed.

Lemma join_next_spec bp bsize l2 : 1 <= bsize -> sep l2 -> Forall (fun n => bp < n.1) l2 -> apart bp bsize l2 ->
  Forall (fun n => 1 <= n.2 /\ n.1 + 16 * n.2 <= lim) l2 -> bp + 16 * bsize <= lim ->
  let '(sz, l2') := join_next bp bsize l2 in
  (exists l0, l2 = l0 ++ l2') /\ bsize <= sz /\ bp + 16 * sz <= lim /\ Forall (before (bp, sz)) l2' /\ sep l2' /\
  Forall (fun n => 1 <= n.2 /\ n.1 + 16 * n.2 <= lim) l2' /\
  (forall x, in_free ((bp, sz) :: l2') x <-> in_free l2 x \/ bp <= x < bp + 16 * bsize).
Proof.
  intros Hb Hs Hab Hap Hz Hle. destruct l2 as [|[b t] l2]; simpl.
  { split_and!; try done; [by exists []|]. intros x. rewrite in_free_cons. tauto. }
  destruct Hs as [Hsb Hs]. inversion Hab as [|? ? Hb1 _]; subst. inversion Hap as [|? ? Hap1 _]; subst. inversion Hz as [|? ? [Ht Hlt] Hz2]; subst.
  simpl in *. destruct (Z.eqb_spec (units bp bsize) b) as [E|E]; unfold units, SIZEOF_HEADER in E.
  - split_and!; [by exists [(b, t)]|lia|lia| |done|done|].
    + eapply Forall_impl; [exact Hsb|]. unfold before. simpl. intros n ?. lia.
    + intros x. rewrite !in_free_cons.
      assert (bp <= x < bp + 16 * (bsize + t) <-> b <= x < b + 16 * t \/ bp <= x < bp + 16 * bsize) as Hx by lia. tauto.
  - assert (b + 16 * t <= bp -> False) as Hno by lia.
    split_and!; [by exists []|lia|lia| |done|done|].
    + constructor; [unfold before; simpl; lia|]. eapply Forall_impl; [exact Hsb|]. unfold before. simpl. intros n ?. lia.
    + intros x. rewrite !in_free_cons. tauto.
Qed.

Lemma join_prev_spec l1 a s l2 bp sz l2' : sep (l1 ++ (a, s) :: l2) -> (exists l0, l2 = l0 ++ l2') -> 0 <= s -> 1 <= sz ->
  a + 16 <= bp -> a + 16 * s <= bp -> Forall (before (bp, sz)) l2' -> sep l2' ->
  sep (l1 ++ join_prev a s bp sz l2') /\
  forall x, in_free (join_prev a s bp sz l2') x <-> a <= x < a + 16 * s \/ in_free ((bp, sz) :: l2') x.
Proof.
  intros Hs [l0 ->] H0 Hsz Ha1 Ha2 Hb Hs2. rewrite sep_app in Hs. destruct Hs as (Hs1 & [Hsa _] & Hs12).
  assert (forall l3, Forall (fun m => a <= m.1) l3 -> Forall (fun n => Forall (before n) l3) l1) as Hpre.
  { intros l3 H3. eapply Forall_impl; [exact Hs12|]. intros n Hn. inversion Hn as [|? ? [Hn1 Hn2] _]; subst. simpl in *.
    eapply Forall_impl; [exact H3|]. unfold before. simpl. intros m Hm. lia. }
  assert (Forall (fun m => a <= m.1) l2') as Hl2 by (eapply Forall_impl; [exact Hb|]; unfold before; simpl; intros m ?; lia).
  unfold join_prev. destruct (Z.eqb_spec (units a s) bp) as [E|E]; unfold units, SIZEOF_HEADER in E; split.
  - rewrite sep_app. split_and!; [done| |apply Hpre; constructor; [simpl; lia|done]]. split; [|done].
    eapply Forall_impl; [exact Hb|]. unfold before. simpl. intros m ?. lia.
  - intros x. rewrite !in_free_cons.
    assert (a <= x < a + 16 * (s + sz) <-> a <= x < a + 16 * s \/ bp <= x < bp + 16 * sz) as Hx by lia. tauto.
  - rewrite sep_app. split_and!; [done| |apply Hpre; constructor; [simpl; lia|constructor; [simpl; lia|done]]].
    split; [|by split]. constructor; [unfold before; simpl; lia|].
    eapply Forall_impl; [exact Hb|]. unfold before. simpl. intros m ?. lia.
  - intros x. by rewrite !in_free_cons.
Qed.

Lemma linked_join hs l1 a s bp sz l2 ptr : linked hs l1 a -> linked hs l2 base -> ptr = hd_addr l2 base ->
  Forall (fun n => n.1 < a) l1 -> a < bp -> Forall (fun n => bp < n.1) l2 ->
  linked (<[a := if units a s =? bp then Header ptr (s + sz) else Header bp s]> (<[bp := Header ptr sz]> hs)) (l1 ++ join_prev a s bp sz l2) base.
Proof.
  intros H1 H2 -> Hf1 Hab Hf2. rewrite Forall_forall in Hf1, Hf2.
  assert (forall l3 z, (forall n, n ∈ l3 -> n.1 <> a /\ n.1 <> bp) -> forall h h', linked hs l3 z -> linked (<[a := h]> (<[bp := h']> hs)) l3 z) as Hfr.
  { intros l3 z Hn h h'. apply linked_frame. intros n Hn3. destruct (Hn n Hn3). by rewrite !lookup_insert_ne. }
  assert (forall n, n ∈ l1 -> n.1 <> a /\ n.1 <> bp) as Hl1 by (intros n Hn; specialize (Hf1 n Hn); lia).
  assert (forall n, n ∈ l2 -> n.1 <> a /\ n.1 <> bp) as Hl2 by (intros n Hn; specialize (Hf2 n Hn); lia).
  rewrite linked_app.
  unfold join_prev. destruct (units a s =? bp); simpl; rewrite lookup_insert_eq; split_and!; auto.
  rewrite lookup_insert_ne, lookup_insert_eq by lia. done.
Qed.

(** What [free] promises. *)
Definition frees (bp bsize : Z) (l l' : list node) (st st' : ustate) : Prop :=
  (forall x, in_free l' x <-> in_free l x \/ bp <= x < bp + 16 * bsize) /\
  (forall x, ~ in_free l' x -> x <> base -> u_hdrs st' !! x = u_hdrs st !! x) /\
  dom (u_hdrs st') ⊆ dom (u_hdrs st) ∪ ({[bp]} : gset Z) /\ u_brk st' = u_brk st.

Lemma free_state st a s bp bsize l1 l2 l : heap_ok st l -> (base, 0) :: l = l1 ++ (a, s) :: l2 -> 1 <= bsize ->
  base + 16 <= bp -> bp + 16 * bsize <= lim -> h_size (hdr bp st) = bsize -> apart bp bsize l -> a < bp -> Forall (fun n => bp < n.1) l2 ->
  free_loop (list_fuel st) bp (u_freep st) st = Ok a st ->
  let '(sz, l2') := join_next bp bsize l2 in
  free (bp + SIZEOF_HEADER) st = Ok tt (Ustate (<[a := if units a s =? bp then Header (hd_addr l2' base) (s + sz) else Header bp s]>
    (<[bp := Header (hd_addr l2' base) sz]> (u_hdrs st))) a (u_brk st)).
Proof.
  intros [Hl Hs Hz Hf] E Hb Hb1 Hb2 Hh Hap Ha Hl2 Hloop. rewrite E in Hl, Hs. apply cut_linked in Hl as (Hl1 & Hha & Hlk2).
  assert (Forall (fun n => 0 <= n.2 /\ n.1 + 16 * n.2 <= lim) ((base, 0) :: l)) as HzN.
  { constructor; [simpl; lia|]. eapply Forall_impl; [exact Hz|]. simpl. lia. }
  assert (apart bp bsize ((base, 0) :: l)) as HapN by (constructor; [left; simpl; lia|done]).
  rewrite E in HzN, HapN. apply Forall_app in HzN as [_ HzN]. apply Forall_cons in HzN as [[Hs0 _] Hz2]. simpl in Hs0.
  apply Forall_app in HapN as [_ HapN]. apply Forall_cons in HapN as [Hapa Hap2]. simpl in Hapa.
  pose proof (fun k => free_upper (A := unit) st bp bsize l2 k ltac:(lia) Hb Hh Hlk2 Hl2 Hz2) as Hup.
  assert (Forall (fun n => 1 <= n.2 /\ n.1 + 16 * n.2 <= lim) l2) as Hz1.
  { destruct l1; injection E as ? E'; subst; [done|]. apply Forall_app in Hz as [_ Hz]. by apply Forall_cons in Hz as [_ ?]. }
  assert (sep l2) as Hs2 by (rewrite sep_app in Hs; destruct Hs as (_ & [_ ?] & _); done).
  pose proof (join_next_spec bp bsize l2 Hb Hs2 Hl2 Hap2 Hz1 Hb2) as Hj.
  destruct (join_next bp bsize l2) as [sz l2']. destruct Hj as (_ & Hsz & Hszl & _).
  unfold free. cbv zeta. replace (bp + SIZEOF_HEADER - SIZEOF_HEADER) with bp by (unfold SIZEOF_HEADER; lia).
  rewrite gets_bind, freep_bind, (bind_ok _ _ _ _ _ Hloop), size_bind, Hh, ptr_bind, (hdr_at a st _ Hha). cbn [h_ptr].
  rewrite Hup. assert (a <> bp) as Hne by lia. set (st1 := Ustate _ _ _).
  rewrite (free_lower st1 a s bp sz (hd_addr l2' base)); [done|done| | |done|lia|].
  - unfold st1. cbn. apply lookup_insert_eq.
  - unfold st1. rewrite hdr_ne by done. by rewrite (hdr_at a st _ Hha).
  - destruct Hapa; [|lia]. destruct l1; injection E as ? E'; subst; [lia|].
    destruct Hs as [Hsb _]. apply Forall_app in Hsb as [_ Hsb]. apply Forall_cons in Hsb as [[Hba _] _]. simpl in Hba. lia.
Qed.

Lemma free_ok st l bp bsize : heap_ok st l -> 1 <= bsize -> base + 16 <= bp -> bp + 16 * bsize <= lim -> h_size (hdr bp st) = bsize ->
  (forall x, bp <= x < bp + 16 * bsize -> ~ in_free l x) ->
  exists st' l', free (bp + SIZEOF_HEADER) st = Ok tt st' /\ heap_ok st' l' /\ frees bp bsize l l' st st'.
Proof.
  intros Hok Hb Hb1 Hb2 Hh Hd. pose proof Hok as [Hl Hs Hz Hf]. pose proof (disjoint_apart bp bsize l Hb Hz Hd) as Hap.
  assert (Forall (fun n => n.1 <> bp) l) as Hne.
  { apply Forall_forall. intros n Hn. rewrite Forall_forall in Hz. unfold apart in Hap. rewrite Forall_forall in Hap.
    destruct (Hz n Hn), (Hap n Hn); lia. }
  destruct (free_search st l bp Hok ltac:(lia) Hne) as (l1 & a & s & l2 & E & Hloop & Ha & Hl2).
  pose proof (free_state st a s bp bsize l1 l2 l Hok E Hb Hb1 Hb2 Hh Hap Ha Hl2 Hloop) as Hst.
  rewrite E in Hl, Hs. apply cut_linked in Hl as (Hl1 & Hha & Hlk2). pose proof Hs as HsN.
  rewrite sep_app in Hs. destruct Hs as (Hs1 & [_ Hs2] & _).
  (* the node before the block *)
  assert (0 <= s /\ a + 16 <= bp /\ a + 16 * s <= bp /\ Forall (fun n => 1 <= n.2 /\ n.1 + 16 * n.2 <= lim) l2 /\ apart bp bsize l2 /\
    (a = base /\ s = 0 /\ l1 = [] /\ l = l2 \/ exists l1', l1 = (base, 0) :: l1' /\ l = l1' ++ (a, s) :: l2)) as (H0 & Ha1 & Ha2 & Hz2 & Hap2 & Hfirst).
  { destruct l1 as [|n l1]; [injection E as <- <- <-; split_and!; [lia|lia|lia|done|done|by left]|]. injection E as <- ->.
    unfold apart in *. apply Forall_app in Hz as [_ Hz]. apply Forall_cons in Hz as [[Hz1 _] Hz]. apply Forall_app in Hap as [_ Hap].
    apply Forall_cons in Hap as [Hap1 Hap]. cbn [fst snd] in *. split_and!; [lia|lia|lia|done|done|]. right. by exists l1. }
  pose proof (join_next_spec bp bsize l2 Hb Hs2 Hl2 Hap2 Hz2 Hb2) as Hj. destruct (join_next bp bsize l2) as [sz l2'].
  destruct Hj as (Hsub & Hsz & Hszl & Hbef & Hs2' & Hz2' & Hfree2).
  destruct (join_prev_spec l1 a s l2 bp sz l2' HsN Hsub H0 ltac:(lia) Ha1 Ha2 Hbef Hs2') as [HsN' Hfree'].
  assert (Forall (fun n => n.1 < a) l1) as Hf1.
  { rewrite sep_app in HsN. destruct HsN as (_ & _ & H12). eapply Forall_impl; [exact H12|]. intros n Hn.
    apply Forall_cons in Hn as [[? _] _]. simpl in *. lia. }
  assert (linked (u_hdrs st) l2' base) as Hlk2' by (destruct Hsub as [l0 ->]; by apply linked_app in Hlk2 as [_ ?]).
  assert (Forall (fun n => bp < n.1) l2') as Hl2' by (destruct Hsub as [l0 ->]; by apply Forall_app in Hl2 as [_ ?]).
  pose proof (linked_join (u_hdrs st) l1 a s bp sz l2' _ Hl1 Hlk2' eq_refl Hf1 Ha Hl2') as HlN.
  assert (exists l', l1 ++ join_prev a s bp sz l2' = (base, 0) :: l' /\ Forall (fun n => 1 <= n.2 /\ n.1 + 16 * n.2 <= lim) l' /\
    (a = base \/ in_free l' a)) as (l' & E' & Hz' & Ha').
  { unfold join_prev, units, SIZEOF_HEADER. destruct Hfirst as [(-> & -> & -> & ->)|(l1' & -> & ->)].
    - destruct (Z.eqb_spec (base + 16 * 0) bp); [lia|]. exists ((bp, sz) :: l2'). split; [done|]. split; [|by left].
      constructor; [simpl; lia|done].
    - apply Forall_app in Hz as [Hz1 Hz]. apply Forall_cons in Hz as [[Hza _] _]. cbn [fst snd] in Hza.
      destruct (Z.eqb_spec (a + 16 * s) bp) as [Eb|Eb]; eexists; (split; [reflexivity|]); (split; [apply Forall_app; split; [done|]|right]).
      + constructor; [cbn [fst snd]; lia|done].
      + apply in_free_app. right. apply in_free_cons. left. lia.
      + constructor; [cbn [fst snd]; lia|]. constructor; [cbn [fst snd]; lia|done].
      + apply in_free_app. right. apply in_free_cons. left. lia. }
  assert (forall x, in_free l' x <-> in_free l x \/ bp <= x < bp + 16 * bsize) as Hfree.
  { intros x. assert (in_free ((base, 0) :: l') x <-> in_free l' x) as <- by (rewrite in_free_cons; split; [intros [?|?]; [lia|done]|by right]).
    assert (in_free ((base, 0) :: l) x <-> in_free l x) as <- by (rewrite in_free_cons; split; [intros [?|?]; [lia|done]|by right]).
    rewrite <- E', E, !in_free_app, Hfree', (in_free_cons a s l2), Hfree2. tauto. }
  eexists _, l'. split; [exact Hst|]. split; [split|split_and!].
  - by rewrite <- E'.
  - by rewrite <- E'.
  - done.
  - rewrite <- E'. cbn. rewrite map_app. apply elem_of_app. right. unfold join_prev. destruct (_ =? bp); left.
  - exact Hfree.
  - intros x Hx Hxb. cbn. assert (x <> a) by (intros ->; by destruct Ha').
    assert (x <> bp) by (intros ->; apply Hx, Hfree; right; lia). by rewrite !lookup_insert_ne.
  - cbn. rewrite !dom_insert_L. assert (a ∈ dom (u_hdrs st)) by (apply elem_of_dom; by eexists). clear - H. set_solver.
  - done.
Qed.

(** *** Taking a block *)

Definition takes (n : Z) (l l' : list node) (st st' : ustate) (bp : Z) : Prop :=
  base + 16 <= bp /\ h_size (hdr bp st') = n /\
  (forall x, bp <= x < bp + 16 * n -> in_free l x) /\
  (forall x, in_free l' x <-> in_free l x /\ ~ bp <= x < bp + 16 * n) /\
  (forall x, ~ in_free l x -> x <> base -> u_hdrs st' !! x = u_hdrs st !! x) /\ u_brk st' = u_brk st.

(** The bytes of a block are of no other block. *)
Lemma in_free_rest l1 a s l2 x : sep (l1 ++ (a, s) :: l2) -> a <= x < a + 16 * s -> ~ in_free l1 x /\ ~ in_free l2 x.
Proof.
  rewrite sep_app. intros (_ & [Ha _] & H1) Hx. split; intros (n & Hn & Hnx)%Exists_exists.
  - rewrite Forall_forall in H1. specialize (H1 n Hn). apply Forall_cons in H1 as [[_ ?] _]. simpl in *. lia.
  - rewrite Forall_forall in Ha. destruct (Ha n Hn) as [_ ?]. simpl in *. lia.
Qed.

(** The list with [base]. *)
Definition sized (n : node) : Prop := n.1 = base \/ 1 <= n.2 /\ n.1 + 16 * n.2 <= lim.

Lemma heap_sized st l : heap_ok st l -> Forall sized ((base, 0) :: l).
Proof. intros [_ _ Hz _]. constructor; [by left|]. eapply Forall_impl; [exact Hz|]. intros n ?. by right. Qed.

Lemma heap_intro st N : linked (u_hdrs st) N base -> sep N -> head N = Some (base, 0) -> Forall sized N -> u_freep st ∈ map fst N ->
  exists l, N = (base, 0) :: l /\ heap_ok st l.
Proof.
  intros Hl Hs Hh Hz Hf. destruct N as [|n l]; [done|]. injection Hh as ->. exists l. split; [done|]. split; try done.
  apply Forall_cons in Hz as [_ Hz]. destruct Hs as [Hb _]. rewrite Forall_forall in Hz, Hb |- *. intros n Hn.
  destruct (Hb n Hn) as [? _]. destruct (Hz n Hn) as [E|?]; [simpl in *; lia|done].
Qed.

Lemma in_free_base l x : in_free ((base, 0) :: l) x <-> in_free l x.
Proof. rewrite in_free_cons. split; [intros [?|?]; [lia|done]|by right]. Qed.

(** Nodes before and after a node. *)
Lemma sep_ne l1 a s l2 n : sep (l1 ++ (a, s) :: l2) -> n ∈ l1 \/ n ∈ l2 -> n.1 <> a.
Proof.
  rewrite sep_app. intros (_ & [Ha _] & H1) [Hn|Hn].
  - rewrite Forall_forall in H1. specialize (H1 n Hn). apply Forall_cons in H1 as [[? _] _]. simpl in *. lia.
  - rewrite Forall_forall in Ha. destruct (Ha n Hn) as [? _]. simpl in *. lia.
Qed.

Lemma head_app {A} (l1 : list A) x l2 l2' : head (l1 ++ x :: l2) = head (l1 ++ x :: l2').
Proof. by destruct l1. Qed.

Lemma after_base st l l1 x a s l2 : heap_ok st l -> (base, 0) :: l = l1 ++ x :: (a, s) :: l2 -> base + 16 <= a.
Proof.
  intros [_ [Hb _] _ _] E. assert ((a, s) ∈ l) as Hi.
  { destruct l1; injection E as _ ->; [left|]. apply elem_of_app. right. right. left. }
  rewrite Forall_forall in Hb. by destruct (Hb _ Hi) as [? _].
Qed.

Lemma in_free_node l1 a s l2 x : a <= x < a + 16 * s -> in_free (l1 ++ (a, s) :: l2) x.
Proof. intros Hx. apply in_free_app. right. apply in_free_cons. by left. Qed.

Lemma take_exact st l1 pa ps a n l2 l : heap_ok st l -> (base, 0) :: l = l1 ++ (pa, ps) :: (a, n) :: l2 -> 1 <= n ->
  let st' := Ustate (<[pa := Header (hd_addr l2 base) ps]> (u_hdrs st)) pa (u_brk st) in
  exists l', heap_ok st' l' /\ takes n l l' st st' a.
Proof.
  intros Hok E Hn st'. pose proof (heap_sized _ _ Hok) as Hz. pose proof (after_base _ _ _ _ _ _ _ Hok E) as Hba. destruct Hok as [Hl Hs _ _].
  assert (head ((base, 0) :: l) = Some (base, 0)) as Hh by done. pose proof (in_free_base l) as Hfl. rewrite E in Hl, Hs, Hz, Hh, Hfl.
  pose proof (cut_linked _ _ _ _ _ Hl) as (Hl1 & Hhp & Hl2). simpl in Hl2. destruct Hl2 as [Hha Hl2].
  assert (sep ((l1 ++ [(pa, ps)]) ++ (a, n) :: l2)) as HsA by (by rewrite <- app_assoc).
  assert (forall m, m ∈ l1 \/ m ∈ (a, n) :: l2 -> m.1 <> pa) as Hne by (intros m; by apply (sep_ne _ _ _ _ m Hs)).
  assert (linked (u_hdrs st') (l1 ++ (pa, ps) :: l2) base) as Hl'.
  { apply linked_app. split; [eapply linked_frame; [|exact Hl1]|split; [apply lookup_insert_eq|eapply linked_frame; [|exact Hl2]]];
      intros m Hm; cbn; rewrite lookup_insert_ne; try done; intros ->; eapply Hne; [by left|done|right; right; exact Hm|done]. }
  assert (sep (l1 ++ (pa, ps) :: l2)) as Hs'.
  { rewrite sep_app in Hs |- *. destruct Hs as (S1 & [S2 [_ S3]] & S4). apply Forall_cons in S2 as [_ S2]. split_and!; [done|done|].
    eapply Forall_impl; [exact S4|]. intros m Hm. apply Forall_cons in Hm as [? Hm]. apply Forall_cons in Hm as [_ Hm]. by constructor. }
  destruct (heap_intro st' (l1 ++ (pa, ps) :: l2)) as (l' & E' & Hok'); [done|done|by rewrite (head_app _ _ _ ((a, n) :: l2))| | |].
  { apply Forall_app in Hz as [? Hz]. apply Forall_cons in Hz as [? Hz]. apply Forall_cons in Hz as [_ ?]. apply Forall_app. split; [done|]. by constructor. }
  { cbn. rewrite map_app. apply elem_of_app. right. left. }
  exists l'. split; [done|]. split_and!; [done| | | | |done].
  - unfold st'. rewrite hdr_ne; [by rewrite (hdr_at a st _ Hha)|]. apply (Hne (a, n)). right. left.
  - intros x Hx. apply Hfl. apply in_free_app. right. apply in_free_cons. right. apply in_free_cons. by left.
  - intros x. rewrite <- (in_free_base l'), <- E', <- Hfl, !in_free_app, !in_free_cons.
    pose proof (in_free_rest _ a n l2 x HsA) as Hr. rewrite in_free_app, in_free_cons in Hr. tauto.
  - intros x Hx Hxb. cbn. apply lookup_insert_ne. intros <-. apply Hx, Hfl.
    rewrite Forall_app, Forall_cons in Hz. destruct Hz as (_ & [?|[? _]] & _); [done|]. apply in_free_node. simpl in *. lia.
Qed.

(** The block is cut off the end of a free block. *)
Lemma take_split st l1 pa ps a s n l2 l hp : heap_ok st l -> (base, 0) :: l = l1 ++ (pa, ps) :: (a, s) :: l2 -> 1 <= n < s ->
  let bp := units a (s - n) in
  let st' := Ustate (<[bp := Header hp n]> (<[a := Header (hd_addr l2 base) (s - n)]> (u_hdrs st))) pa (u_brk st) in
  exists l', heap_ok st' l' /\ takes n l l' st st' bp.
Proof.
  intros Hok E Hn bp st'. pose proof (heap_sized _ _ Hok) as Hz. pose proof (after_base _ _ _ _ _ _ _ Hok E) as Hba. destruct Hok as [Hl Hs _ _].
  assert (head ((base, 0) :: l) = Some (base, 0)) as Hh by done. pose proof (in_free_base l) as Hfl. rewrite E in Hl, Hs, Hz, Hh, Hfl.
  assert (bp = a + 16 * (s - n)) as Ebp by done.
  assert (sep ((l1 ++ [(pa, ps)]) ++ (a, s) :: l2)) as HsA by (by rewrite <- app_assoc).
  assert (linked (u_hdrs st) ((l1 ++ [(pa, ps)]) ++ (a, s) :: l2) base) as HlA by (by rewrite <- app_assoc).
  pose proof (cut_linked _ _ _ _ _ HlA) as (Hl1 & Hha & Hl2).
  assert (forall m, m ∈ l1 ++ [(pa, ps)] \/ m ∈ l2 -> m.1 <> a /\ m.1 <> bp) as Hne.
  { intros m Hm. split; [by apply (sep_ne _ _ _ _ m HsA)|]. intros Em. rewrite sep_app in HsA. destruct HsA as (_ & [Ha _] & H1).
    destruct Hm as [Hm|Hm].
    - rewrite Forall_forall in H1. specialize (H1 m Hm). apply Forall_cons in H1 as [[? _] _]. simpl in *. lia.
    - rewrite Forall_forall in Ha. destruct (Ha m Hm) as [_ ?]. simpl in *. lia. }
  assert (linked (u_hdrs st') ((l1 ++ [(pa, ps)]) ++ (a, s - n) :: l2) base) as Hl'.
  { apply linked_app. split; [eapply linked_frame; [|exact Hl1]|split; [|eapply linked_frame; [|exact Hl2]]].
    - intros m Hm. destruct (Hne m) as [? ?]; [by left|]. cbn. by rewrite !lookup_insert_ne.
    - cbn. rewrite lookup_insert_ne, lookup_insert_eq by lia. done.
    - intros m Hm. destruct (Hne m) as [? ?]; [by right|]. cbn. by rewrite !lookup_insert_ne. }
  assert (sep ((l1 ++ [(pa, ps)]) ++ (a, s - n) :: l2)) as Hs'.
  { rewrite sep_app in HsA |- *. destruct HsA as (S1 & [S2 S3] & S4). split_and!; [done|split; [|done]|].
    - eapply Forall_impl; [exact S2|]. unfold before. simpl. intros m ?. lia.
    - eapply Forall_impl; [exact S4|]. intros m Hm. apply Forall_cons in Hm as [? Hm]. by constructor. }
  rewrite <- app_assoc in Hl', Hs'. simpl in Hl', Hs'.
  destruct (heap_intro st' (l1 ++ (pa, ps) :: (a, s - n) :: l2)) as (l' & E' & Hok'); [done|done|by rewrite (head_app _ _ _ ((a, s) :: l2))| | |].
  { apply Forall_app in Hz as [? Hz]. apply Forall_cons in Hz as [? Hz]. apply Forall_cons in Hz as [Hza ?].
    apply Forall_app. split; [done|]. constructor; [done|]. constructor; [|done]. unfold sized in *. cbn [fst snd] in *. lia. }
  { cbn. rewrite map_app. apply elem_of_app. right. left. }
  exists l'. split; [done|]. split_and!; [lia| | | | |done].
  - unfold st'. by rewrite hdr_eq.
  - intros x Hx. apply Hfl. apply in_free_app. right. apply in_free_cons. right. apply in_free_cons. left. lia.
  - intros x. rewrite <- (in_free_base l'), <- E', <- Hfl, !in_free_app, !in_free_cons.
    pose proof (in_free_rest _ a s l2 x HsA) as Hr. rewrite in_free_app, in_free_cons in Hr.
    assert (a <= x < a + 16 * (s - n) <-> a <= x < a + 16 * s /\ ~ bp <= x < bp + 16 * n) as Hx by lia.
    assert (bp <= x < bp + 16 * n -> a <= x < a + 16 * s) by lia. tauto.
  - intros x Hx Hxb. cbn. assert (forall y, a <= y < a + 16 * s -> x <> y) as Hy.
    { intros y Hy ->. apply Hx, Hfl. apply in_free_app. right. apply in_free_cons. right. apply in_free_cons. by left. }
    rewrite !lookup_insert_ne; [done|apply not_eq_sym, Hy; lia|apply not_eq_sym, Hy; lia].
Qed.

(** *** The loop of [malloc] *)

Lemma set_ptr_bind {A} a v (k : unit -> U A) st :
  (set_ptr a v ≫= k) st = k tt (Ustate (<[a := Header v (h_size (hdr a st))]> (u_hdrs st)) (u_freep st) (u_brk st)).
Proof. done. Qed.
Lemma set_size_bind {A} a v (k : unit -> U A) st :
  (set_size a v ≫= k) st = k tt (Ustate (<[a := Header (h_ptr (hdr a st)) (u32 v)]> (u_hdrs st)) (u_freep st) (u_brk st)).
Proof. done. Qed.
Lemma set_freep_bind {A} v (k : unit -> U A) st : (set_freep v ≫= k) st = k tt (Ustate (u_hdrs st) v (u_brk st)).
Proof. done. Qed.

Lemma node_bound st l n : heap_ok st l -> n ∈ (base, 0) :: l -> 0 <= n.2 < 2 ^ 32.
Proof.
  intros Hok Hn. destruct Hok as [_ [Hb _] Hz _]. apply elem_of_cons in Hn as [->|Hn]; [simpl; lia|].
  rewrite Forall_forall in Hb, Hz. destruct (Hb n Hn), (Hz n Hn). simpl in *. lia.
Qed.

Lemma malloc_fit grant n f st l l1 pa ps a s l2 : heap_ok st l -> (base, 0) :: l = l1 ++ (pa, ps) :: (a, s) :: l2 -> 1 <= n <= s ->
  exists st' l' bp, malloc_loop (S f) grant n pa a st = Ok (bp + SIZEOF_HEADER) st' /\ heap_ok st' l' /\ takes n l l' st st' bp.
Proof.
  intros Hok E Hn. pose proof Hok as [Hl _ _ _]. rewrite E in Hl. apply cut_linked in Hl as (_ & Hhp & [Hha _]).
  assert (0 <= s < 2 ^ 32) as Hs.
  { apply (node_bound st l (a, s) Hok). rewrite E. apply elem_of_app. right. right. left. }
  cbn [malloc_loop]. rewrite size_bind, (hdr_at a st _ Hha). cbn [h_size]. destruct (Z.geb_spec s n); [|lia].
  destruct (Z.eqb_spec s n) as [->|Hne].
  - destruct (take_exact st l1 pa ps a n l2 l Hok E ltac:(lia)) as (l' & Hok' & Ht).
    rewrite !bind_bind, ptr_bind, (hdr_at a st _ Hha), bind_bind, set_ptr_bind, (hdr_at pa st _ Hhp). cbn [h_size h_ptr].
    rewrite ret_bind, set_freep_bind. eexists _, l', a. split; [reflexivity|]. by split.
  - destruct (take_split st l1 pa ps a s n l2 l (h_ptr (hdr (units a (s - n)) (Ustate (<[a := Header (hd_addr l2 base) (s - n)]> (u_hdrs st)) (u_freep st) (u_brk st)))) Hok E ltac:(lia))
      as (l' & Hok' & Ht).
    rewrite !bind_bind, set_size_bind, (hdr_at a st _ Hha). cbn [h_ptr]. rewrite (u32_small (s - n)) by lia.
    rewrite bind_bind, set_size_bind, ret_bind, set_freep_bind, (u32_small n) by lia. eexists _, l', _. split; [reflexivity|]. by split.
Qed.

(** From [p] on round to [freep]: a block that fits, or [freep]. *)
Lemma malloc_walk grant n st z todo : forall f pa ps0 fs,
  hdr pa st = Header (hd_addr (todo ++ [(u_freep st, fs)]) z) ps0 -> linked (u_hdrs st) (todo ++ [(u_freep st, fs)]) z ->
  Forall (fun m => m.1 <> u_freep st) todo ->
  (exists f' pa' ps' a s, (pa' = pa \/ pa' ∈ map fst todo) /\ hdr pa' st = Header a ps' /\
     (a, s) ∈ todo ++ [(u_freep st, fs)] /\ n <= s /\
     malloc_loop (length todo + S f) grant n pa (hd_addr (todo ++ [(u_freep st, fs)]) z) st = malloc_loop (S f') grant n pa' a st) \/
  (Forall (fun m => m.2 < n) (todo ++ [(u_freep st, fs)]) /\
     exists pa', malloc_loop (length todo + S f) grant n pa (hd_addr (todo ++ [(u_freep st, fs)]) z) st = malloc_loop (S f) grant n pa' (u_freep st) st).
Proof.
  induction todo as [|[a s] todo IH]; intros f pa ps0 fs Hpa Hl Hne.
  - destruct (Z.le_gt_cases n fs) as [Hfit|Hno].
    + left. exists f, pa, ps0, (u_freep st), fs. split_and!; try done; [by left|left].
    + right. split; [by constructor|]. by exists pa.
  - simpl in Hl. destruct Hl as [Hha Hl]. apply Forall_cons in Hne as [Hna Hne]. cbn [fst] in Hna.
    destruct (Z.le_gt_cases n s) as [Hfit|Hno].
    { left. exists (length todo + S f)%nat, pa, ps0, a, s. split_and!; try done; [by left|left]. }
    assert (forall g, malloc_loop (S g) grant n pa a st = malloc_loop g grant n a (hd_addr (todo ++ [(u_freep st, fs)]) z) st) as Hstep.
    { intros g. cbn [malloc_loop]. rewrite size_bind, (hdr_at a st _ Hha). cbn [h_size]. destruct (Z.geb_spec s n); [lia|].
      rewrite freep_bind. destruct (Z.eqb_spec a (u_freep st)); [done|]. by rewrite ptr_bind, (hdr_at a st _ Hha). }
    destruct (IH f a s fs (hdr_at a st _ Hha) Hl Hne) as [(f' & pa' & ps' & a' & s' & Hp' & Hh' & Hi' & Hn' & Hr)|(Hall & pa' & Hr)].
    + left. exists f', pa', ps', a', s'. split_and!; try done; [|by right|].
      * right. destruct Hp' as [->|Hp']; [left|by right].
      * cbn [length Nat.add app hd_addr fst]. by rewrite Hstep.
    + right. split; [constructor; [done|exact Hall]|]. exists pa'. cbn [length Nat.add app hd_addr fst]. by rewrite Hstep.
Qed.

Lemma node_unique l a s t : sep l -> (a, s) ∈ l -> (a, t) ∈ l -> s = t.
Proof.
  intros Hs H1 H2. apply list_elem_of_split in H1 as (l1 & l2 & ->). apply elem_of_app in H2 as [H2|H2].
  - by destruct (sep_ne l1 a s l2 (a, t) Hs (or_introl H2)).
  - apply elem_of_cons in H2 as [H2|H2]; [congruence|]. by destruct (sep_ne l1 a s l2 (a, t) Hs (or_intror H2)).
Qed.

(** A block that fits and the node that is linked to it are next to each other
    in the list. *)
Lemma linked_neighbours st l pa ps a s n : heap_ok st l -> pa ∈ map fst ((base, 0) :: l) -> hdr pa st = Header a ps ->
  (a, s) ∈ (base, 0) :: l -> 1 <= n <= s -> exists l1 l2, (base, 0) :: l = l1 ++ (pa, ps) :: (a, s) :: l2.
Proof.
  intros [Hl Hs _ _] Hpa Hh Ha Hn. apply node_split in Hpa as (l1 & q & l2 & E). pose proof Hl as Hl'. rewrite E in Hl'.
  apply cut_linked in Hl' as (_ & Hhp & _). rewrite (hdr_at pa st _ Hhp) in Hh. injection Hh as E2 <-.
  destruct l2 as [|[b t] l2]; cbn [hd_addr fst] in E2; subst.
  - assert (s = 0) by (eapply node_unique; [exact Hs|exact Ha|left]). lia.
  - exists l1, l2. rewrite E. repeat f_equal. eapply node_unique; [exact Hs| |exact Ha]. rewrite E. apply elem_of_app. right. right. left.
Qed.

(** Once round the list from [freep]. *)
Lemma malloc_round grant n st l g : heap_ok st l -> 1 <= n ->
  (exists st' l' bp, malloc_loop (length l + S g) grant n (u_freep st) (h_ptr (hdr (u_freep st) st)) st = Ok (bp + SIZEOF_HEADER) st' /\
     heap_ok st' l' /\ takes n l l' st st' bp) \/
  (Forall (fun m => m.2 < n) l /\ exists pa,
     malloc_loop (length l + S g) grant n (u_freep st) (h_ptr (hdr (u_freep st) st)) st = malloc_loop (S g) grant n pa (u_freep st) st).
Proof.
  intros Hok Hn. pose proof Hok as [Hl Hs _ Hf]. apply node_split in Hf as (l1 & fs & l2 & E). set (f := u_freep st) in *.
  pose proof Hl as Hl'. rewrite E in Hl'. apply cut_linked in Hl' as (Hl1 & Hhf & Hl2). pose proof Hs as HsN. rewrite E in HsN.
  assert (length l = length (l2 ++ l1)) as Elen.
  { apply (f_equal length) in E. rewrite length_app in *. simpl in E. lia. }
  assert (hd_addr (l1 ++ [(f, fs)]) (hd_addr l2 base) = base) as Ehd by (destruct l1; injection E; intros; subst; done).
  assert (hdr f st = Header (hd_addr ((l2 ++ l1) ++ [(f, fs)]) (hd_addr l2 base)) fs) as Ehf.
  { rewrite (hdr_at f st _ Hhf), <- app_assoc. f_equal. by destruct l2. }
  assert (linked (u_hdrs st) ((l2 ++ l1) ++ [(f, fs)]) (hd_addr l2 base)) as HlR.
  { rewrite <- app_assoc. apply linked_app. rewrite Ehd. split; [done|]. apply linked_app. by split. }
  assert (Forall (fun m => m.1 <> f) (l2 ++ l1)) as Hne.
  { apply Forall_forall. intros m Hm. apply (sep_ne l1 f fs l2 m HsN). apply elem_of_app in Hm. tauto. }
  assert (forall m, m ∈ (l2 ++ l1) ++ [(f, fs)] <-> m ∈ (base, 0) :: l) as Hperm.
  { intros m. rewrite E, !elem_of_app, !elem_of_cons, elem_of_nil. tauto. }
  rewrite Ehf, Elen. cbn [h_ptr].
  destruct (malloc_walk grant n st (hd_addr l2 base) (l2 ++ l1) g f fs fs Ehf HlR Hne)
    as [(f' & pa & ps & a & s & Hp & Hh & Hi & Hfit & Hr)|(Hall & pa & Hr)]; fold f in Hr; rewrite Hr.
  - left.
    assert (pa ∈ map fst ((base, 0) :: l)) as Hpa.
    { apply list_elem_of_fmap. destruct Hp as [->|Hp]; [exists (f, fs); split; [done|]; apply Hperm, elem_of_app; right; left|].
      apply list_elem_of_fmap in Hp as (m & -> & Hm). exists m. split; [done|]. apply Hperm, elem_of_app. by left. }
    apply Hperm in Hi. destruct (linked_neighbours st l pa ps a s n Hok Hpa Hh Hi ltac:(lia)) as (m1 & m2 & Em).
    exact (malloc_fit grant n f' st l m1 pa ps a s m2 Hok Em ltac:(lia)).
  - right. split; [|by exists pa]. rewrite Forall_forall in Hall |- *. intros m Hm. apply Hall, Hperm. by right.
Qed.

(** *** More memory *)

Lemma freep_pos st l : heap_ok st l -> base <= u_freep st.
Proof.
  intros [_ [Hb _] _ Hf]. apply list_elem_of_fmap in Hf as (n & -> & Hn). apply elem_of_cons in Hn as [->|Hn]; [done|].
  rewrite Forall_forall in Hb. destruct (Hb n Hn) as [? _]. simpl in *. lia.
Qed.

(** All that is free is below the end of memory. *)
Definition below (l : list node) (brk : Z) : Prop := base + 16 <= brk /\ forall x, in_free l x -> x < brk.

Definition core (n : Z) : Z := Z.max n 4096.

Lemma core_bytes n : 1 <= n < 2 ^ 27 -> i32 ((if n <? 4096 then 4096 else n) * SIZEOF_HEADER) = 16 * core n.
Proof.
  intros Hn. assert ((if n <? 4096 then 4096 else n) = core n) as -> by (unfold core; destruct (Z.ltb_spec n 4096); lia).
  replace (core n * SIZEOF_HEADER) with (16 * core n) by (unfold SIZEOF_HEADER; lia). apply i32_small. unfold core. lia.
Qed.

Lemma morecore_ok n st l : heap_ok st l -> 1 <= n < 2 ^ 27 -> below l (u_brk st) -> u_brk st + 16 * core n <= lim -> lim < 2 ^ 64 ->
  let p := u_brk st in
  exists st' l', morecore true n st = Ok (u_freep st') st' /\ heap_ok st' l' /\
    (forall x, in_free l' x <-> in_free l x \/ p <= x < p + 16 * core n) /\
    (forall x, ~ in_free l' x -> x <> base -> u_hdrs st' !! x = u_hdrs st !! x) /\
    (size (u_hdrs st') <= S (size (u_hdrs st)))%nat /\ u_brk st' = p + 16 * core n.
Proof.
  intros Hok Hn [Hp Hbelow] Hlim1 Hlim2 p. assert (4096 <= core n < 2 ^ 27) as Hc by (unfold core; lia).
  set (st1 := Ustate (<[p := Header (h_ptr (hdr p st)) (core n)]> (u_hdrs st)) (u_freep st) (p + 16 * core n)).
  assert (forall m, m ∈ (base, 0) :: l -> m.1 <> p) as Hne.
  { intros m Hm Em. apply elem_of_cons in Hm as [->|Hm]; [simpl in Em; unfold p in Em; lia|]. destruct Hok as [_ _ Hz _].
    rewrite Forall_forall in Hz. destruct (Hz m Hm) as [? _].
    assert (p < p); [|lia]. apply Hbelow. apply Exists_exists. exists m. split; [done|lia]. }
  assert (heap_ok st1 l) as Hok1.
  { destruct Hok as [Hl Hs Hz Hf]. split; [|done..]. eapply linked_frame; [|exact Hl]. intros m Hm. cbn. apply lookup_insert_ne.
    intros E. by apply (Hne m). }
  destruct (free_ok st1 l p (core n) Hok1) as (st2 & l2 & Hr & Hok2 & Hin & Hfr & Hdom & Hbrk);
    [lia|done|unfold p; lia|by unfold st1; rewrite hdr_eq| |].
  { intros x Hx Hi. apply Hbelow in Hi. unfold p in Hx. lia. }
  exists st2, l2. split_and!; [|done|done| | |].
  - unfold morecore. cbv zeta. rewrite core_bytes by done. unfold sbrk. cbn [negb]. rewrite bind_bind, gets_bind, bind_bind, modify_bind.
    rewrite ret_bind. fold p. destruct (Z.eqb_spec p (-1)); [unfold p in *; lia|].
    rewrite set_size_bind, u32_small, u64_small by (destruct (n <? 4096); unfold p in *; lia). cbn [u_hdrs u_freep u_brk].
    assert ((if n <? 4096 then 4096 else n) = core n) as -> by (unfold core; destruct (Z.ltb_spec n 4096); lia).
    change (h_ptr (hdr p (Ustate (u_hdrs st) (u_freep st) (u_brk st + 16 * core n)))) with (h_ptr (hdr p st)).
    fold st1. rewrite (bind_ok _ _ _ _ _ Hr). done.
  - intros x Hx Hb. rewrite Hfr by done. cbn. apply lookup_insert_ne. intros <-. apply Hx, Hin. right. lia.
  - rewrite <- !size_dom. etrans; [apply subseteq_size, Hdom|]. cbn. rewrite dom_insert_L.
    etrans; [apply (subseteq_size _ ({[p]} ∪ dom (u_hdrs st))); set_solver|]. rewrite size_union_alt.
    etrans; [apply Nat.add_le_mono_l, subseteq_size, subseteq_difference_l; reflexivity|]. rewrite size_singleton. lia.
  - done.
Qed.

(** Bytes in a row that are free are in one block. *)
Lemma block_of_run l bp n : sep l -> 1 <= n -> (forall x, bp <= x < bp + 16 * n -> in_free l x) -> exists m, m ∈ l /\ n <= m.2.
Proof.
  intros Hs Hn Hin. destruct (proj1 (Exists_exists _ _) (Hin bp ltac:(lia))) as ([a s] & Hm & Ha). cbn [fst snd] in Ha.
  exists (a, s). split; [done|]. cbn. destruct (Z.le_gt_cases n s) as [|Hlt]; [done|exfalso].
  destruct (proj1 (Exists_exists _ _) (Hin (a + 16 * s) ltac:(lia))) as ([b t] & Hm' & Hb). cbn [fst snd] in Hb.
  apply list_elem_of_split in Hm as (l1 & l2 & ->). rewrite sep_app in Hs. destruct Hs as (_ & [H2 _] & H1).
  rewrite Forall_forall in H1, H2. apply elem_of_app in Hm' as [Hm'|Hm'].
  - specialize (H1 _ Hm'). apply Forall_cons in H1 as [[_ ?] _]. simpl in *. lia.
  - apply elem_of_cons in Hm' as [[= -> ->]|Hm']; [lia|]. destruct (H2 _ Hm') as [_ ?]. simpl in *. lia.
Qed.

(** What [malloc] promises: a block [bp] of [n] units out of the free bytes
    and, if [grown], of the new ones. *)
Definition mallocs (n : Z) (grown : bool) (l l' : list node) (st st' : ustate) (bp : Z) : Prop :=
  let avail x := in_free l x \/ grown = true /\ u_brk st <= x < u_brk st + 16 * core n in
  base + 16 <= bp /\ h_size (hdr bp st') = n /\
  (forall x, bp <= x < bp + 16 * n -> avail x) /\
  (forall x, in_free l' x <-> avail x /\ ~ bp <= x < bp + 16 * n) /\
  (forall x, ~ avail x -> x <> base -> u_hdrs st' !! x = u_hdrs st !! x) /\
  u_brk st' = if grown then u_brk st + 16 * core n else u_brk st.

Lemma malloc_loop_ok grant n st l : heap_ok st l -> 1 <= n < 2 ^ 27 -> below l (u_brk st) ->
  (grant = true -> u_brk st + 16 * core n <= lim) -> lim < 2 ^ 64 ->
  exists r st' l', malloc_loop (malloc_fuel st) grant n (u_freep st) (h_ptr (hdr (u_freep st) st)) st = Ok r st' /\ heap_ok st' l' /\
    ((exists bp grown, r = bp + SIZEOF_HEADER /\ mallocs n grown l l' st st' bp /\
        (grown = true -> grant = true /\ Forall (fun m => m.2 < n) l)) \/
     r = 0 /\ st' = st /\ l' = l /\ grant = false /\ Forall (fun m => m.2 < n) l).
Proof.
  intros Hok Hn Hb Hg H64. pose proof Hok as [Hl Hs _ _]. pose proof (linked_size _ _ _ Hl Hs) as Hsz. simpl in Hsz.
  unfold malloc_fuel. replace (4 * size (u_hdrs st) + 8)%nat with (length l + S (4 * size (u_hdrs st) + 7 - length l))%nat by lia.
  set (g := (4 * size (u_hdrs st) + 7 - length l)%nat).
  destruct (malloc_round grant n st l g Hok ltac:(lia)) as [(st' & l' & bp & Hr & Hok' & T1 & T2 & T3 & T4 & T5 & T6)|(Hno & pa & Hr)]; rewrite Hr.
  { exists (bp + SIZEOF_HEADER), st', l'. split_and!; try done. left. exists bp, false. split; [done|]. split; [|done]. split_and!; try done.
    - intros x Hx. left. auto.
    - intros x. rewrite T4. assert (false <> true) by done. tauto.
    - intros x Hx. apply T5. tauto. }
  (* no block fits *)
  assert (exists fs, hdr (u_freep st) st = Header (h_ptr (hdr (u_freep st) st)) fs /\ fs < n) as (fs & Hfs & Hlt).
  { destruct Hok as [_ _ _ Hf]. apply node_split in Hf as (l1 & fs & l2 & E). rewrite E in Hl. apply cut_linked in Hl as (_ & Hh & _).
    exists fs. rewrite (hdr_at _ _ _ Hh). split; [done|]. destruct l1; [injection E as _ <- _; lia|injection E as _ ->].
    apply Forall_app in Hno as [_ Hno]. by apply Forall_cons in Hno as [? _]. }
  cbn [malloc_loop]. rewrite size_bind, Hfs. cbn [h_size]. destruct (Z.geb_spec fs n); [lia|]. rewrite freep_bind, Z.eqb_refl.
  destruct grant.
  2:{ exists 0, st, l. split_and!; try done. by right. }
  destruct (morecore_ok n st l Hok Hn Hb (Hg eq_refl) H64) as (st2 & l2 & Hm & Hok2 & Hin2 & Hfr2 & Hsz2 & Hbrk2).
  rewrite (bind_ok _ _ _ _ _ Hm). pose proof (freep_pos _ _ Hok2) as Hpos. destruct (Z.eqb_spec (u_freep st2) 0); [lia|]. rewrite ptr_bind.
  pose proof Hok2 as [Hl2 Hs2 _ _]. pose proof (linked_size _ _ _ Hl2 Hs2) as Hlen2. simpl in Hlen2.
  replace g with (length l2 + S (g - 1 - length l2))%nat by (unfold g; lia).
  destruct (malloc_round true n st2 l2 (g - 1 - length l2) Hok2 ltac:(lia)) as [(st' & l' & bp & Hr2 & Hok' & T1 & T2 & T3 & T4 & T5 & T6)|(Hno2 & _)].
  - exists (bp + SIZEOF_HEADER), st', l'. split_and!; try done. left. exists bp, true. split; [done|]. split; [|done]. split_and!; try done.
    + intros x Hx. apply T3, Hin2 in Hx. tauto.
    + intros x. rewrite T4, Hin2. tauto.
    + intros x Hx Hxb. rewrite T5, Hfr2; try done; rewrite Hin2; tauto.
    + by rewrite T6.
  - exfalso. destruct (block_of_run ((base, 0) :: l2) (u_brk st) (core n) Hs2) as (m & Hm1 & Hm2); [unfold core; lia| |].
    + intros x Hx. apply in_free_base, Hin2. by right.
    + apply elem_of_cons in Hm1 as [->|Hm1]; [unfold core in Hm2; simpl in Hm2; lia|]. rewrite Forall_forall in Hno2.
      specialize (Hno2 m Hm1). unfold core in Hm2. lia.
Qed.

(** ** The operations *)

(** The list of a program; none before the first [malloc]. *)
Definition heap (st : ustate) (l : list node) : Prop := heap_ok st l \/ u_freep st = 0 /\ l = [].

Lemma nunits_ok nbytes : 0 <= nbytes < 2 ^ 31 - 64 -> 1 <= nunits_of nbytes < 2 ^ 27 /\ nbytes <= 16 * (nunits_of nbytes - 1).
Proof.
  intros Hn. unfold nunits_of, SIZEOF_HEADER. pose proof (Z.div_mod (nbytes + 16 - 1) 16 ltac:(lia)) as Hd.
  pose proof (Z.mod_pos_bound (nbytes + 16 - 1) 16 ltac:(lia)) as Hm. rewrite u32_small by lia. lia.
Qed.

Lemma malloc_ok grant nbytes st l : heap st l -> 0 <= nbytes < 2 ^ 31 - 64 -> below l (u_brk st) ->
  (grant = true -> u_brk st + 16 * core (nunits_of nbytes) <= lim) -> lim < 2 ^ 64 ->
  exists r st' l', malloc base grant nbytes st = Ok r st' /\ heap_ok st' l' /\
    ((exists bp grown, r = bp + SIZEOF_HEADER /\ mallocs (nunits_of nbytes) grown l l' st st' bp /\ (grown = true -> grant = true)) \/
     r = 0 /\ grant = false /\ l' = l /\ u_brk st' = u_brk st /\ (forall x, x <> base -> u_hdrs st' !! x = u_hdrs st !! x)).
Proof.
  intros Hh Hn Hb Hg H64. destruct (nunits_ok nbytes Hn) as [Hn1 _].
  assert (exists st0, heap_ok st0 l /\ u_brk st0 = u_brk st /\ (forall x, x <> base -> u_hdrs st0 !! x = u_hdrs st !! x) /\
    malloc base grant nbytes st = malloc_loop (malloc_fuel st0) grant (nunits_of nbytes) (u_freep st0) (h_ptr (hdr (u_freep st0) st0)) st0)
    as (st0 & Hok & Hbrk & Hfr & ->).
  { destruct Hh as [Hok|[Hf ->]].
    - exists st. split_and!; try done. unfold malloc. cbv zeta. rewrite freep_bind. pose proof (freep_pos _ _ Hok).
      destruct (Z.eqb_spec (u_freep st) 0); [lia|done].
    - exists (Ustate (<[base := Header base 0]> (u_hdrs st)) base (u_brk st)). split_and!; [|done| |].
      + split; cbn; [split; [apply lookup_insert_eq|done]|done|constructor|left].
      + intros x Hx. cbn. by rewrite lookup_insert_ne.
      + unfold malloc. cbv zeta. rewrite freep_bind, Hf. cbn [Z.eqb]. rewrite bind_bind, set_freep_bind, bind_bind, set_ptr_bind, bind_bind, set_size_bind, ret_bind.
        cbn [u_hdrs u_freep u_brk]. rewrite hdr_eq, insert_insert_eq. done. }
  rewrite <- Hbrk in Hb, Hg. destruct (malloc_loop_ok grant (nunits_of nbytes) st0 l Hok Hn1 Hb Hg H64) as (r & st' & l' & Hr & Hok' & Hres).
  exists r, st', l'. split_and!; [done|done|]. destruct Hres as [(bp & grown & -> & Hm & Hgr)|(-> & -> & -> & -> & _)]; [left|right; done].
  exists bp, grown. split_and!; [done| |by intros ?%Hgr; tauto]. destruct Hm as (M1 & M2 & M3 & M4 & M5 & M6). rewrite Hbrk in *.
  split_and!; try done. intros x Hx Hxb. rewrite M5, Hfr; done.
Qed.

(** ** A program

    It calls [malloc] and [free], and writes what it likes into the blocks it
    has, a list of addresses of headers and sizes. *)
Record client := Client { cl_st : ustate; cl_live : list node }.

Inductive cstep : client -> client -> Prop :=
  | cs_malloc st live grant nbytes r st' : 0 <= nbytes < 2 ^ 31 - 64 ->
      (grant = true -> u_brk st + 16 * core (nunits_of nbytes) <= lim) ->
      malloc base grant nbytes st = Ok r st' ->
      cstep (Client st live) (Client st' (if r =? 0 then live else (r - SIZEOF_HEADER, nunits_of nbytes) :: live))
  | cs_free st live1 bp n live2 st' : free (bp + SIZEOF_HEADER) st = Ok tt st' ->
      cstep (Client st (live1 ++ (bp, n) :: live2)) (Client st' (live1 ++ live2))
  | cs_write st live bp n hs : (bp, n) ∈ live -> (forall a, ~ bp + 16 <= a < bp + 16 * n -> hs !! a = u_hdrs st !! a) ->
      cstep (Client st live) (Client (Ustate hs (u_freep st) (u_brk st)) live).

Definition disj (b b' : node) : Prop := b.1 + 16 * b.2 <= b'.1 \/ b'.1 + 16 * b'.2 <= b.1.

Fixpoint disjoint_all (l : list node) : Prop :=
  match l with [] => True | b :: l => Forall (disj b) l /\ disjoint_all l end.

Lemma disjoint_mid l1 b l2 : disjoint_all (l1 ++ b :: l2) <-> disjoint_all (l1 ++ l2) /\ Forall (disj b) (l1 ++ l2).
Proof.
  induction l1 as [|c l1 IH]; simpl; [tauto|]. rewrite IH, !Forall_app, !Forall_cons, Forall_app.
  assert (disj c b <-> disj b c) as -> by (unfold disj; tauto). tauto.
Qed.

(** What is known of a block in use. *)
Definition live_ok (st : ustate) (l : list node) (b : node) : Prop :=
  1 <= b.2 /\ base + 16 <= b.1 /\ b.1 + 16 * b.2 <= u_brk st /\ h_size (hdr b.1 st) = b.2 /\
  forall x, b.1 <= x < b.1 + 16 * b.2 -> ~ in_free l x.

Record client_ok (c : client) (l : list node) : Prop := {
  co_heap : heap (cl_st c) l;
  co_started : cl_live c <> [] -> heap_ok (cl_st c) l;
  co_below : below l (u_brk (cl_st c));
  co_brk : u_brk (cl_st c) <= lim;
  co_live : Forall (live_ok (cl_st c) l) (cl_live c);
  co_disjoint : disjoint_all (cl_live c) }.

Lemma malloc_step st live l grant nbytes r st' : lim < 2 ^ 64 -> client_ok (Client st live) l -> 0 <= nbytes < 2 ^ 31 - 64 ->
  (grant = true -> u_brk st + 16 * core (nunits_of nbytes) <= lim) -> malloc base grant nbytes st = Ok r st' ->
  exists l', client_ok (Client st' (if r =? 0 then live else (r - SIZEOF_HEADER, nunits_of nbytes) :: live)) l'.
Proof.
  intros H64 [Hh _ Hb Hbrk Hlv Hd] Hn Hg Hm. cbn [cl_st cl_live] in *. destruct (nunits_ok nbytes Hn) as [Hn1 _]. set (n := nunits_of nbytes) in *.
  destruct (malloc_ok grant nbytes st l Hh Hn Hb Hg H64) as (r' & st2 & l' & Hm' & Hok' & Hres). rewrite Hm' in Hm. injection Hm as -> ->.
  rewrite Forall_forall in Hlv. exists l'.
  destruct Hres as [(bp & grown & -> & (M1 & M2 & M3 & M4 & M5 & M6) & Hgr)|(-> & _ & -> & Hb' & Hfr)].
  - fold n in M1, M2, M3, M4, M5, M6. destruct (Z.eqb_spec (bp + SIZEOF_HEADER) 0); [unfold SIZEOF_HEADER in *; lia|].
    replace (bp + SIZEOF_HEADER - SIZEOF_HEADER) with bp by lia. destruct Hb as [Hb1 Hb2].
    set (avail x := in_free l x \/ grown = true /\ u_brk st <= x < u_brk st + 16 * core n) in *.
    assert (u_brk st <= u_brk st' /\ forall x, avail x -> x < u_brk st') as [Hup Hav].
    { assert (4096 <= core n) by (unfold core; lia). rewrite M6. unfold avail.
      destruct grown; (split; [lia|]); intros x [Hx|[? Hx]]; try done; try lia; specialize (Hb2 x Hx); lia. }
    assert (forall b, b ∈ live -> forall x, b.1 <= x < b.1 + 16 * b.2 -> ~ avail x) as Hna.
    { intros b Hbl x Hx [Hf|[_ Hc]]; destruct (Hlv b Hbl) as (_ & _ & Hbb & _ & Hnf); [by apply (Hnf x)|lia]. }
    split; cbn [cl_st cl_live]; [by left|done| | | |].
    + split; [lia|]. intros x Hx. apply M4 in Hx as [Hx _]. by apply Hav.
    + rewrite M6. destruct grown; [|done]. by apply Hg, Hgr.
    + constructor; [|apply Forall_forall; intros b Hbl].
      * split_and!; cbn [fst snd]; [lia|lia| |done|].
        -- assert (bp + 16 * n - 1 < u_brk st'); [|lia]. apply Hav, M3. lia.
        -- intros x Hx Hf. apply M4 in Hf as [_ Hf]. done.
      * destruct (Hlv b Hbl) as (L1 & L2 & L3 & L4 & L5). split_and!; [done|done|lia| |].
        -- unfold hdr in *. rewrite M5; [done| |lia]. apply (Hna b Hbl). lia.
        -- intros x Hx Hf. apply M4 in Hf as [Hf _]. by apply (Hna b Hbl x).
    + split; [|done]. apply Forall_forall. intros b Hbl. unfold disj. cbn [fst snd]. destruct (Hlv b Hbl) as (L1 & _).
      destruct (Z.le_gt_cases (bp + 16 * n) b.1) as [|G1]; [by left|]. destruct (Z.le_gt_cases (b.1 + 16 * b.2) bp) as [|G2]; [by right|].
      exfalso. apply (Hna b Hbl (Z.max bp b.1)); [lia|]. apply M3. lia.
  - cbn [Z.eqb]. split; cbn [cl_st cl_live]; rewrite ?Hb'; try done; [by left|]. apply Forall_forall. intros b Hbl.
    destruct (Hlv b Hbl) as (L1 & L2 & L3 & L4 & L5). split_and!; try done; [by rewrite Hb'|]. unfold hdr in *. rewrite Hfr; [done|lia].
Qed.

Lemma free_live st live l bp n : client_ok (Client st live) l -> (bp, n) ∈ live ->
  exists st' l', free (bp + SIZEOF_HEADER) st = Ok tt st' /\ heap_ok st' l' /\ frees bp n l l' st st'.
Proof.
  intros [_ Hh Hb Hbrk Hlv Hd] Hi. cbn [cl_st cl_live] in *. rewrite Forall_forall in Hlv.
  destruct (Hlv _ Hi) as (L1 & L2 & L3 & L4 & L5). cbn [fst snd] in *.
  apply free_ok; try done; [|lia]. apply Hh. intros ->. by apply not_elem_of_nil in Hi.
Qed.

Lemma free_step st live1 bp n live2 l st' : client_ok (Client st (live1 ++ (bp, n) :: live2)) l ->
  free (bp + SIZEOF_HEADER) st = Ok tt st' -> exists l', client_ok (Client st' (live1 ++ live2)) l'.
Proof.
  intros Hc Hf. destruct (free_live _ _ _ bp n Hc) as (st2 & l' & Hf' & Hok & Hin & Hfr & _ & Hbk).
  { apply elem_of_app. right. left. }
  rewrite Hf' in Hf. injection Hf as ->. exists l'. destruct Hc as [_ _ [Hb1 Hb2] Hbrk Hlv Hd]. cbn [cl_st cl_live] in *.
  apply disjoint_mid in Hd as [Hd Hdb]. apply Forall_app in Hlv as [Hlv1 Hlv2]. apply Forall_cons in Hlv2 as [(L1 & L2 & L3 & L4 & L5) Hlv2].
  cbn [fst snd] in *. assert (Forall (live_ok st l) (live1 ++ live2)) as Hlv by (by apply Forall_app).
  split; cbn [cl_st cl_live]; rewrite ?Hbk; try done; [by left| |].
  - split; [done|]. intros x [Hx|Hx]%Hin; [auto|lia].
  - rewrite Forall_forall in Hlv, Hdb |- *. intros b Hbl. destruct (Hlv b Hbl) as (K1 & K2 & K3 & K4 & K5).
    assert (forall x, b.1 <= x < b.1 + 16 * b.2 -> ~ in_free l' x) as Hno.
    { intros x Hx [Hi|Hi]%Hin; [by apply (K5 x)|]. specialize (Hdb b Hbl). unfold disj in Hdb. cbn [fst snd] in Hdb. lia. }
    split_and!; try done; [by rewrite Hbk|]. unfold hdr in *. rewrite Hfr; [done| |lia]. apply Hno. lia.
Qed.

Lemma write_step st live bp n l hs : client_ok (Client st live) l -> (bp, n) ∈ live ->
  (forall a, ~ bp + 16 <= a < bp + 16 * n -> hs !! a = u_hdrs st !! a) ->
  client_ok (Client (Ustate hs (u_freep st) (u_brk st)) live) l.
Proof.
  intros [Hh Hst Hb Hbrk Hlv Hd] Hi Hw. cbn [cl_st cl_live] in *. pose proof Hlv as Hlv'. rewrite Forall_forall in Hlv'.
  destruct (Hlv' _ Hi) as (L1 & L2 & L3 & L4 & L5). cbn [fst snd] in *.
  assert (heap_ok st l -> heap_ok (Ustate hs (u_freep st) (u_brk st)) l) as Hk.
  { intros [Hl Hs Hz Hf]. split; try done. eapply linked_frame; [|exact Hl]. intros m Hm. cbn. apply Hw. intros Hin.
    apply elem_of_cons in Hm as [->|Hm]; [simpl in Hin; lia|]. rewrite Forall_forall in Hz. destruct (Hz m Hm) as [? _].
    apply (L5 m.1); [lia|]. apply Exists_exists. exists m. split; [done|lia]. }
  split; cbn [cl_st cl_live]; try done; [destruct Hh as [?|?]; [left; auto|by right]|auto|].
  apply Forall_forall. intros b Hbl. destruct (Hlv' b Hbl) as (K1 & K2 & K3 & K4 & K5). split_and!; try done.
  unfold hdr in *. cbn [u_hdrs]. rewrite Hw; [done|]. apply list_elem_of_split in Hi as (l1 & l2 & ->).
  apply disjoint_mid in Hd as [_ Hdb]. apply elem_of_app in Hbl as [Hbl|Hbl]; [|apply elem_of_cons in Hbl as [->|Hbl]; [simpl; lia|]];
    rewrite Forall_forall in Hdb; specialize (Hdb b ltac:(apply elem_of_app; tauto)); unfold disj in Hdb; cbn [fst snd] in Hdb; lia.
Qed.

Lemma client_reachable brk c : lim < 2 ^ 64 -> base + 16 <= brk <= lim -> rtc cstep (Client (ustate0 brk) []) c -> exists l, client_ok c l.
Proof.
  intros H64 Hbrk Hr. assert (client_ok (Client (ustate0 brk) []) []) as H0.
  { split; cbn; try done; [by right|split; [lia|by intros x ?%Exists_nil]|lia]. }
  revert H0. generalize (@nil node) at 2. induction Hr as [c|c1 c2 c3 Hs _ IH]; intros l Hl; [by exists l|].
  assert (exists l', client_ok c2 l') as [l' Hl']; [|by eapply IH].
  destruct Hs as [st live grant nbytes r st' Hn Hg Hm|st live1 bp n live2 st' Hf|st live bp n hs Hi Hw].
  - by eapply malloc_step.
  - by eapply free_step.
  - exists l. by eapply write_step.
Qed.



End heap.

(** A request for most of the address space is granted by an increment of 16
    bytes: the number of bytes asked for does not fit the [int] that [sbrk]
    takes. *)
Theorem malloc_truncates : exists st, malloc 0x1000 true 4294967295 (ustate0 0x4000) = Ok 0x4010 st /\
  u_brk st = 0x4010 /\ h_size (hdr 0x4000 st) = 268435457.
Proof. eexists. split; [vm_compute; reflexivity|]. split; reflexivity. Qed.

Definition ex_client : client :=
  match malloc 0x1000 true 100 (ustate0 0x4000) with
  | Ok r st => Client st [(r - SIZEOF_HEADER, nunits_of 100)]
  | _ => Client (ustate0 0) []
  end.

