(* ===== verification/UProg.v ===== *)
(** User programs as trees of system calls, and the processes that run them.

    A program makes a call and goes on with the answer.  The answer is the
    value the call returns and what the kernel stores for it: the bytes read,
    the two descriptors of a pipe, or the fields of a [struct stat].  A loop
    that waits for input takes fuel; a program that has used it up stands
    still.

    The processes of a system take turns, a call at a time.  The calls on
    descriptors and processes answer as the kernel does: the lowest free
    descriptor is given (FileProps.v), [wait] takes a child that has exited
    and [exit] leaves the children to [init] (ProcProps.v).  Every other call,
    and every call that can fail, answers as it pleases. *)

From Stdlib Require Import String.
From S2P Require Import Prelude UPrintf ULog.

Record answer := Answer { ret : Z; data : list Z }.

Inductive call :=
  | SYS_fork
  | SYS_wait
  | SYS_pipe
  | SYS_read (fd n : Z)
  | SYS_kill (pid : Z)
  | SYS_exec (path : list Z) (argv : list (list Z))
  | SYS_fstat (fd : Z)
  | SYS_chdir (path : list Z)
  | SYS_dup (fd : Z)
  | SYS_sleep (n : Z)
  | SYS_uptime
  | SYS_open (path : list Z) (mode : Z)
  | SYS_write (fd : Z) (bytes : list Z)
  | SYS_mknod (path : list Z) (major minor : Z)
  | SYS_unlink (path : list Z)
  | SYS_link (old new : list Z)
  | SYS_mkdir (path : list Z)
  | SYS_close (fd : Z).

Inductive prog (A : Type) :=
  | Ret (a : A)
  | Exit (status : Z)
  | NoFuel
  | Call (c : call) (k : answer -> prog A).
Arguments Ret {A} a.
Arguments Exit {A} status.
Arguments NoFuel {A}.
Arguments Call {A} c k.

Fixpoint prog_bind {A B} (f : A -> prog B) (p : prog A) : prog B :=
  match p with
  | Ret a => f a
  | Exit n => Exit n
  | NoFuel => NoFuel
  | Call c k => Call c (fun r => prog_bind f (k r))
  end.

#[global] Instance prog_ret : MRet prog := @Ret.
#[global] Instance prog_mbind : MBind prog := @prog_bind.

Definition sys (c : call) : prog Z := Call c (fun r => Ret (ret r)).
Definition sys_data (c : call) : prog (Z * list Z) := Call c (fun r => Ret (ret r, data r)).

(** [fprintf] writes byte by byte. *)
Fixpoint put (fd : Z) (bytes : list Z) : prog unit :=
  match bytes with
  | [] => mret tt
  | c :: bytes => sys (SYS_write fd [c]);; put fd bytes
  end.
Definition print (fd : Z) (fmt : list Z) (ap : list varg) : prog unit :=
  put fd (default [] (fprintf fmt ap)).
#[global] Arguments print : simpl never.

(** A panic of the Zig library stops at a breakpoint, for which the kernel
    ends the process. *)
Definition zig_panic {A} : prog A := Exit (-1).

(** [sys.write(1, bytes)], with a panic on a short write; nothing is written
    for no bytes. *)
Definition write_out (bytes : list Z) : prog unit :=
  match bytes with
  | [] => mret tt
  | _ =>
      n ← sys (SYS_write 1 bytes);
      if n <? Z.of_nat (length bytes) then zig_panic else mret tt
  end.

(** [printf] writes piece by piece. *)
Fixpoint write_pieces (l : list (list Z)) : prog unit :=
  match l with
  | [] => mret tt
  | x :: l => write_out x;; write_pieces l
  end.
Definition printf (fmt : list Z) (ap : list varg) : prog unit :=
  match fmt with
  | [] => zig_panic
  | _ => write_pieces (default [] (pieces fmt ap))
  end.
#[global] Arguments printf : simpl never.

(** ** Processes *)

(** What a descriptor stands for: something the process was started with, an
    end of a pipe, or a file opened by name. *)
Inductive object := Given (n : nat) | PipeRead (id : nat) | PipeWrite (id : nat) | Opened (path : list Z) (mode : Z).

Definition fdtable := gmap nat object.

Definition NOFILE : nat := 16.

(** The first of [n] descriptors from [i] that is free. *)
Fixpoint free_from (t : fdtable) (i n : nat) : option nat :=
  match n with
  | O => None
  | S n' => match t !! i with None => Some i | Some _ => free_from t (S i) n' end
  end.
Definition fdalloc (t : fdtable) : option nat := free_from t 0 NOFILE.

Definition fd_of (t : fdtable) (fd : Z) : option (nat * object) :=
  if fd <? 0 then None else o ← t !! Z.to_nat fd; Some (Z.to_nat fd, o).

(** The code of a process: a program of this development, another program that
    it has turned into, or the status it has exited with. *)
Inductive code := Run (p : prog Empty_set) | Image (path : list Z) (argv : list (list Z)) | Zombie (status : Z).

Record process := Process { p_code : code; p_fds : fdtable; p_kids : list nat }.

Record system := System { procs : gmap nat process; next_pipe : nat }.

(** The answers to a call that concerns the process alone, and its descriptors
    after it. *)
Inductive local (n : nat) (t : fdtable) : call -> answer -> fdtable -> Prop :=
  | lc_close fd i o d : fd_of t fd = Some (i, o) -> local n t (SYS_close fd) (Answer 0 d) (delete i t)
  | lc_close_bad fd d : fd_of t fd = None -> local n t (SYS_close fd) (Answer (-1) d) t
  | lc_dup fd i o j d : fd_of t fd = Some (i, o) -> fdalloc t = Some j -> local n t (SYS_dup fd) (Answer (Z.of_nat j) d) (<[j := o]> t)
  | lc_dup_bad fd d : fd_of t fd = None \/ fdalloc t = None -> local n t (SYS_dup fd) (Answer (-1) d) t
  | lc_open path mode j d : fdalloc t = Some j -> local n t (SYS_open path mode) (Answer (Z.of_nat j) d) (<[j := Opened path mode]> t)
  | lc_open_bad path mode d : local n t (SYS_open path mode) (Answer (-1) d) t
  | lc_pipe i j : fdalloc t = Some i -> fdalloc (<[i := PipeRead n]> t) = Some j ->
      local n t SYS_pipe (Answer 0 [Z.of_nat i; Z.of_nat j]) (<[j := PipeWrite n]> (<[i := PipeRead n]> t))
  | lc_pipe_bad d : local n t SYS_pipe (Answer (-1) d) t
  | lc_exec_bad path argv d : local n t (SYS_exec path argv) (Answer (-1) d) t
  | lc_other c r : match c with
      | SYS_read _ _ | SYS_kill _ | SYS_fstat _ | SYS_chdir _ | SYS_sleep _ | SYS_uptime | SYS_write _ _
      | SYS_mknod _ _ _ | SYS_unlink _ | SYS_link _ _ | SYS_mkdir _ => True
      | _ => False end -> local n t c r t.

(** The process that orphans are given to. *)
Definition init_pid : nat := 1.

Definition adopt (kids : list nat) (s : gmap nat process) : gmap nat process :=
  alter (fun p => Process (p_code p) (p_fds p) (p_kids p ++ kids)) init_pid s.

Inductive step : system -> system -> Prop :=
  | st_local s pid c k t kids r t' :
      procs s !! pid = Some (Process (Run (Call c k)) t kids) -> local (next_pipe s) t c r t' ->
      step s (System (<[pid := Process (Run (k r)) t' kids]> (procs s)) (S (next_pipe s)))
  | st_exec s pid path argv k t kids :
      procs s !! pid = Some (Process (Run (Call (SYS_exec path argv) k)) t kids) ->
      step s (System (<[pid := Process (Image path argv) t kids]> (procs s)) (next_pipe s))
  | st_fork s pid k t kids child d d' :
      procs s !! pid = Some (Process (Run (Call SYS_fork k)) t kids) -> procs s !! child = None -> (0 < child)%nat ->
      step s (System (<[child := Process (Run (k (Answer 0 d))) t []]>
        (<[pid := Process (Run (k (Answer (Z.of_nat child) d'))) t (kids ++ [child])]> (procs s))) (next_pipe s))
  | st_fork_bad s pid k t kids d :
      procs s !! pid = Some (Process (Run (Call SYS_fork k)) t kids) ->
      step s (System (<[pid := Process (Run (k (Answer (-1) d))) t kids]> (procs s)) (next_pipe s))
  | st_wait s pid k t kids1 child kids2 status t' kids' d :
      procs s !! pid = Some (Process (Run (Call SYS_wait k)) t (kids1 ++ child :: kids2)) ->
      procs s !! child = Some (Process (Zombie status) t' kids') ->
      step s (System (delete child (<[pid := Process (Run (k (Answer (Z.of_nat child) d))) t (kids1 ++ kids2)]> (procs s))) (next_pipe s))
  | st_wait_bad s pid k t d :
      procs s !! pid = Some (Process (Run (Call SYS_wait k)) t []) ->
      step s (System (<[pid := Process (Run (k (Answer (-1) d))) t []]> (procs s)) (next_pipe s))
  | st_exit s pid n t kids : pid <> init_pid ->
      procs s !! pid = Some (Process (Run (Exit n)) t kids) ->
      step s (System (adopt kids (<[pid := Process (Zombie n) ∅ []]> (procs s))) (next_pipe s))
  | st_image_exit s pid n path argv t kids : pid <> init_pid ->
      procs s !! pid = Some (Process (Image path argv) t kids) ->
      step s (System (adopt kids (<[pid := Process (Zombie n) ∅ []]> (procs s))) (next_pipe s)).

(** ** What a program may meet

    [wp p Q t kids]: whatever the answers, a process with the descriptors [t]
    and the children [kids] that runs [p] meets [G] when it turns into another
    program, [W] when it waits for a child, and [Q] when it returns; and so do
    the processes that it forks. *)
Section wp.
Context (G : list Z -> list (list Z) -> fdtable -> list nat -> Prop) (W : fdtable -> list nat -> Prop).

Fixpoint wp {A} (p : prog A) (Q : A -> fdtable -> list nat -> Prop) (t : fdtable) (kids : list nat) : Prop :=
  match p with
  | Ret a => Q a t kids
  | Exit _ | NoFuel => True
  | Call c k =>
      match c with
      | SYS_exec path argv => G path argv t kids /\ forall d, wp (k (Answer (-1) d)) Q t kids
      | SYS_fork => forall d, wp (k (Answer (-1) d)) Q t kids /\ wp (k (Answer 0 d)) Q t [] /\
          forall child, (0 < child)%nat -> wp (k (Answer (Z.of_nat child) d)) Q t (kids ++ [child])
      | SYS_wait => W t kids /\ forall d, (forall kids1 child kids2, kids = kids1 ++ child :: kids2 ->
            wp (k (Answer (Z.of_nat child) d)) Q t (kids1 ++ kids2)) /\
          (kids = [] -> wp (k (Answer (-1) d)) Q t kids)
      | _ => forall n r t', local n t c r t' -> wp (k r) Q t' kids
      end
  end.

Lemma wp_bind {A B} (p : prog A) (f : A -> prog B) Q t kids :
  wp p (fun a => wp (f a) Q) t kids -> wp (p ≫= f) Q t kids.
Proof.
  revert t kids. induction p as [a|n| |c k IH]; intros t kids H; try done.
  destruct c; cbn in *; naive_solver.
Qed.

Lemma wp_mono {A} (p : prog A) (Q Q' : A -> fdtable -> list nat -> Prop) t kids :
  (forall a t' kids', Q a t' kids' -> Q' a t' kids') -> wp p Q t kids -> wp p Q' t kids.
Proof.
  intros HQ. revert t kids. induction p as [a|n| |c k IH]; intros t kids H; [by apply HQ|done..|].
  destruct c; cbn in *; naive_solver.
Qed.

(** What is printed changes nothing. *)
Lemma wp_put fd bytes Q t kids : Q tt t kids -> wp (put fd bytes) Q t kids.
Proof. intros H. induction bytes as [|c bytes IH]; [done|]. cbn. intros n r t' Hl. by inversion Hl; subst. Qed.

Lemma wp_print fd fmt ap Q t kids : Q tt t kids -> wp (print fd fmt ap) Q t kids.
Proof. apply wp_put. Qed.

(** A call with an answer of no effect on the process. *)
Lemma wp_other {A} (c : call) (f : Z -> prog A) Q t kids :
  match c with
  | SYS_read _ _ | SYS_kill _ | SYS_fstat _ | SYS_chdir _ | SYS_sleep _ | SYS_uptime | SYS_write _ _
  | SYS_mknod _ _ _ | SYS_unlink _ | SYS_link _ _ | SYS_mkdir _ => True
  | _ => False end ->
  (forall r, wp (f r) Q t kids) -> wp (sys c ≫= f) Q t kids.
Proof. intros Hc H. destruct c; try done; cbn; intros ? ? ? Hl; inversion Hl; by subst. Qed.

(** The rules of the calls. *)
Lemma wp_local {A} (c : call) (f : Z -> prog A) Q t kids :
  match c with SYS_fork | SYS_wait | SYS_exec _ _ => False | _ => True end ->
  (forall n r t', local n t c r t' -> wp (f (ret r)) Q t' kids) -> wp (sys c ≫= f) Q t kids.
Proof. by destruct c. Qed.

Lemma wp_local_data {A} (c : call) (f : Z * list Z -> prog A) Q t kids :
  match c with SYS_fork | SYS_wait | SYS_exec _ _ => False | _ => True end ->
  (forall n r t', local n t c r t' -> wp (f (ret r, data r)) Q t' kids) -> wp (sys_data c ≫= f) Q t kids.
Proof. by destruct c. Qed.

Lemma wp_exec {A} path argv (f : Z -> prog A) Q t kids :
  G path argv t kids -> wp (f (-1)) Q t kids -> wp (sys (SYS_exec path argv) ≫= f) Q t kids.
Proof. done. Qed.

Lemma wp_fork {A} (f : Z -> prog A) Q t kids : wp (f (-1)) Q t kids -> wp (f 0) Q t [] ->
  (forall child, (0 < child)%nat -> wp (f (Z.of_nat child)) Q t (kids ++ [child])) -> wp (sys SYS_fork ≫= f) Q t kids.
Proof. done. Qed.

Lemma wp_wait {A} (f : Z -> prog A) Q t kids : W t kids -> kids <> [] ->
  (forall kids1 child kids2, kids = kids1 ++ child :: kids2 -> wp (f (Z.of_nat child)) Q t (kids1 ++ kids2)) ->
  wp (sys SYS_wait ≫= f) Q t kids.
Proof. intros Hw Hk H. cbn. split; [done|]. intros _. split; [auto|done]. Qed.

(** What is known of a process that runs, or that has turned into another
    program. *)
Definition fits (p : process) : Prop :=
  match p_code p with
  | Run c => wp c (fun _ _ _ => True) (p_fds p) (p_kids p)
  | Image path argv => G path argv (p_fds p) (p_kids p)
  | Zombie _ => True
  end.

(** [init] holds the place that orphans are given to. *)
Definition all_fit (s : system) : Prop :=
  (exists path argv t kids, procs s !! init_pid = Some (Process (Image path argv) t kids)) /\
  forall pid p, pid <> init_pid -> procs s !! pid = Some p -> fits p.

Lemma all_fit_insert ps n n' pid p : pid <> init_pid -> all_fit (System ps n) -> fits p -> all_fit (System (<[pid := p]> ps) n').
Proof.
  intros Hp [(path & argv & t & kids & Hi) H] Hf. split; [exists path, argv, t, kids; cbn; by rewrite lookup_insert_ne|].
  intros q x Hq. cbn. destruct (decide (pid = q)) as [->|]; [rewrite lookup_insert_eq; by intros [= <-]|].
  rewrite lookup_insert_ne by done. by apply H.
Qed.

Lemma all_fit_adopt ps n kids : all_fit (System ps n) -> all_fit (System (adopt kids ps) n).
Proof.
  intros [(path & argv & t & kids' & Hi) H]. unfold adopt. split.
  - exists path, argv, t, (kids' ++ kids). cbn in *. by rewrite lookup_alter_eq, Hi.
  - intros q x Hq. cbn. rewrite lookup_alter_ne by done. by apply H.
Qed.

Lemma all_fit_delete ps n pid : pid <> init_pid -> all_fit (System ps n) -> all_fit (System (delete pid ps) n).
Proof.
  intros Hp [(path & argv & t & kids & Hi) H]. split; [exists path, argv, t, kids; cbn; by rewrite lookup_delete_ne|].
  intros q x Hq. cbn. intros [_ Hx]%lookup_delete_Some. by eapply H.
Qed.

Lemma all_fit_next s n : all_fit s -> all_fit (System (procs s) n).
Proof. by intros [? ?]. Qed.

Lemma step_all_fit s s' : step s s' -> all_fit s -> all_fit s'.
Proof.
  intros Hstep Hs. pose proof Hs as [(path0 & argv0 & t0 & kids0 & Hi) Hf].
  assert (forall pid p, procs s !! pid = Some p -> (forall path argv, p_code p <> Image path argv) -> pid <> init_pid) as Hne.
  { intros pid p Hp Hc ->. rewrite Hi in Hp. injection Hp as <-. by destruct (Hc path0 argv0). }
  inversion Hstep as [? pid c k t kids r t' Hp Hl|? pid path argv k t kids Hp|? pid k t kids child d d' Hp Hc Hpos
    |? pid k t kids d Hp|? pid k t kids1 child kids2 status t' kids' d Hp Hc|? pid k t d Hp
    |? pid n t kids Hn Hp|? pid n path argv t kids Hn Hp]; subst;
    try (assert (pid <> init_pid) as Hn by (eapply Hne; [done|done]));
    pose proof (Hf pid _ Hn Hp) as Hw; unfold fits in Hw; cbn in Hw.
  - eapply (all_fit_insert _ (next_pipe s)); [done|by apply all_fit_next|]. unfold fits; cbn.
    inversion Hl; subst; try (by eapply Hw); try naive_solver. destruct c; try done; by eapply Hw.
  - apply (all_fit_insert _ (next_pipe s)); [done|by apply all_fit_next|]. by destruct Hw.
  - assert (child <> init_pid) as Hcn by (intros ->; congruence).
    destruct (Hw d) as (_ & H0 & _). destruct (Hw d') as (_ & _ & H1).
    apply (all_fit_insert _ (next_pipe s)); [done| |done].
    apply (all_fit_insert _ (next_pipe s)); [done|by apply all_fit_next|]. by apply H1.
  - apply (all_fit_insert _ (next_pipe s)); [done|by apply all_fit_next|]. by apply Hw.
  - assert (child <> init_pid) as Hcn by (eapply Hne; [done|done]). apply all_fit_delete; [done|].
    apply (all_fit_insert _ (next_pipe s)); [done|by apply all_fit_next|]. by eapply Hw.
  - apply (all_fit_insert _ (next_pipe s)); [done|by apply all_fit_next|]. by eapply Hw.
  - apply all_fit_adopt. apply (all_fit_insert _ (next_pipe s)); [done|by apply all_fit_next|done].
  - apply all_fit_adopt. apply (all_fit_insert _ (next_pipe s)); [done|by apply all_fit_next|done].
Qed.

Lemma steps_all_fit s s' : rtc step s s' -> all_fit s -> all_fit s'.
Proof. induction 1; eauto using step_all_fit. Qed.
End wp.
#[global] Arguments wp : simpl never.

(** ** Runs of one program

    The calls a program makes and their answers, and how it ends. *)
Inductive ending (A : Type) := Returned (a : A) | Exited (status : Z) | Starved.
Arguments Returned {A} a.
Arguments Exited {A} status.
Arguments Starved {A}.

Inductive runs {A} : prog A -> list (call * answer) -> ending A -> Prop :=
  | rn_ret a : runs (Ret a) [] (Returned a)
  | rn_exit n : runs (Exit n) [] (Exited n)
  | rn_starved : runs NoFuel [] Starved
  | rn_call c k r tr e : runs (k r) tr e -> runs (Call c k) ((c, r) :: tr) e.

Lemma runs_bind {A B} (p : prog A) (f : A -> prog B) tr e : runs (p ≫= f) tr e ->
  (exists a tr1 tr2, tr = tr1 ++ tr2 /\ runs p tr1 (Returned a) /\ runs (f a) tr2 e) \/
  (exists n, runs p tr (Exited n) /\ e = Exited n) \/ (runs p tr Starved /\ e = Starved).
Proof.
  revert tr. induction p as [a|n| |c k IH]; intros tr H; cbn in H.
  - left. exists a, [], tr. split_and!; [done|constructor|done].
  - inversion H; subst. right; left. exists n. split; [constructor|done].
  - inversion H; subst. right; right. split; [constructor|done].
  - inversion H as [| | |? ? r tr' ? H']; subst. apply IH in H' as [(a & tr1 & tr2 & -> & H1 & H2)|[(n & H1 & ->)|[H1 ->]]].
    + left. exists a, ((c, r) :: tr1), tr2. split_and!; [done|by constructor|done].
    + right; left. exists n. split; [by constructor|done].
    + right; right. split; [by constructor|done].
Qed.

Lemma runs_ret_bind {A B} (p : prog A) (f : A -> prog B) tr tr' a e : runs p tr (Returned a) -> runs (f a) tr' e -> runs (p ≫= f) (tr ++ tr') e.
Proof.
  revert tr. induction p as [x|n| |c k IH]; intros tr H1 H2; inversion H1; subst; [done|]. cbn. constructor. by apply IH.
Qed.

Lemma runs_sys {A} c (f : Z -> prog A) tr e : runs (sys c ≫= f) tr e -> exists r tr', tr = (c, r) :: tr' /\ runs (f (ret r)) tr' e.
Proof. intros H. inversion H; subst. by eexists _, _. Qed.

(** The bytes a run writes to a descriptor, and the answers to its reads. *)
Definition written (fd : Z) (tr : list (call * answer)) : list Z :=
  tr ≫= (fun cr => match cr.1 with SYS_write fd' l => if fd' =? fd then l else [] | _ => [] end).
Definition reads (fd : Z) (tr : list (call * answer)) : list answer :=
  tr ≫= (fun cr => match cr.1 with SYS_read fd' _ => if fd' =? fd then [cr.2] else [] | _ => [] end).

Lemma written_app fd tr tr' : written fd (tr ++ tr') = written fd tr ++ written fd tr'.
Proof. apply bind_app. Qed.
Lemma reads_app fd tr tr' : reads fd (tr ++ tr') = reads fd tr ++ reads fd tr'.
Proof. apply bind_app. Qed.

Lemma runs_put fd bytes tr e : runs (put fd bytes) tr e ->
  e = Returned tt /\ written fd tr = bytes /\ forall fd', reads fd' tr = [].
Proof.
  revert tr. induction bytes as [|c bytes IH]; intros tr H; cbn in H; inversion H as [| | |? ? r tr' ? H']; subst; [done|].
  apply IH in H' as (-> & E & Hr). split_and!; [done| |].
  - unfold written in *. cbn. rewrite Z.eqb_refl, E. done.
  - intros fd'. apply Hr.
Qed.

(** Every write takes all its bytes. *)
Definition complete (tr : list (call * answer)) : Prop :=
  forall fd l r, (SYS_write fd l, r) ∈ tr -> ret r = Z.of_nat (length l).

Lemma complete_trace_app tr tr' : complete (tr ++ tr') <-> complete tr /\ complete tr'.
Proof.
  unfold complete. setoid_rewrite elem_of_app. split; [|naive_solver].
  intros H. split; intros fd l r Hi; eapply H; eauto.
Qed.

(** [printf] only writes to descriptor 1. *)
Definition writes_out (cr : call * answer) : Prop := exists l, cr.1 = SYS_write 1 l.

Lemma runs_write_out x tr e : runs (write_out x) tr e ->
  Forall writes_out tr /\ (e = Returned tt \/ e = Exited (-1)) /\
  (complete tr -> e = Returned tt /\ written 1 tr = x).
Proof.
  unfold write_out. destruct x as [|c x]; intros H; [inversion H; subst; split_and!; [done|by left|done]|].
  apply runs_sys in H as (r & tr' & -> & H).
  destruct (Z.ltb_spec (ret r) (Z.of_nat (length (c :: x)))) as [Hr|Hr];
    inversion H; subst; (split_and!; [constructor; [by eexists|done]|auto|]); intros Hc.
  - rewrite (Hc 1 (c :: x) r) in Hr by left. lia.
  - split; [done|]. unfold written. cbn. by rewrite app_nil_r.
Qed.

Lemma runs_write_pieces l tr e : runs (write_pieces l) tr e ->
  Forall writes_out tr /\ (e = Returned tt \/ e = Exited (-1)) /\
  (complete tr -> e = Returned tt /\ written 1 tr = concat l).
Proof.
  revert tr. induction l as [|x l IH]; intros tr H; cbn [write_pieces] in H.
  { inversion H; subst. split_and!; [done|by left|done]. }
  apply runs_bind in H as [([] & tr1 & tr2 & -> & H1 & H2)|[(n & H1 & ->)|[H1 ->]]].
  - apply runs_write_out in H1 as (F1 & _ & C1). apply IH in H2 as (F2 & E2 & C2).
    split_and!; [by apply Forall_app|done|]. intros [Hc1 Hc2]%complete_trace_app.
    destruct (C1 Hc1) as [_ W1], (C2 Hc2) as [-> W2]. by rewrite written_app, W1, W2.
  - apply runs_write_out in H1 as (F1 & [E|E] & C1); [done|]. split_and!; [done|by right; inversion E|].
    intros Hc. by destruct (C1 Hc).
  - by apply runs_write_out in H1 as (_ & [E|E] & _).
Qed.

Lemma writes_out_reads fd tr : Forall writes_out tr -> reads fd tr = [].
Proof. induction 1 as [|cr tr [l E] _ IH]; [done|]. unfold reads in *. cbn. by rewrite E, IH. Qed.

Lemma runs_printf fmt ap tr e : runs (printf fmt ap) tr e ->
  Forall writes_out tr /\ (e = Returned tt \/ e = Exited (-1)) /\
  (complete tr -> fmt <> [] -> e = Returned tt /\ written 1 tr = concat (default [] (pieces fmt ap))).
Proof.
  unfold printf. destruct fmt as [|c fmt]; intros H.
  - inversion H; subst. split_and!; [done|by right|done].
  - apply runs_write_pieces in H as (? & ? & ?). split_and!; [done|done|auto].
Qed.

(** The answers to reads of the pieces [chunks] of a file, to its end. *)
Definition gives (chunks : list (list Z)) (l : list answer) : Prop :=
  exists d, l = map (fun c => Answer (Z.of_nat (length c)) c) chunks ++ [Answer 0 d].
