(* ===== verification/GrepMain.v ===== *)
(** grep as a program over the system calls: [grep] and [main] of
    src/src/user/grep.c, with its reads and writes as calls of UProg.v.

    Grep.v has what the loops compute; here they do it by their calls, on files
    that [main] opens by name. *)

From Stdlib Require Import String.
From S2P Require Import Prelude Grep UPrintf ULog UProg.

(** ** Model *)

(** The loop over the lines of the buffer from [p] on: what is left of it. *)
Fixpoint grep_lines (fuel : nat) (re p : list Z) : prog (list Z) :=
  match fuel with
  | O => NoFuel
  | S fuel' =>
      match strchr_nl p with
      | None => mret p
      | Some (l, q) =>
          (if re_match re l then sys (SYS_write 1 (l ++ [10]));; mret tt else mret tt);;
          grep_lines fuel' re q
      end
  end.

(** [grep(pattern, fd)] with [buf] in the buffer; a round reads once. *)
Fixpoint grep_fd (n : nat) (re : list Z) (fd : Z) (buf : list Z) : prog unit :=
  match n with
  | O => NoFuel
  | S n' =>
      '(r, d) ← sys_data (SYS_read fd (Z.of_nat BUFSZ - Z.of_nat (length buf) - 1));
      if r >? 0 then
        let p := buf ++ take (Z.to_nat r) d in
        rest ← grep_lines (S (length p)) re p;
        grep_fd n' re fd rest
      else mret tt
  end.

Fixpoint grep_files (n : nat) (re : list Z) (files : list (list Z)) : prog unit :=
  match files with
  | [] => Exit 0
  | f :: files =>
      fd ← sys (SYS_open f 0);
      if fd <? 0 then printf (str "grep: cannot open %s" ++ nl) [VStr (Some f)];; Exit 1
      else
        grep_fd n re fd [];;
        sys (SYS_close fd);;
        grep_files n re files
  end.

Definition grep_main (n : nat) (argv : list (list Z)) : prog unit :=
  match argv with
  | _ :: re :: files =>
      match files with
      | [] => grep_fd n re 0 [];; Exit 0
      | _ => grep_files n re files
      end
  | _ => print 2 (str "usage: grep pattern [file ...]" ++ nl) [];; Exit 1
  end.

(** ** Files behind descriptors *)

(** The answers of a trace are those of a kernel with the files [dir], where
    [cur] has what is left to read of the open ones. *)
Fixpoint answered (dir : list Z -> option input) (cur : gmap Z input) (tr : list (call * answer)) : Prop :=
  match tr with
  | [] => True
  | (SYS_open path _, r) :: tr =>
      match dir path with
      | Some f => 0 <= ret r /\ answered dir (<[ret r := f]> cur) tr
      | None => ret r = -1 /\ answered dir cur tr
      end
  | (SYS_read fd n, r) :: tr =>
      match cur !! fd with
      | Some f =>
          let '(got, f') := read (Z.to_nat n) f in
          r = Answer (Z.of_nat (length got)) got /\ answered dir (<[fd := f']> cur) tr
      | None => ret r = -1 /\ answered dir cur tr
      end
  | (SYS_close fd, _) :: tr => answered dir (delete fd cur) tr
  | _ :: tr => answered dir cur tr
  end.

Lemma answered_writes dir cur tr tr' : Forall writes_out tr -> answered dir cur (tr ++ tr') -> answered dir cur tr'.
Proof. induction 1 as [|[c r] tr [l E] H IH]; [done|]. simpl in E. subst c. done. Qed.

Lemma strchr_nl_shorter p l q : strchr_nl p = Some (l, q) -> (length q < length p)%nat.
Proof.
  revert l. induction p as [|c p IH]; intros l E; [done|]. cbn in E. destruct (c =? 10); [simplify_eq; simpl; lia|].
  destruct (c =? 0); [done|]. destruct (strchr_nl p) as [[l' q']|]; [|done]. injection E as <- <-. specialize (IH l' eq_refl). simpl. lia.
Qed.

(** ** The loops *)

(** The lines are written that [scan] gives. *)
Lemma grep_lines_runs re fuel : forall p tr e, runs (grep_lines fuel re p) tr e -> (length p < fuel)%nat ->
  Forall writes_out tr /\ e = Returned (scan fuel re p).2 /\ written 1 tr = (scan fuel re p).1.
Proof.
  induction fuel as [|fuel IH]; intros p tr e H Hf; [lia|]. cbn [grep_lines scan] in *.
  destruct (strchr_nl p) as [[l q]|] eqn:El; [|inversion H; subst; done].
  apply strchr_nl_shorter in El. destruct (re_match re l).
  - cbn in H. inversion H as [| | |? ? r tr' ? H']; subst. destruct (IH q tr' e H') as (H1 & H2 & H3); [lia|].
    destruct (scan fuel re q) as [out rest]. split; [constructor; [by eexists|done]|]. split; [done|].
    unfold written in *. cbn. by rewrite H3.
  - destruct (IH q tr e H) as (H1 & H2 & H3); [lia|]. by destruct (scan fuel re q).
Qed.

(** The reads and writes of [grep] are those of [grep_loop]. *)
Lemma grep_fd_runs re fd dir n : forall buf f cur tr tr' e out, runs (grep_fd n re fd buf) tr e ->
  cur !! fd = Some f -> answered dir cur (tr ++ tr') -> grep_loop n re buf f = Some out ->
  e = Returned tt /\ written 1 tr = out /\ exists cur', answered dir cur' tr'.
Proof.
  induction n as [|n IH]; intros buf f cur tr tr' e out H Hf Ha E; [done|]. cbn [grep_loop] in E. cbn in H.
  inversion H as [| | |? ? r t ? H']; subst. cbn [app answered] in Ha. rewrite Hf in Ha.
  replace (Z.to_nat (Z.of_nat BUFSZ - Z.of_nat (length buf) - 1)) with (BUFSZ - length buf - 1)%nat in Ha by lia.
  destruct (read (BUFSZ - length buf - 1) f) as [got f']. destruct Ha as [-> Ha]. cbn [ret data prog_bind] in H'.
  destruct got as [|x got].
  { cbn in H'. inversion H'; subst. injection E as <-. eauto. }
  rewrite (proj2 (Z.gtb_lt _ _)) in H' by (simpl; lia). rewrite Nat2Z.id, take_ge in H' by lia.
  set (p := buf ++ x :: got) in *. destruct (scan (S (length p)) re p) as [o rest] eqn:Es.
  destruct (grep_loop n re rest f') as [o'|] eqn:El; [|done]. injection E as <-.
  apply (runs_bind (grep_lines (S (length p)) re p)) in H' as [(a & t1 & t2 & -> & H1 & H2)|[(m & H1 & ->)|[H1 ->]]];
    apply grep_lines_runs in H1 as (W & Er & Ew); try lia; [|done..]. rewrite Es in Er, Ew. injection Er as ->.
  rewrite <- app_assoc in Ha. apply answered_writes in Ha; [|done].
  destruct (IH rest f' _ t2 tr' e o' H2 ltac:(by rewrite lookup_insert_eq) Ha El) as (-> & Hw & Hc).
  split; [done|]. split; [|done]. change (written 1 (t1 ++ t2) = o ++ o'). by rewrite written_app, Ew, Hw.
Qed.

(** ** The program *)

Lemma cannot_open name : concat (default [] (pieces (str "grep: cannot open %s" ++ nl) [VStr (Some name)])) =
  str "grep: cannot open " ++ name ++ nl.
Proof. vm_compute. reflexivity. Qed.

Section main.
Context (dir : list Z -> option input) (n : nat) (re : list Z).

(** A file that grep can search: without a NUL and with no line that fills the
    buffer; [n] reads are enough. *)
Record searchable (f : input) : Prop := {
  no_nul : Forall (.≠ 0) (in_rest f);
  short_lines : Forall (fun l => length l < BUFSZ - 1)%nat (Grep.complete (in_rest f) []);
  enough_reads : (length (in_rest f) < n)%nat }.

Definition found (f : input) : list Z := emit re (Grep.complete (in_rest f) []).

Lemma grep_fd_file fd f cur tr tr' e : runs (grep_fd n re fd []) tr e -> cur !! fd = Some f -> searchable f ->
  answered dir cur (tr ++ tr') -> e = Returned tt /\ written 1 tr = found f /\ exists cur', answered dir cur' tr'.
Proof.
  intros H Hf [H1 H2 H3] Ha. apply (grep_fd_runs re fd dir n [] f cur tr tr' e _ H Hf Ha).
  apply (grep_loop_spec re n [] f); [apply not_elem_of_nil|unfold BUFSZ; simpl; lia|done..].
Qed.

(** The files before [rest] are searched one after the other. *)
Lemma grep_files_prefix names fs rest : forall cur tr e,
  Forall2 (fun name f => dir name = Some f /\ searchable f) names fs ->
  runs (grep_files n re (names ++ rest)) tr e -> answered dir cur tr ->
  exists tr1 tr2 cur', tr = tr1 ++ tr2 /\ written 1 tr1 = concat (found <$> fs) /\
    runs (grep_files n re rest) tr2 e /\ answered dir cur' tr2.
Proof.
  intros cur tr e Hf. revert cur tr e. induction Hf as [|name f names fs [Hd Hs] _ IH]; intros cur tr e H Ha.
  { exists [], tr, cur. done. }
  cbn [app grep_files] in H. apply runs_sys in H as (r & t & -> & H). cbn [answered] in Ha. rewrite Hd in Ha. destruct Ha as [Hr Ha].
  rewrite (proj2 (Z.ltb_ge _ _) Hr) in H. apply runs_bind in H as H'. destruct H' as [(a & t1 & t2 & -> & H1 & H2)|[(m & H1 & ->)|[H1 ->]]].
  2,3: rewrite <- (app_nil_r t) in Ha; by destruct (grep_fd_file _ _ _ _ _ _ H1 (lookup_insert_eq _ _ _) Hs Ha).
  destruct (grep_fd_file _ _ _ _ _ _ H1 (lookup_insert_eq _ _ _) Hs Ha) as (_ & Hw & cur1 & Ha1).
  apply runs_sys in H2 as (r2 & t3 & -> & H2). destruct (IH _ _ _ H2 Ha1) as (u1 & u2 & cur2 & -> & Hw2 & H3 & Ha3).
  exists ((SYS_open name 0, r) :: t1 ++ (SYS_close (ret r), r2) :: u1), u2, cur2.
  split; [cbn [app]; by rewrite <- app_assoc|].
  split; [|done]. change (written 1 (t1 ++ [(SYS_close (ret r), r2)] ++ u1) = found f ++ concat (found <$> fs)).
  by rewrite !written_app, Hw, Hw2.
Qed.


(** A file that cannot be opened ends grep with status 1: the files before it
    have been searched, those after it are not. *)
Theorem grep_main_missing prog names bad rest fs tr e :
  Forall2 (fun name f => dir name = Some f /\ searchable f) names fs -> dir bad = None ->
  runs (grep_main n (prog :: re :: names ++ bad :: rest)) tr e -> answered dir ∅ tr -> UProg.complete tr ->
  e = Exited 1 /\ written 1 tr = concat (found <$> fs) ++ str "grep: cannot open " ++ bad ++ nl.
Proof.
  intros Hf Hb H Ha Hall. assert (runs (grep_files n re (names ++ bad :: rest)) tr e) as H' by (by destruct names).
  destruct (grep_files_prefix _ _ _ _ _ _ Hf H' Ha) as (t1 & t2 & cur' & -> & Hw & H2 & Ha2). clear H H'.
  cbn [grep_files] in H2. apply runs_sys in H2 as (r & t & -> & H2). cbn [answered] in Ha2. rewrite Hb in Ha2. destruct Ha2 as [Er _].
  rewrite Er in H2. change (-1 <? 0) with true in H2. cbv iota in H2.
  apply complete_trace_app in Hall as [_ Hall]. change ((SYS_open bad 0, r) :: t) with ([(SYS_open bad 0, r)] ++ t) in Hall |- *.
  apply complete_trace_app in Hall as [_ Hall]. rewrite !written_app, Hw.
  apply runs_bind in H2 as [(a & u1 & u2 & -> & H1 & H2)|[(m & H1 & ->)|[H1 ->]]]; apply runs_printf in H1 as (_ & Hp & H1).
  - inversion H2; subst. rewrite app_nil_r in Hall |- *. destruct (H1 Hall ltac:(done)) as [_ ->]. split; [done|].
    by rewrite cannot_open, app_nil_l.
  - by destruct (H1 Hall ltac:(done)).
  - by destruct Hp.
Qed.
End main.

(** A run on one file of two lines. *)
Definition ex_dir (name : list Z) : option input :=
  if decide (name = [102]) then Some (Input [97; 10; 98; 10] [5%nat]) else None.
Definition ex_trace : list (call * answer) :=
  [(SYS_open [102] 0, Answer 3 []); (SYS_read 3 1023, Answer 4 [97; 10; 98; 10]); (SYS_write 1 [98; 10], Answer 2 []);
   (SYS_read 3 1023, Answer 0 []); (SYS_close 3, Answer 0 [])].

