(* ===== verification/Utils.v ===== *)
(** Small user programs: cat, echo, init, kill, ln, mkdir, rm, wc and zombie of
    src/src/user/, and ls, as programs of UProg.v.

    [argv] has the arguments, the program's name included.  What a program
    does is read off its runs: the calls it makes with their answers, and how
    it ends. *)

From Stdlib Require Import String.
From S2P Require Import Prelude Kernel Sysfile UPrintf ULog UProg.

(** ** cat *)

(** The size of the buffer. *)
Definition BUF : Z := 512.

(** A round of the loop reads once. *)
Fixpoint cat (n : nat) (fd : Z) : prog unit :=
  match n with
  | O => NoFuel
  | S n' =>
      '(r, buf) ← sys_data (SYS_read fd BUF);
      if r >? 0 then
        w ← sys (SYS_write 1 (take (Z.to_nat r) buf));
        if negb (w =? r) then print 2 (str "cat: write error" ++ nl) [];; Exit 1
        else cat n' fd
      else if r <? 0 then print 2 (str "cat: read error" ++ nl) [];; Exit 1
      else mret tt
  end.

Fixpoint cat_files (n : nat) (files : list (list Z)) : prog unit :=
  match files with
  | [] => Exit 0
  | f :: files =>
      fd ← sys (SYS_open f 0);
      if fd <? 0 then print 2 (str "cat: cannot open %s" ++ nl) [VStr (Some f)];; Exit 1
      else
        cat n fd;;
        sys (SYS_close fd);;
        cat_files n files
  end.

Definition cat_main (n : nat) (argv : list (list Z)) : prog unit :=
  if (length argv <=? 1)%nat then cat n 0;; Exit 0
  else cat_files n (tl argv).

(** ** wc *)

(** [strchr(" \r\t\n\v", c)] as a condition; it does not find the NUL. *)
Definition wc_space (c : Z) : bool := existsb (Z.eqb c) [32; 13; 9; 10; 11].

Record counts := Counts { c_l : Z; c_w : Z; c_c : Z; inword : bool }.

(** The body of the inner loop. *)
Definition wc_byte (s : counts) (b : Z) : counts :=
  let c := c_c s + 1 in
  let l := if b =? 10 then c_l s + 1 else c_l s in
  if wc_space b then Counts l (c_w s) c false
  else if negb (inword s) then Counts l (c_w s + 1) c true
  else Counts l (c_w s) c (inword s).

(** The loop: the counts, and what the last read returned. *)
Fixpoint wc_loop (n : nat) (fd : Z) (s : counts) : prog (counts * Z) :=
  match n with
  | O => NoFuel
  | S n' =>
      '(r, buf) ← sys_data (SYS_read fd BUF);
      if r >? 0 then wc_loop n' fd (fold_left wc_byte (take (Z.to_nat r) buf) s)
      else mret (s, r)
  end.

Definition wc (n : nat) (fd : Z) (name : list Z) : prog unit :=
  '(s, r) ← wc_loop n fd (Counts 0 0 0 false);
  if r <? 0 then printf (str "wc: read error" ++ nl) [];; Exit 1
  else printf (str "%d %d %d %s" ++ nl) [VInt (c_l s); VInt (c_w s); VInt (c_c s); VStr (Some name)].

Fixpoint wc_files (n : nat) (files : list (list Z)) : prog unit :=
  match files with
  | [] => Exit 0
  | f :: files =>
      fd ← sys (SYS_open f 0);
      if fd <? 0 then printf (str "wc: cannot open %s" ++ nl) [VStr (Some f)];; Exit 1
      else
        wc n fd f;;
        sys (SYS_close fd);;
        wc_files n files
  end.

Definition wc_main (n : nat) (argv : list (list Z)) : prog unit :=
  if (length argv <=? 1)%nat then wc n 0 [];; Exit 0
  else wc_files n (tl argv).

(** ** echo *)

Fixpoint echo_args (args : list (list Z)) : prog unit :=
  match args with
  | [] => Exit 0
  | a :: args =>
      sys (SYS_write 1 a);;
      match args with
      | _ :: _ => sys (SYS_write 1 (str " "));; echo_args args
      | [] => sys (SYS_write 1 nl);; echo_args args
      end
  end.
Definition echo_main (argv : list (list Z)) : prog unit := echo_args (tl argv).

(** ** rm, mkdir, ln, kill and zombie *)

Fixpoint rm_files (files : list (list Z)) : prog unit :=
  match files with
  | [] => Exit 0
  | f :: files =>
      r ← sys (SYS_unlink f);
      if r <? 0 then print 2 (str "rm: %s failed to delete" ++ nl) [VStr (Some f)];; Exit 0
      else rm_files files
  end.
Definition rm_main (argv : list (list Z)) : prog unit :=
  if (length argv <? 2)%nat then print 2 (str "Usage: rm files..." ++ nl) [];; Exit 1
  else rm_files (tl argv).

Fixpoint mkdir_files (files : list (list Z)) : prog unit :=
  match files with
  | [] => Exit 0
  | f :: files =>
      r ← sys (SYS_mkdir f);
      if r <? 0 then print 2 (str "mkdir: %s failed to create" ++ nl) [VStr (Some f)];; Exit 0
      else mkdir_files files
  end.
Definition mkdir_main (argv : list (list Z)) : prog unit :=
  if (length argv <? 2)%nat then print 2 (str "Usage: mkdir files..." ++ nl) [];; Exit 1
  else mkdir_files (tl argv).

Definition ln_main (argv : list (list Z)) : prog unit :=
  match argv with
  | [_; old; new] =>
      r ← sys (SYS_link old new);
      (if r <? 0 then print 2 (str "link %s %s: failed" ++ nl) [VStr (Some old); VStr (Some new)] else mret tt);;
      Exit 0
  | _ => print 2 (str "Usage: ln old new" ++ nl) [];; Exit 1
  end.

(** [atoi] of src/src/user/ulib/ulib.c, on an [int]. *)
Fixpoint atoi_loop (s : list Z) (n : Z) : Z :=
  match s with
  | c :: s => if (48 <=? c) && (c <=? 57) then atoi_loop s (i32 (n * 10 + c - 48)) else n
  | [] => n
  end.
Definition atoi (s : list Z) : Z := atoi_loop s 0.

Fixpoint kill_pids (args : list (list Z)) : prog unit :=
  match args with
  | [] => Exit 0
  | a :: args => sys (SYS_kill (atoi a));; kill_pids args
  end.
Definition kill_main (argv : list (list Z)) : prog unit :=
  if (length argv <? 2)%nat then print 2 (str "usage: kill pid..." ++ nl) [];; Exit 1
  else kill_pids (tl argv).

Definition zombie_main : prog unit :=
  pid ← sys SYS_fork;
  (if pid >? 0 then sys (SYS_sleep 5);; mret tt else mret tt);;
  Exit 0.

(** ** ls *)

(** The string at a pointer. *)
Fixpoint cstr (s : list Z) : list Z :=
  match s with
  | [] => []
  | c :: s => if c =? 0 then [] else c :: cstr s
  end.

(** What follows the last slash. *)
Fixpoint basename (path : list Z) : list Z :=
  match path with
  | [] => []
  | c :: path' => if existsb (Z.eqb 47) path' then basename path' else if c =? 47 then path' else path
  end.

Definition fmtname (path : list Z) : list Z :=
  let p := basename path in
  if (14 <=? length p)%nat then p else p ++ replicate (14 - length p) 32.

(** [struct stat], from the answer to [fstat]. *)
Record ustat := Ustat { st_type : Z; st_ino : Z; st_size : Z }.
Definition ustat_of (d : list Z) : ustat := Ustat (nth 2 d 0) (nth 1 d 0) (nth 4 d 0).

(** [stat] of src/src/user/ulib/ulib.c. *)
Definition stat (n : list Z) : prog (option ustat) :=
  fd ← sys (SYS_open n O_RDONLY);
  if fd <? 0 then mret None
  else
    '(r, d) ← sys_data (SYS_fstat fd);
    sys (SYS_close fd);;
    mret (if r <? 0 then None else Some (ustat_of d)).

(** The loop over the entries of the directory: [inum] and the name. *)
Fixpoint ls_entries (n : nat) (fd : Z) (path : list Z) : prog unit :=
  match n with
  | O => NoFuel
  | S n' =>
      '(r, de) ← sys_data (SYS_read fd 16);
      if negb (r =? 16) then mret tt
      else if nth 0 de 0 + 256 * nth 1 de 0 =? 0 then ls_entries n' fd path
      else
        let buf := path ++ str "/" ++ cstr (take 14 (drop 2 de)) in
        st ← stat buf;
        match st with
        | None => printf (str "ls: cannot stat %s" ++ nl) [VStr (Some buf)];; ls_entries n' fd path
        | Some st =>
            printf (str "%s %d %d %d" ++ nl) [VStr (Some (fmtname buf)); VInt (st_type st); VInt (st_ino st); VInt (st_size st)];;
            ls_entries n' fd path
        end
  end.

Definition ls (n : nat) (path : list Z) : prog unit :=
  fd ← sys (SYS_open path 0);
  if fd <? 0 then print 2 (str "ls: cannot open %s" ++ nl) [VStr (Some path)]
  else
    '(r, d) ← sys_data (SYS_fstat fd);
    if r <? 0 then
      print 2 (str "ls: cannot stat %s" ++ nl) [VStr (Some path)];;
      sys (SYS_close fd);; mret tt
    else
      let st := ustat_of d in
      (if (st_type st =? 3) || (st_type st =? 2) then
         printf (str "%s %d %d %l" ++ nl) [VStr (Some (fmtname path)); VInt (st_type st); VInt (st_ino st); VInt (st_size st)]
       else if st_type st =? 1 then
         if (512 <? length path + 1 + 14 + 1)%nat then printf (str "ls: path too long" ++ nl) []
         else ls_entries n fd path
       else mret tt);;
      sys (SYS_close fd);; mret tt.

Fixpoint ls_files (n : nat) (files : list (list Z)) : prog unit :=
  match files with
  | [] => Exit 0
  | f :: files => ls n f;; ls_files n files
  end.
Definition ls_main (n : nat) (argv : list (list Z)) : prog unit :=
  if (length argv <? 2)%nat then ls n (str ".");; Exit 0
  else ls_files n (tl argv).

(** ** init *)

(** The inner loop: waits until the shell has exited. *)
Fixpoint init_wait (n : nat) (pid : Z) : prog unit :=
  match n with
  | O => NoFuel
  | S n' =>
      wpid ← sys SYS_wait;
      if wpid =? pid then mret tt
      else if wpid <? 0 then printf (str "init: wait returned an error" ++ nl) [];; Exit 1
      else init_wait n' pid
  end.

(** The loop; [m] bounds the rounds of the inner loop. *)
Fixpoint init_loop (n m : nat) : prog unit :=
  match n with
  | O => NoFuel
  | S n' =>
      printf (str "init: starting sh" ++ nl) [];;
      pid ← sys SYS_fork;
      if pid <? 0 then printf (str "init: fork failed" ++ nl) [];; Exit 1
      else if pid =? 0 then
        sys (SYS_exec (str "sh") [str "sh"]);;
        printf (str "init: exec sh failed" ++ nl) [];;
        Exit 1
      else
        init_wait m pid;;
        init_loop n' m
  end.

Definition init_main (n m : nat) : prog unit :=
  fd ← sys (SYS_open (str "console") O_RDWR);
  (if fd <? 0 then
     sys (SYS_mknod (str "console") 1 0);;
     sys (SYS_open (str "console") O_RDWR);; mret tt
   else mret tt);;
  sys (SYS_dup 0);;
  sys (SYS_dup 0);;
  init_loop n m.

(** ** What they do *)

(** cat writes what it reads. *)
Theorem cat_correct n fd chunks tr e : runs (cat n fd) tr e -> (length chunks < n)%nat -> Forall (fun c => c <> []) chunks ->
  gives chunks (reads fd tr) -> (forall l r, (SYS_write 1 l, r) ∈ tr -> ret r = Z.of_nat (length l)) ->
  e = Returned tt /\ written 1 tr = concat chunks.
Proof.
  intros H Hn Hc [d Hr] Hw. revert n tr H Hn Hr Hw. induction Hc as [|c chunks Hc Hcs IH]; intros n tr H Hn Hr Hw;
    (destruct n as [|n]; [lia|]); cbn in H; inversion H as [| | |? ? r tr' ? H']; subst; cbn in H';
    unfold reads in Hr; cbn in Hr; rewrite Z.eqb_refl in Hr; fold (reads fd tr') in Hr; injection Hr as Er Hr; subst r; cbn in H'.
  - inversion H'; subst. done.
  - destruct (Z.gtb_spec (Z.of_nat (length c)) 0) as [Hp|Hp]; [|destruct c; [done|simpl in Hp; lia]].
    rewrite Nat2Z.id, take_ge in H' by lia. cbn in H'. inversion H' as [| | |? ? r tr'' ? H'']; subst. cbn in H''.
    rewrite (Hw c r) in H'' by (right; left). rewrite Z.eqb_refl in H''. cbn in H''.
    destruct (IH n tr'' H'') as [-> E]; [simpl in Hn; lia|done|intros l r' Hl; apply Hw; by right; right|].
    split; [done|]. unfold written in *. cbn. by rewrite E.
Qed.

(** The words of a text are what is between its spaces, where that is not
    empty. *)
Fixpoint fields (bs : list Z) : list (list Z) :=
  match bs with
  | [] => [[]]
  | c :: bs =>
      if wc_space c then [] :: fields bs
      else match fields bs with w :: ws => (c :: w) :: ws | [] => [[c]] end
  end.
Definition nonempty (w : list Z) : bool := match w with [] => false | _ => true end.
Definition words (bs : list Z) : Z := Z.of_nat (length (List.filter nonempty (fields bs))).
Definition lines (bs : list Z) : Z := Z.of_nat (length (List.filter (Z.eqb 10) bs)).

Lemma fields_cons bs : exists w ws, fields bs = w :: ws.
Proof. destruct bs as [|c bs]; simpl; [eauto|]. destruct (wc_space c); [eauto|]. destruct (fields bs); eauto. Qed.

(** In a word, the first field is not a new word. *)
Definition new_words (inw : bool) (bs : list Z) : Z :=
  if inw then Z.of_nat (length (List.filter nonempty (tl (fields bs)))) else words bs.

Lemma new_words_cons inw c bs : new_words inw (c :: bs) =
  if wc_space c then new_words false bs else (if inw then 0 else 1) + new_words true bs.
Proof.
  unfold new_words, words. simpl. destruct (fields_cons bs) as (w & ws & E). rewrite E.
  destruct (wc_space c); destruct inw; simpl; lia.
Qed.

Lemma wc_bytes s bs : fold_left wc_byte bs s =
  Counts (c_l s + lines bs) (c_w s + new_words (inword s) bs) (c_c s + Z.of_nat (length bs)) (inword (fold_left wc_byte bs s)).
Proof.
  revert s. induction bs as [|c bs IH]; intros s; cbn [fold_left].
  - destruct s as [l w n []]; unfold new_words, words, lines; simpl; f_equal; lia.
  - rewrite IH at 1. rewrite new_words_cons. unfold wc_byte, lines. cbn [length List.filter].
    rewrite (Z.eqb_sym 10 c). destruct (c =? 10), (wc_space c), s as [l w n []]; cbn; f_equal; lia.
Qed.

Lemma wc_loop_runs n fd chunks s tr e : runs (wc_loop n fd s) tr e -> (length chunks < n)%nat -> Forall (fun c => c <> []) chunks ->
  gives chunks (reads fd tr) -> e = Returned (fold_left wc_byte (concat chunks) s, 0) /\ forall fd', written fd' tr = [].
Proof.
  intros H Hn Hc [d Hr]. revert n s tr H Hn Hr. induction Hc as [|c chunks Hc Hcs IH]; intros n s tr H Hn Hr;
    (destruct n as [|n]; [lia|]); cbn in H; inversion H as [| | |? ? r tr' ? H']; subst; cbn in H';
    unfold reads in Hr; cbn in Hr; rewrite Z.eqb_refl in Hr; fold (reads fd tr') in Hr; injection Hr as Er Hr; subst r; cbn in H'.
  - inversion H'; subst. done.
  - destruct (Z.gtb_spec (Z.of_nat (length c)) 0) as [Hp|Hp]; [|destruct c; [done|simpl in Hp; lia]].
    rewrite Nat2Z.id, take_ge in H' by lia. destruct (IH n _ tr' H') as [-> E]; [simpl in Hn; lia|done|].
    split; [|done]. simpl. by rewrite fold_left_app.
Qed.

Lemma print_wc l w c name : pieces (str "%d %d %d %s" ++ nl) [VInt l; VInt w; VInt c; VStr (Some name)] =
  Some [zig_int (i32 l) 10; [32]; zig_int (i32 w) 10; [32]; zig_int (i32 c) 10; [32]; name; [10]].
Proof. done. Qed.

(** wc prints the lines, words and bytes of the file, however the reads cut it
    into pieces; a word across two pieces is one word. *)
Theorem wc_correct n fd name chunks tr e : runs (wc n fd name) tr e -> (length chunks < n)%nat -> Forall (fun c => c <> []) chunks ->
  gives chunks (reads fd tr) -> complete tr ->
  let bs := concat chunks in
  e = Returned tt /\
  written 1 tr = concat [zig_int (i32 (lines bs)) 10; [32]; zig_int (i32 (words bs)) 10; [32];
    zig_int (i32 (Z.of_nat (length bs))) 10; [32]; name; [10]].
Proof.
  intros H Hn Hc Hr Hall bs. unfold wc in H. apply runs_bind in H as [([s r] & tr1 & tr2 & -> & H1 & H2)|[(m & H1 & ->)|[H1 ->]]].
  2,3: by edestruct (wc_loop_runs n fd chunks) as [? _].
  assert (reads fd tr2 = []) as E2.
  { apply writes_out_reads. destruct (r <? 0); [|by apply runs_printf in H2 as [? _]].
    apply runs_bind in H2 as [(u & t1 & t2 & -> & Ht1 & Ht2)|[(m & Ht & _)|[Ht _]]]; [|by apply runs_printf in Ht as [? _]..].
    apply runs_printf in Ht1 as [Hr1 _]. inversion Ht2; subst. by rewrite app_nil_r. }
  rewrite reads_app, E2, app_nil_r in Hr. destruct (wc_loop_runs n fd chunks _ tr1 _ H1 Hn Hc Hr) as [E Hw].
  apply complete_trace_app in Hall as [_ Hall].
  injection E as -> ->. change (0 <? 0) with false in H2. cbv iota in H2. apply runs_printf in H2 as (_ & _ & H2).
  destruct (H2 Hall ltac:(done)) as [-> Hw2]. split; [done|]. rewrite written_app, Hw, Hw2, wc_bytes. by rewrite print_wc.
Qed.

(** The line that ls prints for a file ends with the two characters of %l
    instead of the size of the file: [printf] does not know the format. *)
Theorem ls_prints_no_size path type ino size :
  pieces (str "%s %d %d %l" ++ nl) [VStr (Some (fmtname path)); VInt type; VInt ino; VInt size] =
  Some [fmtname path; [32]; zig_int (i32 type) 10; [32]; zig_int (i32 ino) 10; [32]; [37]; [108]; [10]].
Proof. done. Qed.

(** echo writes its arguments with a space between them and a newline after
    them. *)
Fixpoint echoed (args : list (list Z)) : list Z :=
  match args with
  | [] => []
  | [a] => a ++ [10]
  | a :: args => a ++ [32] ++ echoed args
  end.

Theorem echo_correct argv tr e : runs (echo_main argv) tr e -> e = Exited 0 /\ written 1 tr = echoed (tl argv).
Proof.
  unfold echo_main. generalize (tl argv) as args. intros args. revert tr. induction args as [|a args IH]; intros tr H.
  - by inversion H.
  - destruct args as [|b args]; cbn in H; inversion H as [| | |? ? r tr' ? H']; subst;
      inversion H' as [| | |? ? r' tr'' ? H'']; subst.
    + by inversion H''.
    + apply IH in H'' as [-> E]. split; [done|]. unfold written in *. cbn. by rewrite E.
Qed.

(** The name ls prints is what follows the last slash, with blanks up to the
    length of a directory entry. *)
Theorem fmtname_correct path : exists dir name, path = dir ++ name /\ (47 ∉ name) /\ (dir = [] \/ exists d, dir = d ++ [47]) /\
  fmtname path = name ++ replicate (14 - length name) 32 /\ (14 <= length (fmtname path))%nat.
Proof.
  assert (exists dir, path = dir ++ basename path /\ (47 ∉ basename path) /\ (dir = [] \/ exists d, dir = d ++ [47])) as (dir & E & Hn & Hd).
  { induction path as [|c path IH]; [exists []; split_and!; [done|apply not_elem_of_nil|by left]|]. simpl.
    destruct (existsb (Z.eqb 47) path) eqn:Ex.
    - destruct IH as (dir & E & Hn & Hd). exists (c :: dir). split_and!; [simpl; by rewrite <- E|done|right].
      destruct Hd as [->|[d ->]]; [|by exists (c :: d)]. exfalso. simpl in E. rewrite <- E in Hn.
      apply existsb_exists in Ex as (x & Hx & Ex%Z.eqb_eq). subst x. by apply Hn, list_elem_of_In.
    - assert (47 ∉ path) as Hp.
      { intros Hi%list_elem_of_In. assert (existsb (Z.eqb 47) path = true) by (apply existsb_exists; by exists 47). congruence. }
      destruct (Z.eqb_spec c 47) as [->|Hc]; [exists [47]|exists []]; split_and!; try done; [right; by exists []|set_solver|by left]. }
  exists dir, (basename path). split_and!; try done; unfold fmtname; destruct (Nat.leb_spec 14 (length (basename path))); try done.
  - replace (14 - length (basename path))%nat with 0%nat by lia. by rewrite app_nil_r.
  - rewrite length_app, length_replicate. lia.
Qed.

(** A round of init: a shell is forked, and children are waited for until it
    is the shell. *)
Inductive shell_rounds : list (call * answer) -> Prop :=
  | sr_nil : shell_rounds []
  | sr_round pr r ws r' tr : Forall writes_out pr -> 0 < ret r ->
      Forall (fun cr => cr.1 = SYS_wait /\ 0 <= ret cr.2 /\ ret cr.2 <> ret r) ws -> ret r' = ret r -> shell_rounds tr ->
      shell_rounds (pr ++ (SYS_fork, r) :: ws ++ (SYS_wait, r') :: tr).

Definition forks (tr : list (call * answer)) : nat := length (List.filter (fun cr => match cr.1 with SYS_fork => true | _ => false end) tr).

Lemma forks_app tr tr' : forks (tr ++ tr') = (forks tr + forks tr')%nat.
Proof. unfold forks. by rewrite List.filter_app, length_app. Qed.

Lemma writes_forks tr : Forall writes_out tr -> forks tr = 0%nat.
Proof. induction 1 as [|[c r] tr (l & E) H IH]; [done|]. simpl in E. subst c. apply IH. Qed.

(** The end of a program that prints and exits. *)
Lemma printf_exit_forks fmt ap n tr e : runs (printf fmt ap;; (Exit n : prog unit)) tr e -> e <> Returned tt /\ forks tr = 0%nat.
Proof.
  intros H. apply runs_bind in H as [(u & t1 & t2 & -> & H1 & H2)|[(m & H1 & ->)|[H1 ->]]]; apply runs_printf in H1 as (Hf & _ & _).
  - inversion H2; subst. rewrite app_nil_r. split; [done|by apply writes_forks].
  - split; [done|by apply writes_forks].
  - split; [done|by apply writes_forks].
Qed.

Lemma init_wait_runs m pid tr e : 0 < pid -> runs (init_wait m pid) tr e ->
  (e = Returned tt /\ exists ws r', tr = ws ++ [(SYS_wait, r')] /\ ret r' = pid /\
     Forall (fun cr => cr.1 = SYS_wait /\ 0 <= ret cr.2 /\ ret cr.2 <> pid) ws) \/
  (e <> Returned tt /\ forks tr = 0%nat).
Proof.
  intros Hp. revert tr. induction m as [|m IH]; intros tr H; cbn [init_wait] in H; [inversion H; subst; by right|].
  apply runs_sys in H as (r & tr' & -> & H'). destruct (Z.eqb_spec (ret r) pid) as [E|E].
  - inversion H'; subst. left. split; [done|]. by exists [], r.
  - destruct (Z.ltb_spec (ret r) 0) as [Hn|Hn].
    + apply printf_exit_forks in H' as [He Hf]. right. by split.
    + apply IH in H' as [(-> & ws & r' & -> & E' & Hf)|[He Hf]]; [left; split; [done|]|right; by split].
      exists ((SYS_wait, r) :: ws), r'. split_and!; [done|done|]. by constructor.
Qed.

(** init has one shell at a time: it forks another only when [wait] has
    returned the last. *)
Theorem init_restarts n m tr e : runs (init_loop n m) tr e ->
  exists tr1 tr2, tr = tr1 ++ tr2 /\ shell_rounds tr1 /\ (forks tr2 <= 1)%nat.
Proof.
  revert tr. induction n as [|n IH]; intros tr H; cbn [init_loop] in H; [inversion H; subst; exists [], []; split_and!; [done|apply sr_nil|unfold forks; simpl; lia]|].
  apply runs_bind in H as [(u & pr & tr1 & -> & Hp & H)|[(k & Hp & _)|[Hp _]]]; apply runs_printf in Hp as (Hpr & _ & _).
  2,3: exists [], tr; split_and!; [done|apply sr_nil|rewrite writes_forks by done; lia].
  apply runs_sys in H as (r & tr2 & -> & H'). pose proof (writes_forks _ Hpr) as Hf0.
  assert (forall t, forks t = 0%nat -> exists t1 t2, pr ++ (SYS_fork, r) :: t = t1 ++ t2 /\ shell_rounds t1 /\ (forks t2 <= 1)%nat) as Hone.
  { intros t Ht. exists [], (pr ++ (SYS_fork, r) :: t). split_and!; [done|apply sr_nil|]. rewrite forks_app, Hf0. unfold forks in *. simpl. lia. }
  destruct (ret r <? 0) eqn:E0; [apply printf_exit_forks in H' as [_ Hf]; by apply Hone|].
  destruct (Z.eqb_spec (ret r) 0) as [E1|E1].
  - apply runs_sys in H' as (r3 & tr3 & -> & H''). apply printf_exit_forks in H'' as [_ Hf]. by apply Hone.
  - assert (0 < ret r) as Hpos by lia. apply runs_bind in H' as [([] & t1 & t2 & -> & H1 & H2)|[(k & H1 & _)|[H1 _]]].
    2,3: apply init_wait_runs in H1 as [[? _]|[_ Hf]]; [done|by apply Hone|done].
    apply init_wait_runs in H1 as [(_ & ws & r' & -> & E' & Hw)|[? _]]; [|done|done].
    apply IH in H2 as (tr1' & tr2' & -> & Hs & Hf2). exists (pr ++ (SYS_fork, r) :: ws ++ (SYS_wait, r') :: tr1'), tr2'.
    split_and!; [|by apply sr_round|done]. by rewrite <- !app_assoc; simpl; rewrite <- !app_assoc.
Qed.
