(* ===== verification/Bench.v ===== *)
(** Programs that try out the kernel, over the system calls of UProg.v:
    src/src/user/pb.c, which sends ten megabytes through a pipe,
    src/src/user/forktest.c and src/src/user/stressfs.c.

    A program whose loop has no bound of its own takes the number of rounds
    it may make; when they are used up it is [NoFuel]. *)

From Stdlib Require Import String.
From S2P Require Import Prelude UPrintf ULog UProg.

(** ** pb *)

Definition CHUNK_LEN : Z := 510.
Definition WRITE_AMT : Z := 10 * 1024 * 1024.

Definition chunk : list Z := map (fun i => 97 + Z.of_nat i mod 26) (seq 0 510).

(** [read] into the beginning of a buffer. *)
Definition overwrite (buf d : list Z) : list Z := d ++ drop (length d) buf.

Fixpoint pb_read (n : nat) (fd : Z) (read_buf : list Z) (n_read : Z) : prog unit :=
  if n_read <? WRITE_AMT then
    match n with
    | O => NoFuel
    | S n =>
        '(read_amt, d) ← sys_data (SYS_read fd CHUNK_LEN);
        if read_amt <? 0 then
          printf (str "read failed" ++ nl) [];;
          Exit 1
        else
          let n_read := n_read + read_amt in
          let read_buf := overwrite read_buf (take (Z.to_nat read_amt) d) in
          if bool_decide (take 510 read_buf = chunk) then pb_read n fd read_buf n_read
          else
            printf (str "The byte stream read did not match written stream!" ++ nl) [];;
            Exit 1
    end
  else mret tt.

Fixpoint pb_write (n : nat) (fd : Z) (n_written : Z) : prog unit :=
  if n_written <? WRITE_AMT then
    match n with
    | O => NoFuel
    | S n =>
        write_amt ← sys (SYS_write fd chunk);
        if write_amt <? 0 then
          printf (str "write failed" ++ nl) [];;
          Exit 1
        else pb_write n fd (n_written + write_amt)
    end
  else mret tt.

(** The [int] that [wait] stores. *)
Definition int_of (d : list Z) : Z :=
  i32 (nth 0 d 0 + 256 * nth 1 d 0 + 65536 * nth 2 d 0 + 16777216 * nth 3 d 0).

(** [read_buf] is what is on the stack where the buffer is. *)
Definition pb_main (n : nat) (read_buf : list Z) : prog unit :=
  printf (str "Running benchmark..." ++ nl) [];;
  '(r, fds) ← sys_data SYS_pipe;
  if negb (r =? 0) then
    printf (str "failed pipe call" ++ nl) [];;
    Exit 1
  else
    let fd0 := nth 0 fds 0 in
    let fd1 := nth 1 fds 0 in
    pid ← sys SYS_fork;
    (if negb (pid =? 0) then
       sys (SYS_close fd1);;
       t_before ← sys SYS_uptime;
       pb_read n fd0 read_buf 0;;
       t_after ← sys SYS_uptime;
       printf (str "Elapsed ticks: %d" ++ nl) [VInt (t_after - t_before)];;
       '(w, st) ← sys_data SYS_wait;
       if negb (pid =? w) then
         printf (str "Unexpected child PID for wait" ++ nl) [];;
         Exit 1
       else if negb (int_of st =? 0) then
         printf (str "Child returned bad exit status: %d" ++ nl) [VInt (int_of st)];;
         Exit 1
       else
         sys (SYS_close fd0);;
         mret tt
     else
       sys (SYS_close fd0);;
       pb_write n fd1 0;;
       sys (SYS_close fd1);;
       mret tt);;
    Exit 0.

(** ** forktest *)

Definition N : Z := 1000.

Definition ft_print (s : list Z) : prog unit := sys (SYS_write 1 s);; mret tt.

(** How many times fork has worked when it stops working or [rounds] rounds
    are over. *)
Fixpoint fork_loop (rounds : nat) (n : Z) : prog Z :=
  match rounds with
  | O => mret n
  | S rounds =>
      pid ← sys SYS_fork;
      if pid <? 0 then mret n
      else if pid =? 0 then Exit 0
      else fork_loop rounds (n + 1)
  end.

Fixpoint wait_loop (n : nat) : prog unit :=
  match n with
  | O => mret tt
  | S n =>
      r ← sys SYS_wait;
      if r <? 0 then
        ft_print (str "wait stopped early" ++ nl);;
        Exit 1
      else wait_loop n
  end.

Definition forktest : prog unit :=
  ft_print (str "fork test" ++ nl);;
  n ← fork_loop (Z.to_nat N) 0;
  if n =? N then
    ft_print (str "fork claimed to work N times!" ++ nl);;
    Exit 1
  else
    wait_loop (Z.to_nat n);;
    r ← sys SYS_wait;
    if negb (r =? -1) then
      ft_print (str "wait got too many" ++ nl);;
      Exit 1
    else ft_print (str "fork test OK" ++ nl).

Definition forktest_main : prog unit :=
  forktest;;
  Exit 0.

(** ** stressfs *)

(** The [i] with which the loop over [fork] ends. *)
Fixpoint stress_fork (rounds : nat) (i : Z) : prog Z :=
  match rounds with
  | O => mret i
  | S rounds =>
      pid ← sys SYS_fork;
      if pid >? 0 then mret i else stress_fork rounds (i + 1)
  end.

Fixpoint repeat_call (n : nat) (c : call) : prog unit :=
  match n with
  | O => mret tt
  | S n => sys c;; repeat_call n c
  end.

Definition O_CREATE_RDWR : Z := Z.lor 0x200 0x002.
Definition stress_data : list Z := replicate 512 97.

Definition stressfs_main : prog unit :=
  printf (str "stressfs starting" ++ nl) [];;
  i ← stress_fork 4 0;
  printf (str "write %d" ++ nl) [VInt i];;
  let path := str "stressfs" ++ [48 + i] in
  fd ← sys (SYS_open path O_CREATE_RDWR);
  repeat_call 20 (SYS_write fd stress_data);;
  sys (SYS_close fd);;
  printf (str "read" ++ nl) [];;
  fd ← sys (SYS_open path 0);
  repeat_call 20 (SYS_read fd 512);;
  sys (SYS_close fd);;
  sys SYS_wait;;
  Exit 0.

(** ** What they find out *)

(** The answers to a kind of call. *)
Definition answers (p : call -> bool) (tr : list (call * answer)) : list Z :=
  tr ≫= (fun cr => if p cr.1 then [ret cr.2] else []).
Definition is_fork (c : call) : bool := match c with SYS_fork => true | _ => false end.
Definition is_wait (c : call) : bool := match c with SYS_wait => true | _ => false end.

Lemma answers_app p tr tr' : answers p (tr ++ tr') = answers p tr ++ answers p tr'.
Proof. apply bind_app. Qed.

Lemma overwrite_chunk buf : take 510 (overwrite buf chunk) = chunk.
Proof. unfold overwrite. by rewrite take_app_length' by done. Qed.

Definition mismatch : prog unit :=
  printf (str "The byte stream read did not match written stream!" ++ nl) [];;
  Exit 1.

(** A round that reads [c]. *)
Lemma pb_read_round n fd buf n_read tr e c l : runs (pb_read (S n) fd buf n_read) tr e -> n_read < WRITE_AMT ->
  reads fd tr = Answer (Z.of_nat (length c)) c :: l ->
  exists tr', reads fd tr' = l /\ (complete tr -> complete tr') /\ written 1 tr = written 1 tr' /\
    let buf' := overwrite buf c in
    runs (if bool_decide (take 510 buf' = chunk) then pb_read n fd buf' (n_read + Z.of_nat (length c)) else mismatch) tr' e.
Proof.
  intros H Hn Hr. cbn [pb_read] in H. rewrite (proj2 (Z.ltb_lt _ _) Hn) in H. unfold sys_data in H. cbn [mbind prog_mbind prog_bind] in H.
  inversion H as [| | |? ? r tr' ? H']; subst. unfold reads in Hr. cbn [mbind list_bind fst snd] in Hr. rewrite Z.eqb_refl in Hr.
  injection Hr as -> Hr. exists tr'. split; [exact Hr|]. split; [intros Hc fd' l' r' Hi; eapply Hc, list_elem_of_further, Hi|].
  split; [done|]. cbn [ret data] in H'. rewrite (proj2 (Z.ltb_ge (Z.of_nat (length c)) 0)) in H' by lia. cbv iota zeta in H'.
  rewrite Nat2Z.id, (take_ge c (length c)) in H' by lia. exact H'.
Qed.

Lemma reads_first n fd buf n_read tr e : runs (pb_read (S n) fd buf n_read) tr e -> n_read < WRITE_AMT -> exists r l, reads fd tr = r :: l.
Proof.
  intros H Hn. cbn [pb_read] in H. rewrite (proj2 (Z.ltb_lt _ _) Hn) in H. unfold sys_data in H. cbn [mbind prog_mbind prog_bind] in H.
  inversion H as [| | |? ? r tr' ? H']; subst. unfold reads. cbn [mbind list_bind fst snd]. rewrite Z.eqb_refl. by eexists _, _.
Qed.

(** When every read returns a whole chunk, pb is content. *)
Theorem pb_whole_chunks n : forall fd buf n_read tr e, runs (pb_read n fd buf n_read) tr e ->
  Forall (fun r => r = Answer (Z.of_nat (length chunk)) chunk) (reads fd tr) -> WRITE_AMT <= n_read + CHUNK_LEN * Z.of_nat n -> e = Returned tt.
Proof.
  assert (Z.of_nat (length chunk) = CHUNK_LEN) as El by done.
  induction n as [|n IH]; intros fd buf n_read tr e H Hr Hn.
  - cbn [pb_read] in H. rewrite Z.mul_0_r, Z.add_0_r in Hn. rewrite (proj2 (Z.ltb_ge _ _) Hn) in H. by inversion H.
  - destruct (Z.lt_ge_cases n_read WRITE_AMT) as [Hlt|Hge].
    + destruct (reads_first _ _ _ _ _ _ H Hlt) as (r & l & E). rewrite E in Hr. apply Forall_cons in Hr as [-> Hr].
      destruct (pb_read_round _ _ _ _ _ _ _ _ H Hlt E) as (tr' & <- & _ & _ & H'). cbv zeta in H'. rewrite overwrite_chunk, bool_decide_true in H' by done.
      apply (IH _ _ _ _ _ H'); [done|]. rewrite El. change CHUNK_LEN with 510 in *. lia.
    + cbn [pb_read] in H. rewrite (proj2 (Z.ltb_ge _ _) Hge) in H. by inversion H.
Qed.

(** The pieces of a stream of chunks when the reader takes 510 of the 512
    bytes a full pipe holds, then the other two, and then goes on. *)
Definition uneven : list (list Z) := [chunk; take 2 chunk; drop 2 chunk ++ take 2 chunk].

(** They are the stream that was written, and pb still reports that it is
    not: it compares every piece with the beginning of a chunk. *)
Theorem pb_rejects_uneven n fd buf tr e l : runs (pb_read (3 + n) fd buf 0) tr e ->
  reads fd tr = map (fun c => Answer (Z.of_nat (length c)) c) uneven ++ l -> complete tr ->
  concat uneven = take 1022 (chunk ++ chunk ++ chunk) /\ e = Exited 1 /\
  written 1 tr = str "The byte stream read did not match written stream!" ++ nl.
Proof.
  intros H Hr Hc. split; [vm_compute; reflexivity|]. cbn [uneven map app] in Hr. change (3 + n)%nat with (S (S (S n))) in H.
  destruct (pb_read_round _ _ _ _ _ _ _ _ H ltac:(done) Hr) as (t1 & R1 & C1 & W1 & H1). cbv zeta in H1. rewrite overwrite_chunk, bool_decide_true in H1 by done.
  destruct (pb_read_round _ _ _ _ _ _ _ _ H1 ltac:(by vm_compute) R1) as (t2 & R2 & C2 & W2 & H2). cbv zeta in H2.
  assert (overwrite (overwrite buf chunk) (take 2 chunk) = overwrite buf chunk) as E2 by reflexivity. rewrite E2, overwrite_chunk, bool_decide_true in H2 by done.
  destruct (pb_read_round _ _ _ _ _ _ _ _ H2 ltac:(by vm_compute) R2) as (t3 & R3 & C3 & W3 & H3). cbv zeta in H3.
  rewrite bool_decide_false in H3.
  - unfold mismatch in H3. rewrite W1, W2, W3. apply runs_bind in H3 as [([] & a & b & -> & Ha & Hb)|[(m & Ha & ->)|[Ha ->]]].
    + inversion Hb; subst. rewrite app_nil_r in *. apply runs_printf in Ha as (_ & _ & Ha).
      destruct (Ha (C3 (C2 (C1 Hc))) ltac:(done)) as [_ ->]. split; reflexivity.
    + apply runs_printf in Ha as (_ & _ & Ha). by destruct (Ha (C3 (C2 (C1 Hc))) ltac:(done)) as [? _].
    + by apply runs_printf in Ha as (_ & [Ha|Ha] & _).
  - intros E. apply (f_equal (fun x => nth 0 x 0)) in E. vm_compute in E. discriminate E.
Qed.

Lemma runs_ft_print s tr e : runs (ft_print s) tr e -> e = Returned tt /\ exists r, tr = [(SYS_write 1 s, r)].
Proof. intros H. apply runs_sys in H as (r & tr' & -> & H). inversion H; subst. by eauto. Qed.

Lemma fork_loop_runs rounds : forall n tr e, runs (fork_loop rounds n) tr e ->
  answers is_wait tr = [] /\
  match e with
  | Returned k => n <= k <= n + Z.of_nat rounds /\
      exists pids rest, answers is_fork tr = pids ++ rest /\ Forall (fun p => 0 < p) pids /\ Z.of_nat (length pids) = k - n /\
        (k < n + Z.of_nat rounds -> exists r, rest = [r] /\ r < 0)
  | Exited m => m = 0 /\ 0 ∈ answers is_fork tr
  | Starved => False
  end.
Proof.
  induction rounds as [|rounds IH]; intros n tr e H; cbn [fork_loop] in H.
  - inversion H; subst. split; [done|]. split; [lia|]. exists [], []. split_and!; [done|done|simpl; lia|lia].
  - apply runs_sys in H as (r & tr' & -> & H). destruct (Z.ltb_spec (ret r) 0) as [Hr|Hr].
    + inversion H; subst. split; [done|]. split; [lia|]. exists [], [ret r]. split_and!; [done|done|simpl; lia|]. intros _. by eauto.
    + destruct (Z.eqb_spec (ret r) 0) as [E|E].
      * inversion H; subst. split; [done|]. split; [done|]. unfold answers. cbn. rewrite E. apply list_elem_of_here.
      * apply IH in H as [Hw H]. split; [exact Hw|]. destruct e as [k|m|]; [|split; [apply H|]; unfold answers; cbn; apply list_elem_of_further, H|done].
        destruct H as (Hk & pids & rest & E1 & E2 & E3 & E4). split; [lia|]. exists (ret r :: pids), rest. split_and!.
        -- unfold answers in *. cbn. by rewrite E1.
        -- constructor; [lia|done].
        -- cbn [length]. lia.
        -- intros Hlt. apply E4. lia.
Qed.

Lemma wait_loop_runs n : forall tr e, runs (wait_loop n) tr e ->
  answers is_fork tr = [] /\
  match e with
  | Returned _ => length (answers is_wait tr) = n /\ Forall (fun r => 0 <= r) (answers is_wait tr)
  | Exited m => m = 1
  | Starved => False
  end.
Proof.
  induction n as [|n IH]; intros tr e H; cbn [wait_loop] in H.
  - inversion H; subst. done.
  - apply runs_sys in H as (r & tr' & -> & H). destruct (Z.ltb_spec (ret r) 0) as [Hr|Hr].
    + apply runs_bind in H as [([] & t1 & t2 & -> & H1 & H2)|[(m & H1 & ->)|[H1 ->]]].
      * apply runs_ft_print in H1 as (_ & r1 & ->). by inversion H2; subst.
      * by apply runs_ft_print in H1 as [? _].
      * by apply runs_ft_print in H1 as [? _].
    + apply IH in H as [Hf H]. split; [exact Hf|]. destruct e; [|done..]. destruct H as [Hl HF]. unfold answers in *. cbn. split; [by rewrite Hl|by constructor].
Qed.

Lemma runs_ft_exit {A} s tr (e : ending A) : runs (ft_print s;; Exit 1) tr e -> e = Exited 1.
Proof.
  intros H. apply runs_bind in H as [([] & t1 & t2 & -> & H1 & H2)|[(m & H1 & E)|[H1 E]]]; [by inversion H2|by apply runs_ft_print in H1 as [? _]..].
Qed.

Definition passed (tr : list (call * answer)) : Prop :=
  exists pids r ws, answers is_fork tr = pids ++ [r] /\ Forall (fun p => 0 < p) pids /\ r < 0 /\ Z.of_nat (length pids) < N /\
    answers is_wait tr = ws ++ [-1] /\ Forall (fun w => 0 <= w) ws /\ length ws = length pids.

Lemma forktest_runs tr e : runs forktest tr e ->
  match e with Returned _ => passed tr | Exited m => m = 1 \/ 0 ∈ answers is_fork tr | Starved => False end.
Proof.
  intros H. unfold forktest in H. apply runs_bind in H as [([] & t1 & t2 & -> & H1 & H2)|[(m & H1 & E)|[H1 E]]]; [|by apply runs_ft_print in H1 as [? _]..].
  apply runs_ft_print in H1 as (_ & r1 & ->). assert (N = 1000) as EN by done.
  apply runs_bind in H2 as [(n & t3 & t4 & -> & H2 & H3)|[(m & H2 & ->)|[H2 E]]]; apply fork_loop_runs in H2 as [Hw2 H2];
    [|right; rewrite answers_app; apply elem_of_app; right; apply H2|done].
  destruct H2 as (Hn & pids & rest & E1 & E2 & E3 & E4). destruct (Z.eqb_spec n N) as [->|Hne]; [apply runs_ft_exit in H3 as ->; by left|].
  destruct E4 as (r & -> & Hr); [lia|].
  apply runs_bind in H3 as [([] & t5 & t6 & -> & H3 & H4)|[(m & H3 & ->)|[H3 E]]]; apply wait_loop_runs in H3 as [Hf3 H3]; [|by left|done].
  destruct H3 as [Hl3 HF3]. apply runs_sys in H4 as (rw & t7 & -> & H4).
  destruct (Z.eqb_spec (ret rw) (-1)) as [Ew|Ew]; cbn [negb] in H4; [|apply runs_ft_exit in H4 as ->; by left].
  apply runs_ft_print in H4 as (-> & r9 & ->). exists pids, r, (answers is_wait t5). split_and!; [|done|done|lia| |done|lia].
  - rewrite !answers_app, E1, Hf3. unfold answers. cbn. by rewrite !app_nil_r.
  - rewrite !answers_app, Hw2. unfold answers. cbn. by rewrite Ew.
Qed.

(** forktest only passes when fork has failed in the end and every child
    there was could be waited for, and no more: a run that exits with 0 is
    that of a child, or [fork] worked a number of times and then failed, and
    [wait] worked as many times and then returned -1. *)
Theorem forktest_sound tr : runs forktest_main tr (Exited 0) -> 0 ∈ answers is_fork tr \/ passed tr.
Proof.
  intros H. apply runs_bind in H as [([] & t1 & t2 & -> & H1 & H2)|[(m & H1 & E)|[H1 E]]]; [| |discriminate E]; apply forktest_runs in H1.
  - inversion H2; subst. rewrite app_nil_r. by right.
  - injection E as <-. destruct H1 as [H1|H1]; [done|by left].
Qed.

(** ** stressfs *)

Lemma stress_fork_runs rounds : forall i tr e, runs (stress_fork rounds i) tr e -> exists k, e = Returned k /\ i <= k <= i + Z.of_nat rounds.
Proof.
  induction rounds as [|rounds IH]; intros i tr e H; cbn [stress_fork] in H; [inversion H; subst; exists i; split; [done|lia]|].
  apply runs_sys in H as (r & tr' & -> & H). destruct (ret r >? 0); [inversion H; subst; exists i; split; [done|lia]|].
  apply IH in H as (k & -> & Hk). exists k. split; [done|lia].
Qed.

Lemma repeat_call_runs n c : forall tr e, runs (repeat_call n c) tr e -> e = Returned tt /\ map fst tr = replicate n c.
Proof.
  induction n as [|n IH]; intros tr e H; cbn [repeat_call] in H; [by inversion H; subst|].
  apply runs_sys in H as (r & tr' & -> & H). apply IH in H as [-> E]. split; [done|]. cbn. by rewrite E.
Qed.

Definition calls_of {A} (f : call -> option A) (tr : list (call * answer)) : list A := omap (fun cr => f cr.1) tr.
Definition opened (c : call) : option (list Z * Z) := match c with SYS_open p m => Some (p, m) | _ => None end.

Lemma calls_of_app {A} (f : call -> option A) tr tr' : calls_of f (tr ++ tr') = calls_of f tr ++ calls_of f tr'.
Proof. apply omap_app. Qed.

Lemma calls_of_cons {A} (f : call -> option A) c r tr : calls_of f ((c, r) :: tr) = match f c with Some x => x :: calls_of f tr | None => calls_of f tr end.
Proof. done. Qed.

Lemma calls_of_out tr : Forall writes_out tr -> calls_of opened tr = [].
Proof. induction 1 as [|cr tr [l E] _ IH]; [done|]. unfold calls_of in *. cbn. by rewrite E. Qed.

Lemma calls_of_repeat n c tr : map fst tr = replicate n c -> opened c = None -> calls_of opened tr = [].
Proof.
  intros E Hc. revert tr E. induction n as [|n IH]; intros [|cr tr] E; [done..|]. injection E as E1 E2. unfold calls_of in *. cbn. rewrite E1, Hc. by apply IH.
Qed.

(** A [printf] at the head of a program. *)
Lemma runs_printf_then {A} fmt ap (p : prog A) tr e : runs (printf fmt ap;; p) tr e -> complete tr -> fmt <> [] ->
  exists t1 t2, tr = t1 ++ t2 /\ calls_of opened t1 = [] /\ complete t2 /\ runs p t2 e.
Proof.
  intros H Hc Hf. apply runs_bind in H as [([] & t1 & t2 & -> & H1 & H2)|[(m & H1 & ->)|[H1 ->]]]; apply runs_printf in H1 as (F & _ & C).
  - apply complete_trace_app in Hc as [_ Hc]. exists t1, t2. split_and!; [done|by apply calls_of_out|done|done].
  - by destruct (C Hc Hf).
  - by destruct (C Hc Hf).
Qed.

Lemma runs_sys_then {A} c (f : Z -> prog A) tr e : runs (sys c ≫= f) tr e -> complete tr ->
  exists r tr', tr = (c, r) :: tr' /\ complete tr' /\ runs (f (ret r)) tr' e.
Proof.
  intros H Hc. apply runs_sys in H as (r & tr' & -> & H). exists r, tr'. split_and!; [done| |done]. intros fd l r' Hi. eapply Hc, list_elem_of_further, Hi.
Qed.

Lemma runs_repeat_then {A} n c (p : prog A) tr e : runs (repeat_call n c;; p) tr e -> complete tr -> opened c = None ->
  exists t1 t2, tr = t1 ++ t2 /\ calls_of opened t1 = [] /\ complete t2 /\ runs p t2 e.
Proof.
  intros H Hc Ho. apply runs_bind in H as [([] & t1 & t2 & -> & H1 & H2)|[(m & H1 & E)|[H1 E]]]; apply repeat_call_runs in H1 as [E1 E2]; try done.
  apply complete_trace_app in Hc as [_ Hc]. exists t1, t2. split_and!; [done|by eapply calls_of_repeat|done|done].
Qed.

Lemma stress_fork_opens rounds : forall i tr e, runs (stress_fork rounds i) tr e -> calls_of opened tr = [].
Proof.
  induction rounds as [|rounds IH]; intros i tr e H; cbn [stress_fork] in H; [by inversion H|]. apply runs_sys in H as (r & tr' & -> & H).
  destruct (ret r >? 0); [by inversion H|]. by apply IH in H.
Qed.

(** Each of the up to five processes of stressfs ends with 0 and works on a
    file of its own: it creates [stressfs<i>] and opens the same again. *)
Theorem stressfs_files tr e : runs stressfs_main tr e -> complete tr ->
  e = Exited 0 /\ exists i, 0 <= i <= 4 /\ calls_of opened tr = [(str "stressfs" ++ [48 + i], O_CREATE_RDWR); (str "stressfs" ++ [48 + i], 0)].
Proof.
  intros H Hc. apply runs_printf_then in H as (t1 & t2 & -> & O1 & C2 & H); [|done|done].
  apply runs_bind in H as [(i & t3 & t4 & -> & H3 & H)|[(m & H3 & E)|[H3 E]]]; [|by apply stress_fork_runs in H3 as (? & ? & _)..].
  pose proof (stress_fork_opens _ _ _ _ H3) as O3. apply stress_fork_runs in H3 as (k & E & Hk). injection E as <-.
  apply complete_trace_app in C2 as [_ C4]. apply runs_printf_then in H as (t5 & t6 & -> & O5 & C6 & H); [|done|done].
  cbv zeta in H. apply runs_sys_then in H as (r1 & t7 & -> & C7 & H); [|done].
  apply runs_repeat_then in H as (t8 & t9 & -> & O8 & C9 & H); [|done|done]. apply runs_sys_then in H as (r2 & t10 & -> & C10 & H); [|done].
  apply runs_printf_then in H as (t11 & t12 & -> & O11 & C12 & H); [|done|done]. apply runs_sys_then in H as (r3 & t13 & -> & C13 & H); [|done].
  apply runs_repeat_then in H as (t14 & t15 & -> & O14 & C15 & H); [|done|done]. apply runs_sys_then in H as (r4 & t16 & -> & C16 & H); [|done].
  apply runs_sys_then in H as (r5 & t17 & -> & C17 & H); [|done]. inversion H; subst. split; [done|]. exists i. split; [lia|].
  rewrite !calls_of_app, O1, O3, O5, calls_of_cons, calls_of_app, O8, calls_of_cons, calls_of_app, O11, calls_of_cons, calls_of_app, O14.
  by rewrite !calls_of_cons.
Qed.
