(* ===== verification/Sh.v ===== *)
(** The command lines of the shell: the parser of src/src/user/sh.c.

    A pointer into the command line is the part of the line from it on, up to
    the NUL; [es] is the empty part.  The state of the parser is [*ps].  The
    panic of the shell, a message and [exit(1)], is the outcome [Panic]; the
    message is all that the shell prints, less the last newline.  The
    constructors take their memory from [malloc], which is assumed to have
    some. *)

From S2P Require Import Prelude Kernel Sysfile.

(** ** Lexer *)

Definition whitespace : list Z := [32; 9; 13; 10; 11].
Definition symbols : list Z := [60; 124; 62; 38; 59; 40; 41].
(** [strchr(l, c)] as a condition. *)
Definition strchr (l : list Z) (c : Z) : bool := existsb (Z.eqb c) l.
#[global] Arguments strchr : simpl never.

(** [while(s < es && strchr(whitespace, *s)) s++] *)
Fixpoint skip_space (s : list Z) : list Z :=
  match s with
  | [] => []
  | c :: s' => if strchr whitespace c then skip_space s' else s
  end.

Fixpoint skip_word (s : list Z) : list Z :=
  match s with
  | [] => []
  | c :: s' => if negb (strchr whitespace c) && negb (strchr symbols c) then skip_word s' else s
  end.

(** The token's kind, its beginning [q] and its end [eq]. *)
Definition token_at (s : list Z) : Z * list Z :=
  match s with
  | [] => (0, s)
  | c :: s1 =>
      if c =? 0 then (0, s)
      else if strchr [124; 40; 41; 59; 38; 60] c then (c, s1)
      else if c =? 62 then
        match s1 with
        | c1 :: s2 => if c1 =? 62 then (43, s2) else (62, s1)
        | [] => (62, s1)
        end
      else (97, skip_word s)
  end.

Definition gettoken : M (list Z) (Z * list Z * list Z) := fun ps =>
  let q := skip_space ps in
  let '(ret, eq) := token_at q in
  Ok (ret, q, eq) (skip_space eq).

Definition peek (toks : list Z) : M (list Z) bool := fun ps =>
  let s := skip_space ps in
  Ok (match s with [] => false | c :: _ => negb (c =? 0) && strchr toks c end) s.

(** ** Parser *)

Definition MAXARGS : nat := 10.

(** [argv] with [eargv], up to the null pointer. *)
Inductive cmd :=
  | EXEC (argv : list (list Z * list Z))
  | REDIR (c : cmd) (file efile : list Z) (mode fd : Z)
  | PIPE (left right : cmd)
  | LIST (left right : cmd)
  | BACK (c : cmd).

(** The constructors; [execcmd] has no arguments yet. *)
Definition execcmd : cmd := EXEC [].
Definition redircmd (subcmd : cmd) (file efile : list Z) (mode fd : Z) : cmd := REDIR subcmd file efile mode fd.
Definition pipecmd (left right : cmd) : cmd := PIPE left right.
Definition listcmd (left right : cmd) : cmd := LIST left right.
Definition backcmd (subcmd : cmd) : cmd := BACK subcmd.

Abbreviation P := (M (list Z)).

(** The loop of [parseredirs]: a round takes a token. *)
Fixpoint redirs_loop (n : nat) (c : cmd) : P cmd :=
  match n with
  | O => out_of_fuel
  | S n' =>
      more ← peek [60; 62];
      if (more : bool) then
        '(tok, _, _) ← gettoken;
        '(a, q, eq) ← gettoken;
        if negb (a =? 97) then panic "missing file for redirection"
        else if tok =? 60 then redirs_loop n' (redircmd c q eq O_RDONLY 0)
        else if tok =? 62 then redirs_loop n' (redircmd c q eq (Z.lor (Z.lor O_WRONLY O_CREATE) O_TRUNC) 1)
        else if tok =? 43 then redirs_loop n' (redircmd c q eq (Z.lor O_WRONLY O_CREATE) 1)
        else redirs_loop n' c
      else mret c
  end.

Definition parseredirs (c : cmd) : P cmd :=
  n ← gets length;
  redirs_loop (S n) c.

(** [cmd->argv[argc] = q; cmd->eargv[argc] = eq], where [cmd] is the [EXEC]
    that the redirections in [ret] have been wrapped around. *)
Fixpoint add_arg (q eq : list Z) (ret : cmd) : cmd :=
  match ret with
  | EXEC argv => EXEC (argv ++ [(q, eq)])
  | REDIR c file efile mode fd => REDIR (add_arg q eq c) file efile mode fd
  | _ => ret
  end.

(** The loop of [parseexec]. *)
Fixpoint args_loop (n : nat) (argc : nat) (ret : cmd) : P cmd :=
  match n with
  | O => out_of_fuel
  | S n' =>
      stop ← peek [124; 41; 38; 59];
      if (stop : bool) then mret ret
      else
        '(tok, q, eq) ← gettoken;
        if tok =? 0 then mret ret
        else if negb (tok =? 97) then panic "syntax"
        else if (MAXARGS <=? S argc)%nat then panic "too many args"
        else
          ret ← parseredirs (add_arg q eq ret);
          args_loop n' (S argc) ret
  end.

(** The loop of [parseline] over [&]. *)
Fixpoint back_loop (n : nat) (c : cmd) : P cmd :=
  match n with
  | O => out_of_fuel
  | S n' =>
      more ← peek [38];
      if (more : bool) then
        gettoken;;
        back_loop n' (backcmd c)
      else mret c
  end.

(** The fuel counts the depth of the calls. *)
Fixpoint parseline (fuel : nat) : P cmd :=
  match fuel with
  | O => out_of_fuel
  | S f =>
      c ← parsepipe f;
      n ← gets length;
      c ← back_loop (S n) c;
      more ← peek [59];
      if (more : bool) then
        gettoken;;
        r ← parseline f;
        mret (listcmd c r)
      else mret c
  end
with parsepipe (fuel : nat) : P cmd :=
  match fuel with
  | O => out_of_fuel
  | S f =>
      c ← parseexec f;
      more ← peek [124];
      if (more : bool) then
        gettoken;;
        r ← parsepipe f;
        mret (pipecmd c r)
      else mret c
  end
with parseexec (fuel : nat) : P cmd :=
  match fuel with
  | O => out_of_fuel
  | S f =>
      block ← peek [40];
      if (block : bool) then parseblock f
      else
        ret ← parseredirs execcmd;
        n ← gets length;
        args_loop (S n) 0 ret
  end
with parseblock (fuel : nat) : P cmd :=
  match fuel with
  | O => out_of_fuel
  | S f =>
      open ← peek [40];
      if negb open then panic "parseblock"
      else
        gettoken;;
        c ← parseline f;
        close ← peek [41];
        if negb close then panic "syntax - missing )"
        else
          gettoken;;
          parseredirs c
  end.

(** [*e = 0] in the line [buf], which ends with its NUL. *)
Definition put_nul (e buf : list Z) : list Z := <[(length buf - 1 - length e)%nat := 0]> buf.

Fixpoint nulterminate (c : cmd) (buf : list Z) : list Z :=
  match c with
  | EXEC argv => fold_left (fun b '(_, e) => put_nul e b) argv buf
  | REDIR c _ efile _ _ => put_nul efile (nulterminate c buf)
  | PIPE l r => nulterminate r (nulterminate l buf)
  | LIST l r => nulterminate r (nulterminate l buf)
  | BACK c => nulterminate c buf
  end.

(** Each byte of the line can open a level, of four calls. *)
Definition parse_fuel (s : list Z) : nat := 4 * length s + 4.

(** Bytes as a message. *)
Fixpoint message (s : list Z) : string :=
  match s with
  | [] => EmptyString
  | c :: s => String (Ascii.ascii_of_N (Z.to_N c)) (message s)
  end.

(** [fprintf(2, "leftovers: %s\n", s); panic("syntax")] *)
Definition leftovers_message (s : list Z) : string := "leftovers: " +:+ message (s ++ [10]) +:+ "syntax".

(** The tree, and the line with the NULs. *)
Definition parsecmd (s : list Z) : outcome (list Z) (cmd * list Z) :=
  (c ← parseline (parse_fuel s);
   peek [];;
   rest ← gets id;
   match rest with
   | [] => mret (c, nulterminate c (s ++ [0]))
   | _ :: _ => panic (leftovers_message rest)
   end) s.

(** ** Grammar

    What the parser accepts, over tokens.  [>>] is the token [TApp]. *)

Inductive token := TWord (w : list Z) | TSym (c : Z) | TApp.

Definition word_char (c : Z) : bool := negb (c =? 0) && negb (strchr whitespace c) && negb (strchr symbols c).

(** No byte of a word follows the word. *)
Definition ends (s : list Z) : Prop := match s with [] => True | c :: _ => word_char c = false end.

Definition head_not (c : Z) (s : list Z) : Prop := match s with [] => True | d :: _ => d <> c end.

Inductive lexes : list Z -> list token -> Prop :=
  | lx_nil : lexes [] []
  | lx_space c s ts : strchr whitespace c = true -> lexes s ts -> lexes (c :: s) ts
  | lx_sym c s ts : strchr [124; 40; 41; 59; 38; 60] c = true -> lexes s ts -> lexes (c :: s) (TSym c :: ts)
  | lx_gt s ts : head_not 62 s -> lexes s ts -> lexes (62 :: s) (TSym 62 :: ts)
  | lx_app s ts : lexes s ts -> lexes (62 :: 62 :: s) (TApp :: ts)
  | lx_word w s ts : w <> [] -> forallb word_char w = true -> ends s -> lexes s ts -> lexes (w ++ s) (TWord w :: ts).

(** Commands with the text of their words. *)
Inductive ast :=
  | AExec (argv : list (list Z))
  | ARedir (a : ast) (file : list Z) (mode fd : Z)
  | APipe (l r : ast)
  | AList (l r : ast)
  | ABack (a : ast).

Inductive rop := RIn | ROut | RApp.

Definition rop_token (r : rop) : token := match r with RIn => TSym 60 | ROut => TSym 62 | RApp => TApp end.

Definition redirected (a : ast) (rw : rop * list Z) : ast :=
  match rw.1 with
  | RIn => ARedir a rw.2 O_RDONLY 0
  | ROut => ARedir a rw.2 (Z.lor (Z.lor O_WRONLY O_CREATE) O_TRUNC) 1
  | RApp => ARedir a rw.2 (Z.lor O_WRONLY O_CREATE) 1
  end.

Definition redir_tokens (rs : list (rop * list Z)) : list token := rs ≫= (fun rw => [rop_token rw.1; TWord rw.2]).

(** The words and redirections of a simple command come in any order. *)
Inductive item := IArg (w : list Z) | IRedir (r : rop) (w : list Z).

Definition item_tokens (x : item) : list token :=
  match x with IArg w => [TWord w] | IRedir r w => [rop_token r; TWord w] end.
Definition item_args (x : item) : list (list Z) := match x with IArg w => [w] | IRedir _ _ => [] end.
Definition item_redirs (x : item) : list (rop * list Z) := match x with IArg _ => [] | IRedir r w => [(r, w)] end.

Inductive gline : list token -> ast -> Prop :=
  | gl_last n ts a : gpipe ts a -> gline (ts ++ replicate n (TSym 38)) (Nat.iter n ABack a)
  | gl_more n ts a ts' a' : gpipe ts a -> gline ts' a' -> gline (ts ++ replicate n (TSym 38) ++ TSym 59 :: ts') (AList (Nat.iter n ABack a) a')
with gpipe : list token -> ast -> Prop :=
  | gp_last ts a : gexec ts a -> gpipe ts a
  | gp_more ts a ts' a' : gexec ts a -> gpipe ts' a' -> gpipe (ts ++ TSym 124 :: ts') (APipe a a')
with gexec : list token -> ast -> Prop :=
  | ge_simple xs : (length (xs ≫= item_args) < MAXARGS)%nat -> gexec (xs ≫= item_tokens) (foldl redirected (AExec (xs ≫= item_args)) (xs ≫= item_redirs))
  | ge_block ts a rs : gline ts a -> gexec (TSym 40 :: ts ++ TSym 41 :: redir_tokens rs) (foldl redirected a rs).

(** ** What [runcmd] reads *)

(** The string at a pointer of the line, once [nulterminate] has been over it. *)
Fixpoint cstring (s : list Z) : list Z :=
  match s with
  | [] => []
  | c :: s' => if c =? 0 then [] else c :: cstring s'
  end.
Definition string_at (buf p : list Z) : list Z := cstring (drop (length buf - 1 - length p) buf).

Fixpoint resolve (buf : list Z) (c : cmd) : ast :=
  match c with
  | EXEC argv => AExec (map (fun p => string_at buf p.1) argv)
  | REDIR c file _ mode fd => ARedir (resolve buf c) (string_at buf file) mode fd
  | PIPE l r => APipe (resolve buf l) (resolve buf r)
  | LIST l r => AList (resolve buf l) (resolve buf r)
  | BACK c => ABack (resolve buf c)
  end.
