(* ===== verification/ShProps.v ===== *)
(** The parser of the shell: its tokens, that it always returns, that it
    accepts the lines of the grammar of Sh.v and no others, and that the tree
    it returns for a line reads, once NULs have been written in the line, as
    the command the grammar gives. *)

From S2P Require Import Prelude Kernel Sysfile Sh.

(** ** Tokens *)

Definition first_char (t : token) : Z :=
  match t with TWord w => hd 0 w | TSym c => c | TApp => 62 end.
Definition kind_of (t : token) : Z :=
  match t with TWord _ => 97 | TSym c => c | TApp => 43 end.

(** The pointers of a word of the line. *)
Definition word_at (line q e w : list Z) : Prop :=
  q = w ++ e /\ w <> [] /\ forallb word_char w = true /\ ends e /\ q `suffix_of` line.

Lemma strchr_In l c : strchr l c = true <-> In c l.
Proof.
  unfold strchr; rewrite existsb_exists. split.
  - intros (x & Hx & E); apply Z.eqb_eq in E; by subst.
  - intros H; exists c; by rewrite Z.eqb_refl.
Qed.

Lemma strchr_nIn l c : strchr l c = false <-> ~ In c l.
Proof. rewrite <- strchr_In. destruct (strchr l c); split; congruence. Qed.

Lemma word_char_true c : word_char c = true <-> c <> 0 /\ ~ In c whitespace /\ ~ In c symbols.
Proof.
  unfold word_char. rewrite !andb_true_iff, !negb_true_iff, !strchr_nIn, Z.eqb_neq. tauto.
Qed.

Lemma skip_space_suffix s : skip_space s `suffix_of` s.
Proof.
  induction s as [|c s IH]; simpl; [done|].
  destruct (strchr whitespace c); [|by exists []].
  destruct IH as [k E]. exists (c :: k). by rewrite E at 1.
Qed.

Lemma skip_space_idem s : skip_space (skip_space s) = skip_space s.
Proof.
  induction s as [|c s IH]; simpl; [done|].
  destruct (strchr whitespace c) eqn:E; [done|]. simpl; by rewrite E.
Qed.

Lemma lexes_skip s ts : lexes s ts -> lexes (skip_space s) ts.
Proof.
  induction 1 as [|c s ts Hc H IH|c s ts Hc H IH|s ts Hs H IH|s ts H IH|w s ts Hw Hf He H IH]; simpl.
  - constructor.
  - by rewrite Hc.
  - assert (strchr whitespace c = false) as ->; [|by constructor].
    apply strchr_nIn. apply strchr_In in Hc. simpl in *. lia.
  - by apply lx_gt.
  - by apply lx_app.
  - destruct w as [|d w]; [done|]. simpl in *.
    apply andb_true_iff in Hf as [Hd Hf]. pose proof Hd as Hd'.
    apply word_char_true in Hd' as (_ & Hws & _). apply strchr_nIn in Hws. rewrite Hws.
    apply (lx_word (d :: w)); simpl; [done| |done|done]. by rewrite Hd, Hf.
Qed.

Lemma skip_word_app w s : forallb word_char w = true -> ends s -> (forall c s', s = c :: s' -> c <> 0) -> skip_word (w ++ s) = s.
Proof.
  intros Hf He Hz. induction w as [|c w IH]; simpl in *.
  - destruct s as [|c s]; [done|]. simpl in *.
    unfold word_char in He. specialize (Hz c s eq_refl). apply Z.eqb_neq in Hz. rewrite Hz in He. simpl in He.
    by rewrite He.
  - apply andb_true_iff in Hf as [Hc Hf]. unfold word_char in Hc.
    apply andb_true_iff in Hc as [Hc1 Hc2]. apply andb_true_iff in Hc1 as [_ Hc1].
    rewrite Hc1, Hc2. simpl. auto.
Qed.

Lemma lexes_nonzero s ts : lexes s ts -> Forall (fun c => c <> 0) s.
Proof.
  induction 1 as [|c s ts Hc H IH|c s ts Hc H IH|s ts Hs H IH|s ts H IH|w s ts Hw Hf He H IH];
    repeat (first [apply Forall_nil_2 | apply Forall_cons_2]); try done.
  1,2: apply strchr_In in Hc; simpl in Hc; lia.
  apply Forall_app_2; [|done].
  apply Forall_forall. intros x Hx. rewrite forallb_forall in Hf. apply list_elem_of_In in Hx.
  by apply Hf, word_char_true in Hx as [? _].
Qed.

(** What [gettoken] returns at the token [t] of [s]. *)
Definition token_read (s : list Z) (t : token) (ts : list token) (r : outcome (list Z) (Z * list Z * list Z)) : Prop :=
  exists q e s', r = Ok (kind_of t, q, e) s' /\ lexes s' ts /\ (length s' < length s)%nat /\ s' `suffix_of` s /\
    forall w, t = TWord w -> word_at s q e w.

Lemma token_at_spec s t ts : lexes s (t :: ts) -> skip_space s = s ->
  exists e, token_at s = (kind_of t, e) /\ lexes e ts /\ (length e < length s)%nat /\ e `suffix_of` s /\
    forall w, t = TWord w -> word_at s s e w.
Proof.
  intros H Hs. inversion H as [|c s' ts' Hc H' |c s' ts' Hc H'|s' ts' Hh H'|s' ts' H'|w s' ts' Hw Hf He H']; subst.
  - exfalso. simpl in Hs. rewrite Hc in Hs. pose proof (suffix_length _ _ (skip_space_suffix s')) as Hl.
    rewrite Hs in Hl. simpl in Hl. lia.
  - exists s'. simpl. rewrite Hc. apply strchr_In in Hc. 
    assert (c <> 0) as E%Z.eqb_neq by (simpl in Hc; lia). rewrite E.
    split_and!; [done|done|lia|by apply suffix_cons_r|done].
  - exists s'. simpl. split_and!; [|done|lia|by apply suffix_cons_r|done].
    destruct s' as [|d s']; [done|]. simpl in *. by rewrite (proj2 (Z.eqb_neq d 62)).
  - exists s'. simpl. split_and!; [done|done|lia|by do 2 apply suffix_cons_r|done].
  - exists s'. destruct w as [|d w]; [done|]. pose proof Hf as Hf'. simpl in Hf'.
    apply andb_true_iff in Hf' as [Hd _]. apply word_char_true in Hd as (Hd0 & _ & Hsym).
    assert (~ In d [124; 40; 41; 59; 38; 60]) as Hn by (simpl in *; lia). apply strchr_nIn in Hn.
    assert (d <> 62) as E62 by (simpl in *; lia).
    assert (token_at ((d :: w) ++ s') = (97, skip_word ((d :: w) ++ s'))) as ->.
    { unfold token_at. cbn [app]. rewrite (proj2 (Z.eqb_neq d 0) Hd0), Hn, (proj2 (Z.eqb_neq d 62) E62). done. }
    rewrite skip_word_app; [|done|done|].
    + split_and!; [done|done|rewrite length_app; simpl; lia|by eexists|].
      intros w' [= <-]. unfold word_at. by split_and!.
    + intros x l ->. apply lexes_nonzero in H'. by apply Forall_inv in H'.
Qed.

Lemma suffix_skip_space s s' : s' `suffix_of` s -> skip_space s' `suffix_of` s.
Proof. intros H. transitivity s'; [apply skip_space_suffix|done]. Qed.

Lemma word_at_suffix line s q e w : s `suffix_of` line -> word_at s q e w -> word_at line q e w.
Proof. intros Hs (? & ? & ? & ? & H). unfold word_at. split_and!; try done. by trans s. Qed.

Lemma gettoken_some s t ts : lexes s (t :: ts) -> token_read s t ts (gettoken s).
Proof.
  intros H%lexes_skip. destruct (token_at_spec _ _ _ H (skip_space_idem s)) as (e & E & He & Hl & Hsx & Hw).
  unfold gettoken. rewrite E. exists (skip_space s), e, (skip_space e).
  pose proof (suffix_length _ _ (skip_space_suffix s)). pose proof (suffix_length _ _ (skip_space_suffix e)).
  split_and!; [done|by apply lexes_skip|lia| |].
  - transitivity e; [apply skip_space_suffix|]. transitivity (skip_space s); [done|apply skip_space_suffix].
  - intros w ->. eapply word_at_suffix; [apply skip_space_suffix|auto].
Qed.

Lemma lexes_nil s : lexes s [] -> skip_space s = [].
Proof.
  remember [] as ts eqn:E. induction 1; try done. simpl. rewrite H. auto.
Qed.

Lemma gettoken_none s : lexes s [] -> gettoken s = Ok (0, [], []) [].
Proof. intros H%lexes_nil. unfold gettoken. by rewrite H. Qed.

Lemma skip_space_head s : match skip_space s with [] => True | c :: _ => strchr whitespace c = false end.
Proof. induction s as [|c s IH]; simpl; [done|]. destruct (strchr whitespace c) eqn:E; done. Qed.

Lemma lexes_head s ts : lexes s ts -> skip_space s = s ->
  match s with [] => ts = [] | c :: _ => c <> 0 /\ exists t ts', ts = t :: ts' /\ first_char t = c end.
Proof.
  intros H Hs. pose proof (lexes_nonzero _ _ H) as Hz. pose proof (skip_space_head s) as Hh. rewrite Hs in Hh.
  inversion H as [|c s' ts' Hc H' |c s' ts' Hc H'|s' ts' Hg H'|s' ts' H'|w s' ts' Hw Hf He H']; subst; try done.
  - congruence.
  - inversion Hz; subst. eauto.
  - split; [done|]. eauto.
  - split; [done|]. eauto.
  - destruct w as [|d w]; [done|]. simpl in *. inversion Hz; subst. eauto.
Qed.

Lemma peek_spec toks s ts : lexes s ts ->
  exists s', peek toks s = Ok (match ts with [] => false | t :: _ => strchr toks (first_char t) end) s' /\
    lexes s' ts /\ s' `suffix_of` s.
Proof.
  intros H%lexes_skip. exists (skip_space s). split_and!; [|done|apply skip_space_suffix].
  unfold peek. pose proof (lexes_head _ _ H (skip_space_idem s)) as Hh.
  destruct (skip_space s) as [|c s']; [by subst|].
  destruct Hh as (Hc & t & ts' & -> & <-). by rewrite (proj2 (Z.eqb_neq _ _) Hc).
Qed.

Definition valid (t : token) : Prop :=
  match t with
  | TWord w => w <> [] /\ forallb word_char w = true
  | TSym c => In c symbols
  | TApp => True
  end.

Lemma lexes_valid s ts : lexes s ts -> Forall valid ts.
Proof.
  induction 1 as [|c s ts Hc H IH|c s ts Hc H IH|s ts Hs H IH|s ts H IH|w s ts Hw Hf He H IH];
    try done; apply Forall_cons_2; try done; simpl; try tauto.
  apply strchr_In in Hc. simpl in Hc. tauto.
Qed.

(** Every line is a sequence of tokens, and of one only. *)
Lemma word_span s : exists w r, s = w ++ r /\ forallb word_char w = true /\ ends r.
Proof.
  induction s as [|c s (w & r & -> & Hw & Hr)]; [by exists [], []|].
  destruct (word_char c) eqn:E; [exists (c :: w), r|exists [], (c :: w ++ r)]; simpl; by rewrite ?E, ?Hw.
Qed.

Lemma lexes_total s : Forall (fun c => c <> 0) s -> exists ts, lexes s ts.
Proof.
  induction s as [s IH] using (induction_ltof1 _ length). unfold ltof in IH. intros Hz.
  destruct s as [|c s]; [exists []; constructor|]. inversion Hz as [|? ? Hc Hs]; subst.
  assert (exists ts, lexes s ts) as [ts H] by (apply IH; [simpl; lia|done]).
  destruct (strchr whitespace c) eqn:Ews; [exists ts; by apply lx_space|].
  destruct (strchr [124; 40; 41; 59; 38; 60] c) eqn:Esym; [exists (TSym c :: ts); by apply lx_sym|].
  destruct (decide (c = 62)) as [->|E62].
  - destruct s as [|d s]; [exists (TSym 62 :: ts); by apply lx_gt|].
    destruct (decide (d = 62)) as [->|Ed]; [|exists (TSym 62 :: ts); by apply lx_gt].
    inversion Hs; subst. destruct (IH s) as [ts' H']; [simpl; lia|done|]. exists (TApp :: ts'). by apply lx_app.
  - destruct (word_span (c :: s)) as (w & r & E & Hw & Hr).
    assert (word_char c = true) as Ec.
    { apply word_char_true. apply strchr_nIn in Ews, Esym. split_and!; [done|done|]. simpl in *. lia. }
    destruct w as [|d w]; [simpl in E; subst r; simpl in Hr; congruence|].
    injection E as <- ->.
    destruct (IH r) as [ts' H']; [simpl; rewrite length_app; lia|by apply Forall_app in Hs as [_ ?]|].
    exists (TWord (c :: w) :: ts'). by apply (lx_word (c :: w)).
Qed.

Lemma kind_of_inj t t' : valid t -> valid t' -> kind_of t = kind_of t' ->
  t = t' \/ exists w w', t = TWord w /\ t' = TWord w'.
Proof. destruct t, t'; simpl; intros; subst; try (exfalso; lia); eauto. Qed.

Lemma lexes_det s ts ts' : lexes s ts -> lexes s ts' -> ts = ts'.
Proof.
  revert ts'. induction ts as [|t ts IH] in s |- *; intros ts' H H'.
  - destruct ts' as [|t' ts']; [done|]. apply lexes_skip in H'. rewrite (lexes_nil _ H) in H'.
    by apply (lexes_head []) in H'.
  - destruct ts' as [|t' ts'].
    { apply lexes_skip in H. rewrite (lexes_nil _ H') in H. by apply (lexes_head []) in H. }
    destruct (gettoken_some _ _ _ H) as (q & e & s1 & E & Hs1 & _ & _ & Hw).
    destruct (gettoken_some _ _ _ H') as (q' & e' & s1' & E' & Hs1' & _ & _ & Hw').
    rewrite E in E'. injection E' as Ek <- <- <-. rewrite (IH s1 ts' Hs1 Hs1'). f_equal.
    apply lexes_valid in H, H'. inversion H; inversion H'; subst.
    destruct (kind_of_inj t t') as [->|(w & w' & -> & ->)]; [done..|].
    destruct (Hw _ eq_refl) as [Eq _], (Hw' _ eq_refl) as [Eq' _]. f_equal. eapply app_inv_tail. by rewrite <- Eq.
Qed.

(** ** The parser on the tokens ahead of it *)

Section parser.
Context (line : list Z).

(** The parser is at [s], the rest of the line, with the tokens [ts] ahead. *)
Definition ahead (s : list Z) (ts : list token) : Prop := s `suffix_of` line /\ lexes s ts.

Definition starts (toks : list Z) (ts : list token) : bool :=
  match ts with [] => false | t :: _ => strchr toks (first_char t) end.

(** The tree [c] has the words of [a] at its pointers. *)
Inductive denotes : cmd -> ast -> Prop :=
  | dn_exec argv ws : Forall2 (fun p w => word_at line p.1 p.2 w) argv ws -> denotes (EXEC argv) (AExec ws)
  | dn_redir c a q e w mode fd : denotes c a -> word_at line q e w -> denotes (REDIR c q e mode fd) (ARedir a w mode fd)
  | dn_pipe l r a b : denotes l a -> denotes r b -> denotes (PIPE l r) (APipe a b)
  | dn_list l r a b : denotes l a -> denotes r b -> denotes (LIST l r) (AList a b)
  | dn_back c a : denotes c a -> denotes (BACK c) (ABack a).

Lemma peek_ahead toks s ts : ahead s ts ->
  exists s', peek toks s = Ok (starts toks ts) s' /\ ahead s' ts /\ (length s' <= length s)%nat.
Proof.
  intros [Hs H]. destruct (peek_spec toks s ts H) as (s' & E & H' & Hs'). exists s'.
  split_and!; [done|split; [by trans s|done]|by apply suffix_length].
Qed.

Lemma gettoken_ahead s t ts : ahead s (t :: ts) ->
  exists q e s', gettoken s = Ok (kind_of t, q, e) s' /\ ahead s' ts /\ (length s' < length s)%nat /\
    forall w, t = TWord w -> word_at line q e w.
Proof.
  intros [Hs H]. destruct (gettoken_some _ _ _ H) as (q & e & s' & E & H' & Hl & Hs' & Hw). exists q, e, s'.
  split_and!; [done|split; [by trans s|done]|done|]. intros w ->. eapply word_at_suffix; eauto.
Qed.

Lemma gettoken_end s : ahead s [] -> gettoken s = Ok (0, [], []) [].
Proof. intros [_ H]. by apply gettoken_none. Qed.

Lemma ahead_nil s ts : ahead s ts -> ahead [] [].
Proof. intros _. split; [apply suffix_nil|constructor]. Qed.

Lemma ahead_valid s t ts : ahead s (t :: ts) -> valid t.
Proof. intros [_ H%lexes_valid]. by inversion H. Qed.

(** A token that [peek] of some symbols sees is not a word. *)
Lemma word_not_symbol w toks : valid (TWord w) -> incl toks symbols -> strchr toks (hd 0 w) = false.
Proof.
  intros [Hw Hf] Hi. destruct w as [|c w]; [done|]. simpl in *. apply andb_true_iff in Hf as [Hc _].
  apply word_char_true in Hc as (_ & _ & Hc). apply strchr_nIn. auto.
Qed.

Definition is_rop (t : token) : bool := match t with TSym c => (c =? 60) || (c =? 62) | TApp => true | TWord _ => false end.
Definition no_rop (ts : list token) : Prop := match ts with [] => True | t :: _ => is_rop t = false end.

Lemma starts_redir s t ts : ahead s (t :: ts) -> starts [60; 62] (t :: ts) = is_rop t.
Proof.
  intros H%ahead_valid. destruct t as [w|c|]; simpl; [|unfold strchr; simpl; by rewrite orb_false_r|done].
  apply word_not_symbol; [done|]. intros x [<-|[<-|[]]]; simpl; tauto.
Qed.

Lemma is_rop_inv t : is_rop t = true -> exists r, t = rop_token r.
Proof.
  destruct t as [w|c|]; simpl; [done| |by exists RApp].
  rewrite orb_true_iff, !Z.eqb_eq. intros [->| ->]; [by exists RIn|by exists ROut].
Qed.

(** Steps over a [peek] or a [gettoken] of the goal; [H] is [ahead] of its
    state. *)
Ltac sh_peek H s' :=
  match goal with
  | |- context [(peek ?t ≫= _) ?s] =>
      let E := fresh "E" in let L := fresh "L" in
      let H' := fresh H in destruct (peek_ahead t s _ H) as (s' & E & H' & L); mstep E; clear E H; rename H' into H
  end.
Ltac sh_token H q e s' Hw :=
  match goal with
  | |- context [(gettoken ≫= _) ?s] =>
      let E := fresh "E" in let L := fresh "L" in
      let H' := fresh H in destruct (gettoken_ahead s _ _ H) as (q & e & s' & E & H' & L & Hw); mstep E; clear E H; rename H' into H
  end.

(** *** Redirections *)

(** What a loop leaves, from the tokens [ts]: a tree for the command built out
    of the tokens it took. *)
Definition took (ts : list token) (n : nat) (Q : list token -> list token -> ast -> Prop) (r : outcome (list Z) cmd) : Prop :=
  match r with
  | Ok c s' => exists ts1 ts2 a, ts = ts1 ++ ts2 /\ Q ts1 ts2 a /\ ahead s' ts2 /\ denotes c a /\ (length s' <= n)%nat
  | Panic _ => True
  | _ => False
  end.

Lemma took_mono ts ts' n n' (Q Q' : list token -> list token -> ast -> Prop) pre r : took ts n Q r ->
  ts' = pre ++ ts -> (n <= n')%nat -> (forall ts1 ts2 a, Q ts1 ts2 a -> Q' (pre ++ ts1) ts2 a) -> took ts' n' Q' r.
Proof.
  intros H -> Hn HQ. destruct r; simpl in *; try done. destruct H as (ts1 & ts2 & x & -> & Hq & Ha & Hd & Hl).
  exists (pre ++ ts1), ts2, x. rewrite <- app_assoc. split_and!; try done; [auto|lia].
Qed.

Definition redirs_from (a : ast) (ts1 ts2 : list token) (a' : ast) : Prop :=
  exists rs, ts1 = redir_tokens rs /\ no_rop ts2 /\ a' = foldl redirected a rs.

Definition word_redir (r : rop) (c : cmd) (q e : list Z) : cmd :=
  match r with
  | RIn => REDIR c q e O_RDONLY 0
  | ROut => REDIR c q e (Z.lor (Z.lor O_WRONLY O_CREATE) O_TRUNC) 1
  | RApp => REDIR c q e (Z.lor O_WRONLY O_CREATE) 1
  end.

Lemma word_redir_denotes r c q e a w : denotes c a -> word_at line q e w -> denotes (word_redir r c q e) (redirected a (r, w)).
Proof. destruct r; by constructor. Qed.

(** A round of the loop. *)
Lemma redirs_round n c s r w ts : ahead s (rop_token r :: TWord w :: ts) ->
  exists q e s', redirs_loop (S n) c s = redirs_loop n (word_redir r c q e) s' /\ ahead s' ts /\
    (length s' < length s)%nat /\ word_at line q e w.
Proof.
  intros H. cbn [redirs_loop]. sh_peek H s1. rewrite (starts_redir s1) by done.
  replace (is_rop (rop_token r)) with true by by destruct r. sh_token H q1 e1 s2 Hw. sh_token H q e s3 Hw'.
  exists q, e, s3. split_and!; [by destruct r|done|lia|auto].
Qed.

Lemma redirs_done n c s ts : ahead s ts -> no_rop ts ->
  exists s', redirs_loop (S n) c s = Ok c s' /\ ahead s' ts /\ (length s' <= length s)%nat.
Proof.
  intros H Hn. cbn [redirs_loop]. sh_peek H s1.
  assert (starts [60; 62] ts = false) as -> by (destruct ts; [done|by rewrite (starts_redir s1)]).
  by exists s1.
Qed.

(** A loop that goes wrong at the next token, or with no token. *)
Lemma redirs_panic n c s t ts : ahead s (t :: ts) -> is_rop t = true -> (forall w ts', ts <> TWord w :: ts') ->
  exists msg, redirs_loop (S n) c s = Panic msg.
Proof.
  intros H Ht Hw. cbn [redirs_loop]. sh_peek H s1. rewrite (starts_redir s1), Ht by done. sh_token H q1 e1 s2 Hw1.
  destruct ts as [|t2 ts].
  - rewrite (bind_ok _ _ _ _ _ (gettoken_end _ H)). by eexists.
  - pose proof (ahead_valid _ _ _ H) as Hv. sh_token H q2 e2 s3 Hw2.
    assert ((kind_of t2 =? 97) = false) as ->; [|by eexists].
    apply Z.eqb_neq. destruct t2 as [w| |]; simpl in *; [by destruct (Hw w ts)|lia|lia].
Qed.

Lemma redirs_loop_sound n c a s ts : ahead s ts -> denotes c a -> (length s < n)%nat ->
  took ts (length s) (redirs_from a) (redirs_loop n c s).
Proof.
  induction n as [|n IH] in c, a, s, ts |- *; intros H Hd Hn; [lia|].
  destruct ts as [|t ts]; [|destruct (is_rop t) eqn:Et].
  1,3: edestruct (redirs_done n c s) as (s' & -> & H' & L); [done|done|];
    eexists [], _, a; split_and!; [reflexivity|by exists []|done|done|lia].
  assert ((exists w ts', ts = TWord w :: ts') \/ forall w ts', ts <> TWord w :: ts') as [(w & ts' & ->)|Hw].
  { destruct ts as [|[w| |] ?]; eauto. }
  - apply is_rop_inv in Et as [r ->].
    destruct (redirs_round n c s r w ts' H) as (q & e & s' & -> & H' & L & Hw).
    eapply (took_mono _ _ _ _ _ _ [rop_token r; TWord w]).
    + apply (IH _ (redirected a (r, w)) s' ts'); [done|by apply word_redir_denotes|lia].
    + done.
    + lia.
    + intros ts1 ts2 a' (rs & -> & Hr & ->). by exists ((r, w) :: rs).
  - by destruct (redirs_panic n c s t ts H Et Hw) as [msg ->].
Qed.

(** Completeness: the loop takes the tokens. *)
Definition got (ts : list token) (a : ast) (n : nat) (r : outcome (list Z) cmd) : Prop :=
  exists c s', r = Ok c s' /\ ahead s' ts /\ denotes c a /\ (length s' <= n)%nat.

Lemma got_mono ts a n n' r : got ts a n r -> (n <= n')%nat -> got ts a n' r.
Proof. intros (c & s' & ? & ? & ? & ?) ?. exists c, s'. split_and!; try done. lia. Qed.

Lemma redirs_loop_complete n c a s rs ts : ahead s (redir_tokens rs ++ ts) -> no_rop ts -> denotes c a -> (length s < n)%nat ->
  got ts (foldl redirected a rs) (length s) (redirs_loop n c s).
Proof.
  induction rs as [|[r w] rs IH] in n, c, a, s |- *; intros H Hr Hd Hn; (destruct n as [|n]; [lia|]).
  - destruct (redirs_done n c s ts) as (s' & -> & H' & L); [done|done|]. by exists c, s'.
  - destruct (redirs_round n c s r w _ H) as (q & e & s' & -> & H' & L & Hw).
    eapply got_mono; [apply (IH _ _ (redirected a (r, w)))|]; [done|done|by apply word_redir_denotes|lia|lia].
Qed.

Lemma parseredirs_sound c a s ts : ahead s ts -> denotes c a -> took ts (length s) (redirs_from a) (parseredirs c s).
Proof. intros. apply redirs_loop_sound; [done|done|lia]. Qed.

Lemma parseredirs_complete c a s rs ts : ahead s (redir_tokens rs ++ ts) -> no_rop ts -> denotes c a ->
  got ts (foldl redirected a rs) (length s) (parseredirs c s).
Proof. intros. apply redirs_loop_complete; [done..|lia]. Qed.

(** *** Words *)

Definition stops : list Z := [124; 41; 38; 59].
Definition stop (ts : list token) : Prop := match ts with [] => True | t :: _ => exists c, t = TSym c /\ In c stops end.

Lemma starts_stops s t ts : ahead s (t :: ts) -> starts stops (t :: ts) = true -> stop (t :: ts).
Proof.
  intros H%ahead_valid. destruct t as [w|c|]; simpl; [|by rewrite strchr_In; eauto|done].
  rewrite word_not_symbol; [done|done|]. intros x; unfold stops, symbols; simpl; tauto.
Qed.

Lemma stop_starts t ts : stop (t :: ts) -> starts stops (t :: ts) = true.
Proof. intros (c & -> & H). by apply strchr_In. Qed.

Lemma stop_no_rop ts : stop ts -> no_rop ts.
Proof.
  destruct ts as [|t ts]; [done|]. intros (c & -> & H). simpl in *.
  destruct (Z.eqb_spec c 60), (Z.eqb_spec c 62); lia || done.
Qed.

Lemma redirected_add c q e w ws rs : word_at line q e w -> denotes c (foldl redirected (AExec ws) rs) ->
  denotes (add_arg q e c) (foldl redirected (AExec (ws ++ [w])) rs).
Proof.
  intros Hw. revert c. induction rs as [|[r v] rs IH] using rev_ind; intros c.
  - simpl. intros Hd; inversion Hd; subst. simpl. constructor. apply Forall2_app; [done|]. by constructor.
  - rewrite !foldl_snoc. destruct r; simpl; intros Hd; inversion Hd; subst; simpl; constructor; auto.
Qed.

Definition args_from (ws : list (list Z)) (rs : list (rop * list Z)) (ts1 ts2 : list token) (a : ast) : Prop :=
  exists xs, ts1 = xs ≫= item_tokens /\ (length (ws ++ (xs ≫= item_args)) < MAXARGS)%nat /\
    a = foldl redirected (AExec (ws ++ (xs ≫= item_args))) (rs ++ (xs ≫= item_redirs)).

Definition as_items (rs : list (rop * list Z)) : list item := map (fun rw => IRedir rw.1 rw.2) rs.

Lemma as_items_tokens rs : as_items rs ≫= item_tokens = redir_tokens rs.
Proof. induction rs as [|[r w] rs IH]; [done|]. cbn. f_equal. f_equal. apply IH. Qed.
Lemma as_items_args rs : as_items rs ≫= item_args = [].
Proof. induction rs as [|[r w] rs IH]; [done|]. cbn. apply IH. Qed.
Lemma as_items_redirs rs : as_items rs ≫= item_redirs = rs.
Proof. induction rs as [|[r w] rs IH]; [done|]. cbn. f_equal. apply IH. Qed.

(** The items of a word and the redirections after it. *)
Lemma args_from_step w rs ws rs0 ts1 ts2 a : args_from (ws ++ [w]) (rs0 ++ rs) ts1 ts2 a ->
  args_from ws rs0 ((TWord w :: redir_tokens rs) ++ ts1) ts2 a.
Proof.
  intros (xs & -> & Hl & ->). exists (IArg w :: as_items rs ++ xs).
  rewrite <- !app_assoc in *. cbn [mbind list_bind item_tokens item_args item_redirs app] in *.
  rewrite !bind_app, as_items_tokens, as_items_args, as_items_redirs. done.
Qed.

Lemma args_round_stop n argc ret s ts : ahead s ts -> stop ts ->
  exists s', args_loop (S n) argc ret s = Ok ret s' /\ ahead s' ts /\ (length s' <= length s)%nat.
Proof.
  intros H Hs. cbn [args_loop]. sh_peek H s1. destruct ts as [|t ts].
  - simpl. rewrite (bind_ok _ _ _ _ _ (gettoken_end _ H)). simpl. exists []. split_and!; [done| |simpl; lia].
    by eapply ahead_nil.
  - change [124; 41; 38; 59] with stops. rewrite (stop_starts t ts Hs). by exists s1.
Qed.

Lemma args_round_word n argc ret s w ts : ahead s (TWord w :: ts) ->
  exists q e s', ahead s' ts /\ (length s' < length s)%nat /\ word_at line q e w /\
    args_loop (S n) argc ret s = if (MAXARGS <=? S argc)%nat then Panic "too many args"
      else (ret ← parseredirs (add_arg q e ret); args_loop n (S argc) ret) s'.
Proof.
  intros H. cbn [args_loop]. pose proof (ahead_valid _ _ _ H) as Hv. sh_peek H s1.
  assert (starts [124; 41; 38; 59] (TWord w :: ts) = false) as ->.
  { apply word_not_symbol; [done|]. intros x; unfold symbols; simpl; tauto. }
  sh_token H q e s2 Hw. exists q, e, s2. split_and!; [done|lia|auto|]. simpl.
  by destruct argc as [|[|[|[|[|[|[|[|[|]]]]]]]]].
Qed.

Lemma args_round_bad n argc ret s t ts : ahead s (t :: ts) -> starts stops (t :: ts) = false -> (forall w, t <> TWord w) ->
  args_loop (S n) argc ret s = Panic "syntax".
Proof.
  intros H Ht Hw. cbn [args_loop]. pose proof (ahead_valid _ _ _ H) as Hv. sh_peek H s1. unfold stops in Ht. rewrite Ht.
  sh_token H q e s2 Hw2. destruct t as [w|c|]; [by destruct (Hw w)| |done].
  simpl in *. assert ((c =? 0) = false) as -> by lia. by assert ((c =? 97) = false) as -> by lia.
Qed.

(** The sequence of two parts of the parser. *)
Lemma took_bind ts n (Q Q' : list token -> list token -> ast -> Prop) (m : P cmd) (k : cmd -> P cmd) s : took ts n Q (m s) ->
  (forall c s' ts1 ts2 a, ts = ts1 ++ ts2 -> Q ts1 ts2 a -> ahead s' ts2 -> denotes c a -> (length s' <= n)%nat ->
    took ts2 (length s') (fun ts1' ts2' => Q' (ts1 ++ ts1') ts2') (k c s')) -> took ts n Q' ((m ≫= k) s).
Proof.
  intros H Hk. unfold mbind, M_bind. destruct (m s) as [c s'|msg| |]; [|done..].
  destruct H as (ts1 & ts2 & a & -> & HQ & Ha & Hd & Hl).
  eapply took_mono; [by eapply Hk|done|lia|done].
Qed.

Lemma got_bind ts ts' a a' n (m : P cmd) (k : cmd -> P cmd) s : got ts a n (m s) ->
  (forall c s', ahead s' ts -> denotes c a -> (length s' <= n)%nat -> got ts' a' n (k c s')) -> got ts' a' n ((m ≫= k) s).
Proof. intros (c & s' & E & Ha & Hd & Hl) Hk. rewrite (bind_ok _ _ _ _ _ E). by apply Hk. Qed.

Lemma args_loop_sound n ws rs ret s ts : ahead s ts -> (length s < n)%nat -> (length ws < MAXARGS)%nat ->
  denotes ret (foldl redirected (AExec ws) rs) -> took ts (length s) (args_from ws rs) (args_loop n (length ws) ret s).
Proof.
  induction n as [|n IH] in ws, rs, ret, s, ts |- *; intros H Hn Hws Hd; [lia|].
  assert (stop ts \/ (exists w ts', ts = TWord w :: ts') \/ exists t ts', ts = t :: ts' /\ starts stops ts = false /\ forall w, t <> TWord w)
    as [Hs|[(w & ts' & ->)|(t & ts' & -> & Ht & Hw)]].
  { destruct ts as [|t ts]; [by left|]. destruct (starts stops (t :: ts)) eqn:E; [left; by eapply starts_stops|right].
    destruct t as [w| |]; [left; by eexists _, _|right; eexists _, _; split_and!; [done|done|congruence]..]. }
  - destruct (args_round_stop n (length ws) ret s ts) as (s' & -> & H' & L); [done|done|].
    exists [], ts, (foldl redirected (AExec ws) rs). split_and!; try done. exists []. cbn. by rewrite !app_nil_r.
  - destruct (args_round_word n (length ws) ret s w ts') as (q & e & s' & H' & L & Hw & ->); [done|].
    destruct (Nat.leb_spec MAXARGS (S (length ws))) as [Hm|Hm]; [done|].
    eapply (took_mono ts' _ (length s') (length s)
      (fun ts1 ts2 a => args_from ws rs (TWord w :: ts1) ts2 a) _ [TWord w]); [|done|lia|done].
    eapply took_bind; [apply parseredirs_sound; [done|by apply redirected_add]|].
    intros c s2 ts1 ts2 a -> (rs' & -> & _ & ->) H2 Hd2 L2. rewrite <- foldl_app in Hd2.
    replace (S (length ws)) with (length (ws ++ [w])) by (rewrite length_app; simpl; lia).
    eapply (took_mono _ _ _ _ _ _ []);
      [apply (IH _ (rs ++ rs') _ _ _ H2); [lia|rewrite length_app; simpl; lia|exact Hd2]|done|lia|].
    intros ts1' ts2' a' Hq. by apply args_from_step in Hq.
  - by rewrite (args_round_bad n (length ws) ret s t ts').
Qed.

Lemma items_split xs : exists rs xs', xs = as_items rs ++ xs' /\ match xs' with IRedir _ _ :: _ => False | _ => True end.
Proof.
  induction xs as [|[w|r w] xs (rs & xs' & -> & H)]; [by exists [], []|by exists [], (IArg w :: as_items rs ++ xs')|].
  by exists ((r, w) :: rs), xs'.
Qed.

Lemma args_loop_complete n xs ws rs ret s ts : ahead s ((xs ≫= item_tokens) ++ ts) -> stop ts ->
  match xs with IRedir _ _ :: _ => False | _ => True end -> (length s < n)%nat ->
  (length (ws ++ (xs ≫= item_args)) < MAXARGS)%nat -> denotes ret (foldl redirected (AExec ws) rs) ->
  got ts (foldl redirected (AExec (ws ++ (xs ≫= item_args))) (rs ++ (xs ≫= item_redirs))) (length s) (args_loop n (length ws) ret s).
Proof.
  induction n as [|n IH] in xs, ws, rs, ret, s |- *; intros H Hs Hx Hn Hl Hd; [lia|].
  destruct xs as [|[w|] xs]; [| |done].
  - destruct (args_round_stop n (length ws) ret s ts) as (s' & -> & H' & L); [done|done|].
    exists ret, s'. cbn. by rewrite !app_nil_r.
  - destruct (items_split xs) as (rs' & xs' & -> & Hx').
    cbn [mbind list_bind item_tokens item_args item_redirs app] in *.
    rewrite bind_app, as_items_args in Hl |- *. rewrite bind_app, as_items_redirs. rewrite bind_app, as_items_tokens, <- app_assoc in H.
    rewrite app_nil_l in *.
    destruct (args_round_word n (length ws) ret s w _ H) as (q & e & s' & H' & L & Hw & ->).
    assert (length (ws ++ w :: (xs' ≫= item_args)) = S (length (ws ++ (xs' ≫= item_args)))) as E by (rewrite !length_app; simpl; lia).
    rewrite (proj2 (Nat.leb_gt _ _)) by (rewrite !length_app in *; simpl in *; lia).
    eapply got_mono; [|apply Nat.lt_le_incl, L].
    eapply got_bind; [eapply (parseredirs_complete _ _ _ rs'); [done| |by apply (redirected_add _ _ _ w ws rs)]|].
    { destruct xs' as [|[]]; [by apply stop_no_rop|done|done]. }
    intros c s2 H2 Hd2 L2. rewrite <- foldl_app in Hd2.
    replace (S (length ws)) with (length (ws ++ [w])) by (rewrite length_app; simpl; lia).
    specialize (IH xs' (ws ++ [w]) (rs ++ rs') c s2 H2 Hs Hx'). rewrite <- !app_assoc in IH. cbn [app] in IH.
    eapply got_mono; [apply IH; [lia|done|done]|lia].
Qed.

(** *** Lines, pipelines and blocks *)

Lemma starts_sym c s ts : ahead s ts -> In c [124; 40; 41; 59; 38] ->
  if starts [c] ts then exists ts', ts = TSym c :: ts' else forall ts', ts <> TSym c :: ts'.
Proof.
  intros H Hc. destruct ts as [|t ts]; [done|]. apply ahead_valid in H.
  assert (starts [c] (t :: ts) = true <-> t = TSym c) as Ht.
  { split; [|intros ->; simpl; apply strchr_In; simpl; tauto]. destruct t as [w|d|]; simpl.
    - rewrite word_not_symbol; [done|done|]. intros x [<-|[]]. simpl in *. tauto.
    - intros [->|[]]%strchr_In. done.
    - intros E%strchr_In. simpl in *. lia. }
  destruct (starts [c] (t :: ts)); [exists ts; by rewrite (proj1 Ht)|].
  intros ts' [= -> ->]. by discriminate (proj2 Ht).
Qed.

Definition backs_from (a : ast) (ts1 ts2 : list token) (a' : ast) : Prop :=
  exists n, ts1 = replicate n (TSym 38) /\ a' = Nat.iter n ABack a.

Lemma back_round n c s ts : ahead s (TSym 38 :: ts) ->
  exists s', back_loop (S n) c s = back_loop n (BACK c) s' /\ ahead s' ts /\ (length s' < length s)%nat.
Proof.
  intros H. cbn [back_loop]. sh_peek H s1. cbn [starts]. change (strchr [38] (first_char (TSym 38))) with true. cbv iota.
  sh_token H q e s2 Hw. exists s2. split_and!; [done|done|lia].
Qed.

Lemma back_done n c s ts : ahead s ts -> (forall ts', ts <> TSym 38 :: ts') ->
  exists s', back_loop (S n) c s = Ok c s' /\ ahead s' ts /\ (length s' <= length s)%nat.
Proof.
  intros H Ht. cbn [back_loop]. sh_peek H s1. pose proof (starts_sym 38 _ _ H ltac:(simpl; tauto)) as Hs.
  destruct (starts [38] ts); [by destruct Hs as [ts' ->]; destruct (Ht ts')|]. by exists s1.
Qed.

Lemma back_loop_sound n c a s ts : ahead s ts -> denotes c a -> (length s < n)%nat ->
  took ts (length s) (backs_from a) (back_loop n c s).
Proof.
  induction n as [|n IH] in c, a, s, ts |- *; intros H Hd Hn; [lia|].
  assert ((exists ts', ts = TSym 38 :: ts') \/ forall ts', ts <> TSym 38 :: ts') as [[ts' ->]|Ht].
  { pose proof (starts_sym 38 _ _ H ltac:(simpl; tauto)) as Hs. destruct (starts [38] ts); auto. }
  - destruct (back_round n c s ts' H) as (s' & -> & H' & L).
    eapply (took_mono _ _ _ _ _ _ [TSym 38]);
      [apply (IH _ (ABack a) s' ts'); [done|by constructor|lia]|done|lia|].
    intros ts1 ts2 a' (k & -> & ->). exists (S k). by rewrite Nat.iter_succ_r.
  - destruct (back_done n c s ts H Ht) as (s' & -> & H' & L). exists [], ts, a. split_and!; try done. by exists 0%nat.
Qed.

Lemma back_loop_complete n k c a s ts : ahead s (replicate k (TSym 38) ++ ts) -> (forall ts', ts <> TSym 38 :: ts') ->
  denotes c a -> (length s < n)%nat -> got ts (Nat.iter k ABack a) (length s) (back_loop n c s).
Proof.
  induction k as [|k IH] in n, c, a, s |- *; intros H Ht Hd Hn; (destruct n as [|n]; [lia|]).
  - destruct (back_done n c s ts H Ht) as (s' & -> & H' & L). by exists c, s'.
  - destruct (back_round n c s _ H) as (s' & -> & H' & L). rewrite Nat.iter_succ_r.
    eapply got_mono; [apply (IH n _ _ s'); [done|done|by constructor|lia]|lia].
Qed.

Abbreviation only G := (fun ts1 (_ : list token) a => G ts1 a).

Definition line_sound (f : nat) : Prop := forall s ts, ahead s ts -> (4 * length s + 4 <= f)%nat ->
  took ts (length s) (only gline) (parseline f s).
Definition pipe_sound (f : nat) : Prop := forall s ts, ahead s ts -> (4 * length s + 3 <= f)%nat ->
  took ts (length s) (only gpipe) (parsepipe f s).
Definition exec_sound (f : nat) : Prop := forall s ts, ahead s ts -> (4 * length s + 2 <= f)%nat ->
  took ts (length s) (only gexec) (parseexec f s).
Definition block_sound (f : nat) : Prop := forall s ts, ahead s (TSym 40 :: ts) -> (4 * length s + 1 <= f)%nat ->
  took (TSym 40 :: ts) (length s) (only gexec) (parseblock f s).

(** The result of a part that takes no more tokens. *)
Lemma took_ret ts n (Q : list token -> list token -> ast -> Prop) c a s : ahead s ts -> denotes c a -> (length s <= n)%nat ->
  Q [] ts a -> took ts n Q (mret (M := P) c s).
Proof. intros. by exists [], ts, a. Qed.

Lemma parseline_sound f : pipe_sound f -> line_sound f -> line_sound (S f).
Proof.
  intros Hp IH s ts H Hf. cbn [parseline]. eapply took_bind; [apply Hp; [done|lia]|].
  intros c s1 ts1 ts2 a -> Hg H1 Hd L1. rewrite gets_bind.
  eapply took_bind; [apply back_loop_sound; [done|done|lia]|].
  intros c2 s2 ts3 ts4 a2 -> (k & -> & ->) H2 Hd2 L2. sh_peek H2 s3.
  pose proof (starts_sym 59 _ _ H2 ltac:(simpl; tauto)) as Hs. destruct (starts [59] ts4).
  - destruct Hs as [ts5 ->]. sh_token H2 q e s4 Hw.
    eapply (took_mono ts5 _ (length s4) _ (fun t1 t2 x => gline (ts1 ++ replicate k (TSym 38) ++ TSym 59 :: t1) x) _ [TSym 59]);
      [|done|lia|by intros].
    eapply took_bind; [apply IH; [done|lia]|]. intros c5 s5 ts6 ts7 a5 -> Hg5 H5 Hd5 L5.
    eapply took_ret; [done|by constructor|done|]. rewrite app_nil_r. by constructor.
  - eapply took_ret; [done|done|lia|]. rewrite app_nil_r. by constructor.
Qed.

Lemma parsepipe_sound f : exec_sound f -> pipe_sound f -> pipe_sound (S f).
Proof.
  intros He IH s ts H Hf. cbn [parsepipe]. eapply took_bind; [apply He; [done|lia]|].
  intros c s1 ts1 ts2 a -> Hg H1 Hd L1. sh_peek H1 s2.
  pose proof (starts_sym 124 _ _ H1 ltac:(simpl; tauto)) as Hs. destruct (starts [124] ts2).
  - destruct Hs as [ts3 ->]. sh_token H1 q e s3 Hw.
    eapply (took_mono ts3 _ (length s3) _ (fun t1 t2 x => gpipe (ts1 ++ TSym 124 :: t1) x) _ [TSym 124]); [|done|lia|by intros].
    eapply took_bind; [apply IH; [done|lia]|]. intros c4 s4 ts4 ts5 a4 -> Hg4 H4 Hd4 L4.
    eapply took_ret; [done|by constructor|done|]. rewrite app_nil_r. by apply gp_more.
  - eapply took_ret; [done|done|lia|]. rewrite app_nil_r. by apply gp_last.
Qed.

Lemma parseexec_sound f : block_sound f -> exec_sound (S f).
Proof.
  intros Hb s ts H Hf. cbn [parseexec]. sh_peek H s1.
  pose proof (starts_sym 40 _ _ H ltac:(simpl; tauto)) as Hs. destruct (starts [40] ts).
  - destruct Hs as [ts' ->]. eapply (took_mono _ _ _ _ _ _ []); [apply Hb; [done|lia]|done|lia|done].
  - eapply (took_mono ts _ (length s1) _ (only gexec) _ []); [|done|lia|done].
    eapply took_bind; [apply parseredirs_sound; [done|by apply (dn_exec [] [])]|].
    intros c s2 ts1 ts2 a -> (rs & -> & _ & ->) H2 Hd2 L2. rewrite gets_bind.
    eapply (took_mono _ _ _ _ _ _ []); [apply (args_loop_sound (S (length s2)) [] rs c s2); [done|lia|unfold MAXARGS; simpl; lia|done]|done|lia|].
    intros t1 t2 x (xs & -> & Hl & ->). rewrite app_nil_l in *.
    pose proof (ge_simple (as_items rs ++ xs)) as Hg.
    rewrite !bind_app, as_items_args, as_items_tokens, as_items_redirs in Hg. by apply Hg.
Qed.

Lemma parseblock_sound f : line_sound f -> block_sound (S f).
Proof.
  intros Hl s ts H Hf. cbn [parseblock]. sh_peek H s1. change (starts [40] (TSym 40 :: ts)) with true. cbn [negb].
  sh_token H q e s2 Hw.
  eapply (took_mono ts _ (length s2) _ (fun t1 t2 x => gexec (TSym 40 :: t1) x) _ [TSym 40]); [|done|lia|by intros].
  eapply took_bind; [apply Hl; [done|lia]|]. intros c s3 ts1 ts2 a -> Hg H3 Hd L3. sh_peek H3 s4.
  pose proof (starts_sym 41 _ _ H3 ltac:(simpl; tauto)) as Hs. destruct (starts [41] ts2); [|done].
  destruct Hs as [ts3 ->]. cbn [negb]. sh_token H3 q5 e5 s5 Hw5.
  eapply (took_mono ts3 _ (length s5) _ _ _ [TSym 41]); [by apply parseredirs_sound|done|lia|].
  intros t1 t2 x (rs & -> & _ & ->). by constructor.
Qed.

Lemma parse_sound f : line_sound f /\ pipe_sound f /\ exec_sound f /\ block_sound f.
Proof.
  induction f as [|f (IHl & IHp & IHe & IHb)]; [split_and!; intros s ts H Hf; lia|].
  auto using parseline_sound, parsepipe_sound, parseexec_sound, parseblock_sound.
Qed.

(** What follows a part of a line of the grammar. *)
Definition follows (l : list Z) (ts : list token) : Prop := match ts with [] => True | t :: _ => exists c, t = TSym c /\ In c l end.

Lemma follows_incl l l' ts : follows l ts -> incl l l' -> follows l' ts.
Proof. destruct ts; [done|]. intros (c & -> & H) Hi. exists c. auto. Qed.

Lemma follows_starts c l s ts : follows l ts -> ahead s ts -> In c [124; 40; 41; 59; 38] -> ~ In c l -> starts [c] ts = false.
Proof.
  intros Hf Ha Hc Hn. pose proof (starts_sym c s ts Ha Hc) as Hs. destruct (starts [c] ts); [|done].
  destruct Hs as [ts' ->], Hf as (d & [= <-] & ?). done.
Qed.

Definition line_complete (ts : list token) (a : ast) : Prop := forall f s ts', ahead s (ts ++ ts') -> follows [41] ts' ->
  (4 * length s + 4 <= f)%nat -> got ts' a (length s) (parseline f s).
Definition pipe_complete (ts : list token) (a : ast) : Prop := forall f s ts', ahead s (ts ++ ts') -> follows [41; 38; 59] ts' ->
  (4 * length s + 3 <= f)%nat -> got ts' a (length s) (parsepipe f s).
Definition exec_complete (ts : list token) (a : ast) : Prop := forall f s ts', ahead s (ts ++ ts') -> follows stops ts' ->
  (4 * length s + 2 <= f)%nat -> got ts' a (length s) (parseexec f s).

Lemma got_ret ts a n c s : ahead s ts -> denotes c a -> (length s <= n)%nat -> got ts a n (mret (M := P) c s).
Proof. intros. by exists c, s. Qed.

Ltac sh_incl := let x := fresh in intros x; unfold stops; simpl; tauto.

Lemma line_last n ts a : pipe_complete ts a -> line_complete (ts ++ replicate n (TSym 38)) (Nat.iter n ABack a).
Proof.
  intros Hp f s ts' H Hf Hl. destruct f as [|f]; [lia|]. cbn [parseline]. rewrite <- app_assoc in H.
  eapply got_bind; [apply Hp; [exact H| |lia]|].
  { destruct n; [eapply follows_incl; [done|sh_incl]|]. exists 38. simpl; tauto. }
  intros c s1 H1 Hd L1. rewrite gets_bind. eapply got_mono; [|exact L1].
  eapply got_bind; [eapply back_loop_complete; [exact H1| |done|lia]|].
  { intros t ->. destruct Hf as (d & [= <-] & [|[]]). lia. }
  intros c2 s2 H2 Hd2 L2. sh_peek H2 s3. rewrite (follows_starts 59 [41] s3 ts') by (done || (simpl; lia)).
  apply got_ret; [done|done|lia].
Qed.

Lemma line_more n ts a ts2 a2 : pipe_complete ts a -> line_complete ts2 a2 ->
  line_complete (ts ++ replicate n (TSym 38) ++ TSym 59 :: ts2) (AList (Nat.iter n ABack a) a2).
Proof.
  intros Hp IH f s ts' H Hf Hl. destruct f as [|f]; [lia|]. cbn [parseline]. rewrite <- !app_assoc in H. cbn [app] in H.
  eapply got_bind; [apply Hp; [exact H| |lia]|].
  { destruct n; [exists 59|exists 38]; simpl; tauto. }
  intros c s1 H1 Hd L1. rewrite gets_bind. eapply got_mono; [|exact L1].
  eapply got_bind; [eapply back_loop_complete; [exact H1|done|done|lia]|].
  intros c2 s2 H2 Hd2 L2. sh_peek H2 s3. change (starts [59] (TSym 59 :: ts2 ++ ts')) with true. cbv iota.
  sh_token H2 q e s4 Hw. eapply (got_mono _ _ (length s4)); [|lia].
  eapply got_bind; [apply IH; [done|done|lia]|]. intros c5 s5 H5 Hd5 L5. apply got_ret; [done|by constructor|done].
Qed.

Lemma pipe_last ts a : exec_complete ts a -> pipe_complete ts a.
Proof.
  intros He f s ts' H Hf Hl. destruct f as [|f]; [lia|]. cbn [parsepipe].
  eapply got_bind; [apply He; [exact H|eapply follows_incl; [done|sh_incl]|lia]|].
  intros c s1 H1 Hd L1. sh_peek H1 s2. rewrite (follows_starts 124 _ s2 ts' Hf) by (done || (simpl; lia)).
  apply got_ret; [done|done|lia].
Qed.

Lemma pipe_more ts a ts2 a2 : exec_complete ts a -> pipe_complete ts2 a2 ->
  pipe_complete (ts ++ TSym 124 :: ts2) (APipe a a2).
Proof.
  intros He IH f s ts' H Hf Hl. destruct f as [|f]; [lia|]. cbn [parsepipe]. rewrite <- app_assoc in H. cbn [app] in H.
  eapply got_bind; [apply He; [exact H|exists 124; unfold stops; simpl; tauto|lia]|].
  intros c s1 H1 Hd L1. sh_peek H1 s2. change (starts [124] (TSym 124 :: ts2 ++ ts')) with true. cbv iota.
  sh_token H1 q e s3 Hw. eapply (got_mono _ _ (length s3)); [|lia].
  eapply got_bind; [apply IH; [done|done|lia]|]. intros c5 s5 H5 Hd5 L5. apply got_ret; [done|by constructor|done].
Qed.

Lemma items_no_paren xs s ts : ahead s ((xs ≫= item_tokens) ++ ts) -> follows stops ts -> starts [40] ((xs ≫= item_tokens) ++ ts) = false.
Proof.
  intros H Hf. destruct xs as [|x xs].
  - eapply (follows_starts 40 stops); [done|done|simpl; tauto|unfold stops; simpl; lia].
  - pose proof (starts_sym 40 _ _ H ltac:(simpl; tauto)) as Hs. destruct (starts _ _); [|done].
    destruct Hs as [ts' E]. by destruct x as [w|[] w].
Qed.

Lemma exec_simple xs : (length (xs ≫= item_args) < MAXARGS)%nat ->
  exec_complete (xs ≫= item_tokens) (foldl redirected (AExec (xs ≫= item_args)) (xs ≫= item_redirs)).
Proof.
  intros Hm f s ts' H Hf Hl. destruct f as [|f]; [lia|]. cbn [parseexec]. sh_peek H s1.
  rewrite (items_no_paren xs s1 ts' H Hf). eapply (got_mono _ _ (length s1)); [|lia].
  destruct (items_split xs) as (rs & xs' & -> & Hx).
  rewrite !bind_app, as_items_args, as_items_redirs, as_items_tokens, <- ?app_assoc, ?app_nil_l in *.
  eapply got_bind; [eapply (parseredirs_complete _ _ _ rs); [exact H| |by apply (dn_exec [] [])]|].
  { destruct xs' as [|[]]; [by apply stop_no_rop|done|done]. }
  intros c s2 H2 Hd L2. rewrite gets_bind.
  eapply got_mono; [apply (args_loop_complete _ xs' [] rs); [done|done|done|lia|done|done]|done].
Qed.

Lemma exec_block ts a rs : line_complete ts a -> exec_complete (TSym 40 :: ts ++ TSym 41 :: redir_tokens rs) (foldl redirected a rs).
Proof.
  intros Hg f s ts' H Hf Hl. destruct f as [|[|f]]; [lia|lia|]. cbn [app] in H. rewrite <- app_assoc in H.
  cbn [app] in H. cbn [parseexec]. sh_peek H s1.
  change (starts [40] _) with true. cbv iota. cbn [parseblock]. sh_peek H s2. change (starts [40] _) with true. cbn [negb].
  sh_token H q e s3 Hw. eapply (got_mono _ _ (length s3)); [|lia].
  eapply got_bind; [apply Hg; [exact H|exists 41; simpl; tauto|lia]|].
  intros c s4 H4 Hd L4. sh_peek H4 s5. change (starts [41] _) with true. cbn [negb]. sh_token H4 q6 e6 s6 Hw6.
  eapply got_mono; [apply parseredirs_complete; [exact H4|by apply stop_no_rop|done]|lia].
Qed.
End parser.

Scheme gline_min := Minimality for gline Sort Prop
  with gpipe_min := Minimality for gpipe Sort Prop
  with gexec_min := Minimality for gexec Sort Prop.
Combined Scheme grammar_ind from gline_min, gpipe_min, gexec_min.

Lemma grammar_complete line : (forall ts a, gline ts a -> line_complete line ts a) /\
  (forall ts a, gpipe ts a -> pipe_complete line ts a) /\ (forall ts a, gexec ts a -> exec_complete line ts a).
Proof.
  apply grammar_ind; intros; [by apply line_last|by apply line_more|by apply pipe_last|by apply pipe_more
    |by apply exec_simple|by apply exec_block].
Qed.

(** ** The NULs *)

(** [b] is the line [s] with its NUL and with NULs in place of some bytes that
    are not part of words. *)
Definition nulled (s b : list Z) : Prop :=
  length b = S (length s) /\
  forall i c, (s ++ [0]) !! i = Some c -> b !! i = Some c \/ (b !! i = Some 0 /\ word_char c = false).

Lemma nulled_refl s : nulled s (s ++ [0]).
Proof. split; [rewrite length_app; simpl; lia|]. auto. Qed.

(** Where a word ends. *)
Lemma word_at_end line q e w : word_at line q e w -> exists pre, line = pre ++ w ++ e /\
  exists c, (line ++ [0]) !! (length line - length e)%nat = Some c /\ word_char c = false.
Proof.
  intros (-> & Hw & Hf & He & [pre ->]). exists pre. split; [done|].
  replace (length (pre ++ w ++ e) - length e)%nat with (length (pre ++ w)) by (rewrite !length_app; lia).
  rewrite <- !app_assoc, app_assoc, lookup_app_r, Nat.sub_diag by done.
  destruct e as [|c e]; simpl in *; eauto.
Qed.

Lemma put_nul_at e b (s : list Z) : length b = S (length s) -> put_nul e b = <[(length s - length e)%nat := 0]> b.
Proof. intros E. unfold put_nul. f_equal. lia. Qed.

Lemma put_nul_nulled line q e w b : word_at line q e w -> nulled line b -> nulled line (put_nul e b).
Proof.
  intros Hw [Hl Hb]. destruct (word_at_end _ _ _ _ Hw) as (pre & E & c & Hc & Hn). rewrite (put_nul_at _ _ line) by done.
  split; [by rewrite length_insert|]. intros i d Hd.
  destruct (decide (i = (length line - length e)%nat)) as [->|Hi].
  - right. rewrite list_lookup_insert_eq by lia. split; [done|congruence].
  - rewrite list_lookup_insert_ne by done. auto.
Qed.

(** A NUL stays. *)
Definition keeps_nul (b b' : list Z) : Prop := length b' = length b /\ forall i, b !! i = Some 0 -> b' !! i = Some 0.

#[local] Instance keeps_nul_preorder : PreOrder keeps_nul.
Proof.
  split; [done|]. intros b1 b2 b3 [L1 H1] [L2 H2]. split; [congruence|auto].
Qed.

Lemma put_nul_keeps e b : keeps_nul b (put_nul e b).
Proof.
  unfold put_nul. split; [apply length_insert|]. intros i Hi.
  destruct (decide (i = (length b - 1 - length e)%nat)) as [->|Hn]; [|by rewrite list_lookup_insert_ne].
  apply list_lookup_insert_eq. by eapply lookup_lt_Some.
Qed.

Lemma nulterminate_keeps c b : keeps_nul b (nulterminate c b).
Proof.
  revert b. induction c as [argv| | | |]; intros b; simpl; [|..|done].
  - induction argv as [|[q e] argv IH] in b |- *; simpl; [done|]. etrans; [apply put_nul_keeps|apply IH].
  - etrans; [apply IHc|apply put_nul_keeps].
  - etrans; [apply IHc1|apply IHc2].
  - etrans; [apply IHc1|apply IHc2].
Qed.

Definition nul_at (b e : list Z) : Prop := b !! (length b - 1 - length e)%nat = Some 0.

Lemma nul_at_keeps b b' e : nul_at b e -> keeps_nul b b' -> nul_at b' e.
Proof. intros H [L Hk]. unfold nul_at. rewrite L. auto. Qed.

Lemma put_nul_at_end e b : b <> [] -> nul_at (put_nul e b) e.
Proof.
  intros Hb. unfold nul_at, put_nul. rewrite length_insert. apply list_lookup_insert_eq. destruct b; [done|simpl; lia].
Qed.

(** The words of [c] end in [b]. *)
Fixpoint terminated (b : list Z) (c : cmd) : Prop :=
  match c with
  | EXEC argv => Forall (fun p => nul_at b p.2) argv
  | REDIR c _ efile _ _ => terminated b c /\ nul_at b efile
  | PIPE l r | LIST l r => terminated b l /\ terminated b r
  | BACK c => terminated b c
  end.

Lemma terminated_keeps c b b' : terminated b c -> keeps_nul b b' -> terminated b' c.
Proof.
  induction c as [argv| | | |]; simpl; intros H Hk; try naive_solver eauto using nul_at_keeps.
  eapply Forall_impl; [done|]. intros p Hp. exact (nul_at_keeps _ _ _ Hp Hk).
Qed.

Lemma nulterminate_terminates c b : b <> [] -> terminated (nulterminate c b) c.
Proof.
  assert (forall b b', keeps_nul b b' -> b <> [] -> b' <> []) as Hne by (intros [|] [|] [L _] ?; done).
  revert b. induction c as [argv|c IH q e m fd|l IHl r IHr|l IHl r IHr|c IH]; intros b Hb; simpl; auto.
  - induction argv as [|[q e] argv IH] in b, Hb |- *; simpl; [by constructor|].
    pose proof (nulterminate_keeps (EXEC argv) (put_nul e b)) as Hk.
    apply Forall_cons_2; [eapply nul_at_keeps; [by apply put_nul_at_end|done]|].
    apply IH. eapply Hne; [apply put_nul_keeps|done].
  - split; [eapply terminated_keeps; [by apply IH|apply put_nul_keeps]|].
    apply put_nul_at_end. eapply Hne; [apply nulterminate_keeps|done].
  - split; [eapply terminated_keeps; [by apply IHl|apply nulterminate_keeps]|].
    apply IHr. eapply Hne; [apply nulterminate_keeps|done].
  - split; [eapply terminated_keeps; [by apply IHl|apply nulterminate_keeps]|].
    apply IHr. eapply Hne; [apply nulterminate_keeps|done].
Qed.

Lemma nulterminate_nulled line c a b : denotes line c a -> nulled line b -> nulled line (nulterminate c b).
Proof.
  intros Hd. revert b. induction Hd as [argv ws H| | | |]; intros buf Hb; simpl; eauto using put_nul_nulled.
  induction H as [|[q e] w argv ws Hw H IH] in buf, Hb |- *; simpl; [done|]. apply IH. by eapply put_nul_nulled.
Qed.

(** The string at the pointer of a word that ends in [b]. *)
Lemma cstring_app w s : Forall (fun c => c <> 0) w -> cstring (w ++ 0 :: s) = w.
Proof. induction 1 as [|c w Hc Hw IH]; simpl; [done|]. rewrite (proj2 (Z.eqb_neq _ _) Hc). by f_equal. Qed.

Lemma string_at_word line b q e w : word_at line q e w -> nulled line b -> nul_at b e -> string_at b q = w.
Proof.
  intros Hw [Hl Hb] He. destruct (word_at_end _ _ _ _ Hw) as (pre & E & _). destruct Hw as (-> & _ & Hf & _ & _).
  assert (length line = length pre + length w + length e)%nat as HL by (rewrite E, !length_app; lia).
  unfold string_at, nul_at in *. rewrite Hl in *. rewrite length_app.
  replace (S (length line) - 1 - (length w + length e))%nat with (length pre) by lia.
  replace (S (length line) - 1 - length e)%nat with (length pre + length w)%nat in He by lia.
  assert (take (length w) (drop (length pre) b) = w) as Ew.
  { apply list_eq_same_length with (length w); [done|rewrite length_take, length_drop; lia|].
    intros i x y Hi Hx Hy. rewrite lookup_take_lt, lookup_drop in Hx by done.
    destruct (Hb (length pre + i)%nat y) as [Hby|[_ Hc]].
    - rewrite E, <- app_assoc, lookup_app_r, <- app_assoc, lookup_app_l by lia. by replace (_ + _ - _)%nat with i by lia.
    - congruence.
    - rewrite forallb_forall in Hf. apply list_elem_of_lookup_2, list_elem_of_In, Hf in Hy. congruence. }
  rewrite <- (take_drop (length w) (drop (length pre) b)), Ew, drop_drop.
  erewrite drop_S by exact He. apply cstring_app. apply Forall_forall. intros x Hx.
  rewrite forallb_forall in Hf. by apply list_elem_of_In, Hf, word_char_true in Hx as [? _].
Qed.

Lemma resolve_denoted line b c a : denotes line c a -> nulled line b -> terminated b c -> resolve b c = a.
Proof.
  intros Hd Hb. induction Hd as [argv ws H| | | |]; simpl; intros Ht; f_equal; try naive_solver eauto using string_at_word.
  induction H as [|[q e] w argv ws Hw H IH]; simpl in *; [done|]. inversion Ht; subst.
  f_equal; [by eapply string_at_word|auto].
Qed.

Lemma parsecmd_tree line c a : denotes line c a -> resolve (nulterminate c (line ++ [0])) c = a.
Proof.
  intros Hd. eapply resolve_denoted; [done|eapply nulterminate_nulled; [done|apply nulled_refl]|].
  apply nulterminate_terminates. by destruct line.
Qed.

Lemma ahead_start line ts : lexes line ts -> ahead line line ts.
Proof. intros. by split; [exists []|]. Qed.

(** The end of [parsecmd], with the tokens [ts] left. *)
Definition leftovers (s : list Z) (c : cmd) : P (cmd * list Z) :=
  peek [];; rest ← gets id; match rest with [] => mret (c, nulterminate c (s ++ [0])) | _ :: _ => panic (leftovers_message rest) end.

Lemma leftovers_none line s1 c : ahead line s1 [] -> leftovers line c s1 = Ok (c, nulterminate c (line ++ [0])) [].
Proof. intros [_ H]. unfold leftovers, peek, mbind, M_bind. by rewrite (lexes_nil _ H). Qed.

Lemma leftovers_some line s1 c t ts : ahead line s1 (t :: ts) -> exists msg, leftovers line c s1 = Panic msg.
Proof.
  intros [_ H%lexes_skip]. unfold leftovers, peek, mbind, M_bind.
  pose proof (lexes_head _ _ H (skip_space_idem s1)) as Hh. destruct (skip_space s1); [done|by eexists].
Qed.

Lemma parsecmd_unfold s : parsecmd s = (parseline (parse_fuel s) ≫= leftovers s) s.
Proof. done. Qed.

Lemma parsecmd_returns s : Forall (fun c => c <> 0) s ->
  (exists c b ts, parsecmd s = Ok (c, b) [] /\ lexes s ts /\ gline ts (resolve b c)) \/ exists msg, parsecmd s = Panic msg.
Proof.
  intros Hs. destruct (lexes_total s Hs) as [ts Hts]. pose proof (ahead_start s ts Hts) as Ha.
  destruct (parse_sound s (parse_fuel s)) as [Hl _]. specialize (Hl s ts Ha ltac:(unfold parse_fuel; lia)).
  rewrite parsecmd_unfold. unfold mbind, M_bind.
  destruct (parseline (parse_fuel s) s) as [c s1|msg| |]; [|by right; eexists|done|done].
  destruct Hl as (ts1 & ts2 & a & -> & Hg & H1 & Hd & _). destruct ts2 as [|t ts2].
  - left. rewrite (leftovers_none _ _ _ H1), app_nil_r in *. eexists _, _, ts1. split; [done|].
    by rewrite (parsecmd_tree _ _ _ Hd).
  - right. exact (leftovers_some _ _ _ _ _ H1).
Qed.

Lemma parsecmd_complete s ts a : lexes s ts -> gline ts a -> exists c b, parsecmd s = Ok (c, b) [] /\ resolve b c = a.
Proof.
  intros Hl Hg. pose proof (ahead_start s ts Hl) as Ha. rewrite parsecmd_unfold.
  destruct (proj1 (grammar_complete s) ts a Hg (parse_fuel s) s []) as (c & s1 & E & H1 & Hd & _);
    [by rewrite app_nil_r|done|unfold parse_fuel; lia|].
  exists c, (nulterminate c (s ++ [0])). rewrite (bind_ok _ _ _ _ _ E), leftovers_none by done.
  split; [done|by apply parsecmd_tree].
Qed.

(** C8: the parser of the shell decides the grammar of its command lines.  On
    every line it returns or panics; it returns a tree exactly for the lines
    the grammar derives, and the tree then reads, through the NULs that
    [nulterminate] has put in the line, as the command derived.  So no NUL
    falls on a byte of a word, each word has one behind it, and no line has
    two readings. *)
Theorem parsecmd_correct (s : list Z) (Hs : Forall (fun c => c <> 0) s) :
  (forall a, (exists c b, parsecmd s = Ok (c, b) [] /\ resolve b c = a) <-> exists ts, lexes s ts /\ gline ts a) /\
  ((exists c b, parsecmd s = Ok (c, b) []) \/ exists msg, parsecmd s = Panic msg).
Proof.
  pose proof (parsecmd_returns s Hs) as Hr. split.
  - intros a. split; [|intros (ts & Hl & Hg); by eapply parsecmd_complete].
    intros (c & b & E & <-). destruct Hr as [(c' & b' & ts & E' & Hl & Hg)|(msg & E')]; [|congruence].
    rewrite E' in E. injection E as -> ->. by exists ts.
  - destruct Hr as [(c & b & ts & E & _)|?]; [left; by exists c, b|by right].
Qed.

(** ["ls|wc >x\n"] *)
Lemma parsecmd_correct_witness :
  exists ts, lexes [108; 115; 124; 119; 99; 32; 62; 120; 10] ts /\
    gline ts (APipe (AExec [[108; 115]]) (ARedir (AExec [[119; 99]]) [120] 0x601 1)).
Proof.
  apply (proj1 (parsecmd_correct [108; 115; 124; 119; 99; 32; 62; 120; 10] ltac:(by repeat constructor))).
  eexists _, _. split; [vm_compute; reflexivity|vm_compute; reflexivity].
Defined.
