(* ===== verification/ShRun.v ===== *)
(** The shell at work: [runcmd], [getcmd], [main], [fork1] and [panic] of
    src/src/user/sh.c and [gets] of src/src/user/ulib/ulib.c, as programs of
    UProg.v.

    The theorems say what the programs that the shell starts find: that each
    was named by a line of the grammar of Sh.v, has the descriptors 0, 1 and 2
    that the operators of the line give it and no others, and no children
    left over. *)

From Stdlib Require Import String.
From S2P Require Import Prelude Kernel Sysfile UPrintf ULog UProg Sh ShProps.

(** ** The program *)

Definition panic {A} (s : list Z) : prog A :=
  print 2 (str "%s" ++ nl) [VStr (Some s)];;
  Exit 1.

Definition fork1 : prog Z :=
  pid ← sys SYS_fork;
  if pid =? -1 then panic (str "fork") else mret pid.

Fixpoint runcmd (buf : list Z) (c : cmd) : prog Empty_set :=
  match c with
  | EXEC [] => Exit 1
  | EXEC ((q, e) :: argv) =>
      sys (SYS_exec (string_at buf q) (map (fun p => string_at buf p.1) ((q, e) :: argv)));;
      print 2 (str "exec %s failed" ++ nl) [VStr (Some (string_at buf q))];;
      Exit 0
  | REDIR c file _ mode fd =>
      sys (SYS_close fd);;
      r ← sys (SYS_open (string_at buf file) mode);
      if r <? 0 then
        print 2 (str "open %s failed" ++ nl) [VStr (Some (string_at buf file))];;
        Exit 1
      else runcmd buf c
  | LIST l r =>
      pid ← fork1;
      if pid =? 0 then runcmd buf l
      else
        sys SYS_wait;;
        runcmd buf r
  | PIPE l r =>
      '(ok, p) ← sys_data SYS_pipe;
      if ok <? 0 then panic (str "pipe")
      else
        let p0 := nth 0 p 0 in
        let p1 := nth 1 p 0 in
        pid ← fork1;
        if pid =? 0 then
          sys (SYS_close 1);;
          sys (SYS_dup p1);;
          sys (SYS_close p0);;
          sys (SYS_close p1);;
          runcmd buf l
        else
          pid ← fork1;
          if pid =? 0 then
            sys (SYS_close 0);;
            sys (SYS_dup p0);;
            sys (SYS_close p0);;
            sys (SYS_close p1);;
            runcmd buf r
          else
            sys (SYS_close p0);;
            sys (SYS_close p1);;
            sys SYS_wait;;
            sys SYS_wait;;
            Exit 0
  | BACK c =>
      pid ← fork1;
      if pid =? 0 then runcmd buf c else Exit 0
  end.

(** The loop of [gets], with room for [n] bytes: the bytes stored. *)
Fixpoint gets_loop (n : nat) : prog (list Z) :=
  match n with
  | O => mret []
  | S n' =>
      '(cc, d) ← sys_data (SYS_read 0 1);
      if cc <? 1 then mret []
      else
        let c := hd 0 d in
        if (c =? 10) || (c =? 13) then mret [c]
        else
          rest ← gets_loop n';
          mret (c :: rest)
  end.
Definition gets (max : nat) : prog (list Z) := gets_loop (max - 1).

Definition nbuf : nat := 100.

(** The buffer, and what is returned. *)
Definition getcmd : prog (list Z * Z) :=
  sys (SYS_write 2 (str "$ "));;
  line ← gets nbuf;
  let buf := line ++ replicate (nbuf - length line) 0 in
  if nth 0 buf 0 =? 0 then mret (buf, -1) else mret (buf, 0).

(** The loop over the console: the fourth descriptor ends it. *)
Fixpoint open_console (n : nat) : prog unit :=
  match n with
  | O => NoFuel
  | S n' =>
      fd ← sys (SYS_open (str "console") O_RDWR);
      if fd >=? 0 then
        if fd >=? 3 then sys (SYS_close fd);; mret tt
        else open_console n'
      else mret tt
  end.

(** [runcmd(parsecmd(buf))] *)
Definition run_line (line : list Z) : prog Empty_set :=
  match parsecmd line with
  | Ok (c, b) _ => runcmd b c
  | Panic msg => panic (str msg)
  | _ => NoFuel
  end.

(** A round reads a command. *)
Fixpoint main_loop (n : nat) : prog Empty_set :=
  match n with
  | O => NoFuel
  | S n' =>
      '(buf, r) ← getcmd;
      if negb (r >=? 0) then Exit 0
      else if (nth 0 buf 0 =? 99) && (nth 1 buf 0 =? 100) && (nth 2 buf 0 =? 32) then
        let buf := <[(length (cstring buf) - 1)%nat := 0]> buf in
        r ← sys (SYS_chdir (cstring (drop 3 buf)));
        if r <? 0 then
          print 2 (str "cannot cd %s" ++ nl) [VStr (Some (cstring (drop 3 buf)))];;
          main_loop n'
        else main_loop n'
      else
        pid ← fork1;
        if pid =? 0 then run_line (cstring buf)
        else
          sys SYS_wait;;
          main_loop n'
  end.

Definition main (n : nat) : prog Empty_set :=
  open_console 4;;
  main_loop n.

(** ** What the operators of a line mean

    [part a i o b i' o']: when [a] has the input [i] and the output [o], its
    part [b] has the input [i'] and the output [o'].  The sides of a pipe have
    its ends. *)
Inductive part : ast -> object -> object -> ast -> object -> object -> Prop :=
  | pt_self a i o : part a i o a i o
  | pt_in a w mode i o b i' o' : part a (Opened w mode) o b i' o' -> part (ARedir a w mode 0) i o b i' o'
  | pt_out a w mode i o b i' o' : part a i (Opened w mode) b i' o' -> part (ARedir a w mode 1) i o b i' o'
  | pt_left l r i o id b i' o' : part l i (PipeWrite id) b i' o' -> part (APipe l r) i o b i' o'
  | pt_right l r i o id b i' o' : part r (PipeRead id) o b i' o' -> part (APipe l r) i o b i' o'
  | pt_first l r i o b i' o' : part l i o b i' o' -> part (AList l r) i o b i' o'
  | pt_second l r i o b i' o' : part r i o b i' o' -> part (AList l r) i o b i' o'
  | pt_back a i o b i' o' : part a i o b i' o' -> part (ABack a) i o b i' o'.

(** Redirections are of input or output. *)
Fixpoint std_redirs (a : ast) : Prop :=
  match a with
  | AExec _ => True
  | ARedir a _ _ fd => std_redirs a /\ (fd = 0 \/ fd = 1)
  | APipe l r | AList l r => std_redirs l /\ std_redirs r
  | ABack a => std_redirs a
  end.

Definition std_fds (i o e : object) : fdtable := {[ 0%nat := i; 1%nat := o; 2%nat := e ]}.

(** The part [b] of a command line of the grammar, run by a shell with the
    descriptors [i], [o] and [e], finds the descriptors [t]. *)
Definition part_of_line (i o e : object) (b : ast) (t : fdtable) : Prop :=
  exists line ts a i' o', lexes line ts /\ gline ts a /\ part a i o b i' o' /\ t = std_fds i' o' e.

(** A program that is started is named by such a part, and has no children. *)
Definition named (i o e : object) (path : list Z) (argv : list (list Z)) (t : fdtable) (kids : list nat) : Prop :=
  part_of_line i o e (AExec argv) t /\ path = hd [] argv /\ kids = [].

(** Who waits: the shell for its one child, a list for its first command, or
    a pipe for one or both of its sides. *)
Definition waits (i o e : object) (t : fdtable) (kids : list nat) : Prop :=
  t = std_fds i o e /\ length kids = 1%nat \/
  (exists l r, part_of_line i o e (AList l r) t /\ length kids = 1%nat) \/
  (exists l r, part_of_line i o e (APipe l r) t /\ (1 <= length kids <= 2)%nat).

(** ** Proofs *)

Lemma foldl_redirected_std a rs : std_redirs a -> std_redirs (foldl redirected a rs).
Proof. revert a. induction rs as [|[[] w] rs IH]; intros a H; simpl; auto; apply IH; simpl; auto. Qed.

Lemma iter_back_std n a : std_redirs a -> std_redirs (Nat.iter n ABack a).
Proof. intros H. induction n; done. Qed.

Lemma grammar_std : (forall ts a, gline ts a -> std_redirs a) /\ (forall ts a, gpipe ts a -> std_redirs a) /\
  (forall ts a, gexec ts a -> std_redirs a).
Proof. apply grammar_ind; intros; simpl; auto using foldl_redirected_std, iter_back_std. by apply foldl_redirected_std. Qed.

Section wiring.
Context (i0 o0 e0 : object).
Abbreviation WP := (wp (named i0 o0 e0) (waits i0 o0 e0)).
Abbreviation anything := (fun _ _ _ => True).

(** The answers of the calls on the descriptors 0 to 4 are computed. *)
Ltac fd_call :=
  let H := fresh in apply wp_local; [done|]; intros ? ? ? H; inversion H; subst; clear H; cbn [ret];
  repeat match goal with
    | H : fd_of _ _ = _ |- _ => vm_compute in H; first [discriminate H | injection H as <- <-]
    | H : fdalloc _ = _ |- _ => vm_compute in H; first [discriminate H | injection H as <-]
    | H : _ \/ _ |- _ => destruct H
  end; try done.

Lemma wp_panic {A} msg (Q : A -> _) t kids : WP (panic msg) Q t kids.
Proof. apply wp_bind, wp_print. done. Qed.

Lemma wp_fork1 {A} (f : Z -> prog A) Q t kids : WP (f 0) Q t [] ->
  (forall child, (0 < child)%nat -> WP (f (Z.of_nat child)) Q t (kids ++ [child])) -> WP (fork1 ≫= f) Q t kids.
Proof.
  intros H0 H. apply wp_bind. unfold fork1. apply wp_fork; [apply wp_panic|done|].
  intros child Hc. rewrite (proj2 (Z.eqb_neq (Z.of_nat child) (-1))) by lia. by apply H.
Qed.

(** The descriptors once a pipe is made. *)
Abbreviation piped i o e id := (<[4%nat := PipeWrite id]> (<[3%nat := PipeRead id]> (std_fds i o e))).

Lemma wp_pipe {A} (f : Z * list Z -> prog A) i o e Q kids :
  (forall d, WP (f (-1, d)) Q (std_fds i o e) kids) -> (forall id, WP (f (0, [3; 4])) Q (piped i o e id) kids) ->
  WP (sys_data SYS_pipe ≫= f) Q (std_fds i o e) kids.
Proof.
  intros Hbad H. apply wp_local_data; [done|]. intros n r t' Hl.
  inversion Hl as [| | | | | |i1 j1 E1 E2| | |c r' Hc]; subst; [|done|by destruct Hc].
  vm_compute in E1. injection E1 as <-. vm_compute in E2. injection E2 as <-. apply H.
Qed.

Lemma wp_pipe_left {A} (p : prog A) i o e id Q : WP p Q (std_fds i (PipeWrite id) e) [] ->
  WP (sys (SYS_close 1);; sys (SYS_dup 4);; sys (SYS_close 3);; sys (SYS_close 4);; p) Q (piped i o e id) [].
Proof. intros H. fd_call. fd_call. fd_call. fd_call. Qed.

Lemma wp_pipe_right {A} (p : prog A) i o e id Q : WP p Q (std_fds (PipeRead id) o e) [] ->
  WP (sys (SYS_close 0);; sys (SYS_dup 3);; sys (SYS_close 3);; sys (SYS_close 4);; p) Q (piped i o e id) [].
Proof. intros H. fd_call. fd_call. fd_call. fd_call. Qed.

Lemma wp_close34 {A} (p : prog A) i o e id Q kids : WP p Q (std_fds i o e) kids ->
  WP (sys (SYS_close 3);; sys (SYS_close 4);; p) Q (piped i o e id) kids.
Proof. intros H. fd_call. fd_call. Qed.

(** The process that has started both sides. *)
Lemma wp_pipe_parent {A} l r t c1 c2 (Q : A -> _) : part_of_line i0 o0 e0 (APipe l r) t ->
  WP (sys SYS_wait;; sys SYS_wait;; Exit 0) Q t [c1; c2].
Proof.
  intros Hp. apply wp_wait; [right; right; exists l, r; split; [done|simpl; lia]|done|].
  intros k1 c k2 E. apply (f_equal length) in E. rewrite length_app in E. simpl in E.
  apply wp_wait; [right; right; exists l, r; split; [done|rewrite length_app; lia]| |done].
  intros E'. apply (f_equal length) in E'. rewrite length_app in E'. simpl in E'. lia.
Qed.

Lemma wait_one {A} (f : prog A) Q t child : waits i0 o0 e0 t [child] -> WP f Q t [] -> WP (sys SYS_wait;; f) Q t [child].
Proof.
  intros Hw H. apply wp_wait; [done|done|]. intros k1 c k2 E. destruct k1 as [|x k1]; simplify_list_eq; [done|by destruct k1].
Qed.

Lemma wp_redir0 {A} (f : Z -> prog A) i o e w mode Q kids :
  (forall t, WP (f (-1)) Q t kids) -> WP (f 0) Q (std_fds (Opened w mode) o e) kids ->
  WP (sys (SYS_close 0);; sys (SYS_open w mode) ≫= f) Q (std_fds i o e) kids.
Proof. intros Hbad H. fd_call. fd_call. Qed.

Lemma wp_redir1 {A} (f : Z -> prog A) i o e w mode Q kids :
  (forall t, WP (f (-1)) Q t kids) -> WP (f 1) Q (std_fds i (Opened w mode) e) kids ->
  WP (sys (SYS_close 1);; sys (SYS_open w mode) ≫= f) Q (std_fds i o e) kids.
Proof. intros Hbad H. fd_call. fd_call. Qed.

(** [runcmd] at a part of a line. *)
Lemma runcmd_wp buf line ts root c i o : lexes line ts -> gline ts root -> std_redirs (resolve buf c) ->
  (forall b i' o', part (resolve buf c) i o b i' o' -> part root i0 o0 b i' o') ->
  WP (runcmd buf c) anything (std_fds i o e0) [].
Proof.
  intros Hl Hg. revert i o.
  assert (forall c i o, (forall b i' o', part (resolve buf c) i o b i' o' -> part root i0 o0 b i' o') ->
    part_of_line i0 o0 e0 (resolve buf c) (std_fds i o e0)) as Hself.
  { intros c' i o Hw. exists line, ts, root, i, o. split_and!; try done. apply Hw. constructor. }
  induction c as [argv|c IH q e mode fd|l IHl r IHr|l IHl r IHr|c IH]; intros i o Hs Hw; cbn [runcmd resolve] in *.
  - destruct argv as [|[q e] argv]; [done|].
    apply wp_exec; [split_and!; [by apply (Hself (EXEC ((q, e) :: argv)))|done|done]|by apply wp_bind, wp_print].
  - destruct Hs as [Hs [->| ->]].
    + apply wp_redir0; [intros t; by apply wp_bind, wp_print|]. apply IH; [done|]. intros. by apply Hw, pt_in.
    + apply wp_redir1; [intros t; by apply wp_bind, wp_print|]. apply IH; [done|]. intros. by apply Hw, pt_out.
  - destruct Hs as [Hsl Hsr]. apply wp_pipe; [intros d; apply wp_panic|]. intros id. cbv beta iota zeta. cbn [nth Z.ltb Z.compare].
    apply wp_fork1; [apply wp_pipe_left; apply IHl; [done|]; intros; by eapply Hw, pt_left|].
    intros c1 H1. rewrite (proj2 (Z.eqb_neq (Z.of_nat c1) 0)) by lia.
    apply wp_fork1; [apply wp_pipe_right; apply IHr; [done|]; intros; by eapply Hw, pt_right|].
    intros c2 H2. rewrite (proj2 (Z.eqb_neq (Z.of_nat c2) 0)) by lia. 
    eapply wp_close34, wp_pipe_parent. by apply (Hself (PIPE l r)).
  - destruct Hs as [Hsl Hsr]. apply wp_fork1; [apply IHl; [done|]; intros; by apply Hw, pt_first|].
    intros c1 H1. rewrite (proj2 (Z.eqb_neq (Z.of_nat c1) 0)) by lia.
    apply wait_one; [right; left; eexists _, _; split; [by apply (Hself (LIST l r))|done]|]. apply IHr; [done|]. intros; by apply Hw, pt_second.
  - apply wp_fork1; [apply IH; [done|]; intros; by apply Hw, pt_back|].
    intros c1 H1. by rewrite (proj2 (Z.eqb_neq (Z.of_nat c1) 0)) by lia.
Qed.

Lemma wp_gets n (Q : list Z -> _) t kids : (forall l, Q l t kids) -> WP (gets_loop n) Q t kids.
Proof.
  revert Q. induction n as [|n IH]; intros Q HQ; [apply HQ|]. cbn [gets_loop]. apply wp_local_data; [done|].
  intros m r t' Hl. inversion Hl; subst. destruct (ret r <? 1); [apply HQ|].
  destruct ((hd 0 (data r) =? 10) || (hd 0 (data r) =? 13)); [apply HQ|]. apply wp_bind, IH. intros l. apply HQ.
Qed.

Lemma wp_getcmd {A} (f : list Z * Z -> prog A) Q t kids : (forall buf r, WP (f (buf, r)) Q t kids) -> WP (getcmd ≫= f) Q t kids.
Proof.
  intros H. apply wp_bind. unfold getcmd. apply wp_other; [done|]. intros _. apply wp_bind, wp_gets. intros l. cbv beta zeta.
  destruct (nth 0 _ 0 =? 0); apply H.
Qed.

Lemma cstring_nonzero l : Forall (fun c => c <> 0) (cstring l).
Proof.
  induction l as [|c l IH]; simpl; [constructor|]. destruct (Z.eqb_spec c 0); [constructor|by constructor].
Qed.

Lemma run_line_wp line : Forall (fun c => c <> 0) line -> WP (run_line line) anything (std_fds i0 o0 e0) [].
Proof.
  intros Hz. unfold run_line. destruct (parsecmd_returns line Hz) as [(c & b & ts & -> & Hl & Hg)|(msg & ->)]; [|apply wp_panic].
  eapply runcmd_wp; [exact Hl|exact Hg|by apply (proj1 grammar_std ts)|done].
Qed.

Lemma main_loop_wp n : WP (main_loop n) anything (std_fds i0 o0 e0) [].
Proof.
  induction n as [|n IH]; [done|]. cbn [main_loop]. apply wp_getcmd. intros buf r.
  destruct (negb (r >=? 0)); [done|]. destruct (_ && _ && _).
  - apply wp_other; [done|]. intros r'. destruct (r' <? 0); [by apply wp_bind, wp_print|done].
  - apply wp_fork1; [apply run_line_wp, cstring_nonzero|].
    intros c1 H1. rewrite (proj2 (Z.eqb_neq (Z.of_nat c1) 0)) by lia. apply wait_one; [by left|done].
Qed.

Lemma main_wp n : WP (main n) anything (std_fds i0 o0 e0) [].
Proof.
  unfold main. apply wp_bind. change (open_console 4) with (fd ← sys (SYS_open (str "console") O_RDWR);
    if fd >=? 0 then if fd >=? 3 then sys (SYS_close fd);; mret tt else open_console 3 else mret tt).
  fd_call; [|apply main_loop_wp]. fd_call. apply main_loop_wp.
Qed.
End wiring.

(** A system with a shell, process 2. *)
Definition shell_system (n : nat) (i o e : object) : system :=
  System {[ init_pid := Process (Image (str "init") [str "init"]) ∅ [2%nat]; 2%nat := Process (Run (main n)) (std_fds i o e) [] ]} 0.



(** ** A run without failures

    The programs a process and its children start when every call succeeds, a
    child is run before its parent goes on, and [n] is the number of the next
    pipe. *)
Fixpoint plan {A} (p : prog A) (t : fdtable) (n : nat) : list (list (list Z) * fdtable) * nat :=
  match p with
  | Ret _ | Exit _ | NoFuel => ([], n)
  | Call c k =>
      match c with
      | SYS_exec _ argv => ([(argv, t)], n)
      | SYS_fork =>
          let '(child, n) := plan (k (Answer 0 [])) t n in
          let '(parent, n) := plan (k (Answer 1 [])) t n in
          (child ++ parent, n)
      | SYS_wait => plan (k (Answer 1 [])) t n
      | SYS_pipe =>
          match fdalloc t with
          | Some i =>
              match fdalloc (<[i := PipeRead n]> t) with
              | Some j => plan (k (Answer 0 [Z.of_nat i; Z.of_nat j])) (<[j := PipeWrite n]> (<[i := PipeRead n]> t)) (S n)
              | None => plan (k (Answer (-1) [])) t n
              end
          | None => plan (k (Answer (-1) [])) t n
          end
      | SYS_close fd =>
          match fd_of t fd with
          | Some (i, _) => plan (k (Answer 0 [])) (delete i t) n
          | None => plan (k (Answer (-1) [])) t n
          end
      | SYS_dup fd =>
          match fd_of t fd, fdalloc t with
          | Some (_, o), Some j => plan (k (Answer (Z.of_nat j) [])) (<[j := o]> t) n
          | _, _ => plan (k (Answer (-1) [])) t n
          end
      | SYS_open path mode =>
          match fdalloc t with
          | Some j => plan (k (Answer (Z.of_nat j) [])) (<[j := Opened path mode]> t) n
          | None => plan (k (Answer (-1) [])) t n
          end
      | _ => plan (k (Answer 0 [])) t n
      end
  end.

(** The simple commands of [a] in order, with their descriptors. *)
Fixpoint commands (a : ast) (i o e : object) (n : nat) : list (list (list Z) * fdtable) * nat :=
  match a with
  | AExec [] => ([], n)
  | AExec argv => ([(argv, std_fds i o e)], n)
  | ARedir a w mode fd => if fd =? 0 then commands a (Opened w mode) o e n else commands a i (Opened w mode) e n
  | APipe l r =>
      let '(ls, n') := commands l i (PipeWrite n) e (S n) in
      let '(rs, n') := commands r (PipeRead n) o e n' in
      (ls ++ rs, n')
  | AList l r =>
      let '(ls, n) := commands l i o e n in
      let '(rs, n) := commands r i o e n in
      (ls ++ rs, n)
  | ABack a => commands a i o e n
  end.

Lemma plan_commands buf c i o e n : std_redirs (resolve buf c) ->
  plan (runcmd buf c) (std_fds i o e) n = commands (resolve buf c) i o e n.
Proof.
  revert i o n. induction c as [argv|c IH q ef mode fd|l IHl r IHr|l IHl r IHr|c IH]; intros i o n Hs; cbn [resolve std_redirs] in Hs.
  - by destruct argv as [|[q ef] argv].
  - destruct Hs as [Hs [->| ->]]; cbn; by rewrite <- IH.
  - destruct Hs as [Hl Hr]. cbn [resolve commands]. rewrite <- IHl by done.
    change (plan (runcmd buf (PIPE l r)) (std_fds i o e) n) with
      (let '(child, m) := plan (runcmd buf l) (std_fds i (PipeWrite n) e) (S n) in
       let '(parent, m') := (let '(child', m') := plan (runcmd buf r) (std_fds (PipeRead n) o e) m in (child' ++ [], m')) in
       (child ++ parent, m')).
    destruct (plan (runcmd buf l) _ _) as [ls m]. rewrite IHr by done.
    destruct (commands (resolve buf r) _ _ _ _) as [rs m']. by rewrite app_nil_r.
  - destruct Hs as [Hl Hr]. cbn [resolve commands]. rewrite <- IHl by done.
    change (plan (runcmd buf (LIST l r)) (std_fds i o e) n) with
      (let '(child, m) := plan (runcmd buf l) (std_fds i o e) n in
       let '(parent, m') := plan (runcmd buf r) (std_fds i o e) m in (child ++ parent, m')).
    destruct (plan (runcmd buf l) _ _) as [ls m]. by rewrite IHr.
  - cbn [resolve commands]. rewrite <- IH by done.
    change (plan (runcmd buf (BACK c)) (std_fds i o e) n) with
      (let '(child, m) := plan (runcmd buf c) (std_fds i o e) n in (child ++ [], m)).
    destruct (plan (runcmd buf c) _ _) as [ls m]. by rewrite app_nil_r.
Qed.

(** C29: when nothing fails, the process that runs a line starts every simple
    command of it, each once and in order, with its words as arguments and
    with the descriptors the operators around it give it: the sides of a pipe
    share one pipe, made for them, and redirections of the same descriptor
    leave the innermost in place. *)
Theorem run_line_starts line ts a i o e n : lexes line ts -> gline ts a ->
  plan (run_line line) (std_fds i o e) n = commands a i o e n.
Proof.
  intros Hl Hg. unfold run_line. destruct (parsecmd_complete line ts a Hl Hg) as (c & b & -> & <-).
  apply plan_commands. by apply (proj1 grammar_std ts).
Qed.

(** ["a|b>c;d"] *)
Lemma run_line_starts_witness :
  plan (run_line [97; 124; 98; 62; 99; 59; 100]) (std_fds (Given 0) (Given 1) (Given 2)) 0 =
  ([([[97]], std_fds (Given 0) (PipeWrite 0) (Given 2)); ([[98]], std_fds (PipeRead 0) (Opened [99] 0x601) (Given 2));
    ([[100]], std_fds (Given 0) (Given 1) (Given 2))], 1%nat).
Proof.
  destruct (parsecmd_returns [97; 124; 98; 62; 99; 59; 100] ltac:(by repeat constructor))
    as [(c & b & ts & E & Hl & Hg)|(msg & E)]; vm_compute in E; [|discriminate E]. injection E as <- <-.
  rewrite (run_line_starts _ _ _ (Given 0) (Given 1) (Given 2) 0 Hl Hg). reflexivity.
Defined.
